(* ===== verification/_CoqProject ===== *)
-Q . S2P
Prelude.v
Models.v
DisplayTypes.v
External.v
Scanning.v
GrpcScanner.v
Schema.v
BalanceDb.v
OutputsDb.v
InputsDb.v
TipBlocksDb.v
PendingDb.v
AccountsDb.v
Crypto.v
EventsDb.v
CompletedDb.v
DisplayedDb.v
PayrefDb.v
BurnProofsDb.v
WebhooksDb.v
Webhooks.v
ScanEvents.v
Subset.v
Builder.v
Processor.v
BlockProc.v
Reorg.v
InputSelector.v
FundLocker.v
Monitor.v
Manager.v
HttpScanner.v
ScanPipeline.v
Burn.v
ValidatorNode.v
HttpClient.v
History.v
Api.v
Coordinator.v
ScanSetup.v
Daemon.v
Config.v
Log.v
Cli.v
OpenDb.v
OpenTheory.v
Ledger.v
ReorgTheory.v
Wallet.v
Coins.v
OffChain.v
Linked.v
CoinsTheory.v
Spendable.v
Books.v
Locks.v
AccountTheory.v
ValidatorTheory.v
DisplayTheory.v
MonitorTheory.v
WebhookTheory.v
PaymentTheory.v
BurnTheory.v
StoreTheory.v
ApiTheory.v
ScanTheory.v
SetupTheory.v
ScanChain.v
ScannerTheory.v
HttpChain.v
ScannerTrait.v
DaemonTheory.v
CliTheory.v
