(* ===== verification/Prelude.v ===== *)
(** * A verification development for the Minotari wallet

    The repository is a Rust wallet for the Tari chain: it scans blocks for the
    outputs and spends of its accounts, keeps them in a SQLite database, follows
    chain reorganisations, selects and locks funds, sends payments and watches them
    until they are confirmed, and calls webhooks.  This development models that
    logic, from the SQL statements of [minotari/src/db] up to the scan loop over all
    accounts, as executable definitions over one state, the database, and proves what
    makes it correct.

    ** Files and what they model (paths under [minotari/src])

    - [Prelude]: machine integers, outcomes, tables, sorting, the database monad
      with its rules ([hoare], [frames], [preserves], [updates], [atomic], [runs]) and
      tactics.
    - [Models], [DisplayTypes]: [models/], the statuses and their texts, and the data
      of displayed transactions.
    - [External]: the code outside the repository as classes ([Ext], [StdOrder]), its
      documented behaviour ([ExtLaws], [StdOrderLaws]) and a concrete instance
      ([Demo]).
    - [Schema]: a record per table and the state [Db]; foreign keys.
    - [BalanceDb], [OutputsDb], [InputsDb], [TipBlocksDb], [PendingDb],
      [AccountsDb], [EventsDb], [CompletedDb], [DisplayedDb], [PayrefDb],
      [BurnProofsDb], [WebhooksDb]: the files of [db/], a definition per function.
    - [Webhooks]: [webhooks/] (trigger, sender, worker).
    - [ScanEvents], [BlockProc]: [scan/events.rs], [scan/block_event_accumulator.rs]
      and [scan/block_processor.rs].
    - [Subset], [Builder], [Processor]: [transactions/displayed_transaction_processor/].
    - [Reorg]: [scan/reorg.rs].
    - [InputSelector], [FundLocker]: [transactions/input_selector.rs],
      [transactions/fee_estimator.rs], [transactions/fund_locker.rs] and
      [tasks/unlocker.rs].
    - [Monitor], [Manager]: [transactions/monitor.rs], [transactions/manager.rs].
    - [Burn]: [transactions/burn/mod.rs], [tasks/burn_proof_worker.rs] and the handlers
      of [api/accounts/burn.rs] after their arguments are parsed.
    - [ValidatorNode]: [transactions/validator_node/] and [commands/validator_nodes.rs].
    - [Scanning], [GrpcScanner], [HttpScanner], [ScanPipeline]: the scanning library
      ([minotari-scanning/src]): its types and errors, the gRPC scanner, the HTTP
      scanner's requests, download and recovery of outputs, and the two tasks and two
      channels of its [scan_blocks].
    - [Coordinator], [ScanSetup]: [scan/coordinator.rs], [scan/scan_db_handler.rs],
      [scan/scanner_state_manager.rs], [scan/config.rs] and [scan/builder.rs]: the loop
      of a scan, and what precedes it.
    - [Crypto]: [utils/crypto.rs], [utils/fingerprint.rs], [utils/init_wallet.rs], the
      methods of an account's row in [db/accounts.rs], and the key manager builder of the
      scanning library.
    - [HttpClient]: [http/], the client of the base node.
    - [History]: [transactions/transaction_history.rs].
    - [Api]: [api/], a definition per handler, and
      [transactions/one_sided_transaction.rs].
    - [Daemon]: [daemon.rs] and the loops of [tasks/] and [webhooks/worker.rs]: the scan
      loop, the workers, the API and the shutdown as one step relation.
    - [Config], [Cli]: [config/], [cli.rs], [main.rs] and [commands/burn.rs]: the settings
      and every command, from its arguments to its output.
    - [OpenDb], [Log]: [db/mod.rs], the opening of the database and its migrations, and
      [log/], what a log line shows.
    - [Coins]: the abstract view of an account on the chain, a list of coins, and the two
      functions on it that a block and a reorganisation refine.
    - [ScannerTrait]: [minotari-scanning/src/scanning/interface.rs], the interface of a
      scanner as a class, with its laws and its two implementations.
    - [Ledger], [OffChain], [Linked], [CoinsTheory], [Spendable], [Books], [OpenTheory],
      [ReorgTheory], [Wallet], [Locks], [AccountTheory], [ValidatorTheory], [DisplayTheory],
      [MonitorTheory], [WebhookTheory], [PaymentTheory], [BurnTheory], [StoreTheory],
      [ApiTheory], [ScanTheory], [SetupTheory], [ScanChain], [ScannerTheory], [HttpChain],
      [DaemonTheory], [CliTheory]: the theorems.

    The database is the state that the parts share: the API, the scan loop, the burn
    worker, the webhook worker and the unlocker run side by side ([Daemon]), a command runs
    beside them ([Cli]), and each of their calls is a step of [Wallet.wallet_step].  A handler of [Api] calls [FundLocker], [Burn] and
    the [*Db] files; a scan ([ScanSetup], then [Coordinator]) checks for reorgs with
    [Reorg], reads a scanner ([HttpScanner], through [ScanPipeline]) and gives each
    account its blocks with [BlockProc], which calls the display processor and the
    webhooks; [Monitor] and [Burn] talk to the base node through the class [TxClient],
    of which [HttpClient.http_tx_client] is an implementation.

    ** How the code is modelled

    A function that takes a [Connection] is a computation [M Db E A]: it reads and
    writes the state and ends in a value, an error or a panic.  Statements that ran
    before an error stay in the state; [transaction] undoes them.  Integers are [Z]
    with the wrapping casts of the code written out ([as_i64], [as_u64]); additions
    on [u64] panic on overflow, as the release profile of the workspace asks.
    Timestamps are seconds, byte vectors and hashes are strings.  A table is the list
    of its rows in rowid order with its [AUTOINCREMENT] counter; unique indexes and
    foreign keys are checked by the statements that they constrain.  The logging
    macros are left out.  Library calls (JSON, hashes, keys, the branch-and-bound
    search, HTTP, HMAC) are parameters; the orders that the standard library leaves
    open (unstable sorts, hash maps) are parameters too.

    The concurrent tasks of the HTTP scanner are a step relation over the state of both
    tasks, the channels and the reader ([ScanPipeline.pipe_step]); the order in which
    parallel work finishes is a parameter of which only [CompletionLaws] are assumed.

    In [Daemon.daemon_step] a whole cycle of a task is one step, and a scan that the
    shutdown drops is one that stops at an operation it waits for.  In [Cli] the parameters
    of a command depend on its settings, which name the database file and the node.

    The fuel is that of [back_track], whose recursion is bounded by the number of
    candidates ([DisplayTheory] shows that it always returns), that of the retry loop,
    twice the number of retries ([ScannerTheory.retry_settles] shows that it is enough),
    and the number of turns of the scan loop, which in continuous mode runs until it is
    cancelled: the theorems on the loop hold for every number of turns.

    ** What the theorems show

    - [Ledger]: the journal of balance changes equals the value of the active outputs
      less that of the active spends, after every block and every rollback; the
      balance that the wallet reports is that value.
    - [Linked]: in every reachable state the rows of an account are tied to its journal
      and to the outputs they name; [chain_rollback] and [chain_handle_reorgs] hold of
      every reachable state for that reason.
    - [CoinsTheory]: in a reachable state, a batch of blocks and a reorganisation refine the
      functions of [Coins]; a wallet that followed a losing branch converges to the wallet
      of the winning one.  (The
      coins are what the chain gives; the status column, which selection reads, does not
      converge: [ReorgTheory.rollback_strands_spent_outputs].)
    - [Books]: a run of the wallet in which the scanner's blocks are valid ([honest_run]), a
      list of events that say which block, reorganisation, rollback or deletion happened to
      which account, is the run of the abstract wallet of coins with the same events; its balance is the worth of the coins the chain
      leaves unspent.  A coin that the chain reports as spent twice is debited twice.
    - [OffChain]: no other call changes a coin or the journal: what is sent shows only once
      its block is scanned.
    - [Spendable]: in every reachable state, what selection may offer, or a payment
      has locked, is a coin that the chain has not spent.
    - [OpenTheory], [Log]: opening runs the missing migrations, once, whichever library ran
      the others; what the masks show.
    - [ReorgTheory]: the fork point, and exactly what a rollback changes.
    - [Wallet]: the wallet as a state machine, and an invariant of every reachable
      state (life cycles, unique indexes, retry counters, typed status columns).
    - [AccountTheory]: a stored wallet is found and decrypted again, and stored once.
    - [Locks]: what a lock takes, that locks are disjoint, idempotent and expire, and
      what the unlocker releases.
    - [DisplayTheory]: the subset search against its specification, and that every
      balance change of a block is displayed exactly once.
    - [MonitorTheory]: the monitor takes every transaction to its next state, a function of
      the row, the height and the answers of the node.
    - [PaymentTheory]: a payment that the node refuses, or that fails before, releases its
      funds, unless it fails because there is no client for the node.
    - [WebhookTheory]: bounds of the back-off, deliveries, triggering.
    - [BurnTheory]: a burn's proof is stored before the burn is broadcast, survives its
      way through the table, and is complete only when its file is written.
    - [StoreTheory]: pruning, payment references across a reorg, deletion of an
      account.
    - [ApiTheory]: every request is a sequence of steps; a request that fails or only
      reads changes nothing; statuses, defaults and pages.
    - [ValidatorTheory]: who may lock a deposit, and what a command that succeeds records.
    - [HttpClient], [History]: what a submission sends; the history in chunks.
    - [ScanTheory]: the plan of a turn, batches as units, the loop as a sequence of
      steps of the state machine.
    - [ScanChain]: a scan whose scanner serves a chain, and whose wallet's blocks are on
      it, takes the wallet to that chain's coins and balance, and a full scan ends at the
      tip; a continuous scan processes the tip again at every poll, and fails there when
      the tip holds a payment.
    - [HttpChain], [ScannerTrait]: the HTTP scanner serves a chain if the node does, as
      [ScanChain] asks; whichever scanner is used, no block is delivered twice.
    - [SetupTheory]: where the scan of an account resumes, and the whole scan as a
      sequence of steps.
    - [ScannerTheory], [GrpcScanner]: retries end and settle on the first decisive
      answer; a page is scanned alike in every order of completion; the blocks that
      are read are consecutive blocks of the chain in every interleaving.
    - [DaemonTheory]: every interleaving of the daemon's tasks keeps the wallet's invariant;
      when the daemon ends; tasks that have ended do not come back.
    - [CliTheory]: what each command does to the database, with its arguments and on the
      account it names; every command is a sequence of steps; what locking funds writes,
      where a re-scan starts, the texts of recipients and the keys of address files.

    Theorems marked as a finding show behaviour that the code or its documentation
    does not intend, each with a concrete run.

    ** Not modelled

    The parsing of the arguments by clap, the merging of configuration sources by the config
    crate; the logging macros; the matching of paths, the extractors and the JSON codecs of
    the web framework; SQLite's execution of the migrations, whose result [Schema] is;
    the transport of HTTP requests and its retries; the construction of burn,
    validator-node and one-sided transactions and the derivation of keys by the Tari
    libraries; the generated gRPC types of the scanning library.  The requests for a
    database connection inside [FundLocker] and [Monitor] are taken to succeed.  The integration tests
    ([integration-tests/]) and the unit tests drive the program and have no logic of their
    own. *)
From stdpp Require Export base numbers list strings option sets.
From Stdlib Require Export ZArith Lia Sorting.Sorted.

(** ** Machine integers

    Rust integers are modelled by [Z].  [as_i64] and [as_u64] are the wrapping
    casts [x as i64] and [x as u64]; [u64_saturating_sub] is
    [u64::saturating_sub]; [u64_add] is [+] on [u64] in this workspace, whose
    release profile sets [overflow-checks = true] and so panics. *)
Open Scope Z_scope.

Definition two63 : Z := 9223372036854775808.
Definition two64 : Z := 18446744073709551616.
Definition u64_max : Z := two64 - 1.
Definition i64_max : Z := two63 - 1.

Definition as_u64 (z : Z) : Z := z `mod` two64.
Definition as_i64 (z : Z) : Z := (z + two63) `mod` two64 - two63.

Definition is_u64 (z : Z) : Prop := 0 <= z < two64.
Definition is_i64 (z : Z) : Prop := - two63 <= z < two63.

Definition u64_saturating_sub (a b : Z) : Z := Z.max 0 (a - b).
Definition u64_saturating_add (a b : Z) : Z := Z.min u64_max (a + b).

Lemma as_i64_id z : is_i64 z -> as_i64 z = z.
Proof.
  unfold is_i64, as_i64, two63, two64. intros H.
  rewrite Z.mod_small by lia. lia.
Qed.

Lemma as_u64_id z : is_u64 z -> as_u64 z = z.
Proof. unfold is_u64, as_u64, two64. intros H. apply Z.mod_small. lia. Qed.

Lemma as_i64_range z : is_i64 (as_i64 z).
Proof.
  unfold is_i64, as_i64, two63, two64.
  pose proof (Z.mod_pos_bound (z + 9223372036854775808) 18446744073709551616 ltac:(lia)).
  lia.
Qed.

Lemma as_u64_range z : is_u64 (as_u64 z).
Proof. unfold is_u64, as_u64, two64. apply Z.mod_pos_bound. lia. Qed.

(** Storing a [u64] in a SQLite integer column and reading it back is lossless. *)
Lemma as_u64_as_i64 z : is_u64 z -> as_u64 (as_i64 z) = z.
Proof.
  unfold is_u64, as_u64, as_i64, two63, two64. intros H.
  rewrite Zminus_mod, Zmod_mod, <- Zminus_mod.
  replace (z + 9223372036854775808 - 9223372036854775808) with z by lia.
  apply Z.mod_small. lia.
Qed.

Lemma as_i64_as_u64 z : is_i64 z -> as_i64 (as_u64 z) = z.
Proof.
  unfold is_i64, as_u64, as_i64, two63, two64. intros H.
  rewrite Zplus_mod, Zmod_mod, <- Zplus_mod.
  rewrite Z.mod_small by lia. lia.
Qed.

(** ** Outcomes of fallible code

    [Panic] is an [expect]/[unwrap] failure or an arithmetic overflow; it is
    kept apart from [Err], which callers may handle. *)
Inductive outcome (E A : Type) : Type :=
| Ok (a : A)
| Err (e : E)
| Panic (msg : string).
Arguments Ok {E A} a.
Arguments Err {E A} e.
Arguments Panic {E A} msg.

Definition outcome_bind {E A B} (r : outcome E A) (k : A -> outcome E B) : outcome E B :=
  match r with
  | Ok a => k a
  | Err e => Err e
  | Panic s => Panic s
  end.

Definition outcome_map_err {E E' A} (f : E -> E') (r : outcome E A) : outcome E' A :=
  match r with
  | Ok a => Ok a
  | Err e => Err (f e)
  | Panic s => Panic s
  end.

Definition ok_or {E A} (o : option A) (e : E) : outcome E A :=
  match o with Some a => Ok a | None => Err e end.

(** [.iter().map(f).collect::<Result<Vec<_>, _>>()]. *)
Fixpoint outcome_mapM {E A B} (f : A -> outcome E B) (l : list A) : outcome E (list B) :=
  match l with
  | [] => Ok []
  | x :: l' => outcome_bind (f x) (fun y => outcome_bind (outcome_mapM f l') (fun ys => Ok (y :: ys)))
  end.

(** [Option::is_none]. *)
Definition is_none {A} (o : option A) : bool := match o with None => true | Some _ => false end.

(** A loop over a list that threads a state and may fail. *)
Fixpoint outcome_fold {E A B} (f : B -> A -> outcome E B) (b : B) (l : list A) : outcome E B :=
  match l with
  | [] => Ok b
  | x :: l' => outcome_bind (f b x) (fun b' => outcome_fold f b' l')
  end.

(** [Vec::remove]. *)
Definition vec_remove {E A} (i : nat) (l : list A) : outcome E (list A) :=
  if (i <? length l)%nat then Ok (take i l ++ drop (S i) l) else Panic "removal index out of bounds".

Lemma outcome_bind_ok {E A B} (r : outcome E A) (k : A -> outcome E B) b :
  outcome_bind r k = Ok b <-> exists a, r = Ok a /\ k a = Ok b.
Proof. destruct r; cbn; naive_solver. Qed.

Lemma outcome_mapM_ok {E A B} (f : A -> outcome E B) l ys :
  outcome_mapM f l = Ok ys <-> Forall2 (fun x y => f x = Ok y) l ys.
Proof.
  revert ys. induction l as [|x l IH]; intros ys; cbn.
  - split; [intros [= <-]; constructor|by inversion 1].
  - rewrite outcome_bind_ok. setoid_rewrite outcome_bind_ok. split.
    + intros (y & Hy & ys' & Hys & [= <-]). constructor; [done|]. by apply IH.
    + inversion 1 as [|? y ? ys' Hy Hys]; subst. exists y. split; [done|]. exists ys'.
      split; [by apply IH|done].
Qed.

Definition u64_add {E} (a b : Z) : outcome E Z :=
  if a + b <=? u64_max then Ok (a + b) else Panic "attempt to add with overflow".

(** ** Text *)
Lemma append_empty s : s +:+ "" = s.
Proof. induction s as [|c s IH]; [done|]. exact (f_equal (String c) IH). Qed.

Definition newline : string := String (Ascii.ascii_of_nat 10) "".

(** UTF-8: a byte that does not start a character. *)
Definition is_continuation (c : Ascii.ascii) : bool :=
  let n := Ascii.N_of_ascii c in (128 <=? n)%N && (n <? 192)%N.

(** ** Sums and tables *)
Definition u64_mul {E} (a b : Z) : outcome E Z :=
  if a * b <=? u64_max then Ok (a * b) else Panic "attempt to multiply with overflow".

Definition zsum {A} (f : A -> Z) (l : list A) : Z := foldr (fun x acc => f x + acc) 0 l.
Arguments zsum : simpl never.

Lemma zsum_nil {A} (f : A -> Z) : zsum f [] = 0.
Proof. reflexivity. Qed.

Lemma zsum_cons {A} (f : A -> Z) x l : zsum f (x :: l) = f x + zsum f l.
Proof. reflexivity. Qed.

Lemma zsum_app {A} (f : A -> Z) l k : zsum f (l ++ k) = zsum f l + zsum f k.
Proof. induction l as [|x l IH]; [done|]. cbn [app]. rewrite !zsum_cons, IH. lia. Qed.

Lemma zsum_ext {A} (f g : A -> Z) l : (forall x, x ∈ l -> f x = g x) -> zsum f l = zsum g l.
Proof.
  induction l as [|x l IH]; intros H; [done|].
  rewrite !zsum_cons, (H x) by set_solver. rewrite IH; [done|]. set_solver.
Qed.

Lemma zsum_perm {A} (f : A -> Z) l k : Permutation l k -> zsum f l = zsum f k.
Proof. induction 1; rewrite ?zsum_cons in *; lia. Qed.

Lemma zsum_map {A B} (g : B -> Z) (h : A -> B) l : zsum g (map h l) = zsum (fun x => g (h x)) l.
Proof. induction l as [|x l IH]; [done|]. cbn [map]. rewrite !zsum_cons, IH. done. Qed.

Lemma zsum_nonneg {A} (f : A -> Z) l : (forall x, x ∈ l -> 0 <= f x) -> 0 <= zsum f l.
Proof.
  induction l as [|x l IH]; intros H; [done|]. rewrite zsum_cons.
  pose proof (H x ltac:(set_solver)). enough (0 <= zsum f l) by lia. apply IH. set_solver.
Qed.

(** A table is the list of its rows in [rowid] order with the value of its
    [AUTOINCREMENT] counter. *)
Record Table (R : Type) : Type := mkTable { rows : list R; seqno : Z }.
Arguments mkTable {R} rows seqno.
Arguments rows {R} t.
Arguments seqno {R} t.

Definition empty_table {R} : Table R := mkTable [] 0.

(** [SELECT ... WHERE p], [UPDATE ... SET f WHERE p], [DELETE ... WHERE p]. *)
Definition select {R} (p : R -> bool) (t : Table R) : list R := List.filter p (rows t).

Definition update_rows {R} (p : R -> bool) (f : R -> R) (l : list R) : list R :=
  map (fun r => if p r then f r else r) l.

Definition update_where {R} (p : R -> bool) (f : R -> R) (t : Table R) : Table R :=
  mkTable (update_rows p f (rows t)) (seqno t).

Definition delete_where {R} (p : R -> bool) (t : Table R) : Table R :=
  mkTable (List.filter (fun r => negb (p r)) (rows t)) (seqno t).

(** [INSERT] into a table with an [AUTOINCREMENT] key: [mk id] is the new row. *)
Definition insert_auto {R} (mk : Z -> R) (t : Table R) : Z * Table R :=
  let id := seqno t + 1 in (id, mkTable (rows t ++ [mk id]) id).

Definition insert_row {R} (r : R) (t : Table R) : Table R := mkTable (rows t ++ [r]) (seqno t).

(** [SUM]: SQLite raises an error when an integer partial sum leaves 64 bits. *)
Fixpoint sql_sum_from (acc : Z) (l : list Z) : option Z :=
  match l with
  | [] => Some acc
  | x :: l' =>
      let s := acc + x in
      if (- two63 <=? s) && (s <? two63) then sql_sum_from s l' else None
  end.

Definition sql_sum (l : list Z) : option Z := sql_sum_from 0 l.

Definition sumZ (l : list Z) : Z := zsum id l.

(** [ORDER BY]: a stable insertion sort by a boolean order. *)
Fixpoint insert_by {A} (le : A -> A -> bool) (x : A) (l : list A) : list A :=
  match l with
  | [] => [x]
  | y :: l' => if le x y then x :: y :: l' else y :: insert_by le x l'
  end.

Fixpoint sort_by {A} (le : A -> A -> bool) (l : list A) : list A :=
  match l with
  | [] => []
  | x :: l' => insert_by le x (sort_by le l')
  end.

(** [LIMIT n OFFSET k]; a negative limit is no limit in SQLite, a negative
    offset is zero. *)
Definition limit_offset {A} (n k : Z) (l : list A) : list A :=
  let l' := drop (Z.to_nat k) l in
  if n <? 0 then l' else take (Z.to_nat n) l'.

(** *** Lemmas on filters, updates and sums *)
Lemma elem_of_filter_bool {A} (p : A -> bool) (l : list A) x :
  x ∈ List.filter p l <-> x ∈ l /\ p x = true.
Proof. rewrite !list_elem_of_In. apply filter_In. Qed.

Lemma zsum_filter_add {A} (f : A -> Z) (p : A -> bool) l :
  zsum f l = zsum f (List.filter p l) + zsum f (List.filter (fun x => negb (p x)) l).
Proof.
  induction l as [|x l IH]; [done|]. cbn [List.filter]. rewrite zsum_cons, IH.
  destruct (p x); cbn [negb]; rewrite zsum_cons; lia.
Qed.

Lemma zsum_filter {A} (f : A -> Z) (p : A -> bool) l :
  zsum f (List.filter p l) = zsum (fun x => if p x then f x else 0) l.
Proof. induction l as [|x l IH]; [done|]. cbn. rewrite zsum_cons. destruct (p x); rewrite ?zsum_cons, IH; lia. Qed.

Lemma NoDup_map_const {A B} (g : A -> B) l k : NoDup (map g l) -> (forall x, x ∈ l -> g x = k) -> (length l <= 1)%nat.
Proof.
  destruct l as [|x [|y l]]; cbn; [lia|lia|]. intros Hn Hk. exfalso. apply NoDup_cons in Hn as [Hn _]. apply Hn.
  rewrite (Hk x), <- (Hk y) by set_solver. left.
Qed.

Lemma filter_filter {A} (p q : A -> bool) l :
  List.filter p (List.filter q l) = List.filter (fun x => q x && p x) l.
Proof.
  induction l as [|x l IH]; [done|]. cbn [List.filter].
  destruct (q x); cbn [andb List.filter]; [destruct (p x)|]; by rewrite ?IH.
Qed.

Lemma filter_ext_elem {A} (p q : A -> bool) l :
  (forall x, x ∈ l -> p x = q x) -> List.filter p l = List.filter q l.
Proof.
  induction l as [|x l IH]; intros H; [done|]. cbn [List.filter].
  rewrite (H x), IH by set_solver. done.
Qed.

Lemma filter_none {A} (p : A -> bool) l : (forall x, x ∈ l -> p x = false) -> List.filter p l = [].
Proof.
  induction l as [|x l IH]; intros H; [done|]. cbn [List.filter].
  rewrite (H x) by set_solver. apply IH. set_solver.
Qed.

Lemma filter_all {A} (p : A -> bool) l : (forall x, x ∈ l -> p x = true) -> List.filter p l = l.
Proof.
  induction l as [|x l IH]; intros H; [done|]. cbn [List.filter].
  rewrite (H x), IH by set_solver. done.
Qed.

Lemma filter_app_bool {A} (p : A -> bool) (l k : list A) :
  List.filter p (l ++ k) = List.filter p l ++ List.filter p k.
Proof. apply List.filter_app. Qed.

Lemma filter_Permutation_bool {A} (p : A -> bool) l k :
  Permutation l k -> Permutation (List.filter p l) (List.filter p k).
Proof.
  induction 1; cbn; repeat case_match; eauto using Permutation.
Qed.

Lemma NoDup_filter_bool {A} (p : A -> bool) (l : list A) : NoDup l -> NoDup (List.filter p l).
Proof.
  induction 1 as [|x l Hx Hl IH]; cbn; [constructor|]. destruct (p x); [|done].
  constructor; [|done]. rewrite elem_of_filter_bool. tauto.
Qed.

Lemma NoDup_map_filter {A B} (g : A -> B) (p : A -> bool) l :
  NoDup (map g l) -> NoDup (map g (List.filter p l)).
Proof.
  induction l as [|x l IH]; [done|]. cbn. intros [Hx Hn]%NoDup_cons. destruct (p x); cbn; [|auto].
  apply NoDup_cons. split; [|auto]. intros (y & Hy & Hin)%list_elem_of_fmap.
  apply Hx. rewrite Hy. apply list_elem_of_fmap_2. by apply elem_of_filter_bool in Hin as [].
Qed.

Lemma zsum_elem_le {A} (f : A -> Z) l x : (forall y, y ∈ l -> 0 <= f y) -> x ∈ l -> f x <= zsum f l.
Proof.
  induction l as [|y l IH]; intros Hn Hx; [set_solver|]. rewrite zsum_cons.
  assert (0 <= f y) by (apply Hn; left). assert (Hn' : forall z, z ∈ l -> 0 <= f z) by (intros; apply Hn; by right).
  pose proof (zsum_nonneg f l Hn'). apply elem_of_cons in Hx as [->|Hx]; [lia|].
  specialize (IH Hn' Hx). lia.
Qed.

Lemma NoDup_map_eq {A B} (g : A -> B) l x y :
  NoDup (map g l) -> x ∈ l -> y ∈ l -> g x = g y -> x = y.
Proof.
  induction l as [|z l IH]; [set_solver|]. cbn. intros [Hz Hn]%NoDup_cons Hx Hy He.
  apply elem_of_cons in Hx as [->|Hx], Hy as [->|Hy]; [done| | |auto];
    exfalso; apply Hz; [rewrite He|rewrite <- He]; by apply list_elem_of_fmap_2.
Qed.

Lemma elem_of_update_rows {R} (p : R -> bool) (f : R -> R) l r' :
  r' ∈ update_rows p f l <-> exists r, r ∈ l /\ r' = (if p r then f r else r).
Proof.
  unfold update_rows. rewrite list_elem_of_In, in_map_iff. setoid_rewrite list_elem_of_In.
  split; intros (r & H1 & H2); exists r; split; auto.
Qed.

(** Two updates by the same function are one, when a row that the first one took is
    not changed by the second. *)
Lemma update_where_twice {R} (p p' : R -> bool) (f : R -> R) (t : Table R) :
  (forall r, p r = true -> (if p' (f r) then f (f r) else f r) = f r) ->
  update_where p' f (update_where p f t) = update_where (fun r => p r || p' r) f t.
Proof.
  intros H. unfold update_where, update_rows. cbn. f_equal. rewrite map_map. apply map_ext. intros r.
  destruct (p r) eqn:E; cbn; auto.
Qed.

(** An update that keeps a projection keeps everything computed from it. *)
Lemma map_update_rows {R B} (g : R -> B) (p : R -> bool) (f : R -> R) l :
  (forall r, p r = true -> g (f r) = g r) -> map g (update_rows p f l) = map g l.
Proof.
  intros H. unfold update_rows. rewrite map_map. apply map_ext. intros r.
  destruct (p r) eqn:E; [by apply H|done].
Qed.

Lemma filter_update_rows {R} (q p : R -> bool) (f : R -> R) l :
  (forall r, p r = true -> q (f r) = q r) ->
  List.filter q (update_rows p f l) = update_rows p f (List.filter q l).
Proof.
  intros H. unfold update_rows. induction l as [|x l IH]; [done|]. cbn.
  destruct (p x) eqn:E; rewrite ?(H x E); destruct (q x); cbn; rewrite ?E, IH; done.
Qed.

Lemma zsum_update_rows {R} (g : R -> Z) (p : R -> bool) (f : R -> R) l :
  (forall r, p r = true -> g (f r) = g r) -> zsum g (update_rows p f l) = zsum g l.
Proof.
  intros H. unfold update_rows. rewrite zsum_map. apply zsum_ext. intros r _.
  destruct (p r) eqn:E; [by apply H|done].
Qed.

(** An update that makes every row it touches leave a selection. *)
Lemma filter_update_removed {R} (q p : R -> bool) (f : R -> R) l :
  (forall r, p r = true -> q (f r) = false) ->
  List.filter q (update_rows p f l) = List.filter (fun r => q r && negb (p r)) l.
Proof.
  intros H. unfold update_rows. induction l as [|x l IH]; [done|]. cbn.
  destruct (p x) eqn:E; cbn; rewrite ?(H x E), ?IH, ?andb_false_r, ?andb_true_r; done.
Qed.

(** What such an update takes out of a sum over the selection. *)
Lemma zsum_update_removed {R} (g : R -> Z) (q p : R -> bool) (f : R -> R) l :
  (forall r, p r = true -> q (f r) = false) ->
  zsum g (List.filter q (update_rows p f l))
  = zsum g (List.filter q l) - zsum g (List.filter (fun r => q r && p r) l).
Proof.
  intros H. rewrite filter_update_removed by done.
  rewrite (zsum_filter_add g p (List.filter q l)), !filter_filter. lia.
Qed.

Lemma zsum_flat_map {A B} (g : B -> Z) (f : A -> list B) l :
  zsum g (flat_map f l) = zsum (fun x => zsum g (f x)) l.
Proof. induction l as [|x l IH]; [done|]. cbn [flat_map]. by rewrite zsum_app, zsum_cons, IH. Qed.

Lemma sql_sum_from_exact l acc s : sql_sum_from acc l = Some s -> s = acc + sumZ l.
Proof.
  revert acc. induction l as [|x l IH]; intros acc H; cbn in H.
  - simplify_eq. unfold sumZ. rewrite zsum_nil. lia.
  - case_match; [|done]. apply IH in H. unfold sumZ in *. rewrite zsum_cons. unfold id at 1. lia.
Qed.

(** A SQL sum that succeeds is the mathematical sum. *)
Lemma sql_sum_exact l s : sql_sum l = Some s -> s = sumZ l.
Proof. intros H. apply sql_sum_from_exact in H. lia. Qed.

Lemma sql_sum_from_range l acc s : is_i64 acc -> sql_sum_from acc l = Some s -> is_i64 s.
Proof.
  revert acc. induction l as [|x l IH]; intros acc Ha H; cbn in H; [by simplify_eq|].
  case_match eqn:E; [|done]. eapply IH; [|done].
  apply andb_true_iff in E as [E1 E2]. rewrite Z.leb_le, Z.ltb_lt in *. done.
Qed.

Lemma sql_sum_range l s : sql_sum l = Some s -> is_i64 s.
Proof. apply sql_sum_from_range. unfold is_i64, two63. lia. Qed.

Lemma sql_sum_from_some l acc :
  0 <= acc -> (forall x, x ∈ l -> 0 <= x) -> acc + sumZ l < two63 ->
  sql_sum_from acc l = Some (acc + sumZ l).
Proof.
  unfold sumZ. revert acc. induction l as [|x l IH]; intros acc Ha Hn Hs; cbn.
  - f_equal. rewrite zsum_nil. lia.
  - rewrite zsum_cons in *. unfold id at 1 in Hs.
    assert (0 <= x) by (apply Hn; set_solver).
    assert (0 <= zsum id l) by (apply zsum_nonneg; intros; apply Hn; set_solver).
    rewrite (proj2 (Z.leb_le _ _)), (proj2 (Z.ltb_lt _ _)) by (unfold two63 in *; lia). cbn [andb].
    rewrite IH by (try lia; intros; apply Hn; set_solver). f_equal. unfold id at 2. lia.
Qed.

(** The sum of non-negative columns below [2^63] does not overflow. *)
Lemma sql_sum_some l :
  (forall x, x ∈ l -> 0 <= x) -> sumZ l < two63 -> sql_sum l = Some (sumZ l).
Proof. intros. unfold sql_sum. rewrite sql_sum_from_some; [f_equal; lia|lia|done|lia]. Qed.

(** *** Sorting *)
Lemma insert_by_perm {A} (le : A -> A -> bool) x l : Permutation (insert_by le x l) (x :: l).
Proof.
  induction l as [|y l IH]; [done|]. cbn. destruct (le x y); [done|].
  rewrite IH. apply perm_swap.
Qed.

Lemma sort_by_perm {A} (le : A -> A -> bool) l : Permutation (sort_by le l) l.
Proof. induction l as [|x l IH]; [done|]. cbn. by rewrite insert_by_perm, IH. Qed.

Lemma elem_of_sort_by {A} (le : A -> A -> bool) l x : x ∈ sort_by le l <-> x ∈ l.
Proof. by rewrite sort_by_perm. Qed.

Lemma length_sort_by {A} (le : A -> A -> bool) l : length (sort_by le l) = length l.
Proof. apply Permutation_length, sort_by_perm. Qed.

Lemma insert_by_sorted {A} (le : A -> A -> bool) x l :
  (forall a b, le a b = false -> le b a = true) ->
  (forall a b c, le a b = true -> le b c = true -> le a c = true) ->
  StronglySorted (fun a b => le a b = true) l ->
  StronglySorted (fun a b => le a b = true) (insert_by le x l).
Proof.
  intros Ht Htr. induction 1 as [|y l Hs IH Hf]; cbn; [repeat constructor|].
  destruct (le x y) eqn:E.
  - constructor; [by constructor|]. constructor; [done|].
    rewrite Forall_forall in *. eauto.
  - constructor; [done|]. rewrite Forall_forall in *. intros z Hz.
    rewrite insert_by_perm in Hz. set_unfold in Hz. destruct Hz as [->|Hz]; eauto.
Qed.

(** Sorting by a total transitive boolean order gives a sorted list. *)
Lemma sort_by_sorted {A} (le : A -> A -> bool) l :
  (forall a b, le a b = false -> le b a = true) ->
  (forall a b c, le a b = true -> le b c = true -> le a c = true) ->
  StronglySorted (fun a b => le a b = true) (sort_by le l).
Proof. intros. induction l as [|x l IH]; cbn; [constructor|]. by apply insert_by_sorted. Qed.

(** ** The database monad

    [M S E A]: a computation over a state [S] (the database), which may fail
    with [E].  The state is returned whatever the outcome, because statements
    that ran before an error stay in the database unless a transaction undoes
    them. *)
Definition M (S E A : Type) : Type := S -> outcome E A * S.

Definition ret {S E A} (a : A) : M S E A := fun s => (Ok a, s).
Definition throw {S E A} (e : E) : M S E A := fun s => (Err e, s).
Definition panic {S E A} (msg : string) : M S E A := fun s => (Panic msg, s).

Definition bind {S E A B} (m : M S E A) (k : A -> M S E B) : M S E B := fun s =>
  match m s with
  | (Ok a, s') => k a s'
  | (Err e, s') => (Err e, s')
  | (Panic p, s') => (Panic p, s')
  end.

Definition map_err {S E E' A} (f : E -> E') (m : M S E A) : M S E' A := fun s =>
  let '(r, s') := m s in (outcome_map_err f r, s').

(** [lift r] is [r?]. *)
Definition lift {S E A} (r : outcome E A) : M S E A := fun s => (r, s).

Definition gets {S E A} (f : S -> A) : M S E A := fun s => (Ok (f s), s).
Definition modify {S E} (f : S -> S) : M S E unit := fun s => (Ok tt, f s).

(** A transaction: an error or panic before [commit] drops the transaction,
    which rolls the database back. *)
Definition transaction {S E A} (m : M S E A) : M S E A := fun s =>
  match m s with
  | (Ok a, s') => (Ok a, s')
  | (Err e, _) => (Err e, s)
  | (Panic p, _) => (Panic p, s)
  end.

(** Run [m] and hand its error to the caller as a value ([match f() { Ok.. Err.. }]). *)
Definition attempt {S E A} (m : M S E A) : M S E (outcome E A) := fun s =>
  match m s with
  | (Ok a, s') => (Ok (Ok a), s')
  | (Err e, s') => (Ok (Err e), s')
  | (Panic p, s') => (Panic p, s')
  end.

Declare Scope db_scope.
Delimit Scope db_scope with db.
Notation "'let!' x ':=' m 'in' k" := (bind m (fun x => k))
  (at level 10, x pattern, m at level 200, k at level 200,
   format "'[v' 'let!'  x  ':='  m  'in' '/' k ']'") : db_scope.
Notation "m ;;; k" := (bind m (fun _ => k)) (at level 100, right associativity) : db_scope.
Open Scope db_scope.

Fixpoint for_each {S E A} (f : A -> M S E unit) (l : list A) : M S E unit :=
  match l with
  | [] => ret tt
  | x :: l' => f x ;;; for_each f l'
  end.

(** A loop that accumulates a result. *)
Fixpoint fold_m {S E A B} (f : B -> A -> M S E B) (b : B) (l : list A) : M S E B :=
  match l with
  | [] => ret b
  | x :: l' => let! b' := f b x in fold_m f b' l'
  end.

Definition when {S E} (c : bool) (m : M S E unit) : M S E unit := if c then m else ret tt.

(** The outcome of a run, when it is a success. *)
Definition is_ok {E A} (r : outcome E A) : bool := match r with Ok _ => true | _ => false end.
Definition result_or {E A} (a : A) (r : outcome E A) : A := match r with Ok x => x | _ => a end.

Lemma outcome_ok {E A} (a : A) (r : outcome E A) : is_ok r = true -> r = Ok (result_or a r).
Proof. by destruct r. Qed.

Lemma run_ok {S E A} (a : A) (r : outcome E A * S) :
  is_ok (fst r) = true -> r = (Ok (result_or a (fst r)), snd r).
Proof. by destruct r as [[] s]. Qed.

Lemma run_done {S E} (r : outcome E unit * S) : is_ok (fst r) = true -> r = (Ok tt, snd r).
Proof. by destruct r as [[[]| |] s]. Qed.

(** The error of a run, when it fails. *)
Definition is_err {E A} (r : outcome E A) : bool := match r with Err _ => true | _ => false end.
Definition error_or {E A} (e : E) (r : outcome E A) : E := match r with Err e' => e' | _ => e end.

Lemma run_err {S E A} (e : E) (r : outcome E A * S) :
  is_err (fst r) = true -> r = (Err (error_or e (fst r)), snd r).
Proof. by destruct r as [[] s]. Qed.

Lemma is_err_no_panic {E A} (r : outcome E A) : is_err r = true -> forall msg, r <> Panic msg.
Proof. by destruct r. Qed.

(** *** Reasoning about computations

    [hoare P m Q]: from a state with [P], if [m] succeeds its result and state
    satisfy [Q].  [frames g m]: whatever its outcome, [m] leaves the
    observation [g] of the state as it was. *)
Definition hoare {S E A} (P : S -> Prop) (m : M S E A) (Q : A -> S -> Prop) : Prop :=
  forall s a s', P s -> m s = (Ok a, s') -> Q a s'.

Definition frames {S E A X} (g : S -> X) (m : M S E A) : Prop := forall s, g (snd (m s)) = g s.

(** [preserves P m]: [m] keeps [P] whatever its outcome. *)
Definition preserves {S E A} (P : S -> Prop) (m : M S E A) : Prop := forall s, P s -> P (snd (m s)).

Create HintDb dbm.
#[export] Hint Constants Opaque : dbm.
#[export] Hint Variables Opaque : dbm.

Section Rules.
Context {S E : Type}.

Lemma bind_ok_inv {A B} (m : M S E A) (k : A -> M S E B) s b s' :
  bind m k s = (Ok b, s') -> exists a s1, m s = (Ok a, s1) /\ k a s1 = (Ok b, s').
Proof. unfold bind. destruct (m s) as [[] ?]; naive_solver. Qed.

Lemma bind_err_inv {A B} (m : M S E A) (k : A -> M S E B) s e s' :
  bind m k s = (Err e, s') -> m s = (Err e, s') \/ exists a s1, m s = (Ok a, s1) /\ k a s1 = (Err e, s').
Proof. unfold bind. destruct (m s) as [[] ?]; naive_solver. Qed.

Lemma lift_ok_inv {A} (r : outcome E A) a (s s' : S) : lift r s = (Ok a, s') -> r = Ok a /\ s' = s.
Proof. unfold lift. intros H. by simplify_eq. Qed.

Lemma map_err_ok_inv {E' A} (f : E -> E') (m : M S E A) s a s' : map_err f m s = (Ok a, s') -> m s = (Ok a, s').
Proof. unfold map_err. destruct (m s) as [[] ?]; naive_solver. Qed.

Lemma bind_lift_ok {A B} (a : A) (k : A -> M S E B) : bind (lift (Ok a)) k = k a.
Proof. reflexivity. Qed.

Lemma preserves_ret {A} (P : S -> Prop) (a : A) : preserves P (ret (E := E) a).
Proof. by intros s H. Qed.
Lemma preserves_throw {A} (P : S -> Prop) (e : E) : preserves P (throw (A := A) e).
Proof. by intros s H. Qed.
Lemma preserves_panic {A} (P : S -> Prop) msg : preserves P (panic (E := E) (A := A) msg).
Proof. by intros s H. Qed.
Lemma preserves_lift {A} (P : S -> Prop) (r : outcome E A) : preserves P (lift r).
Proof. by intros s H. Qed.
Lemma preserves_gets {A} (P : S -> Prop) (f : S -> A) : preserves P (gets (E := E) f).
Proof. by intros s H. Qed.
Lemma preserves_modify (P : S -> Prop) (f : S -> S) :
  (forall s, P s -> P (f s)) -> preserves P (modify (E := E) f).
Proof. by intros H s Hs; apply H. Qed.
Lemma preserves_bind {A B} (P : S -> Prop) (m : M S E A) (k : A -> M S E B) :
  preserves P m -> (forall a, preserves P (k a)) -> preserves P (bind m k).
Proof.
  intros Hm Hk s Hs. unfold bind. specialize (Hm s Hs).
  destruct (m s) as [[] ?]; cbn in *; [by apply Hk|done|done].
Qed.
(** When what a statement reads satisfies [R] on states with [P]. *)
Lemma preserves_bind_read {A B} (P : S -> Prop) (R : A -> Prop) (m : M S E A) (k : A -> M S E B) :
  preserves P m -> (forall s a s', P s -> m s = (Ok a, s') -> R a) ->
  (forall a, R a -> preserves P (k a)) -> preserves P (bind m k).
Proof.
  intros Hm Hr Hk s Hs. unfold bind. specialize (Hm s Hs).
  destruct (m s) as [[a| |] s'] eqn:E0; cbn in *; [|done|done]. apply Hk; [|done]. by apply (Hr s a s').
Qed.
Lemma preserves_map_err {E' A} (P : S -> Prop) (f : E -> E') (m : M S E A) :
  preserves P m -> preserves P (map_err f m).
Proof. intros Hm s Hs. unfold map_err. specialize (Hm s Hs). by destruct (m s). Qed.
Lemma preserves_attempt {A} (P : S -> Prop) (m : M S E A) :
  preserves P m -> preserves P (attempt m).
Proof. intros Hm s Hs. unfold attempt. specialize (Hm s Hs). by destruct (m s) as [[] ?]. Qed.
Lemma preserves_transaction {A} (P : S -> Prop) (m : M S E A) :
  preserves P m -> preserves P (transaction m).
Proof. intros Hm s Hs. unfold transaction. specialize (Hm s Hs). by destruct (m s) as [[] ?]. Qed.
Lemma preserves_for_each {A} (P : S -> Prop) (f : A -> M S E unit) l :
  (forall x, x ∈ l -> preserves P (f x)) -> preserves P (for_each f l).
Proof.
  induction l as [|x l IH]; intros H; cbn; [apply preserves_ret|].
  apply preserves_bind; [apply H; set_solver|]. intros _. apply IH. set_solver.
Qed.
Lemma preserves_fold_m {A B} (P : S -> Prop) (f : B -> A -> M S E B) b l :
  (forall b x, x ∈ l -> preserves P (f b x)) -> preserves P (fold_m f b l).
Proof.
  revert b. induction l as [|x l IH]; intros b H; cbn; [apply preserves_ret|].
  apply preserves_bind; [apply H; set_solver|]. intros b'. apply IH. set_solver.
Qed.
Lemma preserves_when (P : S -> Prop) c (m : M S E unit) :
  preserves P m -> preserves P (when c m).
Proof. destruct c; [done|]. intros _. apply preserves_ret. Qed.

Lemma frames_preserves {A X} (g : S -> X) (m : M S E A) :
  (forall x, preserves (fun s => g s = x) m) -> frames g m.
Proof. intros H s. exact (H (g s) s eq_refl). Qed.
Lemma preserves_frames {A X} (g : S -> X) (m : M S E A) x :
  frames g m -> preserves (fun s => g s = x) m.
Proof. intros H s <-. apply H. Qed.
Lemma frames_ok {A X} (g : S -> X) (m : M S E A) s r s' :
  frames g m -> m s = (r, s') -> g s' = g s.
Proof. intros H Hm. specialize (H s). by rewrite Hm in H. Qed.

Lemma transaction_not_ok {A} (m : M S E A) s r s' :
  transaction m s = (r, s') -> (forall a, r <> Ok a) -> s' = s.
Proof. unfold transaction. destruct (m s) as [[] ?]; naive_solver. Qed.
Lemma transaction_ok {A} (m : M S E A) s a s' :
  transaction m s = (Ok a, s') <-> m s = (Ok a, s').
Proof. unfold transaction. destruct (m s) as [[] ?]; naive_solver. Qed.

(** Rules for successful runs. *)
Lemma hoare_ret {A} (P : S -> Prop) (a : A) (Q : A -> S -> Prop) :
  (forall s, P s -> Q a s) -> hoare P (ret (E := E) a) Q.
Proof. intros H s a' s' Hs [= <- <-]. auto. Qed.
Lemma hoare_bind {A B} (P : S -> Prop) (Q : A -> S -> Prop) (R : B -> S -> Prop)
    (m : M S E A) (k : A -> M S E B) :
  hoare P m Q -> (forall a, hoare (Q a) (k a) R) -> hoare P (bind m k) R.
Proof. intros Hm Hk s b s' Hs (a & s1 & H1 & H2)%bind_ok_inv. eapply Hk; [|done]. by eapply Hm. Qed.
Lemma hoare_conseq {A} (P P' : S -> Prop) (Q Q' : A -> S -> Prop) (m : M S E A) :
  hoare P' m Q' -> (forall s, P s -> P' s) -> (forall a s, Q' a s -> Q a s) -> hoare P m Q.
Proof. intros H HP HQ s a s' Hs Hm. apply HQ. eapply H; [|done]. auto. Qed.
Lemma hoare_preserves {A} (P : S -> Prop) (m : M S E A) : preserves P m -> hoare P m (fun _ => P).
Proof. intros H s a s' Hs Hm. specialize (H s Hs). by rewrite Hm in H. Qed.
Lemma hoare_for_each {A} (I : list A -> S -> Prop) (f : A -> M S E unit) l :
  (forall x l, hoare (I (x :: l)) (f x) (fun _ => I l)) -> hoare (I l) (for_each f l) (fun _ => I []).
Proof.
  intros H. induction l as [|x l IH]; cbn; [by apply hoare_ret|].
  eapply hoare_bind; [apply H|]. intros ?. apply IH.
Qed.
Lemma hoare_fold_m {A B} (I : S -> Prop) (f : B -> A -> M S E B) b l :
  (forall b x, x ∈ l -> hoare I (f b x) (fun _ => I)) -> hoare I (fold_m f b l) (fun _ => I).
Proof.
  revert b. induction l as [|x l IH]; intros b H; cbn; [by apply hoare_ret|].
  eapply hoare_bind; [apply H; left|]. intros b'. apply IH. intros. apply H. by right.
Qed.
(** One turn of a loop establishes [Q], and the others keep it. *)
Lemma hoare_fold_m_elem {A B} (Q : S -> Prop) (f : B -> A -> M S E B) l x :
  x ∈ l -> (forall b, hoare (fun _ => True) (f b x) (fun _ => Q)) ->
  (forall b y, preserves Q (f b y)) -> forall b, hoare (fun _ => True) (fold_m f b l) (fun _ => Q).
Proof.
  induction l as [|y l IH]; intros Hx Hq Hp b; [set_solver|]. cbn.
  intros s r s' _ (b' & s1 & H1 & H2)%bind_ok_inv. apply elem_of_cons in Hx as [->|Hx].
  - eapply (hoare_fold_m Q); [intros; by apply hoare_preserves|by apply (Hq b s b' s1)|exact H2].
  - by eapply (IH Hx Hq Hp).
Qed.
Lemma hoare_map_err {E' A} (f : E -> E') (P : S -> Prop) (m : M S E A) (Q : A -> S -> Prop) :
  hoare P m Q -> hoare P (map_err f m) Q.
Proof.
  intros H s a s' Hs Hm. unfold map_err in Hm. destruct (m s) as [[] ?] eqn:Em; cbn in Hm; simplify_eq.
  by eapply H.
Qed.
Lemma hoare_transaction {A} (P : S -> Prop) (m : M S E A) (Q : A -> S -> Prop) :
  hoare P m Q -> hoare P (transaction m) Q.
Proof. intros H s a s' Hs Hm. exact (H s a s' Hs (proj1 (transaction_ok m s a s') Hm)). Qed.
End Rules.

(** [updates g f m]: a success of [m] takes the observation [g] of the state
    through [f].  In a sequence, the statements around the one that updates [g]
    frame it. *)
Definition updates {S E A X} (g : S -> X) (f : X -> X) (m : M S E A) : Prop :=
  forall s a s', m s = (Ok a, s') -> g s' = f (g s).

Section Updates.
Context {S E X : Type} (g : S -> X) (f : X -> X).

Lemma updates_before {A B} (m : M S E A) (k : A -> M S E B) :
  frames g m -> (forall a, updates g f (k a)) -> updates g f (bind m k).
Proof.
  intros Hm Hk s b s' (a & s1 & H1 & H2)%bind_ok_inv. specialize (Hm s). rewrite H1 in Hm.
  rewrite (Hk _ _ _ _ H2). by f_equal.
Qed.
Lemma updates_here {A B} (m : M S E A) (k : A -> M S E B) :
  updates g f m -> (forall a, frames g (k a)) -> updates g f (bind m k).
Proof.
  intros Hm Hk s b s' (a & s1 & H1 & H2)%bind_ok_inv. specialize (Hk a s1). rewrite H2 in Hk.
  rewrite <- (Hm _ _ _ H1). done.
Qed.
Lemma updates_map_err {E' A} (h : E -> E') (m : M S E A) : updates g f m -> updates g f (map_err h m).
Proof.
  intros Hm s a s' H. unfold map_err in H. destruct (m s) as [[] ?] eqn:Em; cbn in H; simplify_eq.
  by apply (Hm s a).
Qed.
Lemma updates_modify (h : S -> S) : (forall s, g (h s) = f (g s)) -> updates (E := E) g f (modify h).
Proof. intros Hh s a s' Hm. injection Hm as <- <-. apply Hh. Qed.
Lemma updates_transaction {A} (m : M S E A) : updates g f m -> updates g f (transaction m).
Proof. intros Hm s a s' H. exact (Hm s a s' (proj1 (transaction_ok m s a s') H)). Qed.
End Updates.

(** [runs P m Q R]: from a state with [P], [m] ends in a state with [R] whatever its
    outcome, and with [Q] when it succeeds. *)
Definition runs {S E A} (P : S -> Prop) (m : M S E A) (Q R : S -> Prop) : Prop :=
  forall s r s', P s -> m s = (r, s') -> R s' /\ (is_ok r = true -> Q s').

Section Runs.
Context {S E : Type}.

Lemma runs_preserves {A} (P R : S -> Prop) (m : M S E A) :
  preserves P m -> (forall s, P s -> R s) -> runs P m P R.
Proof. intros Hm Hr s r s' Hs H. specialize (Hm s Hs). rewrite H in Hm. auto. Qed.
Lemma runs_bind {A B} (P Q Q' R : S -> Prop) (m : M S E A) (k : A -> M S E B) :
  runs P m Q R -> (forall a, runs Q (k a) Q' R) -> runs P (bind m k) Q' R.
Proof.
  intros Hm Hk s r s' Hs H. unfold bind in H. destruct (m s) as [[a|e|p] s1] eqn:E1;
    destruct (Hm _ _ _ Hs E1) as [Hr Hq]; [by apply (Hk a s1 r s' (Hq eq_refl))|by injection H as <- <-..].
Qed.
Lemma runs_map_err {E' A} (f : E -> E') (P Q R : S -> Prop) (m : M S E A) : runs P m Q R -> runs P (map_err f m) Q R.
Proof.
  intros Hm s r s' Hs H. unfold map_err in H. destruct (m s) as [r1 s1] eqn:E1. injection H as <- <-.
  destruct (Hm _ _ _ Hs E1) as [Hr Hq]. split; [done|]. intros Hok. apply Hq. by destruct r1.
Qed.
Lemma runs_modify (P Q R : S -> Prop) (f : S -> S) :
  (forall s, P s -> Q (f s)) -> (forall s, Q s -> R s) -> runs (E := E) P (modify f) Q R.
Proof. intros Hf Hr s r s' Hs H. injection H as <- <-. auto. Qed.
Lemma runs_conseq {A} (P P' Q Q' R : S -> Prop) (m : M S E A) :
  runs P' m Q' R -> (forall s, P s -> P' s) -> (forall s, Q' s -> Q s) -> runs P m Q R.
Proof. intros Hm HP HQ s r s' Hs H. destruct (Hm _ _ _ (HP _ Hs) H). auto. Qed.
(** A loop that consumes its list: [I k] holds when [k] remains. *)
Lemma runs_fold_m {A B} (I : list A -> S -> Prop) (R : S -> Prop) (f : B -> A -> M S E B) l :
  (forall k s, I k s -> R s) -> (forall b x k, x ∈ l -> runs (I (x :: k)) (f b x) (I k) R) ->
  forall b, runs (I l) (fold_m f b l) (I []) R.
Proof.
  intros HR. induction l as [|x l IH]; intros Hf b; cbn.
  - intros s r s' Hs H. injection H as <- <-. split; [by eapply HR|done].
  - eapply runs_bind; [apply Hf; left|]. intros b'. apply IH. intros. apply Hf. by right.
Qed.
End Runs.

(** [atomic m]: when [m] fails the state is what it was. *)
Definition atomic {S E A} (m : M S E A) : Prop := forall s r s', m s = (r, s') -> is_ok r = false -> s' = s.

Section Atomic.
Context {S E : Type}.

Lemma atomic_frames {A} (m : M S E A) : frames id m -> atomic m.
Proof. intros H s r s' Hm _. specialize (H s). rewrite Hm in H. exact H. Qed.
Lemma atomic_transaction {A} (m : M S E A) : atomic (transaction m).
Proof. intros s r s' H Hr. apply (transaction_not_ok _ _ _ _ H). intros a ->. done. Qed.
Lemma atomic_map_err {E' A} (f : E -> E') (m : M S E A) : atomic m -> atomic (map_err f m).
Proof.
  intros Hm s r s' H Hr. unfold map_err in H. destruct (m s) as [r0 s0] eqn:E0. injection H as <- <-.
  apply (Hm _ _ _ E0). by destruct r0.
Qed.
(** Reading statements may come before the atomic one, pure results after it. *)
Lemma atomic_before {A B} (m : M S E A) (k : A -> M S E B) :
  frames id m -> (forall a, atomic (k a)) -> atomic (bind m k).
Proof.
  intros Hm Hk s r s' H Hr. unfold bind in H. specialize (Hm s). destruct (m s) as [[a|e|p] s0] eqn:E0; cbn in Hm;
    unfold id in Hm; subst s0; [by apply (Hk a s r s')|by injection H as _ <-..].
Qed.
Lemma atomic_ret {A B} (m : M S E A) (f : A -> B) : atomic m -> atomic (bind m (fun a => ret (f a))).
Proof.
  intros Hm s r s' H Hr. unfold bind in H. destruct (m s) as [[a|e|p] s0] eqn:E0;
    injection H as <- <-; [done| |]; by apply (Hm _ _ _ E0).
Qed.
End Atomic.

#[export] Hint Resolve preserves_ret preserves_throw preserves_panic preserves_lift preserves_gets
  preserves_map_err preserves_attempt preserves_transaction preserves_when preserves_frames : dbm.

(** Walk a computation down to its primitive operations. *)
Ltac preserves_step :=
  match goal with
  | |- frames _ _ => apply frames_preserves; intro
  | |- preserves _ (bind _ _) => apply preserves_bind; [|intro]
  | |- preserves _ (for_each _ _) => apply preserves_for_each; intros
  | |- preserves _ (fold_m _ _ _) => apply preserves_fold_m; intros
  | |- preserves _ (match ?x with _ => _ end) => destruct x
  | |- preserves _ (let '_ := ?x in _) => destruct x
  | |- preserves _ (when _ _) => apply preserves_when
  | |- preserves _ (map_err _ _) => apply preserves_map_err
  | |- preserves _ (attempt _) => apply preserves_attempt
  | |- preserves _ (transaction _) => apply preserves_transaction
  | |- preserves _ _ => solve [auto with dbm nocore]
  end.
Ltac solve_preserves := repeat (progress preserves_step || cbv beta).

(** Split a successful run of a sequence into the runs of its parts. *)
Ltac inv_ok :=
  repeat match goal with
  | H : bind _ _ _ = (Ok _, _) |- _ =>
      let a := fresh "a" in let s := fresh "s" in let H1 := fresh "H" in let H2 := fresh "H" in
      apply bind_ok_inv in H as (a & s & H1 & H2)
  | H : ret _ _ = (Ok _, _) |- _ => unfold ret in H; simplify_eq/=
  | H : throw _ _ = (Ok _, _) |- _ => discriminate H
  | H : panic _ _ = (Ok _, _) |- _ => discriminate H
  | H : lift _ _ = (Ok _, _) |- _ => unfold lift in H; simplify_eq/=
  | H : gets _ _ = (Ok _, _) |- _ => unfold gets in H; simplify_eq/=
  | H : modify _ _ = (Ok _, _) |- _ => unfold modify in H; simplify_eq/=
  end.
