(* ===== verification/Models.v ===== *)
(** * Data models ([minotari/src/models/], [webhooks/models.rs], status enums of [db/])

    The enums the wallet stores as text, with their [Display]/[FromStr] pairs,
    the wallet events and the balance changes.

    Representation: [FixedHash], [Vec<u8>] and [String] are [string] (a string
    of bytes); a [TariAddress] is its Base58 text; [MicroMinotari], [TxId],
    [u64] and [i64] values are [Z]; a [NaiveDateTime]/[DateTime<Utc>] is the
    number of seconds since the Unix epoch. *)
From S2P Require Import Prelude.
From stdpp Require Export pretty.
From Stdlib Require Import Ascii.
Open Scope Z_scope.

(** ** Output status ([models/output_status.rs]) *)
Module OutputStatus.
Inductive t := Unspent | Locked | Spent.

#[global] Instance eq_dec : EqDecision t.
Proof. solve_decision. Defined.

Definition to_string (s : t) : string :=
  match s with
  | Unspent => "UNSPENT"
  | Locked => "LOCKED"
  | Spent => "SPENT"
  end.

Definition from_str (s : string) : outcome string t :=
  if String.eqb s "UNSPENT" then Ok Unspent
  else if String.eqb s "LOCKED" then Ok Locked
  else if String.eqb s "SPENT" then Ok Spent
  else Err ("Invalid OutputStatus: " +:+ s).
End OutputStatus.

(** ** Status of a pending transaction ([models/pending_transactions_status.rs]) *)
Module PendingTransactionStatus.
Inductive t := Pending | Completed | Cancelled | Expired.

#[global] Instance eq_dec : EqDecision t.
Proof. solve_decision. Defined.

Definition to_string (s : t) : string :=
  match s with
  | Pending => "PENDING"
  | Completed => "COMPLETED"
  | Cancelled => "CANCELLED"
  | Expired => "EXPIRED"
  end.

Definition from_str (s : string) : outcome string t :=
  if String.eqb s "PENDING" then Ok Pending
  else if String.eqb s "COMPLETED" then Ok Completed
  else if String.eqb s "CANCELLED" then Ok Cancelled
  else if String.eqb s "EXPIRED" then Ok Expired
  else Err ("Invalid PendingTransactionStatus: " +:+ s).
End PendingTransactionStatus.

(** ** Status of a completed transaction ([db/completed_transactions.rs]) *)
Module CompletedTransactionStatus.
Inductive t := Completed | Broadcast | MinedUnconfirmed | MinedConfirmed | Rejected | Canceled.

#[global] Instance eq_dec : EqDecision t.
Proof. solve_decision. Defined.

Definition to_string (s : t) : string :=
  match s with
  | Completed => "completed"
  | Broadcast => "broadcast"
  | MinedUnconfirmed => "mined_unconfirmed"
  | MinedConfirmed => "mined_confirmed"
  | Rejected => "rejected"
  | Canceled => "canceled"
  end.

Definition from_str (s : string) : outcome string t :=
  if String.eqb s "completed" then Ok Completed
  else if String.eqb s "broadcast" then Ok Broadcast
  else if String.eqb s "mined_unconfirmed" then Ok MinedUnconfirmed
  else if String.eqb s "mined_confirmed" then Ok MinedConfirmed
  else if String.eqb s "rejected" then Ok Rejected
  else if String.eqb s "canceled" then Ok Canceled
  else Err ("Unknown status: " +:+ s).
End CompletedTransactionStatus.

(** ** Status of a webhook delivery ([webhooks/models.rs]) *)
Module WebhookStatus.
Inductive t := Pending | Success | Failed | PermanentFailure.

#[global] Instance eq_dec : EqDecision t.
Proof. solve_decision. Defined.

Definition to_string (s : t) : string :=
  match s with
  | Pending => "pending"
  | Success => "success"
  | Failed => "failed"
  | PermanentFailure => "permanent_failure"
  end.

Definition from_str (s : string) : outcome string t :=
  if String.eqb s "pending" then Ok Pending
  else if String.eqb s "success" then Ok Success
  else if String.eqb s "failed" then Ok Failed
  else if String.eqb s "permanent_failure" then Ok PermanentFailure
  else Err ("Invalid webhook status: " +:+ s).
End WebhookStatus.

(** ** Text codecs of the status columns, as an interface

    A type stored as text: printing then parsing gives the value back, and a
    text that parses is the print of its value (so a status column holds one
    text per status). *)
Class TextColumn (A : Type) := {
  to_text : A -> string;
  of_text : string -> outcome string A;
  of_to_text : forall a, of_text (to_text a) = Ok a;
  to_of_text : forall s a, of_text s = Ok a -> to_text a = s;
}.

(** A [FromStr] that is a chain of string comparisons inverts [Display]. *)
Ltac solve_text_column :=
  [> by intros []
   | let s := fresh "s" in let a := fresh "a" in
     intros s a; cbv beta;
     match goal with |- ?f s = _ -> _ => unfold f end;
     repeat case_match; try done; intros [= <-]; symmetry; by apply String.eqb_eq].

#[export] Instance OutputStatus_text : TextColumn OutputStatus.t.
Proof.
  refine {| to_text := OutputStatus.to_string; of_text := OutputStatus.from_str |};
  solve_text_column.
Defined.

#[export] Instance PendingTransactionStatus_text : TextColumn PendingTransactionStatus.t.
Proof.
  refine {| to_text := PendingTransactionStatus.to_string; of_text := PendingTransactionStatus.from_str |};
  solve_text_column.
Defined.

#[export] Instance CompletedTransactionStatus_text : TextColumn CompletedTransactionStatus.t.
Proof.
  refine {| to_text := CompletedTransactionStatus.to_string; of_text := CompletedTransactionStatus.from_str |};
  solve_text_column.
Defined.

#[export] Instance WebhookStatus_text : TextColumn WebhookStatus.t.
Proof.
  refine {| to_text := WebhookStatus.to_string; of_text := WebhookStatus.from_str |};
  solve_text_column.
Defined.

(** Comparing the texts of two statuses compares the statuses. *)
Lemma text_eqb {A} `{TextColumn A, EqDecision A} (a b : A) :
  String.eqb (to_text a) (to_text b) = bool_decide (a = b).
Proof.
  destruct (String.eqb_spec (to_text a) (to_text b)) as [E|E].
  - symmetry. apply bool_decide_eq_true_2.
    pose proof (of_to_text a) as Ha. rewrite E, of_to_text in Ha. by injection Ha.
  - symmetry. apply bool_decide_eq_false_2. congruence.
Qed.

(** ** Wallet events ([models/mod.rs]) *)
Inductive WalletEventType :=
| BlockRolledBack (height : Z) (block_hash : string)
| OutputDetected (hash : string) (block_height : Z) (block_hash : string)
    (memo_parsed memo_hex : option string)
| OutputConfirmed (hash : string) (block_height confirmation_height : Z)
    (memo_parsed memo_hex : option string)
| OutputRolledBack (hash : string) (original_block_height rolled_back_at_height : Z)
| PendingTransactionCancelled (tx_id reason : string)
| TransactionBroadcast (tx_id : Z) (kernel_excess : string)
| TransactionUnconfirmed (tx_id mined_height confirmations : Z)
| TransactionConfirmed (tx_id mined_height confirmation_height : Z)
| TransactionRejected (tx_id : Z) (reason : string)
| TransactionReorged (tx_id original_mined_height : Z).

Definition to_key_string (e : WalletEventType) : string :=
  match e with
  | BlockRolledBack _ _ => "BlockRolledBack"
  | OutputDetected _ _ _ _ _ => "OutputDetected"
  | OutputConfirmed _ _ _ _ _ => "OutputConfirmed"
  | OutputRolledBack _ _ _ => "OutputRolledBack"
  | PendingTransactionCancelled _ _ => "PendingTransactionCancelled"
  | TransactionBroadcast _ _ => "TransactionBroadcast"
  | TransactionUnconfirmed _ _ _ => "TransactionUnconfirmed"
  | TransactionConfirmed _ _ _ => "TransactionConfirmed"
  | TransactionRejected _ _ => "TransactionRejected"
  | TransactionReorged _ _ => "TransactionReorged"
  end.

Record WalletEvent := mkWalletEvent {
  we_id : Z;
  we_account_id : Z;
  event_type : WalletEventType;
  description : string;
}.

(** ** Webhook payloads ([models/mod.rs]) *)
Record WebhookBalanceSnapshot := mkWebhookBalanceSnapshot {
  wbs_available : Z;
  pending_incoming : Z;
  pending_outgoing : Z;
}.

Record WebhookPayload := mkWebhookPayload {
  wp_event_id : Z;
  wp_event_type : string;
  wp_created_at : Z;
  wp_balance : option WebhookBalanceSnapshot;
  wp_data : WalletEventType;
}.

(** ** Balance changes ([models/mod.rs]) *)
Record BalanceChange := mkBalanceChange {
  bc_account_id : Z;
  caused_by_output_id : option Z;
  caused_by_input_id : option Z;
  bc_description : string;
  balance_credit : Z;
  balance_debit : Z;
  effective_date : Z;
  effective_height : Z;
  claimed_recipient_address : option string;
  claimed_sender_address : option string;
  bc_memo_parsed : option string;
  bc_memo_hex : option string;
  claimed_fee : option Z;
  claimed_amount : option Z;
  is_reversal : bool;
  reversal_of_balance_change_id : option Z;
  is_reversed : bool;
}.

Definition is_credit (c : BalanceChange) : bool := balance_credit c >? 0.
Definition is_debit (c : BalanceChange) : bool := balance_debit c >? 0.

(** A scanned block kept for reorg detection. *)
Record ScannedTipBlock := mkScannedTipBlock {
  stb_id : Z;
  stb_account_id : Z;
  stb_height : Z;
  stb_hash : string;
}.

(** ** Errors of the database layer ([db/error.rs])

    The variants the modelled code builds; the payload of a library error is
    reduced to what the code inspects. *)
Inductive SqlError :=
| ConstraintViolation
| QueryReturnedNoRows
| IntegerOverflow
| ExecuteReturnedResults.

Inductive WalletDbError :=
| ConnectionError (e : string)
| Rusqlite (e : SqlError)
| Migration (e : string)
| SerdeJson
| SerdeRusqlite
| Io (e : string)
| Crypt (msg : string)
| Decoding (msg : string)
| InvalidInput (msg : string)
| DuplicateEntry (msg : string)
| DecryptionFailed (msg : string)
| Unexpected (msg : string).

(** ** Text helpers of the standard library *)
Definition hex_digit (n : N) : ascii :=
  match n with
  | 0%N => "0"%char | 1%N => "1" | 2%N => "2" | 3%N => "3" | 4%N => "4" | 5%N => "5"
  | 6%N => "6" | 7%N => "7" | 8%N => "8" | 9%N => "9" | 10%N => "a" | 11%N => "b"
  | 12%N => "c" | 13%N => "d" | 14%N => "e" | _ => "f"
  end%char.

Definition hex_byte (n : N) : string :=
  if (n <? 16)%N then String (hex_digit n) ""
  else String (hex_digit (n / 16)) (String (hex_digit (n mod 16)) "").

(** [format!("{:x?}", bytes)]. *)
Definition debug_hex (bytes : string) : string :=
  let fix go s := match s with
    | EmptyString => ""
    | String c EmptyString => hex_byte (N_of_ascii c)
    | String c s' => hex_byte (N_of_ascii c) +:+ ", " +:+ go s'
    end in
  "[" +:+ go bytes +:+ "]".
