(* ===== verification/DisplayTypes.v ===== *)
(** * Displayed transactions: data ([transactions/displayed_transaction_processor/types.rs])

    The user-facing transaction record that the processor builds, the monitor
    updates and [displayed_transactions] stores as JSON.  An [OutputType] of the
    transaction library is represented by its name. *)
From S2P Require Import Prelude Models.

Inductive TransactionDirection := Incoming | Outgoing.
Inductive TransactionSource := Transfer | Coinbase | OneSided | Unknown.

Module TransactionDisplayStatus.
Inductive t := Pending | Unconfirmed | Confirmed | Cancelled | Reorganized | Rejected.

#[global] Instance eq_dec : EqDecision t.
Proof. solve_decision. Defined.

Definition as_label (s : t) : string :=
  match s with
  | Pending => "Pending"
  | Unconfirmed => "Unconfirmed"
  | Confirmed => "Confirmed"
  | Cancelled => "Cancelled"
  | Reorganized => "Reorganized"
  | Rejected => "Rejected"
  end.

(** [format!("{:?}", status).to_lowercase()], the text of the status column. *)
Definition debug_lowercase (s : t) : string :=
  match s with
  | Pending => "pending"
  | Unconfirmed => "unconfirmed"
  | Confirmed => "confirmed"
  | Cancelled => "cancelled"
  | Reorganized => "reorganized"
  | Rejected => "rejected"
  end.
End TransactionDisplayStatus.

#[export] Instance TransactionDirection_eq_dec : EqDecision TransactionDirection.
Proof. solve_decision. Defined.
#[export] Instance TransactionSource_eq_dec : EqDecision TransactionSource.
Proof. solve_decision. Defined.

Definition direction_lowercase (d : TransactionDirection) : string :=
  match d with Incoming => "incoming" | Outgoing => "outgoing" end.

Definition source_lowercase (s : TransactionSource) : string :=
  match s with
  | Transfer => "transfer"
  | Coinbase => "coinbase"
  | OneSided => "onesided"
  | Unknown => "unknown"
  end.

Definition OutputType_Standard : string := "Standard".
Definition OutputType_Coinbase : string := "Coinbase".

Record BlockchainInfo := mkBlockchainInfo {
  block_height : Z;
  timestamp : Z;
  confirmations : Z;
  block_hash : string;
}.

Record FeeInfo := mkFeeInfo { fee_amount : Z }.

Record TransactionInput := mkTransactionInput {
  ti_output_hash : string;
  ti_amount : Z;
  matched_output_id : Z;
  ti_mined_in_block_hash : string;
}.

Record TransactionOutput := mkTransactionOutput {
  to_hash : string;
  to_amount : Z;
  to_status : OutputStatus.t;
  to_mined_in_block_height : Z;
  to_mined_in_block_hash : string;
  to_output_type : string;
  is_change : bool;
}.

Record TransactionDetails := mkTransactionDetails {
  td_account_id : Z;
  total_credit : Z;
  total_debit : Z;
  td_inputs : list TransactionInput;
  td_outputs : list TransactionOutput;
  output_type : option string;
  coinbase_extra : option string;
  memo_hex : option string;
  sent_output_hashes : list string;
  sent_payrefs : list string;
}.

Record DisplayedTransaction := mkDisplayedTransaction {
  dt_id : Z;
  direction : TransactionDirection;
  source : TransactionSource;
  status : TransactionDisplayStatus.t;
  amount : Z;
  message : option string;
  counterparty : option string;
  blockchain : BlockchainInfo;
  fee : option FeeInfo;
  details : TransactionDetails;
}.

(** Field assignments of the code ([tx.status = ..], [tx.blockchain.confirmations = ..]). *)
Definition set_status (s : TransactionDisplayStatus.t) (t : DisplayedTransaction) : DisplayedTransaction :=
  mkDisplayedTransaction (dt_id t) (direction t) (source t) s (amount t) (message t)
    (counterparty t) (blockchain t) (fee t) (details t).

Definition set_blockchain (b : BlockchainInfo) (t : DisplayedTransaction) : DisplayedTransaction :=
  mkDisplayedTransaction (dt_id t) (direction t) (source t) (status t) (amount t) (message t)
    (counterparty t) b (fee t) (details t).

Definition set_confirmations (n : Z) (t : DisplayedTransaction) : DisplayedTransaction :=
  let b := blockchain t in
  set_blockchain (mkBlockchainInfo (block_height b) (timestamp b) n (block_hash b)) t.
