(* ===== verification/External.v ===== *)
(** * Code outside the repository, as an interface

    The wallet is written over the Tari libraries (wallet outputs, hashes,
    deterministic transaction ids, payment references, [MicroMinotari]), over
    [serde_json], [hex] and [chrono].  [Ext] lists the operations the modelled
    code calls; [ExtLaws] states the documented behaviour the theorems rely on,
    and [Demo] is a concrete instance on which theorems are exercised. *)
From S2P Require Import Prelude Models DisplayTypes.
From Stdlib Require Import Ascii.
From stdpp Require Import countable.
#[local] Open Scope Z_scope.

Class Ext := {
  (** A recovered output of [tari_transaction_components], compared by [PartialEq]. *)
  WalletOutput : Type;
  wo_eq_dec :: EqDecision WalletOutput;
  wo_value : WalletOutput -> Z;
  wo_output_hash : WalletOutput -> string;
  wo_is_coinbase : WalletOutput -> bool;
  wo_is_burned : WalletOutput -> bool;
  wo_coinbase_extra : WalletOutput -> string;
  (** Accessors of [output.payment_id()]: raw bytes, fee, amount, parties,
      [get_transaction_info_details] (sender and amount) and [get_sent_hashes]. *)
  memo_bytes : WalletOutput -> string;
  memo_fee : WalletOutput -> option Z;
  memo_amount : WalletOutput -> option Z;
  memo_recipient : WalletOutput -> option string;
  memo_sender : WalletOutput -> option string;
  memo_transaction_info : WalletOutput -> option (string * Z);
  memo_sent_hashes : WalletOutput -> option (list string);
  (** [TxId::new_deterministic(view_key, hash)] and [generate_payment_reference]. *)
  tx_id_new_deterministic : string -> string -> Z;
  generate_payment_reference : string -> string -> string;
  (** [FixedHash::try_from] on a byte vector, and [FixedHash::default()]. *)
  fixed_hash_try_from : string -> option string;
  fixed_hash_default : string;
  (** [MicroMinotari] arithmetic; [None] is the overflow panic of [+]. *)
  mm_add : Z -> Z -> option Z;
  mm_saturating_add : Z -> Z -> Z;
  mm_saturating_sub : Z -> Z -> Z;
  (** [serde_json] on the values the wallet stores. *)
  output_to_json : WalletOutput -> option string;
  output_of_json : string -> option WalletOutput;
  displayed_to_json : DisplayedTransaction -> option string;
  displayed_of_json : string -> option DisplayedTransaction;
  payrefs_to_json : list string -> option string;
  strings_of_json : string -> option (list string);
  event_to_json : WalletEventType -> option string;
  webhook_payload_to_json : WebhookPayload -> option string;
  (** [hex::encode], [hex::decode], [String::from_utf8_lossy], [DateTime::from_timestamp(s, 0)]. *)
  hex_encode : string -> string;
  hex_decode : string -> option string;
  utf8_lossy : string -> string;
  datetime_from_timestamp : Z -> option Z;
  (** [t + Duration::seconds(s)]; [None] is the panic of either when out of range. *)
  datetime_add_seconds : Z -> Z -> option Z;
  (** The texts of library errors: [rusqlite], [serde_json], [serde_rusqlite], and
      [JoinError] for a blocking task that panicked with a message. *)
  sql_error_text : SqlError -> string;
  serde_json_error_text : string;
  serde_rusqlite_error_text : string;
  join_error_text : string -> string;
}.

(** [Display] of [WalletDbError] ([db/error.rs]). *)
Definition db_error_to_string {X : Ext} (e : WalletDbError) : string :=
  match e with
  | ConnectionError e => "Database connection error: " +:+ e
  | Rusqlite e => "Database execution error: " +:+ sql_error_text e
  | Migration e => "Migration error: " +:+ e
  | SerdeJson => "Serialization/Deserialization error: " +:+ serde_json_error_text
  | SerdeRusqlite => "Row mapping error: " +:+ serde_rusqlite_error_text
  | Io e => "IO error: " +:+ e
  | Crypt msg => "Cryptography error: " +:+ msg
  | Decoding msg => "Decoding error: " +:+ msg
  | InvalidInput msg => "Invalid input: " +:+ msg
  | DuplicateEntry msg => "Duplicate entry: " +:+ msg
  | DecryptionFailed msg => "Key decryption failed: " +:+ msg
  | Unexpected msg => "Unexpected error: " +:+ msg
  end.

(** Documented behaviour of those libraries. *)
Class ExtLaws (X : Ext) := {
  (** [MicroMinotari] is a [u64] newtype. *)
  wo_value_u64 : forall o, is_u64 (wo_value o);
  mm_add_spec : forall a b, is_u64 a -> is_u64 b ->
    mm_add a b = if a + b <=? u64_max then Some (a + b) else None;
  mm_saturating_add_spec : forall a b, is_u64 a -> is_u64 b ->
    mm_saturating_add a b = u64_saturating_add a b;
  mm_saturating_sub_spec : forall a b, is_u64 a -> is_u64 b ->
    mm_saturating_sub a b = u64_saturating_sub a b;
  (** Deserialising a serialised value gives the value back. *)
  output_json_roundtrip : forall o j, output_to_json o = Some j -> output_of_json j = Some o;
  datetime_add_seconds_spec : forall t s t', datetime_add_seconds t s = Some t' -> t' = t + s;
  displayed_json_roundtrip : forall t j, displayed_to_json t = Some j -> displayed_of_json j = Some t;
}.

(** [a + b] on [MicroMinotari]. *)
Definition mm_plus {X : Ext} {E} (a b : Z) : outcome E Z :=
  match mm_add a b with
  | Some c => Ok c
  | None => Panic "attempt to add with overflow"
  end.

Lemma mm_plus_ok {X : Ext} {XL : ExtLaws X} {E} a b c :
  is_u64 a -> is_u64 b -> mm_plus (E := E) a b = Ok c -> c = a + b /\ is_u64 c.
Proof.
  intros Ha Hb. unfold mm_plus. rewrite mm_add_spec by done.
  destruct (Z.leb_spec (a + b) u64_max) as [Hle|]; [|done]. intros [= <-].
  split; [done|]. unfold is_u64, u64_max, two64 in *. lia.
Qed.

(** [t + Duration::seconds(s)]. *)
Definition datetime_plus {X : Ext} {E} (t s : Z) : outcome E Z :=
  match datetime_add_seconds t s with
  | Some t' => Ok t'
  | None => Panic "`DateTime + TimeDelta` overflowed"
  end.

Lemma datetime_plus_ok {X : Ext} {XL : ExtLaws X} {E} t s t' :
  datetime_plus (E := E) t s = Ok t' -> t' = t + s.
Proof.
  unfold datetime_plus. destruct (datetime_add_seconds t s) as [u|] eqn:Hu; [|done].
  intros [= <-]. by apply datetime_add_seconds_spec.
Qed.

(** ** Unspecified orders of the standard library

    [sort_unstable_by] may permute equal elements and a [HashMap] iterates in any
    order; both choices are left open. *)
Class StdOrder := {
  sort_unstable : forall {A : Type}, (A -> A -> bool) -> list A -> list A;
  hash_order : forall {A : Type}, list A -> list A;
}.

Class StdOrderLaws (S : StdOrder) := {
  sort_unstable_perm : forall {A} (le : A -> A -> bool) l, Permutation (sort_unstable le l) l;
  sort_unstable_sorted : forall {A} (le : A -> A -> bool) l,
    (forall a b, le a b = false -> le b a = true) ->
    (forall a b c, le a b = true -> le b c = true -> le a c = true) ->
    StronglySorted (fun a b => le a b = true) (sort_unstable le l);
  hash_order_perm : forall {A} (l : list A), Permutation (hash_order l) l;
}.

(** ** A concrete instance

    A demo output is a record of the observable fields; JSON is any injective
    text, here the binary digits of [countable]'s code. *)
Module Demo.
Fixpoint bits (p : positive) : string :=
  match p with
  | xH => ""
  | xO p => String "0"%char (bits p)
  | xI p => String "1"%char (bits p)
  end.

Fixpoint of_bits (s : string) : option positive :=
  match s with
  | EmptyString => Some xH
  | String c s' =>
      if Ascii.eqb c "0"%char then xO <$> of_bits s'
      else if Ascii.eqb c "1"%char then xI <$> of_bits s'
      else None
  end.

Lemma of_bits_bits p : of_bits (bits p) = Some p.
Proof. induction p as [p IH|p IH|]; cbn; rewrite ?IH; done. Qed.

Definition to_json `{Countable A} (a : A) : option string := Some (bits (encode a)).
Definition of_json `{Countable A} (s : string) : option A := of_bits s ≫= decode.

Lemma of_to_json `{Countable A} (a : A) j : to_json a = Some j -> of_json j = Some a.
Proof. intros [= <-]. unfold of_json. rewrite of_bits_bits. cbn. apply decode_encode. Qed.

Record output := mkOutput {
  d_value : N;
  d_hash : string;
  d_coinbase : bool;
  d_burned : bool;
  d_memo : string;
  d_fee : option Z;
  d_info : option (string * Z);
}.

#[export] Instance output_eq_dec : EqDecision output.
Proof. solve_decision. Defined.

#[export] Instance output_countable : Countable output.
Proof.
  apply (inj_countable'
    (fun o => (d_value o, d_hash o, d_coinbase o, d_burned o, d_memo o, d_fee o, d_info o))
    (fun '(v, h, c, b, m, f, i) => mkOutput v h c b m f i)).
  by intros [].
Defined.

Definition direction_code (d : TransactionDirection) : bool :=
  match d with Incoming => true | Outgoing => false end.
Definition source_code (s : TransactionSource) : nat :=
  match s with Transfer => 0 | Coinbase => 1 | OneSided => 2 | Unknown => 3 end%nat.
Definition source_of (n : nat) : TransactionSource :=
  match n with 0 => Transfer | 1 => Coinbase | 2 => OneSided | _ => Unknown end%nat.
Definition status_code (s : TransactionDisplayStatus.t) : nat :=
  match s with
  | TransactionDisplayStatus.Pending => 0 | TransactionDisplayStatus.Unconfirmed => 1
  | TransactionDisplayStatus.Confirmed => 2 | TransactionDisplayStatus.Cancelled => 3
  | TransactionDisplayStatus.Reorganized => 4 | TransactionDisplayStatus.Rejected => 5
  end%nat.
Definition status_of (n : nat) : TransactionDisplayStatus.t :=
  match n with
  | 0 => TransactionDisplayStatus.Pending | 1 => TransactionDisplayStatus.Unconfirmed
  | 2 => TransactionDisplayStatus.Confirmed | 3 => TransactionDisplayStatus.Cancelled
  | 4 => TransactionDisplayStatus.Reorganized | _ => TransactionDisplayStatus.Rejected
  end%nat.
Definition ostatus_code (s : OutputStatus.t) : nat :=
  match s with OutputStatus.Unspent => 0 | OutputStatus.Locked => 1 | OutputStatus.Spent => 2 end%nat.
Definition ostatus_of (n : nat) : OutputStatus.t :=
  match n with 0 => OutputStatus.Unspent | 1 => OutputStatus.Locked | _ => OutputStatus.Spent end%nat.

#[export] Instance tin_eq_dec : EqDecision TransactionInput. Proof. solve_decision. Defined.
#[export] Instance tin_countable : Countable TransactionInput.
Proof.
  apply (inj_countable' (fun i => (ti_output_hash i, ti_amount i, matched_output_id i, ti_mined_in_block_hash i))
    (fun x => mkTransactionInput x.1.1.1 x.1.1.2 x.1.2 x.2)). by intros [].
Defined.
#[export] Instance tout_eq_dec : EqDecision TransactionOutput. Proof. solve_decision. Defined.
#[export] Instance tout_countable : Countable TransactionOutput.
Proof.
  apply (inj_countable'
    (fun o => (to_hash o, to_amount o, ostatus_code (to_status o), to_mined_in_block_height o,
      to_mined_in_block_hash o, to_output_type o, is_change o))
    (fun '(a, b, c, d, e, f, g) => mkTransactionOutput a b (ostatus_of c) d e f g)).
  by intros [? ? [] ? ? ? ?].
Defined.
#[export] Instance binfo_eq_dec : EqDecision BlockchainInfo. Proof. solve_decision. Defined.
#[export] Instance fee_eq_dec : EqDecision FeeInfo. Proof. solve_decision. Defined.
#[export] Instance details_eq_dec : EqDecision TransactionDetails. Proof. solve_decision. Defined.
#[export] Instance details_countable : Countable TransactionDetails.
Proof.
  apply (inj_countable'
    (fun d => (td_account_id d, total_credit d, total_debit d, td_inputs d, td_outputs d, output_type d,
      coinbase_extra d, memo_hex d, sent_output_hashes d, sent_payrefs d))
    (fun '(a, b, c, d, e, f, g, h, i, j) => mkTransactionDetails a b c d e f g h i j)).
  by intros [].
Defined.
#[export] Instance displayed_eq_dec : EqDecision DisplayedTransaction. Proof. solve_decision. Defined.
#[export] Instance displayed_countable : Countable DisplayedTransaction.
Proof.
  apply (inj_countable'
    (fun t => (dt_id t, direction_code (direction t), source_code (source t), status_code (status t),
      amount t, message t, counterparty t,
      (block_height (blockchain t), timestamp (blockchain t), confirmations (blockchain t),
       block_hash (blockchain t)), fee_amount <$> fee t, details t))
    (fun '(a, b, c, d, e, f, g, (h1, h2, h3, h4), i, j) =>
      mkDisplayedTransaction a (if b : bool then Incoming else Outgoing) (source_of c) (status_of d) e f g
        (mkBlockchainInfo h1 h2 h3 h4) (mkFeeInfo <$> i) j)).
  by intros [? [] [] [] ? ? ? [] [[]|] ?].
Defined.

(** Demo values are kept below [2^64]. *)
Definition value (o : output) : Z := Z.of_N (d_value o) `mod` two64.

Definition add (a b : Z) : option Z := if a + b <=? u64_max then Some (a + b) else None.

Fixpoint fnv (acc : Z) (s : string) : Z :=
  match s with
  | EmptyString => acc
  | String c s' => fnv ((acc * 257 + Z.of_N (Ascii.N_of_ascii c)) `mod` two64) s'
  end.

#[export] Instance ext : Ext := {
  WalletOutput := output;
  wo_value := value;
  wo_output_hash := d_hash;
  wo_is_coinbase := d_coinbase;
  wo_is_burned := d_burned;
  wo_coinbase_extra := fun _ => "";
  memo_bytes := d_memo;
  memo_fee := d_fee;
  memo_amount := fun o => snd <$> d_info o;
  memo_recipient := fun _ => None;
  memo_sender := fun o => fst <$> d_info o;
  memo_transaction_info := d_info;
  memo_sent_hashes := fun _ => None;
  tx_id_new_deterministic := fun k h => fnv 7 (k +:+ h);
  generate_payment_reference := fun b h => b +:+ h;
  fixed_hash_try_from := Some;
  fixed_hash_default := "";
  mm_add := add;
  mm_saturating_add := u64_saturating_add;
  mm_saturating_sub := u64_saturating_sub;
  output_to_json := to_json;
  output_of_json := of_json;
  displayed_to_json := to_json;
  displayed_of_json := of_json;
  payrefs_to_json := to_json;
  strings_of_json := of_json;
  event_to_json := fun e => Some (to_key_string e);
  webhook_payload_to_json := fun p => Some (wp_event_type p);
  hex_encode := id;
  hex_decode := Some;
  utf8_lossy := id;
  datetime_from_timestamp := Some;
  datetime_add_seconds := fun t s => if Z.abs s <=? i64_max / 1000 then Some (t + s) else None;
  sql_error_text := fun _ => "sqlite";
  serde_json_error_text := "json";
  serde_rusqlite_error_text := "row";
  join_error_text := fun msg => "task panicked: " +:+ msg;
}.

(** Equal elements keep their order, maps iterate in insertion order. *)
#[export] Instance std : StdOrder := {
  sort_unstable := fun A le l => sort_by le l;
  hash_order := fun A l => l;
}.

#[export] Instance std_laws : StdOrderLaws std.
Proof.
  constructor; cbn.
  - intros. apply sort_by_perm.
  - intros. by apply sort_by_sorted.
  - done.
Qed.

#[export] Instance ext_laws : ExtLaws ext.
Proof.
  constructor; cbn.
  - intros o. unfold value. apply as_u64_range.
  - done.
  - done.
  - done.
  - intros o j. apply of_to_json.
  - intros t s t'. destruct (_ <=? _); [|done]. by intros [= <-].
  - intros t j. apply of_to_json.
Qed.
End Demo.
