(* ===== verification/Scanning.v ===== *)
(** * The scanning library's types ([minotari-scanning/src/errors.rs],
    [scanning/mod.rs], [scanning/http/models.rs])

    Errors and their texts, the configuration and the progress of a scan, blocks as
    the base node serves them and as the wallet receives them, and the recovery of an
    output by a list of key managers.  Keys, commitments and full outputs belong to
    the Tari libraries and are parameters. *)
From S2P Require Import Prelude Models DisplayTypes External.
#[local] Open Scope Z_scope.

(** ** Errors *)
Inductive ScanningError :=
| BlockchainConnectionFailed (msg : string)
| BlockNotFound (msg : string)
| TransactionNotFound (msg : string)
| OutputNotFound (msg : string)
| ScanInterrupted (msg : string)
| ScanTimeout (msg : string)
| InvalidBlockHeight (msg : string)
| InvalidBlockHash (msg : string)
| InvalidTransactionHash (msg : string)
| InvalidOutputHash (msg : string)
| ScanProgressError (msg : string)
| ScanResumeFailed (msg : string)
| ScanStateCorrupted (msg : string)
| ScanConfigurationError (msg : string)
| ScanMemoryError (msg : string)
| ScanPerformanceError (msg : string)
| ScanDataCorruption (msg : string)
| ScanNetworkError (msg : string)
| ScanRateLimitExceeded (msg : string).

Definition scanning_error_to_string (e : ScanningError) : string :=
  match e with
  | BlockchainConnectionFailed m => "Blockchain connection failed: " +:+ m
  | BlockNotFound m => "Block not found: " +:+ m
  | TransactionNotFound m => "Transaction not found: " +:+ m
  | OutputNotFound m => "Output not found: " +:+ m
  | ScanInterrupted m => "Scan interrupted: " +:+ m
  | ScanTimeout m => "Scan timeout: " +:+ m
  | InvalidBlockHeight m => "Invalid block height: " +:+ m
  | InvalidBlockHash m => "Invalid block hash: " +:+ m
  | InvalidTransactionHash m => "Invalid transaction hash: " +:+ m
  | InvalidOutputHash m => "Invalid output hash: " +:+ m
  | ScanProgressError m => "Scan progress error: " +:+ m
  | ScanResumeFailed m => "Scan resume failed: " +:+ m
  | ScanStateCorrupted m => "Scan state corrupted: " +:+ m
  | ScanConfigurationError m => "Scan configuration error: " +:+ m
  | ScanMemoryError m => "Scan memory error: " +:+ m
  | ScanPerformanceError m => "Scan performance error: " +:+ m
  | ScanDataCorruption m => "Scan data corruption: " +:+ m
  | ScanNetworkError m => "Scan network error: " +:+ m
  | ScanRateLimitExceeded m => "Scan rate limit exceeded: " +:+ m
  end.

(** The errors of the Tari libraries are known by their texts. *)
Inductive WalletError :=
| ScanningErr (e : ScanningError)
| ConversionError (msg : string)
| InvalidArgument (argument value message : string)
| OperationNotSupported (msg : string)
| ResourceNotFound (msg : string)
| InsufficientFunds (msg : string)
| WalletTimeout (msg : string)
| NetworkError (msg : string)
| StorageError (msg : string)
| InternalError (msg : string)
| ConnectionError (msg : string)
| GrpcError (msg : string)
| DataError (msg : string)
| ConfigurationError (msg : string)
| TransactionError (text : string)
| ScriptError (text : string)
| KeyManagerError (text : string).

Definition wallet_error_to_string (e : WalletError) : string :=
  match e with
  | ScanningErr e => "Scanning error: " +:+ scanning_error_to_string e
  | ConversionError m => "Conversion error: " +:+ m
  | InvalidArgument a v m => "Invalid argument: " +:+ a +:+ " = " +:+ v +:+ ". " +:+ m
  | OperationNotSupported m => "Operation not supported: " +:+ m
  | ResourceNotFound m => "Resource not found: " +:+ m
  | InsufficientFunds m => "Insufficient funds: " +:+ m
  | WalletTimeout m => "Timeout error: " +:+ m
  | NetworkError m => "Network error: " +:+ m
  | StorageError m => "Storage error: " +:+ m
  | InternalError m => "Internal error: " +:+ m
  | ConnectionError m => "Connection error: " +:+ m
  | GrpcError m => "gRPC error: " +:+ m
  | DataError m => "Data error: " +:+ m
  | ConfigurationError m => "Configuration error: " +:+ m
  | TransactionError t => "Transaction error: " +:+ t
  | ScriptError t => "Script error: " +:+ t
  | KeyManagerError t => "Key Manager error: " +:+ t
  end.

Definition blockchain_connection_failed (details : string) : WalletError :=
  ScanningErr (BlockchainConnectionFailed details).

(** ** The configuration of a scan

    Durations are in seconds. *)
Record ScanConfig := mkScanConfig {
  start_height : Z;
  sc_end_height : option Z;
  sc_batch_size : option Z;
  request_timeout : Z;
  exclude_spent : bool;
}.

Definition ScanConfig_default : ScanConfig := mkScanConfig 0 None (Some 100) 30 false.

Definition with_start_height (h : Z) (c : ScanConfig) : ScanConfig :=
  mkScanConfig h (sc_end_height c) (sc_batch_size c) (request_timeout c) (exclude_spent c).
Definition with_end_height (h : Z) (c : ScanConfig) : ScanConfig :=
  mkScanConfig (start_height c) (Some h) (sc_batch_size c) (request_timeout c) (exclude_spent c).
Definition with_start_end_heights (s e : Z) (c : ScanConfig) : ScanConfig :=
  mkScanConfig s (Some e) (sc_batch_size c) (request_timeout c) (exclude_spent c).
Definition with_batch_size (n : Z) (c : ScanConfig) : ScanConfig :=
  mkScanConfig (start_height c) (sc_end_height c) (Some n) (request_timeout c) (exclude_spent c).

(** [scan_blocks] of both scanners refuses such a configuration. *)
Definition start_height_after_end (config : ScanConfig) : bool :=
  match sc_end_height config with
  | Some end_height => start_height config >? end_height
  | None => false
  end.

(** The chain tip as the base node reports it. *)
Record TipInfo := mkTipInfo {
  best_block_height : Z;
  best_block_hash : string;
  accumulated_difficulty : string;
  pruned_height : Z;
  tip_timestamp : Z;
}.

Record BlockHeaderInfo := mkBlockHeaderInfo {
  hdr_height : Z;
  hdr_hash : string;
  hdr_timestamp : Z;
}.

(** ** The progress of a download

    [header] is the hash, in hex, of the block that the pages are counted from. *)
Record InProgressScan := mkInProgressScan {
  ip_config : option ScanConfig;
  ip_header : option string;
  current_page : Z;
}.

Definition InProgressScan_new (c : ScanConfig) : InProgressScan := mkInProgressScan (Some c) None 0.
Definition InProgressScan_new_empty : InProgressScan := mkInProgressScan None None 0.
Definition clear (_ : InProgressScan) : InProgressScan := mkInProgressScan None None 0.
Definition is_active (p : InProgressScan) : bool := negb (is_none (ip_config p)).
Definition increment_page {E} (p : InProgressScan) : outcome E InProgressScan :=
  outcome_bind (u64_add (current_page p) 1) (fun n => Ok (mkInProgressScan (ip_config p) (ip_header p) n)).
Definition set_next_request (h : string) (p : InProgressScan) : InProgressScan :=
  mkInProgressScan (ip_config p) (Some h) 0.

(** ** Blocks *)

(** A block with what the scan found in it. *)
Section Block.
Context {X : Ext}.

Record BlockScanResult := mkBlockScanResult {
  blk_height : Z;
  blk_hash : string;
  wallet_outputs : list (string * WalletOutput * nat);
  blk_inputs : list string;
  mined_timestamp : Z;
}.

End Block.

(** [MinimalUtxoSyncInfo] and [BlockUtxoInfo]: a block of a page, all in raw bytes. *)
Record MinimalUtxoSyncInfo := mkMinimalUtxo {
  mu_output_hash : string;
  mu_commitment : string;
  mu_encrypted_data : string;
  mu_sender_offset_public_key : string;
}.

Record BlockUtxoInfo := mkBlockUtxoInfo {
  bu_outputs : list MinimalUtxoSyncInfo;
  bu_inputs : list string;
  bu_height : Z;
  bu_header_hash : string;
  bu_mined_timestamp : Z;
}.

(** What the scan uses of the Tari libraries.  Errors are texts. *)
Class ScanningExt (X : Ext) := {
  KeyManager : Type;
  Commitment : Type;
  EncryptedData : Type;
  PublicKey : Type;
  KeyId : Type;
  MemoField : Type;
  FullOutput : Type;
  encrypted_data_eq_dec :: EqDecision EncryptedData;
  commitment_from_canonical_bytes : string -> outcome string Commitment;
  encrypted_data_from_bytes : string -> outcome string EncryptedData;
  public_key_from_canonical_bytes : string -> outcome string PublicKey;
  (** [TransactionOutput::encrypted_data], and the other parts the recovery reads. *)
  fo_encrypted_data : FullOutput -> EncryptedData;
  fo_commitment : FullOutput -> Commitment;
  fo_sender_offset_public_key : FullOutput -> PublicKey;
  fo_hash : FullOutput -> string;
  (** [try_output_key_recovery]: mask, value and memo of an output that is ours. *)
  try_output_key_recovery : KeyManager -> Commitment -> EncryptedData -> PublicKey ->
    outcome string (option (KeyId * Z * MemoField));
  (** [WalletOutput::new_imported], whose error is dropped by the callers. *)
  new_imported : Z -> KeyId -> MemoField -> FullOutput -> KeyManager -> option WalletOutput;
  (** The text of the error of [FixedHash::try_from]. *)
  fixed_hash_error_text : string;
}.

Section Recovery.
Context {X : Ext} {SX : ScanningExt X}.

Record ScanningOutputStruct := mkScanningOutput {
  min_info : MinimalUtxoSyncInfo;
  so_commitment : Commitment;
  so_encrypted_data : EncryptedData;
  so_sender_offset_public_key : PublicKey;
}.

(** [TryFrom<MinimalUtxoSyncInfo>]. *)
Definition scanning_output_try_from (m : MinimalUtxoSyncInfo) : outcome WalletError ScanningOutputStruct :=
  outcome_bind (outcome_map_err DataError (commitment_from_canonical_bytes (mu_commitment m))) (fun commitment =>
  outcome_bind (outcome_map_err DataError (encrypted_data_from_bytes (mu_encrypted_data m))) (fun encrypted_data =>
  outcome_bind (outcome_map_err DataError
    (public_key_from_canonical_bytes (mu_sender_offset_public_key m))) (fun key =>
  Ok (mkScanningOutput m commitment encrypted_data key)))).

Record IncompleteScannedOutput := mkIncomplete {
  io_output_hash : string;
  io_value : Z;
  commitment_mask_key_id : KeyId;
  io_sender_offset_public_key : PublicKey;
  io_encrypted_data : EncryptedData;
  io_memo : MemoField;
  key_manager_index : nat;
}.

Definition IncompleteScannedOutput_new (info : ScanningOutputStruct) (value : Z) (mask : KeyId)
    (memo : MemoField) (index : nat) : outcome WalletError IncompleteScannedOutput :=
  outcome_bind (ok_or (fixed_hash_try_from (mu_output_hash (min_info info))) (DataError fixed_hash_error_text))
    (fun output_hash => Ok (mkIncomplete output_hash value mask (so_sender_offset_public_key info)
      (so_encrypted_data info) memo index)).

Definition to_wallet_output (o : IncompleteScannedOutput) (full : FullOutput) (km : KeyManager) :
    option WalletOutput :=
  new_imported (io_value o) (commitment_mask_key_id o) (io_memo o) full km.

(** [scan_for_recoverable_output] of the HTTP scanner, over the key managers from
    [index] on: the first key manager that recovers the output takes it. *)
Fixpoint scan_for_recoverable_output_from (index : nat) (key_managers : list KeyManager)
    (output : ScanningOutputStruct) : outcome WalletError (option IncompleteScannedOutput) :=
  match key_managers with
  | [] => Ok None
  | km :: kms =>
      outcome_bind (outcome_map_err KeyManagerError (try_output_key_recovery km (so_commitment output)
        (so_encrypted_data output) (so_sender_offset_public_key output))) (fun found =>
      match found with
      | Some (mask, value, memo) =>
          outcome_bind (IncompleteScannedOutput_new output value mask memo index) (fun o => Ok (Some o))
      | None => scan_for_recoverable_output_from (S index) kms output
      end)
  end.

Definition scan_for_recoverable_output (key_managers : list KeyManager) (output : ScanningOutputStruct) :
    outcome WalletError (option IncompleteScannedOutput) :=
  scan_for_recoverable_output_from 0 key_managers output.

End Recovery.
