(* ===== verification/GrpcScanner.v ===== *)
(** * The gRPC scanner ([minotari-scanning/src/scanning/grpc/scanner.rs])

    The other implementation of the scanner: one request for all heights, answered by a
    stream of full blocks, each of which becomes a message with one block. *)
From S2P Require Import Prelude Models DisplayTypes External Scanning.
#[local] Open Scope Z_scope.

Section Grpc.
Context {X : Ext} {SX : ScanningExt X}.

(** A block of [tari_node_components], in the parts that are read: the hashes of the
    outputs that its inputs spend, its outputs, and its kernels, which are only passed on. *)
Context {Kernel : Type}.
Record Block := mkBlock {
  gb_height : Z;
  gb_hash : string;
  gb_timestamp : Z;
  gb_inputs : list string;
  gb_outputs : list FullOutput;
  gb_kernels : list Kernel;
}.

(** [BlockResponse]: a message may carry no block, or one that does not convert. *)
Definition BlockResponse : Type := option (outcome string Block).
Definition BlockStream : Type := list (outcome string BlockResponse).

(** The metadata of a [TipInfoResponse]. *)
Record MetaData := mkMetaData {
  md_best_block_height : Z;
  md_best_block_hash : string;
  md_accumulated_difficulty : string;
  md_pruned_height : Z;
  md_timestamp : Z;
}.

(** The base node: the answers to the requests, and [U512::from_big_endian] as text. *)
Context (get_blocks : list Z -> outcome string BlockStream).
Context (tip_info : nat -> outcome string (option MetaData)).
Context (u512_text : string -> string).
(** [Channel::from_shared] and [connect], and the number of processors. *)
Context (from_shared connect : string -> outcome string unit) (num_cpus : Z).
(** The creation of the thread pool. *)
Context (pool : outcome string unit).

(** ** Creation *)
Record GrpcBlockchainScanner := mkGrpcScanner {
  g_timeout : Z;
  g_key_managers : list KeyManager;
  g_in_progress : InProgressScan;
  number_processing_threads : Z;
}.

Definition thread_count (number_processing_threads : Z) : Z :=
  if number_processing_threads >? 0 then number_processing_threads
  else Z.max (u64_saturating_sub num_cpus 2) 1.

Definition with_timeout (base_url : string) (timeout : Z) (key_managers : list KeyManager)
    (number_processing_threads : Z) : outcome WalletError GrpcBlockchainScanner :=
  match key_managers with
  | [] => Err (ConfigurationError "At least one key manager must be specified")
  | _ =>
      outcome_bind (outcome_map_err (fun e => blockchain_connection_failed ("Invalid URL: " +:+ e))
        (from_shared base_url)) (fun _ =>
      outcome_bind (outcome_map_err (fun e => blockchain_connection_failed ("Connection failed: " +:+ e))
        (connect base_url)) (fun _ =>
      Ok (mkGrpcScanner timeout key_managers InProgressScan_new_empty (thread_count number_processing_threads))))
  end.

Definition new (base_url : string) (key_managers : list KeyManager) (number_processing_threads : Z) :
    outcome WalletError GrpcBlockchainScanner :=
  with_timeout base_url 30 key_managers number_processing_threads.

Definition create_scan_config_with_wallet_keys (self : GrpcBlockchainScanner) (start_height : Z)
    (end_height : option Z) : ScanConfig :=
  mkScanConfig start_height end_height (Some 100) (g_timeout self) false.

(** The builder. *)
Record GrpcScannerBuilder := mkBuilder {
  b_base_url : option string;
  b_timeout : option Z;
  b_key_managers : list KeyManager;
  b_number_processing_threads : Z;
}.

Definition builder_new : GrpcScannerBuilder := mkBuilder None None [] 8.
Definition with_base_url (u : string) (b : GrpcScannerBuilder) : GrpcScannerBuilder :=
  mkBuilder (Some u) (b_timeout b) (b_key_managers b) (b_number_processing_threads b).
Definition builder_with_timeout (t : Z) (b : GrpcScannerBuilder) : GrpcScannerBuilder :=
  mkBuilder (b_base_url b) (Some t) (b_key_managers b) (b_number_processing_threads b).
Definition with_processing_threads (n : Z) (b : GrpcScannerBuilder) : GrpcScannerBuilder :=
  mkBuilder (b_base_url b) (b_timeout b) (b_key_managers b) n.
Definition with_key_manager (km : KeyManager) (b : GrpcScannerBuilder) : GrpcScannerBuilder :=
  mkBuilder (b_base_url b) (b_timeout b) (b_key_managers b ++ [km]) (b_number_processing_threads b).

Definition build (b : GrpcScannerBuilder) : outcome WalletError GrpcBlockchainScanner :=
  outcome_bind (ok_or (b_base_url b) (ConfigurationError "Base URL not specified")) (fun base_url =>
  match b_key_managers b with
  | [] => Err (ConfigurationError "No Key managers not specified")
  | kms =>
      match b_timeout b with
      | Some timeout => with_timeout base_url timeout kms (b_number_processing_threads b)
      | None => new base_url kms (b_number_processing_threads b)
      end
  end).

(** ** Recovery: the wallet output is made at once, from the full output *)
Fixpoint grpc_scan_for_recoverable_output_from (index : nat) (kms : list KeyManager) (output : FullOutput) :
    outcome WalletError (option (WalletOutput * nat)) :=
  match kms with
  | [] => Ok None
  | km :: kms' =>
      outcome_bind (outcome_map_err KeyManagerError (try_output_key_recovery km (fo_commitment output)
        (fo_encrypted_data output) (fo_sender_offset_public_key output))) (fun found =>
      match found with
      | Some (mask, value, memo) =>
          Ok ((fun o => (o, index)) <$> new_imported value mask memo output km)
      | None => grpc_scan_for_recoverable_output_from (S index) kms' output
      end)
  end.

Definition grpc_scan_for_recoverable_output (self : GrpcBlockchainScanner) (output : FullOutput) :
    outcome WalletError (option (WalletOutput * nat)) :=
  grpc_scan_for_recoverable_output_from 0 (g_key_managers self) output.

(** ** Blocks *)
Definition grpc_error {A} (prefix : string) (r : outcome string A) : outcome WalletError A :=
  outcome_map_err (fun e => blockchain_connection_failed (prefix +:+ e)) r.

(** The first message of the stream for one height. *)
Definition get_complete_block_data (block_height : Z) : outcome WalletError (option Block) :=
  outcome_bind (grpc_error "GRPC error: " (get_blocks [block_height])) (fun stream =>
  match stream with
  | [] => Ok None
  | message :: _ =>
      outcome_bind (grpc_error "Stream error: " message) (fun grpc_block =>
      match grpc_block with
      | None => Ok None
      | Some block => outcome_bind (outcome_map_err InternalError block) (fun b => Ok (Some b))
      end)
  end).

Definition block_part {A} (part : Block -> list A) (block_height : Z) : outcome WalletError (list A) :=
  outcome_bind (get_complete_block_data block_height) (fun block =>
  Ok (match block with Some b => part b | None => [] end)).

Definition get_outputs_from_block : Z -> outcome WalletError (list FullOutput) := block_part gb_outputs.
Definition get_inputs_from_block : Z -> outcome WalletError (list string) := block_part gb_inputs.
Definition get_kernels_from_block : Z -> outcome WalletError (list Kernel) := block_part gb_kernels.

Definition grpc_scan_block (self : GrpcBlockchainScanner) (block_height : Z) :
    outcome WalletError (list (WalletOutput * nat)) :=
  outcome_bind (get_outputs_from_block block_height) (fun outputs =>
  outcome_bind (outcome_mapM (grpc_scan_for_recoverable_output self) outputs) (fun found => Ok (omap id found))).

(** The messages without a block are skipped here. *)
Fixpoint collect_blocks (stream : BlockStream) : outcome WalletError (list Block) :=
  match stream with
  | [] => Ok []
  | message :: stream' =>
      outcome_bind (grpc_error "GRPC stream error: " message) (fun grpc_block =>
      match grpc_block with
      | None => collect_blocks stream'
      | Some block =>
          outcome_bind (outcome_map_err InternalError block) (fun b =>
          outcome_bind (collect_blocks stream') (fun bs => Ok (b :: bs)))
      end)
  end.

Definition get_blocks_by_heights (heights : list Z) : outcome WalletError (list Block) :=
  match heights with
  | [] => Ok []
  | _ => outcome_bind (grpc_error "GRPC error: " (get_blocks heights)) collect_blocks
  end.

Definition get_block_by_height (height : Z) : outcome WalletError (option Block) :=
  outcome_bind (get_blocks_by_heights [height]) (fun blocks => Ok (head blocks)).

Definition grpc_get_header_by_height (height : Z) : outcome WalletError (option BlockHeaderInfo) :=
  outcome_bind (get_block_by_height height) (fun block =>
  Ok ((fun b => mkBlockHeaderInfo (gb_height b) (gb_hash b) (gb_timestamp b)) <$> block)).

(** ** The tip *)
Definition convert_tip_info (metadata : option MetaData) : TipInfo :=
  {| best_block_height := match metadata with Some m => md_best_block_height m | None => 0 end;
     best_block_hash := default fixed_hash_default
       (fixed_hash_try_from (match metadata with Some m => md_best_block_hash m | None => "" end));
     accumulated_difficulty := match metadata with Some m => u512_text (md_accumulated_difficulty m) | None => "" end;
     pruned_height := match metadata with Some m => md_pruned_height m | None => 0 end;
     tip_timestamp := match metadata with Some m => md_timestamp m | None => 0 end |}.

(** [call] numbers the requests of an operation. *)
Definition grpc_get_tip_info (call : nat) : outcome WalletError TipInfo :=
  outcome_bind (grpc_error "GRPC error: " (tip_info call)) (fun m => Ok (convert_tip_info m)).

(** With an end height the tip is asked for, and the end height is dropped. *)
Definition update_scan_config (config : ScanConfig) (self : GrpcBlockchainScanner) :
    outcome WalletError GrpcBlockchainScanner :=
  let set c := mkGrpcScanner (g_timeout self) (g_key_managers self) (InProgressScan_new c)
    (number_processing_threads self) in
  match sc_end_height config with
  | Some _ =>
      outcome_bind (grpc_get_tip_info 0) (fun _ =>
      Ok (set (mkScanConfig (start_height config) None (sc_batch_size config) (request_timeout config)
        (exclude_spent config))))
  | None => Ok (set config)
  end.

(** ** The scan *)

(** The thread pool pushes the outputs of a block in any order; its errors are dropped. *)
Context (completion : forall {A : Type}, list A -> list A).

Definition found_in (self : GrpcBlockchainScanner) (output : FullOutput) :
    outcome WalletError (option (string * WalletOutput * nat)) :=
  match grpc_scan_for_recoverable_output self output with
  | Ok (Some (wallet_output, index)) => Ok (Some (fo_hash output, wallet_output, index))
  | Ok None => Ok None
  | Err _ => Ok None
  | Panic msg => Panic msg
  end.

Definition block_result_of (self : GrpcBlockchainScanner) (b : Block) : outcome WalletError BlockScanResult :=
  outcome_bind (outcome_mapM (found_in self) (gb_outputs b)) (fun found =>
  Ok (mkBlockScanResult (gb_height b) (gb_hash b) (completion _ (omap id found)) (gb_inputs b) (gb_timestamp b))).

(** The messages that the task sends for the stream of blocks: a message without a block
    ends it like the end of the stream does, a panic without a message. *)
Fixpoint scan_messages (self : GrpcBlockchainScanner) (stream : BlockStream) :
    list (outcome WalletError (list BlockScanResult)) :=
  match stream with
  | [] => []
  | Ok (Some (Ok block)) :: stream' =>
      match block_result_of self block with
      | Ok r => Ok [r] :: scan_messages self stream'
      | _ => []
      end
  | Ok (Some (Err e)) :: _ => [Err (GrpcError e)]
  | Ok None :: _ => []
  | Err e :: _ => [Err (GrpcError e)]
  | Ok (Some (Panic _)) :: _ | Panic _ :: _ => []
  end.

(** [(start..=end).collect()]. *)
Definition heights_from (start end_ : Z) : list Z :=
  map (fun i => start + Z.of_nat i) (seq 0 (Z.to_nat (end_ + 1 - start))).

Definition grpc_scan_blocks (config : ScanConfig) (self : GrpcBlockchainScanner) :
    outcome WalletError (list (outcome WalletError (list BlockScanResult))) :=
  if start_height_after_end config then Err (OperationNotSupported "start_height cannot be greater than end_height")
  else
    outcome_bind (update_scan_config config self) (fun self =>
    outcome_bind (grpc_get_tip_info 1) (fun tip =>
    let end_height := Z.min (default (best_block_height tip) (sc_end_height config)) (best_block_height tip) in
    outcome_bind (grpc_error "GRPC error: " (get_blocks (heights_from (start_height config) end_height)))
      (fun stream =>
    outcome_bind (outcome_map_err (fun e => ConfigurationError ("Failed to build thread pool: " +:+ e)) pool)
      (fun _ => Ok (scan_messages self stream))))).

(** ** What the reader gets

    The node answers with the blocks of the heights it was asked for, in order, perhaps
    not all of them. *)
Fixpoint stream_heights (stream : BlockStream) : list Z :=
  match stream with
  | Ok (Some (Ok b)) :: stream' => gb_height b :: stream_heights stream'
  | _ => []
  end.

Definition message_blocks (m : outcome WalletError (list BlockScanResult)) : list BlockScanResult :=
  match m with Ok l => l | _ => [] end.

Definition received_heights (l : list (outcome WalletError (list BlockScanResult))) : list Z :=
  map blk_height (concat (map message_blocks l)).

Lemma scan_messages_heights self stream :
  received_heights (scan_messages self stream) `prefix_of` stream_heights stream.
Proof.
  unfold received_heights. induction stream as [|[[[b|e|m]|]|e|m] stream IH]; cbn; try apply prefix_nil.
  unfold block_result_of. destruct (outcome_mapM _ _) as [found| |]; cbn; [|apply prefix_nil..].
  by apply prefix_cons.
Qed.

(** A scan over gRPC delivers, for any order in which the thread pool works, the
    blocks from the start height on, each once and in order, and none above the end
    height or the tip. *)
Theorem grpc_scan_heights config self msgs tip :
  (forall hs stream, get_blocks hs = Ok stream -> stream_heights stream `prefix_of` hs) ->
  grpc_get_tip_info 1 = Ok tip -> grpc_scan_blocks config self = Ok msgs ->
  received_heights msgs `prefix_of` heights_from (start_height config)
    (Z.min (default (best_block_height tip) (sc_end_height config)) (best_block_height tip)).
Proof.
  intros Hnode Htip. unfold grpc_scan_blocks. destruct (start_height_after_end config); [done|].
  intros (self' & _ & H)%outcome_bind_ok. apply outcome_bind_ok in H as (tip' & Htip' & H).
  rewrite Htip in Htip'. injection Htip' as <-. apply outcome_bind_ok in H as (stream & Hs & H).
  apply outcome_bind_ok in H as (u & _ & [= <-]).
  transitivity (stream_heights stream); [apply scan_messages_heights|]. apply Hnode.
  unfold grpc_error in Hs. destruct (get_blocks _) as [st| |]; cbn in Hs; [|done..]. by injection Hs as ->.
Qed.

End Grpc.
