(* ===== verification/Schema.v ===== *)
(** * The database: rows, tables and the state of the wallet

    One record per table with the columns that the Rust code under
    [minotari/src/db/] reads or writes, and the state [Db] of the whole wallet.
    [clock] is the wall clock ([Utc::now()], [CURRENT_TIMESTAMP]); operations
    read it and never change it.  Unique indexes and foreign keys are checked by
    the operations that insert or delete rows. *)
From S2P Require Import Prelude Models.
#[local] Open Scope Z_scope.

Record OutputRow := mkOutputRow {
  o_id : Z;
  o_account_id : Z;
  o_tx_id : Z;
  o_output_hash : string;
  o_mined_in_block_height : Z;
  o_mined_in_block_hash : string;
  o_value : Z;
  o_mined_timestamp : Z;
  o_wallet_output_json : string;
  o_memo_parsed : option string;
  o_memo_hex : option string;
  o_payment_reference : option string;
  o_is_burn : Z;
  o_confirmed_height : option Z;
  o_confirmed_hash : option string;
  o_status : string;
  o_locked_at : option Z;
  o_locked_by_request_id : option string;
  o_deleted_at : option Z;
  o_deleted_in_block_height : option Z;
}.

Record InputRow := mkInputRow {
  i_id : Z;
  i_account_id : Z;
  i_output_id : Z;
  i_mined_in_block_height : Z;
  i_mined_in_block_hash : string;
  i_mined_timestamp : Z;
  i_deleted_at : option Z;
  i_deleted_in_block_height : option Z;
}.

(** A row of [balance_changes]: the [BalanceChange] fields as columns. *)
Record BalanceChangeRow := mkBalanceChangeRow {
  b_id : Z;
  b_account_id : Z;
  b_caused_by_output_id : option Z;
  b_caused_by_input_id : option Z;
  b_description : string;
  b_balance_credit : Z;
  b_balance_debit : Z;
  b_effective_date : Z;
  b_effective_height : Z;
  b_claimed_recipient_address : option string;
  b_claimed_sender_address : option string;
  b_memo_parsed : option string;
  b_memo_hex : option string;
  b_claimed_fee : option Z;
  b_claimed_amount : option Z;
  b_is_reversal : bool;
  b_reversal_of_balance_change_id : option Z;
  b_is_reversed : bool;
}.

Record PendingRow := mkPendingRow {
  p_id : string;
  p_account_id : Z;
  p_idempotency_key : string;
  p_status : string;
  p_requires_change_output : bool;
  p_total_value : Z;
  p_fee_without_change : Z;
  p_fee_with_change : Z;
  p_expires_at : Z;
  p_created_at : Z;
}.

Record CompletedRow := mkCompletedRow {
  c_id : Z;
  c_account_id : Z;
  c_pending_tx_id : string;
  c_status : string;
  c_last_rejected_reason : option string;
  c_kernel_excess : string;
  c_sent_payref : option string;
  c_sent_output_hash : option string;
  c_mined_height : option Z;
  c_mined_block_hash : option string;
  c_confirmation_height : option Z;
  c_broadcast_attempts : Z;
  c_serialized_transaction : string;
  c_created_at : Z;
  c_updated_at : Z;
}.

Record TipRow := mkTipRow {
  t_id : Z;
  t_account_id : Z;
  t_height : Z;
  t_hash : string;
  t_created_at : Z;
}.

Record EventRow := mkEventRow {
  e_id : Z;
  e_account_id : Z;
  e_event_type : string;
  e_description : string;
  e_data_json : string;
  e_created_at : Z;
}.

Record DisplayedRow := mkDisplayedRow {
  d_id : string;
  d_account_id : Z;
  d_direction : string;
  d_source : string;
  d_status : string;
  d_amount : Z;
  d_block_height : Z;
  d_timestamp : Z;
  d_transaction_json : string;
  d_payref : option string;
  d_created_at : Z;
  d_updated_at : Z;
}.

Record PayrefHistoryRow := mkPayrefHistoryRow {
  h_id : Z;
  h_account_id : Z;
  h_transaction_id : Z;
  h_old_payref : string;
  h_output_hash : option string;
  h_created_at : Z;
}.

Record WebhookRow := mkWebhookRow {
  w_id : Z;
  w_event_id : option Z;
  w_event_type : string;
  w_payload : string;
  w_target_url : string;
  w_status : string;
  w_attempt_count : Z;
  w_next_retry_at : Z;
  w_created_at : Z;
  w_last_error : option string;
}.

Record BurnProofRow := mkBurnProofRow {
  bp_id : Z;
  bp_account_id : Z;
  bp_output_hash : string;
  bp_commitment : string;
  bp_claim_public_key : string;
  bp_ownership_proof_nonce : string;
  bp_ownership_proof_sig : string;
  bp_kernel_excess : string;
  bp_kernel_excess_nonce : string;
  bp_kernel_excess_sig : string;
  bp_sender_offset_public_key : string;
  bp_encrypted_data : string;
  bp_value : Z;
  bp_kernel_fee : Z;
  bp_kernel_lock_height : Z;
  bp_status : string;
  bp_created_at : Z;
  bp_updated_at : Z;
}.

Record AccountRow := mkAccountRow {
  a_id : Z;
  a_friendly_name : string;
  a_fingerprint : string;
  a_encrypted_wallet : string;
  a_cipher_nonce : string;
  a_salt : string;
  a_birthday : Z;
}.

Record Db := mkDb {
  clock : Z;
  accounts : Table AccountRow;
  outputs : Table OutputRow;
  inputs : Table InputRow;
  balance_changes : Table BalanceChangeRow;
  pending_transactions : Table PendingRow;
  completed_transactions : Table CompletedRow;
  scanned_tip_blocks : Table TipRow;
  events : Table EventRow;
  displayed_transactions : Table DisplayedRow;
  payref_history : Table PayrefHistoryRow;
  webhook_queue : Table WebhookRow;
  burn_proofs : Table BurnProofRow;
}.

Definition empty_db (now : Z) : Db :=
  mkDb now empty_table empty_table empty_table empty_table empty_table empty_table empty_table
    empty_table empty_table empty_table empty_table empty_table.

(** Replacing one table. *)
Definition with_clock (x : Z) (d : Db) : Db :=
  mkDb x (accounts d) (outputs d) (inputs d) (balance_changes d) (pending_transactions d) (completed_transactions d) (scanned_tip_blocks d) (events d) (displayed_transactions d) (payref_history d) (webhook_queue d) (burn_proofs d).
Definition with_accounts (x : Table AccountRow) (d : Db) : Db :=
  mkDb (clock d) x (outputs d) (inputs d) (balance_changes d) (pending_transactions d) (completed_transactions d) (scanned_tip_blocks d) (events d) (displayed_transactions d) (payref_history d) (webhook_queue d) (burn_proofs d).
Definition with_outputs (x : Table OutputRow) (d : Db) : Db :=
  mkDb (clock d) (accounts d) x (inputs d) (balance_changes d) (pending_transactions d) (completed_transactions d) (scanned_tip_blocks d) (events d) (displayed_transactions d) (payref_history d) (webhook_queue d) (burn_proofs d).
Definition with_inputs (x : Table InputRow) (d : Db) : Db :=
  mkDb (clock d) (accounts d) (outputs d) x (balance_changes d) (pending_transactions d) (completed_transactions d) (scanned_tip_blocks d) (events d) (displayed_transactions d) (payref_history d) (webhook_queue d) (burn_proofs d).
Definition with_balance_changes (x : Table BalanceChangeRow) (d : Db) : Db :=
  mkDb (clock d) (accounts d) (outputs d) (inputs d) x (pending_transactions d) (completed_transactions d) (scanned_tip_blocks d) (events d) (displayed_transactions d) (payref_history d) (webhook_queue d) (burn_proofs d).
Definition with_pending_transactions (x : Table PendingRow) (d : Db) : Db :=
  mkDb (clock d) (accounts d) (outputs d) (inputs d) (balance_changes d) x (completed_transactions d) (scanned_tip_blocks d) (events d) (displayed_transactions d) (payref_history d) (webhook_queue d) (burn_proofs d).
Definition with_completed_transactions (x : Table CompletedRow) (d : Db) : Db :=
  mkDb (clock d) (accounts d) (outputs d) (inputs d) (balance_changes d) (pending_transactions d) x (scanned_tip_blocks d) (events d) (displayed_transactions d) (payref_history d) (webhook_queue d) (burn_proofs d).
Definition with_scanned_tip_blocks (x : Table TipRow) (d : Db) : Db :=
  mkDb (clock d) (accounts d) (outputs d) (inputs d) (balance_changes d) (pending_transactions d) (completed_transactions d) x (events d) (displayed_transactions d) (payref_history d) (webhook_queue d) (burn_proofs d).
Definition with_events (x : Table EventRow) (d : Db) : Db :=
  mkDb (clock d) (accounts d) (outputs d) (inputs d) (balance_changes d) (pending_transactions d) (completed_transactions d) (scanned_tip_blocks d) x (displayed_transactions d) (payref_history d) (webhook_queue d) (burn_proofs d).
Definition with_displayed_transactions (x : Table DisplayedRow) (d : Db) : Db :=
  mkDb (clock d) (accounts d) (outputs d) (inputs d) (balance_changes d) (pending_transactions d) (completed_transactions d) (scanned_tip_blocks d) (events d) x (payref_history d) (webhook_queue d) (burn_proofs d).
Definition with_payref_history (x : Table PayrefHistoryRow) (d : Db) : Db :=
  mkDb (clock d) (accounts d) (outputs d) (inputs d) (balance_changes d) (pending_transactions d) (completed_transactions d) (scanned_tip_blocks d) (events d) (displayed_transactions d) x (webhook_queue d) (burn_proofs d).
Definition with_webhook_queue (x : Table WebhookRow) (d : Db) : Db :=
  mkDb (clock d) (accounts d) (outputs d) (inputs d) (balance_changes d) (pending_transactions d) (completed_transactions d) (scanned_tip_blocks d) (events d) (displayed_transactions d) (payref_history d) x (burn_proofs d).
Definition with_burn_proofs (x : Table BurnProofRow) (d : Db) : Db :=
  mkDb (clock d) (accounts d) (outputs d) (inputs d) (balance_changes d) (pending_transactions d) (completed_transactions d) (scanned_tip_blocks d) (events d) (displayed_transactions d) (payref_history d) (webhook_queue d) x.

(** A database operation. *)
Definition DbM (A : Type) : Type := M Db WalletDbError A.

(** Foreign keys ([PRAGMA foreign_keys = ON]) of the rows an operation inserts. *)
Definition account_exists (id : Z) (d : Db) : bool :=
  existsb (fun a => a_id a =? id) (rows (accounts d)).
Definition output_exists (id : Z) (d : Db) : bool :=
  existsb (fun o => o_id o =? id) (rows (outputs d)).
Definition input_exists (id : Z) (d : Db) : bool :=
  existsb (fun i => i_id i =? id) (rows (inputs d)).
Definition balance_change_exists (id : Z) (d : Db) : bool :=
  existsb (fun b => b_id b =? id) (rows (balance_changes d)).
Definition pending_exists (id : string) (d : Db) : bool :=
  existsb (fun p => String.eqb (p_id p) id) (rows (pending_transactions d)).
Definition event_exists (id : Z) (d : Db) : bool :=
  existsb (fun e => e_id e =? id) (rows (events d)).

(** A nullable foreign key holds when it is [NULL]. *)
Definition opt_ref (p : Z -> bool) (o : option Z) : bool :=
  match o with None => true | Some x => p x end.

(** A statement whose constraint [ok] fails changes nothing and raises
    [SqliteFailure(ConstraintViolation)]. *)
Definition constrained (ok : Db -> bool) : DbM unit := fun d =>
  if ok d then (Ok tt, d) else (Err (Rusqlite ConstraintViolation), d).

(** [x = :param] on a nullable column is false on [NULL]. *)
Definition opt_eqb (o : option string) (s : string) : bool :=
  match o with Some x => String.eqb x s | None => false end.

Lemma preserves_constrained (P : Db -> Prop) ok : preserves P (constrained ok).
Proof. intros d H. unfold constrained. by destruct (ok d). Qed.

Lemma constrained_inv ok d r d' : constrained ok d = (Ok r, d') -> ok d = true /\ d' = d.
Proof. unfold constrained. destruct (ok d); naive_solver. Qed.

#[export] Hint Resolve preserves_constrained : dbm.

(** [SELECT SUM(col)] over selected rows: an overflow is a SQL error. *)
Definition sql_sum_m (f : Db -> list Z) : DbM Z := fun d =>
  match sql_sum (f d) with
  | Some s => (Ok s, d)
  | None => (Err (Rusqlite IntegerOverflow), d)
  end.

Lemma preserves_sql_sum_m (P : Db -> Prop) f : preserves P (sql_sum_m f).
Proof. intros d H. unfold sql_sum_m. by destruct (sql_sum (f d)). Qed.

Lemma sql_sum_m_inv f d s d' : sql_sum_m f d = (Ok s, d') -> s = sumZ (f d) /\ d' = d.
Proof.
  unfold sql_sum_m. destruct (sql_sum (f d)) as [x|] eqn:E; [|done].
  intros [= <- <-]. split; [by apply sql_sum_exact|done].
Qed.

#[export] Hint Resolve preserves_sql_sum_m : dbm.

(** An [anyhow::Error]: the database error it was made from, or its message. *)
Inductive AnyError :=
| AnyDb (e : WalletDbError)
| AnyMsg (msg : string).

Definition AnyM (A : Type) : Type := M Db AnyError A.
Definition any_db {A} (m : DbM A) : AnyM A := map_err AnyDb m.

(** Proving that an update of one table preserves a property of the others. *)
Ltac solve_modify := apply preserves_modify; intros ? ?; subst; cbn; try done.
#[export] Hint Extern 5 (preserves _ (modify _)) => solve_modify : dbm.

