(* ===== verification/BalanceDb.v ===== *)
(** * Balance changes ([minotari/src/db/balance_changes.rs])

    The append-only journal of credits and debits, with the queries the block
    processor, the reorg handler and the balance computation run on it. *)
From S2P Require Import Prelude Models Schema.
#[local] Open Scope Z_scope.

(** ** Operations *)
Definition balance_change_row (id : Z) (change : BalanceChange) : BalanceChangeRow := {|
  b_id := id;
  b_account_id := bc_account_id change;
  b_caused_by_output_id := caused_by_output_id change;
  b_caused_by_input_id := caused_by_input_id change;
  b_description := bc_description change;
  b_balance_credit := as_i64 (balance_credit change);
  b_balance_debit := as_i64 (balance_debit change);
  b_effective_date := effective_date change;
  b_effective_height := as_i64 (effective_height change);
  b_claimed_recipient_address := claimed_recipient_address change;
  b_claimed_sender_address := claimed_sender_address change;
  b_memo_parsed := bc_memo_parsed change;
  b_memo_hex := bc_memo_hex change;
  b_claimed_fee := as_i64 <$> claimed_fee change;
  b_claimed_amount := as_i64 <$> claimed_amount change;
  b_is_reversal := is_reversal change;
  b_reversal_of_balance_change_id := reversal_of_balance_change_id change;
  b_is_reversed := is_reversed change;
|}.

(** The foreign keys of [balance_changes]. *)
Definition balance_change_refs (change : BalanceChange) (d : Db) : bool :=
  account_exists (bc_account_id change) d
  && opt_ref (fun i => output_exists i d) (caused_by_output_id change)
  && opt_ref (fun i => input_exists i d) (caused_by_input_id change)
  && opt_ref (fun i => balance_change_exists i d) (reversal_of_balance_change_id change).

Definition insert_balance_change (change : BalanceChange) : DbM Z :=
  constrained (balance_change_refs change) ;;;
  let! d := gets id in
  let '(id, t) := insert_auto (fun id => balance_change_row id change) (balance_changes d) in
  modify (with_balance_changes t) ;;;
  ret id.

(** Reading a row into the struct: [serde] refuses a negative integer in an
    unsigned field. *)
Definition unsigned (z : Z) : option Z := if 0 <=? z then Some z else None.
Definition opt_unsigned (o : option Z) : option (option Z) :=
  match o with None => Some None | Some z => Some <$> unsigned z end.

Definition balance_change_of_row (r : BalanceChangeRow) : option BalanceChange :=
  credit ← unsigned (b_balance_credit r);
  debit ← unsigned (b_balance_debit r);
  height ← unsigned (b_effective_height r);
  cfee ← opt_unsigned (b_claimed_fee r);
  camount ← opt_unsigned (b_claimed_amount r);
  Some (mkBalanceChange (b_account_id r) (b_caused_by_output_id r) (b_caused_by_input_id r)
    (b_description r) credit debit (b_effective_date r) height (b_claimed_recipient_address r)
    (b_claimed_sender_address r) (b_memo_parsed r) (b_memo_hex r) cfee camount (b_is_reversal r)
    (b_reversal_of_balance_change_id r) (b_is_reversed r)).

(** [ORDER BY effective_height ASC, id ASC]. *)
Definition by_height_id (a b : BalanceChangeRow) : bool :=
  (b_effective_height a <? b_effective_height b)
  || ((b_effective_height a =? b_effective_height b) && (b_id a <=? b_id b)).

Definition get_all_balance_changes_by_account_id (account_id : Z) : DbM (list BalanceChange) :=
  let! d := gets id in
  let rs := sort_by by_height_id
    (select (fun b => b_account_id b =? account_id) (balance_changes d)) in
  lift (ok_or (mapM balance_change_of_row rs) SerdeRusqlite).

Definition get_all_active_balance_changes_by_account_id (account_id : Z) : DbM (list BalanceChange) :=
  let! d := gets id in
  let rs := sort_by by_height_id
    (select (fun b => (b_account_id b =? account_id)
      && negb (b_is_reversed b) && negb (b_is_reversal b)) (balance_changes d)) in
  lift (ok_or (mapM balance_change_of_row rs) SerdeRusqlite).

Record DbBalanceAggregates := mkDbBalanceAggregates {
  total_credits : option Z;
  total_debits : option Z;
  max_height : option Z;
  max_date : option Z;
}.

(** An aggregate over no row is [NULL]. *)
Definition non_empty {A B} (l : list A) (b : B) : option B :=
  match l with [] => None | _ => Some b end.

Definition list_max (l : list Z) : Z := foldr Z.max (hd 0 l) l.

Definition account_changes (account_id : Z) (d : Db) : list BalanceChangeRow :=
  select (fun b => b_account_id b =? account_id) (balance_changes d).

Definition get_balance_aggregates_for_account (account_id : Z) : DbM DbBalanceAggregates :=
  let! credits := sql_sum_m (fun d => map b_balance_credit (account_changes account_id d)) in
  let! debits := sql_sum_m (fun d => map b_balance_debit (account_changes account_id d)) in
  let! l := gets (account_changes account_id) in
  ret (mkDbBalanceAggregates (non_empty l credits) (non_empty l debits)
    (non_empty l (list_max (map b_effective_height l)))
    (non_empty l (list_max (map b_effective_date l)))).

(** [ORDER BY id DESC LIMIT 1]. *)
Definition last_change_id (l : list BalanceChangeRow) : option Z :=
  b_id <$> head (sort_by (fun a b => b_id b <=? b_id a) l).

Definition caused_by_output (output_id : Z) (b : BalanceChangeRow) : bool :=
  opt_ref (fun i => i =? output_id) (b_caused_by_output_id b)
  && negb (is_none (b_caused_by_output_id b))
  && negb (b_is_reversal b) && negb (b_is_reversed b).

Definition caused_by_input (input_id : Z) (b : BalanceChangeRow) : bool :=
  opt_ref (fun i => i =? input_id) (b_caused_by_input_id b)
  && negb (is_none (b_caused_by_input_id b))
  && negb (b_is_reversal b) && negb (b_is_reversed b).

Definition get_balance_change_id_by_output (output_id : Z) : DbM (option Z) :=
  gets (fun d => last_change_id (select (caused_by_output output_id) (balance_changes d))).

Definition get_balance_change_id_by_input (input_id : Z) : DbM (option Z) :=
  gets (fun d => last_change_id (select (caused_by_input input_id) (balance_changes d))).

Definition set_reversed (b : BalanceChangeRow) : BalanceChangeRow :=
  mkBalanceChangeRow (b_id b) (b_account_id b) (b_caused_by_output_id b) (b_caused_by_input_id b)
    (b_description b) (b_balance_credit b) (b_balance_debit b) (b_effective_date b)
    (b_effective_height b) (b_claimed_recipient_address b) (b_claimed_sender_address b)
    (b_memo_parsed b) (b_memo_hex b) (b_claimed_fee b) (b_claimed_amount b) (b_is_reversal b)
    (b_reversal_of_balance_change_id b) true.

Definition mark_balance_change_as_reversed (balance_change_id : Z) : DbM unit :=
  modify (fun d => with_balance_changes
    (update_where (fun b => b_id b =? balance_change_id) set_reversed (balance_changes d)) d).

(** ** The journal balance of an account *)
Definition journal_rows (account_id : Z) (l : list BalanceChangeRow) : Z :=
  zsum (fun b => b_balance_credit b - b_balance_debit b)
    (List.filter (fun b => b_account_id b =? account_id) l).

Definition journal (account_id : Z) (d : Db) : Z := journal_rows account_id (rows (balance_changes d)).

(** What an inserted change adds to the journal of [account_id]. *)
Definition change_effect (account_id : Z) (c : BalanceChange) : Z :=
  if bc_account_id c =? account_id then as_i64 (balance_credit c) - as_i64 (balance_debit c) else 0.

Lemma insert_balance_change_inv c d id d' :
  insert_balance_change c d = (Ok id, d') ->
  id = seqno (balance_changes d) + 1 /\
  d' = with_balance_changes (mkTable (rows (balance_changes d) ++ [balance_change_row id c]) id) d.
Proof.
  unfold insert_balance_change. intros H. inv_ok.
  match goal with H : constrained _ _ = _ |- _ => apply constrained_inv in H as [_ ->] end.
  done.
Qed.

Lemma journal_rows_app acc l k : journal_rows acc (l ++ k) = journal_rows acc l + journal_rows acc k.
Proof. unfold journal_rows. by rewrite filter_app_bool, zsum_app. Qed.

Lemma journal_rows_single acc id c :
  journal_rows acc [balance_change_row id c] = change_effect acc c.
Proof.
  unfold journal_rows, change_effect. cbn. destruct (bc_account_id c =? acc); [|done].
  rewrite zsum_cons, zsum_nil. cbn. lia.
Qed.

Lemma journal_insert acc c d id d' :
  insert_balance_change c d = (Ok id, d') -> journal acc d' = journal acc d + change_effect acc c.
Proof.
  intros H. apply insert_balance_change_inv in H as [-> ->]. unfold journal. cbn.
  by rewrite journal_rows_app, journal_rows_single.
Qed.

Lemma journal_mark_reversed acc id d :
  journal acc (snd (mark_balance_change_as_reversed id d)) = journal acc d.
Proof.
  unfold journal, journal_rows. cbn.
  rewrite filter_update_rows by done. by rewrite zsum_update_rows.
Qed.

(** The journal is the difference of the two aggregates. *)
Lemma journal_aggregates acc d agg d' :
  get_balance_aggregates_for_account acc d = (Ok agg, d') ->
  d' = d /\ journal acc d = default 0 (total_credits agg) - default 0 (total_debits agg).
Proof.
  unfold get_balance_aggregates_for_account. intros H. inv_ok.
  repeat match goal with H : sql_sum_m _ _ = _ |- _ => apply sql_sum_m_inv in H as [-> ->] end.
  split; [done|]. unfold journal, journal_rows, account_changes, select, sumZ in *.
  rewrite !zsum_map. set (l := List.filter _ _).
  assert (Hs : zsum (fun b => b_balance_credit b - b_balance_debit b) l
          = zsum (fun x => id (b_balance_credit x)) l - zsum (fun x => id (b_balance_debit x)) l).
  { clear. induction l as [|x l IH]; [done|]. rewrite !zsum_cons, IH. unfold id. lia. }
  rewrite Hs. destruct l; cbn; [rewrite !zsum_nil|]; lia.
Qed.

(** Frame: the journal's operations touch only [balance_changes]. *)
Lemma preserves_insert_balance_change (P : Db -> Prop) c :
  (forall t d, P d -> P (with_balance_changes t d)) -> preserves P (insert_balance_change c).
Proof. intros HP. unfold insert_balance_change. solve_preserves. Qed.

Lemma preserves_mark_reversed (P : Db -> Prop) i :
  (forall t d, P d -> P (with_balance_changes t d)) -> preserves P (mark_balance_change_as_reversed i).
Proof. intros HP. apply preserves_modify. auto. Qed.

Lemma preserves_change_id_by_output (P : Db -> Prop) i : preserves P (get_balance_change_id_by_output i).
Proof. apply preserves_gets. Qed.
Lemma preserves_change_id_by_input (P : Db -> Prop) i : preserves P (get_balance_change_id_by_input i).
Proof. apply preserves_gets. Qed.
Lemma preserves_aggregates (P : Db -> Prop) i : preserves P (get_balance_aggregates_for_account i).
Proof. unfold get_balance_aggregates_for_account. solve_preserves. Qed.

#[export] Hint Resolve preserves_change_id_by_output preserves_change_id_by_input
  preserves_aggregates : dbm.
#[export] Hint Extern 5 (preserves _ (insert_balance_change _)) =>
  apply preserves_insert_balance_change; intros ? ? ?; subst; cbn; try done : dbm.
#[export] Hint Extern 5 (preserves _ (mark_balance_change_as_reversed _)) =>
  apply preserves_mark_reversed; intros ? ? ?; subst; cbn; try done : dbm.
