(* ===== verification/OutputsDb.v ===== *)
(** * Wallet outputs ([minotari/src/db/outputs.rs])

    The [outputs] table: insertion when a block is scanned, the confirmation and
    status updates, the locks taken for pending transactions, soft deletion on a
    reorg, and the queries of the input selector and of the balance. *)
From S2P Require Import Prelude Models DisplayTypes External Schema BalanceDb.
#[local] Open Scope Z_scope.

Definition UNSPENT : string := OutputStatus.to_string OutputStatus.Unspent.
Definition LOCKED : string := OutputStatus.to_string OutputStatus.Locked.
Definition SPENT : string := OutputStatus.to_string OutputStatus.Spent.

(** ** Row updates *)
Definition set_confirmed (height : Z) (hash : string) (o : OutputRow) : OutputRow :=
  mkOutputRow (o_id o) (o_account_id o) (o_tx_id o) (o_output_hash o) (o_mined_in_block_height o)
    (o_mined_in_block_hash o) (o_value o) (o_mined_timestamp o) (o_wallet_output_json o)
    (o_memo_parsed o) (o_memo_hex o) (o_payment_reference o) (o_is_burn o) (Some height) (Some hash)
    (o_status o) (o_locked_at o) (o_locked_by_request_id o) (o_deleted_at o)
    (o_deleted_in_block_height o).

Definition set_deleted (now height : Z) (o : OutputRow) : OutputRow :=
  mkOutputRow (o_id o) (o_account_id o) (o_tx_id o) (o_output_hash o) (o_mined_in_block_height o)
    (o_mined_in_block_hash o) (o_value o) (o_mined_timestamp o) (o_wallet_output_json o)
    (o_memo_parsed o) (o_memo_hex o) None (o_is_burn o) (o_confirmed_height o) (o_confirmed_hash o)
    (o_status o) (o_locked_at o) (o_locked_by_request_id o) (Some now) (Some height).

Definition set_output_status (s : string) (o : OutputRow) : OutputRow :=
  mkOutputRow (o_id o) (o_account_id o) (o_tx_id o) (o_output_hash o) (o_mined_in_block_height o)
    (o_mined_in_block_hash o) (o_value o) (o_mined_timestamp o) (o_wallet_output_json o)
    (o_memo_parsed o) (o_memo_hex o) (o_payment_reference o) (o_is_burn o) (o_confirmed_height o)
    (o_confirmed_hash o) s (o_locked_at o) (o_locked_by_request_id o) (o_deleted_at o)
    (o_deleted_in_block_height o).

Definition set_lock (at_ : option Z) (req : option string) (o : OutputRow) : OutputRow :=
  mkOutputRow (o_id o) (o_account_id o) (o_tx_id o) (o_output_hash o) (o_mined_in_block_height o)
    (o_mined_in_block_hash o) (o_value o) (o_mined_timestamp o) (o_wallet_output_json o)
    (o_memo_parsed o) (o_memo_hex o) (o_payment_reference o) (o_is_burn o) (o_confirmed_height o)
    (o_confirmed_hash o) (o_status o) at_ req (o_deleted_at o) (o_deleted_in_block_height o).

(** [deleted_at IS NULL]. *)
Definition active (o : OutputRow) : bool := is_none (o_deleted_at o).

Definition update_outputs (p : OutputRow -> bool) (f : OutputRow -> OutputRow) : DbM unit :=
  modify (fun d => with_outputs (update_where p f (outputs d)) d).

(** ** Operations *)
Section Operations.
Context {X : Ext}.

(** The partial unique indexes on [output_hash] and [tx_id] of active rows. *)
Definition output_is_unique (hash : string) (tx_id : Z) (d : Db) : bool :=
  negb (existsb (fun o => active o && (String.eqb (o_output_hash o) hash || (o_tx_id o =? tx_id)))
    (rows (outputs d))).

Definition insert_output (account_id : Z) (account_view_key output_hash : string)
    (output : WalletOutput) (block_height : Z) (block_hash : string) (mined_timestamp : Z)
    (memo_parsed memo_hex : option string) (payment_reference : string) (is_burn : bool) : DbM Z :=
  let tx_id := as_i64 (tx_id_new_deterministic account_view_key (wo_output_hash output)) in
  let! output_json := lift (ok_or (output_to_json output) SerdeJson) in
  let! mined_timestamp_dt := lift (ok_or (datetime_from_timestamp (as_i64 mined_timestamp))
    (Decoding ("Invalid mined timestamp: " +:+ pretty mined_timestamp))) in
  constrained (fun d => account_exists account_id d && output_is_unique output_hash tx_id d) ;;;
  let! d := gets id in
  let '(id, t) := insert_auto (fun id => {|
      o_id := id;
      o_account_id := account_id;
      o_tx_id := tx_id;
      o_output_hash := output_hash;
      o_mined_in_block_height := as_i64 block_height;
      o_mined_in_block_hash := block_hash;
      o_value := as_i64 (wo_value output);
      o_mined_timestamp := mined_timestamp_dt;
      o_wallet_output_json := output_json;
      o_memo_parsed := memo_parsed;
      o_memo_hex := memo_hex;
      o_payment_reference := Some (hex_encode payment_reference);
      o_is_burn := Z.b2z is_burn;
      o_confirmed_height := None;
      o_confirmed_hash := None;
      o_status := UNSPENT;
      o_locked_at := None;
      o_locked_by_request_id := None;
      o_deleted_at := None;
      o_deleted_in_block_height := None |}) (outputs d) in
  modify (with_outputs t) ;;;
  ret id.

(** The first selected row, decoded: its id, its [TxId] and its output. *)
Definition output_info (l : list OutputRow) : DbM (option (Z * Z * WalletOutput)) :=
  match l with
  | [] => ret None
  | data :: _ =>
      let! output := lift (ok_or (output_of_json (o_wallet_output_json data)) SerdeJson) in
      ret (Some (o_id data, as_u64 (o_tx_id data), output))
  end.

Definition get_output_info_by_hash (output_hash : string) : DbM (option (Z * Z * WalletOutput)) :=
  let! d := gets id in
  output_info (select (fun o => String.eqb (o_output_hash o) output_hash && active o) (outputs d)).

Definition get_output_info_by_hash_for_account (account_id : Z) (output_hash : string) :
    DbM (option (Z * Z * WalletOutput)) :=
  let! d := gets id in
  output_info (select (fun o => (o_account_id o =? account_id)
    && String.eqb (o_output_hash o) output_hash && active o) (outputs d)).

Record UnconfirmedOutputRow := mkUnconfirmedOutputRow {
  uo_output_hash : string;
  uo_mined_in_block_height : Z;
  uo_memo_parsed : option string;
  uo_memo_hex : option string;
  uo_tx_id : Z;
  uo_is_burn : Z;
}.

Definition get_unconfirmed_outputs (account_id current_height confirmation_blocks : Z) :
    DbM (list UnconfirmedOutputRow) :=
  let min_height := as_i64 (u64_saturating_sub current_height confirmation_blocks) in
  let! d := gets id in
  ret (map (fun o => mkUnconfirmedOutputRow (o_output_hash o) (o_mined_in_block_height o)
      (o_memo_parsed o) (o_memo_hex o) (o_tx_id o) (o_is_burn o))
    (select (fun o => (o_account_id o =? account_id) && (o_mined_in_block_height o <=? min_height)
      && is_none (o_confirmed_height o) && active o) (outputs d))).

Definition mark_output_confirmed (output_hash : string) (confirmed_height : Z) (confirmed_hash : string) :
    DbM unit :=
  update_outputs (fun o => String.eqb (o_output_hash o) output_hash)
    (set_confirmed (as_i64 confirmed_height) confirmed_hash).

(** The outputs a reorg at [height] (an [i64] column value) invalidates. *)
Definition from_height (account_id height : Z) (o : OutputRow) : bool :=
  (o_account_id o =? account_id) && (o_mined_in_block_height o >=? height) && active o.

Definition output_reversal (account_id height now : Z) (row : OutputRow) (original : option Z) :
    BalanceChange := {|
  bc_account_id := account_id;
  caused_by_output_id := Some (o_id row);
  caused_by_input_id := None;
  bc_description := "Reversal: Output found in blockchain scan (reorg at height " +:+ pretty height +:+ ")";
  balance_credit := 0;
  balance_debit := as_u64 (o_value row);
  effective_date := now;
  effective_height := height;
  claimed_recipient_address := None;
  claimed_sender_address := None;
  bc_memo_parsed := None;
  bc_memo_hex := None;
  claimed_fee := None;
  claimed_amount := None;
  is_reversal := true;
  reversal_of_balance_change_id := original;
  is_reversed := false;
|}.

Definition reverse_output (account_id height now : Z) (row : OutputRow) : DbM unit :=
  let! original := get_balance_change_id_by_output (o_id row) in
  match original with
  | Some original_id => mark_balance_change_as_reversed original_id
  | None => ret tt
  end ;;;
  insert_balance_change (output_reversal account_id height now row original) ;;;
  ret tt.

Definition soft_delete_outputs_from_height (account_id height : Z) : DbM unit :=
  let height_i64 := as_i64 height in
  let! now := gets clock in
  let! outputs_to_delete := gets (fun d => select (from_height account_id height_i64) (outputs d)) in
  for_each (reverse_output account_id height now) outputs_to_delete ;;;
  update_outputs (from_height account_id height_i64) (set_deleted now height_i64).

Definition update_output_status (output_id : Z) (status : OutputStatus.t) : DbM unit :=
  update_outputs (fun o => o_id o =? output_id) (set_output_status (OutputStatus.to_string status)).

Definition lock_output (output_id : Z) (locked_by_request_id : string) (locked_at : Z) : DbM unit :=
  update_outputs (fun o => (o_id o =? output_id) && String.eqb (o_status o) UNSPENT)
    (fun o => set_lock (Some locked_at) (Some locked_by_request_id) (set_output_status LOCKED o)).

Record DbWalletOutput := mkDbWalletOutput {
  dwo_id : Z;
  dwo_tx_id : Z;
  dwo_output : WalletOutput;
}.

Definition to_db_wallet_output (row : OutputRow) : option DbWalletOutput :=
  output ← output_of_json (o_wallet_output_json row);
  Some (mkDbWalletOutput (o_id row) (as_u64 (o_tx_id row)) output).

Definition get_output_by_id (output_id : Z) : DbM (option OutputRow) :=
  gets (fun d => head (select (fun o => o_id o =? output_id) (outputs d))).

(** [DbOutput::to_wallet_output]; the column is [NOT NULL] since migration 27. *)
Definition to_wallet_output (row : OutputRow) : outcome WalletDbError WalletOutput :=
  ok_or (output_of_json (o_wallet_output_json row)) SerdeJson.

Definition spendable (account_id min_height : Z) (o : OutputRow) : bool :=
  (o_account_id o =? account_id) && String.eqb (o_status o) UNSPENT
  && (o_mined_in_block_height o <=? min_height) && active o && (o_is_burn o =? 0).

Definition fetch_unspent_outputs (account_id min_height : Z) : DbM (list DbWalletOutput) :=
  let min_height_i64 := as_i64 min_height in
  let! d := gets id in
  let raw_rows := sort_by (fun a b => o_value b <=? o_value a)
    (select (spendable account_id min_height_i64) (outputs d)) in
  lift (ok_or (mapM to_db_wallet_output raw_rows) SerdeJson).

Definition locked_by (req : string) (o : OutputRow) : bool :=
  opt_eqb (o_locked_by_request_id o) req && String.eqb (o_status o) LOCKED.

Definition unlock_outputs_for_request (locked_by_request_id : string) : DbM unit :=
  update_outputs (locked_by locked_by_request_id)
    (fun o => set_lock None None (set_output_status UNSPENT o)).

Definition fetch_outputs_by_lock_request_id (locked_by_request_id : string) : DbM (list DbWalletOutput) :=
  let! d := gets id in
  let raw_rows := select (fun o => opt_eqb (o_locked_by_request_id o) locked_by_request_id) (outputs d) in
  lift (ok_or (mapM to_db_wallet_output raw_rows) SerdeJson).

(** [SUM(CASE WHEN p THEN value ELSE 0 END)]. *)
Definition value_if (p : OutputRow -> bool) (o : OutputRow) : Z := if p o then o_value o else 0.

Definition owned (account_id : Z) (o : OutputRow) : bool :=
  (o_account_id o =? account_id) && active o && (o_is_burn o =? 0).

Definition is_locked (o : OutputRow) : bool := String.eqb (o_status o) LOCKED.
Definition is_unconfirmed (o : OutputRow) : bool := is_none (o_confirmed_height o).

Definition get_output_totals_for_account (account_id : Z) : DbM (Z * Z * Z) :=
  let col p := sql_sum_m (fun d => map (value_if p) (select (owned account_id) (outputs d))) in
  let! locked_val := col is_locked in
  let! unconfirmed_val := col is_unconfirmed in
  let! locked_and_unconfirmed_val := col (fun o => is_locked o && is_unconfirmed o) in
  ret (as_u64 locked_val, as_u64 unconfirmed_val, as_u64 locked_and_unconfirmed_val).

Record ReorgOutputInfo := mkReorgOutputInfo {
  ro_output_hash : string;
  ro_mined_in_block_height : Z;
  ro_locked_by_request_id : option string;
}.

Definition get_active_outputs_from_height (account_id height : Z) : DbM (list ReorgOutputInfo) :=
  gets (fun d => map (fun o => mkReorgOutputInfo (o_output_hash o) (o_mined_in_block_height o)
      (o_locked_by_request_id o))
    (select (from_height account_id (as_i64 height)) (outputs d))).

(** [row.get(0)] into a [u64] refuses a negative sum. *)
Definition get_total_unspent_balance (account_id : Z) : DbM Z :=
  let! total := sql_sum_m (fun d => map o_value (select (fun o => (o_account_id o =? account_id)
    && String.eqb (o_status o) UNSPENT && active o && (o_is_burn o =? 0)) (outputs d))) in
  lift (ok_or (unsigned total) (Rusqlite IntegerOverflow)).

End Operations.
