(* ===== verification/InputsDb.v ===== *)
(** * Spent outputs ([minotari/src/db/inputs.rs])

    One row per spend of a wallet output seen on chain; at most one active row
    per output. *)
From S2P Require Import Prelude Models External Schema BalanceDb OutputsDb.
#[local] Open Scope Z_scope.

Definition input_active (i : InputRow) : bool := is_none (i_deleted_at i).

Definition set_input_deleted (now height : Z) (i : InputRow) : InputRow :=
  mkInputRow (i_id i) (i_account_id i) (i_output_id i) (i_mined_in_block_height i)
    (i_mined_in_block_hash i) (i_mined_timestamp i) (Some now) (Some height).

Section Operations.
Context {X : Ext}.

Definition get_input_by_id (input_id : Z) : DbM (option InputRow) :=
  gets (fun d => head (select (fun i => i_id i =? input_id) (inputs d))).

(** The partial unique index on the [output_id] of active rows. *)
Definition has_active_input (output_id : Z) (d : Db) : bool :=
  existsb (fun i => input_active i && (i_output_id i =? output_id)) (rows (inputs d)).

(** [INSERT OR IGNORE]: a unique conflict inserts nothing, and the id returned
    is that of the active row of the output. *)
Definition insert_input (account_id output_id mined_in_block_height : Z)
    (mined_in_block_hash : string) (mined_timestamp : Z) : DbM Z :=
  let! timestamp := lift (ok_or (datetime_from_timestamp (as_i64 mined_timestamp))
    (Decoding ("Invalid mined timestamp: " +:+ pretty mined_timestamp))) in
  let! conflict := gets (has_active_input output_id) in
  when (negb conflict) (
    constrained (fun d => account_exists account_id d && output_exists output_id d) ;;;
    modify (fun d =>
      let '(_, t) := insert_auto (fun id => {|
          i_id := id;
          i_account_id := account_id;
          i_output_id := output_id;
          i_mined_in_block_height := as_i64 mined_in_block_height;
          i_mined_in_block_hash := mined_in_block_hash;
          i_mined_timestamp := timestamp;
          i_deleted_at := None;
          i_deleted_in_block_height := None |}) (inputs d) in
      with_inputs t d)) ;;;
  let! d := gets id in
  match select (fun i => (i_output_id i =? output_id) && input_active i) (inputs d) with
  | i :: _ => ret (i_id i)
  | [] => throw (Rusqlite QueryReturnedNoRows)
  end.

(** The inputs a reorg at [height] (an [i64] column value) invalidates. *)
Definition input_from_height (account_id height : Z) (i : InputRow) : bool :=
  (i_account_id i =? account_id) && (i_mined_in_block_height i >=? height) && input_active i.

Record InputToDelete := mkInputToDelete {
  input_id : Z;
  output_id : Z;
  output_value : Z;
}.

(** [inputs i JOIN outputs o ON i.output_id = o.id]. *)
Definition join_outputs (outs : list OutputRow) (i : InputRow) : list InputToDelete :=
  map (fun o => mkInputToDelete (i_id i) (o_id o) (o_value o))
    (List.filter (fun o => o_id o =? i_output_id i) outs).

Definition input_reversal (account_id height now : Z) (row : InputToDelete) (original : option Z) :
    BalanceChange := {|
  bc_account_id := account_id;
  caused_by_output_id := Some (output_id row);
  caused_by_input_id := Some (input_id row);
  bc_description := "Reversal: Input spent as input (reorg at height " +:+ pretty height +:+ ")";
  balance_credit := as_u64 (output_value row);
  balance_debit := 0;
  effective_date := now;
  effective_height := height;
  claimed_recipient_address := None;
  claimed_sender_address := None;
  bc_memo_parsed := None;
  bc_memo_hex := None;
  claimed_fee := None;
  claimed_amount := None;
  is_reversal := true;
  reversal_of_balance_change_id := original;
  is_reversed := false;
|}.

Definition reverse_input (account_id height now : Z) (row : InputToDelete) : DbM unit :=
  let! original := get_balance_change_id_by_input (input_id row) in
  match original with
  | Some original_id => mark_balance_change_as_reversed original_id
  | None => ret tt
  end ;;;
  insert_balance_change (input_reversal account_id height now row original) ;;;
  ret tt.

Definition soft_delete_inputs_from_height (account_id height : Z) : DbM unit :=
  let height_i64 := as_i64 height in
  let! now := gets clock in
  let! inputs_with_output_values := gets (fun d =>
    flat_map (join_outputs (rows (outputs d)))
      (select (input_from_height account_id height_i64) (inputs d))) in
  for_each (reverse_input account_id height now) inputs_with_output_values ;;;
  modify (fun d => with_inputs
    (update_where (input_from_height account_id height_i64) (set_input_deleted now height_i64) (inputs d)) d).

End Operations.
