(* ===== verification/TipBlocksDb.v ===== *)
(** * Scanned tip blocks ([minotari/src/db/scanned_tip_blocks.rs])

    The hashes of the blocks an account has scanned, kept to detect reorgs:
    every block of the last [RECENT_BLOCKS_TO_KEEP], and one in
    [OLD_BLOCKS_PRUNING_INTERVAL] below. *)
From S2P Require Import Prelude Models Schema BalanceDb.
#[local] Open Scope Z_scope.

Definition RECENT_BLOCKS_TO_KEEP : Z := 1000.
Definition OLD_BLOCKS_PRUNING_INTERVAL : Z := 500.

Definition height_desc (a b : TipRow) : bool := t_height b <=? t_height a.

Definition account_tips (account_id : Z) (d : Db) : list TipRow :=
  sort_by height_desc (select (fun t => t_account_id t =? account_id) (scanned_tip_blocks d)).

Definition tip_block_of_row (r : TipRow) : option ScannedTipBlock :=
  height ← unsigned (t_height r);
  Some (mkScannedTipBlock (t_id r) (t_account_id r) height (t_hash r)).

Definition get_scanned_tip_blocks_by_account (account_id : Z) : DbM (list ScannedTipBlock) :=
  let! tips := gets (account_tips account_id) in
  lift (ok_or (mapM tip_block_of_row tips) SerdeRusqlite).

Definition get_latest_scanned_tip_block_by_account (account_id : Z) : DbM (option ScannedTipBlock) :=
  let! tips := gets (account_tips account_id) in
  ret ((fun r => mkScannedTipBlock (t_id r) (t_account_id r) (as_u64 (t_height r)) (t_hash r))
    <$> head tips).

Record LatestScannedBlock := mkLatestScannedBlock {
  lsb_height : Z;
  lsb_hash : string;
  scanned_at : Z;
}.

Definition get_latest_scanned_block_with_timestamp (account_id : Z) : DbM (option LatestScannedBlock) :=
  let! tips := gets (account_tips account_id) in
  ret ((fun r => mkLatestScannedBlock (as_u64 (t_height r)) (t_hash r) (t_created_at r)) <$> head tips).

(** The unique index on (account, height, hash). *)
Definition tip_recorded (account_id height : Z) (hash : string) (d : Db) : bool :=
  existsb (fun t => (t_account_id t =? account_id) && (t_height t =? height)
    && String.eqb (t_hash t) hash) (rows (scanned_tip_blocks d)).

(** [INSERT OR IGNORE]. *)
Definition insert_scanned_tip_block (account_id height : Z) (hash : string) : DbM unit :=
  let! conflict := gets (tip_recorded account_id height hash) in
  when (negb conflict) (
    constrained (account_exists account_id) ;;;
    modify (fun d =>
      let '(_, t) := insert_auto (fun id => mkTipRow id account_id height hash (clock d))
        (scanned_tip_blocks d) in
      with_scanned_tip_blocks t d)).

Definition tip_from_height (account_id height : Z) (t : TipRow) : bool :=
  (t_account_id t =? account_id) && (t_height t >=? height).

Definition delete_scanned_tip_blocks_from_height (account_id height : Z) : DbM unit :=
  let height := as_i64 height in
  modify (fun d => with_scanned_tip_blocks
    (delete_where (tip_from_height account_id height) (scanned_tip_blocks d)) d).

(** SQLite's [%] truncates towards zero. *)
Definition prunable (account_id min_height interval : Z) (t : TipRow) : bool :=
  (t_account_id t =? account_id) && (t_height t <? min_height) && (t_height t >=? 0)
  && negb (Z.rem (t_height t) interval =? 0).

Definition prune_scanned_tip_blocks (account_id current_tip_height : Z) : DbM unit :=
  let min_height_for_recent := as_i64 (u64_saturating_sub current_tip_height RECENT_BLOCKS_TO_KEEP) in
  let interval := as_i64 OLD_BLOCKS_PRUNING_INTERVAL in
  modify (fun d => with_scanned_tip_blocks
    (delete_where (prunable account_id min_height_for_recent interval) (scanned_tip_blocks d)) d).
