(* ===== verification/PendingDb.v ===== *)
(** * Pending transactions ([minotari/src/db/pending_transactions.rs])

    The requests that hold locks on outputs, keyed by an id and, per account, by
    the caller's idempotency key. *)
From S2P Require Import Prelude Models DisplayTypes External Schema OutputsDb.
#[local] Open Scope Z_scope.

Definition PENDING : string := PendingTransactionStatus.to_string PendingTransactionStatus.Pending.
Definition COMPLETED : string := PendingTransactionStatus.to_string PendingTransactionStatus.Completed.

Definition set_pending_status (s : string) (p : PendingRow) : PendingRow :=
  mkPendingRow (p_id p) (p_account_id p) (p_idempotency_key p) s (p_requires_change_output p)
    (p_total_value p) (p_fee_without_change p) (p_fee_with_change p) (p_expires_at p) (p_created_at p).

(** [PRIMARY KEY (id)] and [UNIQUE (account_id, idempotency_key)]. *)
Definition pending_is_unique (id : string) (account_id : Z) (key : string) (d : Db) : bool :=
  negb (existsb (fun p => String.eqb (p_id p) id
    || ((p_account_id p =? account_id) && String.eqb (p_idempotency_key p) key))
    (rows (pending_transactions d))).

Section Operations.
Context {X : Ext}.

(** [uuid] is the fresh [Uuid::new_v4()].  Every constraint failure is reported
    as a duplicate. *)
Definition create_pending_transaction (uuid idempotency_key : string) (account_id : Z)
    (requires_change_output : bool) (total_value fee_without_change fee_with_change expires_at : Z) :
    DbM string := fun d =>
  if account_exists account_id d && pending_is_unique uuid account_id idempotency_key d then
    (Ok uuid, with_pending_transactions (insert_row {|
      p_id := uuid;
      p_account_id := account_id;
      p_idempotency_key := idempotency_key;
      p_status := PENDING;
      p_requires_change_output := requires_change_output;
      p_total_value := as_i64 total_value;
      p_fee_without_change := as_i64 fee_without_change;
      p_fee_with_change := as_i64 fee_with_change;
      p_expires_at := expires_at;
      p_created_at := clock d |} (pending_transactions d)) d)
  else
    (Err (DuplicateEntry ("Pending transaction with idempotency key '" +:+ idempotency_key
      +:+ "' already exists")), d).

Definition expired (now : Z) (p : PendingRow) : bool :=
  String.eqb (p_status p) PENDING && (p_expires_at p <? now).

Definition find_expired_pending_transactions : DbM (list string) :=
  gets (fun d => map p_id (select (expired (clock d)) (pending_transactions d))).

Definition update_pending_transaction_status (id : string) (status : PendingTransactionStatus.t) : DbM unit :=
  modify (fun d => with_pending_transactions
    (update_where (fun p => String.eqb (p_id p) id)
      (set_pending_status (PendingTransactionStatus.to_string status)) (pending_transactions d)) d).

Definition by_key (key : string) (account_id : Z) (status : string) (p : PendingRow) : bool :=
  String.eqb (p_idempotency_key p) key && (p_account_id p =? account_id) && String.eqb (p_status p) status.

(** The result of locking funds ([api/types.rs]). *)
Record LockFundsResult := mkLockFundsResult {
  lf_utxos : list WalletOutput;
  lf_requires_change_output : bool;
  lf_total_value : Z;
  lf_fee_without_change : Z;
  lf_fee_with_change : Z;
}.

Definition find_pending_transaction_locked_funds_by_idempotency_key (idempotency_key : string)
    (account_id : Z) : DbM (option LockFundsResult) :=
  let! row := gets (fun d => head (select (by_key idempotency_key account_id PENDING)
    (pending_transactions d))) in
  match row with
  | Some row =>
      let! utxos := fetch_outputs_by_lock_request_id (p_id row) in
      ret (Some (mkLockFundsResult (map dwo_output utxos) (p_requires_change_output row)
        (as_u64 (p_total_value row)) (as_u64 (p_fee_without_change row)) (as_u64 (p_fee_with_change row))))
  | None => ret None
  end.

Record PendingTransaction := mkPendingTransaction {
  pt_id : string;
  pt_account_id : Z;
  pt_status : PendingTransactionStatus.t;
  pt_requires_change_output : bool;
  pt_total_value : Z;
  pt_fee_without_change : Z;
  pt_fee_with_change : Z;
  pt_expires_at : Z;
  pt_created_at : Z;
}.

(** The stored id is the text of a UUID, which [Uuid::parse_str] accepts. *)
Definition find_pending_transaction_by_idempotency_key (idempotency_key : string) (account_id : Z) :
    DbM (option PendingTransaction) :=
  let! row := gets (fun d => head (select (by_key idempotency_key account_id PENDING)
    (pending_transactions d))) in
  match row with
  | None => ret None
  | Some row =>
      let! status := lift (outcome_map_err (fun _ => Rusqlite ExecuteReturnedResults)
        (PendingTransactionStatus.from_str (p_status row))) in
      ret (Some (mkPendingTransaction (p_id row) (p_account_id row) status (p_requires_change_output row)
        (as_u64 (p_total_value row)) (as_u64 (p_fee_without_change row)) (as_u64 (p_fee_with_change row))
        (p_expires_at row) (p_created_at row)))
  end.

Definition check_if_transaction_was_already_completed_by_idempotency_key (idempotency_key : string)
    (account_id : Z) : DbM bool :=
  gets (fun d => existsb (by_key idempotency_key account_id COMPLETED) (rows (pending_transactions d))).

Definition check_if_transaction_is_expired_by_idempotency_key (idempotency_key : string)
    (account_id : Z) : DbM bool :=
  gets (fun d => existsb (fun p => by_key idempotency_key account_id PENDING p
    && (p_expires_at p <? clock d)) (rows (pending_transactions d))).

Definition cancel_pending_transactions_by_ids (ids : list string) (status : PendingTransactionStatus.t) :
    DbM unit :=
  match ids with
  | [] => ret tt
  | _ => modify (fun d => with_pending_transactions
      (update_where (fun p => existsb (String.eqb (p_id p)) ids)
        (set_pending_status (PendingTransactionStatus.to_string status)) (pending_transactions d)) d)
  end.

End Operations.
