(* ===== verification/AccountsDb.v ===== *)
(** * Accounts ([minotari/src/db/accounts.rs])

    Looking accounts up, renaming and deleting them, and the balance computed
    from the journal and the output totals.  The encryption of the wallet keys is
    in [Crypto]. *)
From S2P Require Import Prelude Models DisplayTypes External Schema BalanceDb OutputsDb.
#[local] Open Scope Z_scope.

Definition get_account_by_name (friendly_name : string) : DbM (option AccountRow) :=
  gets (fun d => head (select (fun a => String.eqb (a_friendly_name a) friendly_name) (accounts d))).

(** [ORDER BY friendly_name]: the byte order of the [BINARY] collation. *)
Definition get_accounts (friendly_name : option string) : DbM (list AccountRow) :=
  gets (fun d => sort_by (fun a b => String.leb (a_friendly_name a) (a_friendly_name b))
    (match friendly_name with
     | Some name => select (fun a => String.eqb (a_friendly_name a) name) (accounts d)
     | None => rows (accounts d)
     end)).

Section Balance.
Context {X : Ext}.

Record AccountBalance := mkAccountBalance {
  total : Z;
  available : Z;
  locked : Z;
  unconfirmed : Z;
  ab_total_credits : option Z;
  ab_total_debits : option Z;
  ab_max_height : option Z;
  ab_max_date : option Z;
}.

(** [max_date] keeps the timestamp that the code formats. *)
Definition get_balance (account_id : Z) : DbM AccountBalance :=
  let! history_agg := get_balance_aggregates_for_account account_id in
  let! (locked_amount, unconfirmed_amount, locked_and_unconfirmed_amount) :=
    get_output_totals_for_account account_id in
  let total_credits := as_u64 (default 0 (total_credits history_agg)) in
  let total_debits := as_u64 (default 0 (total_debits history_agg)) in
  let total_balance := mm_saturating_sub total_credits total_debits in
  let unavailable_balance :=
    mm_saturating_sub (mm_saturating_add locked_amount unconfirmed_amount) locked_and_unconfirmed_amount in
  let available_balance := mm_saturating_sub total_balance unavailable_balance in
  ret (mkAccountBalance total_balance available_balance locked_amount unconfirmed_amount
    (Some total_credits) (Some total_debits) (max_height history_agg) (max_date history_agg)).

End Balance.

(** ** Deletion *)

(** The rows of [referencing] that point to a deleted row forbid the statement. *)
Definition delete_checked (referenced : Db -> bool) (del : Db -> Db) : DbM unit :=
  constrained (fun d => negb (referenced d)) ;;; modify del.

Definition of_account {R} (acc : R -> Z) (id : Z) (r : R) : bool := acc r =? id.

(** Some row of [t] references, by [fk], a row of [u] that the statement deletes. *)
Definition references {R S} (fk : R -> S -> bool) (t : Table R) (del : S -> bool) (u : Table S) : bool :=
  existsb (fun s => del s && existsb (fun r => fk r s) (rows t)) (rows u).

Definition opt_points (o : option Z) (id : Z) : bool :=
  match o with Some x => x =? id | None => false end.

Section Delete.
Context (account_id : Z).

Definition delete_balance_changes : DbM unit :=
  delete_checked
    (fun d => references (fun r s => opt_points (b_reversal_of_balance_change_id r) (b_id s)
         && negb (b_account_id r =? account_id))
       (balance_changes d) (of_account b_account_id account_id) (balance_changes d))
    (fun d => with_balance_changes (delete_where (of_account b_account_id account_id) (balance_changes d)) d).

Definition delete_inputs : DbM unit :=
  delete_checked
    (fun d => references (fun r s => opt_points (b_caused_by_input_id r) (i_id s))
       (balance_changes d) (of_account i_account_id account_id) (inputs d))
    (fun d => with_inputs (delete_where (of_account i_account_id account_id) (inputs d)) d).

Definition delete_outputs : DbM unit :=
  delete_checked
    (fun d => references (fun r s => opt_points (b_caused_by_output_id r) (o_id s))
         (balance_changes d) (of_account o_account_id account_id) (outputs d)
       || references (fun r s => i_output_id r =? o_id s)
         (inputs d) (of_account o_account_id account_id) (outputs d))
    (fun d => with_outputs (delete_where (of_account o_account_id account_id) (outputs d)) d).

Definition delete_completed_transactions : DbM unit :=
  modify (fun d => with_completed_transactions
    (delete_where (of_account c_account_id account_id) (completed_transactions d)) d).

Definition delete_pending_transactions : DbM unit :=
  delete_checked
    (fun d => references (fun r s => String.eqb (c_pending_tx_id r) (p_id s))
       (completed_transactions d) (of_account p_account_id account_id) (pending_transactions d))
    (fun d => with_pending_transactions
       (delete_where (of_account p_account_id account_id) (pending_transactions d)) d).

Definition delete_scanned_tip_blocks : DbM unit :=
  modify (fun d => with_scanned_tip_blocks
    (delete_where (of_account t_account_id account_id) (scanned_tip_blocks d)) d).

Definition set_event_null (w : WebhookRow) : WebhookRow :=
  mkWebhookRow (w_id w) None (w_event_type w) (w_payload w) (w_target_url w) (w_status w)
    (w_attempt_count w) (w_next_retry_at w) (w_created_at w) (w_last_error w).

(** [webhook_queue.event_id] is [ON DELETE SET NULL]. *)
Definition delete_events : DbM unit :=
  modify (fun d => with_webhook_queue
    (update_where (fun w => existsb (fun e => of_account e_account_id account_id e
        && opt_points (w_event_id w) (e_id e)) (rows (events d))) set_event_null (webhook_queue d))
    (with_events (delete_where (of_account e_account_id account_id) (events d)) d)).

Definition delete_displayed_transactions : DbM unit :=
  modify (fun d => with_displayed_transactions
    (delete_where (of_account d_account_id account_id) (displayed_transactions d)) d).

(** Every table with a foreign key to [accounts]. *)
Definition account_referenced (d : Db) : bool :=
  existsb (of_account b_account_id account_id) (rows (balance_changes d))
  || existsb (of_account i_account_id account_id) (rows (inputs d))
  || existsb (of_account o_account_id account_id) (rows (outputs d))
  || existsb (of_account c_account_id account_id) (rows (completed_transactions d))
  || existsb (of_account p_account_id account_id) (rows (pending_transactions d))
  || existsb (of_account t_account_id account_id) (rows (scanned_tip_blocks d))
  || existsb (of_account e_account_id account_id) (rows (events d))
  || existsb (of_account bp_account_id account_id) (rows (burn_proofs d))
  || existsb (of_account h_account_id account_id) (rows (payref_history d)).

Definition delete_account_row : DbM unit :=
  delete_checked account_referenced
    (fun d => with_accounts (delete_where (of_account a_id account_id) (accounts d)) d).

End Delete.

(** The tables are cleared in the order of [tables_to_clear]. *)
Definition delete_account (friendly_name : string) : DbM unit :=
  let! account := get_account_by_name friendly_name in
  let! account := lift (ok_or account (InvalidInput ("Account '" +:+ friendly_name +:+ "' not found"))) in
  let account_id := a_id account in
  delete_balance_changes account_id ;;;
  delete_inputs account_id ;;;
  delete_outputs account_id ;;;
  delete_completed_transactions account_id ;;;
  delete_pending_transactions account_id ;;;
  delete_scanned_tip_blocks account_id ;;;
  delete_events account_id ;;;
  delete_displayed_transactions account_id ;;;
  delete_account_row account_id.

(** [utils/delete_wallet.rs]: in one database transaction. *)
Definition delete_wallet (account_name : string) : AnyM unit :=
  transaction (any_db (delete_account account_name)).

(** ** Renaming *)
Definition set_name (n : string) (a : AccountRow) : AccountRow :=
  mkAccountRow (a_id a) n (a_fingerprint a) (a_encrypted_wallet a) (a_cipher_nonce a) (a_salt a) (a_birthday a).

Definition name_is (n : string) (a : AccountRow) : bool := String.eqb (a_friendly_name a) n.

Definition account_name_taken (n : string) : WalletDbError :=
  InvalidInput ("An account with the name '" +:+ n +:+ "' already exists").

(** The [UPDATE] violates the unique index on [friendly_name] only when it would
    give the new name to two rows; that error is reported as a taken name. *)
Definition update_account_name (current_name new_name : string) : DbM unit :=
  let! taken := get_account_by_name new_name in
  match taken with
  | Some _ => throw (account_name_taken new_name)
  | None =>
      let! affected_rows := gets (fun d => length (select (name_is current_name) (accounts d))) in
      if (1 <? affected_rows)%nat then throw (account_name_taken new_name) else
      modify (fun d => with_accounts (update_where (name_is current_name) (set_name new_name) (accounts d)) d) ;;;
      if (affected_rows =? 0)%nat then throw (InvalidInput ("Account '" +:+ current_name +:+ "' not found"))
      else ret tt
  end.
