(* ===== verification/Crypto.v ===== *)
(** * Encrypted wallets ([minotari/src/utils/crypto.rs], [utils/fingerprint.rs],
    [utils/init_wallet.rs] and the key methods of [db/accounts.rs])

    A wallet's keys are stored as JSON, encrypted with a key that is derived from the
    password.  Argon2, XChaCha20-Poly1305, the key types and the addresses belong to
    libraries and are parameters; salts and nonces are drawn by the caller of a
    definition. *)
From S2P Require Import Prelude Models DisplayTypes External Schema AccountsDb.
From Stdlib Require Import Ascii.
#[local] Open Scope Z_scope.

(** ** Encryption ([utils/crypto.rs]) *)
Class CryptoExt := {
  Key : Type;
  (** [Argon2::hash_password_into] of a password and a salt. *)
  hash_password_into : string -> string -> outcome string Key;
  (** [XChaCha20Poly1305] under a key and a nonce. *)
  cipher_encrypt : Key -> string -> string -> outcome string string;
  cipher_decrypt : Key -> string -> string -> outcome string string;
}.

(** What was encrypted is decrypted with the same key and nonce. *)
Class CryptoLaws (C : CryptoExt) := {
  cipher_roundtrip : forall k n m c, cipher_encrypt k n m = Ok c -> cipher_decrypt k n c = Ok m;
}.

Record FullEncryptedData := mkFullEncryptedData {
  ciphertext : string;
  nonce : string;
  salt_bytes : string;
}.

(** The bytes of an [XNonce]. *)
Definition NONCE_BYTES : nat := 24.

Section Cipher.
Context {C : CryptoExt}.

Definition derive_key (password salt : string) : outcome string Key :=
  outcome_map_err (fun e => "Key derivation failed: " +:+ e) (hash_password_into password salt).

Definition encrypt_data (salt nonce data password : string) : outcome string FullEncryptedData :=
  outcome_bind (derive_key password salt) (fun key =>
  outcome_bind (outcome_map_err (fun e => "Encryption failed: " +:+ e) (cipher_encrypt key nonce data))
    (fun ciphertext => Ok (mkFullEncryptedData ciphertext nonce salt))).

Definition decrypt_data (data : FullEncryptedData) (password : string) : outcome string string :=
  outcome_bind (derive_key password (salt_bytes data)) (fun key =>
  if negb (String.length (nonce data) =? NONCE_BYTES)%nat then Err "Nonce must be 24 bytes"
  else outcome_map_err (fun e => "Decryption failed: " +:+ e) (cipher_decrypt key (nonce data) (ciphertext data))).

Lemma decrypt_encrypt {L : CryptoLaws C} salt nonce data password e :
  String.length nonce = NONCE_BYTES ->
  encrypt_data salt nonce data password = Ok e -> decrypt_data e password = Ok data.
Proof.
  intros Hn (key & Hk & H)%outcome_bind_ok. apply outcome_bind_ok in H as (c & Hc & [= <-]).
  unfold decrypt_data. cbn. rewrite Hk. cbn. rewrite Hn. cbn.
  destruct (cipher_encrypt key nonce data) as [c'| |] eqn:E; cbn in Hc; try done. injection Hc as ->.
  by rewrite (cipher_roundtrip _ _ _ _ E).
Qed.

End Cipher.

(** ** Wallets and addresses of the Tari libraries *)
Class WalletExt := {
  WalletType : Type;
  wallet_to_json : WalletType -> outcome string string;
  wallet_of_json : string -> outcome string WalletType;
  (** Days since the birthday genesis, a [u16]. *)
  get_birthday : WalletType -> option Z;
  get_public_spend_key : WalletType -> string;
  get_public_view_key : WalletType -> string;
  view_key_hex : WalletType -> string;
  (** The account of the Ledger details. *)
  ledger_account : WalletType -> option Z;
  (** [DomainSeparatedHasher] with the wallet's label, over a chain of byte strings. *)
  fingerprint_hash : list string -> string;
  TariAddress : Type;
  (** [new_dual_address] of a view key, a spend key and a payment id, in the network. *)
  new_dual_address : string -> string -> option string -> outcome string TariAddress;
  to_base58 : TariAddress -> string;
  to_emoji_string : TariAddress -> string;
  AccountKeys : Type;
  key_manager_new : WalletType -> outcome string AccountKeys;
  get_private_view_key : AccountKeys -> string;
  CipherSeed : Type;
  (** The seed of a [WalletType::SeedWords], and its words. *)
  cipher_seed : WalletType -> option CipherSeed;
  to_mnemonic : CipherSeed -> outcome string string;
  seed_wallet : CipherSeed -> outcome string WalletType;
  ViewKey : Type;
  SpendKey : Type;
  private_key_from_hex : string -> option ViewKey;
  public_key_from_hex : string -> option SpendKey;
  view_wallet : SpendKey -> ViewKey -> option Z -> WalletType;
}.

Class WalletLaws (W : WalletExt) := {
  wallet_json_roundtrip : forall w j, wallet_to_json w = Ok j -> wallet_of_json j = Ok w;
}.

(** [u64::to_le_bytes]. *)
Fixpoint le_bytes (n : nat) (z : Z) : string :=
  match n with
  | O => ""
  | S n => String (ascii_of_N (Z.to_N (z `mod` 256))) (le_bytes n (z / 256))
  end.

Section Wallets.
Context {C : CryptoExt} {W : WalletExt}.

(** A Ledger's account index tells wallets with the same root keys apart. *)
Definition calculate_fingerprint (wallet_type : WalletType) : string :=
  let account_index := default 0 (ledger_account wallet_type) in
  fingerprint_hash [get_public_spend_key wallet_type; get_public_view_key wallet_type; le_bytes 8 account_index].

(** ** The key manager builder ([minotari-scanning/src/key_manager_builder.rs]) *)
Record KeyManagerBuilder := mkKeyManagerBuilder { kb_wallet_type : option WalletType }.

(** [KeyManagerBuilder::default()]. *)
Definition KeyManagerBuilder_default : KeyManagerBuilder := mkKeyManagerBuilder None.

Definition with_view_key_and_spend_key (view_key : ViewKey) (spend_key : SpendKey) (birthday : Z)
    (_ : KeyManagerBuilder) : KeyManagerBuilder :=
  mkKeyManagerBuilder (Some (view_wallet spend_key view_key (Some birthday))).

(** [new_random] is [KeyManager::new_random()], drawn by the caller. *)
Definition try_build (new_random : outcome string AccountKeys) (self : KeyManagerBuilder) : outcome string AccountKeys :=
  match kb_wallet_type self with
  | Some wallet_type => key_manager_new wallet_type
  | None => new_random
  end.

(** ** The account row ([impl AccountRow]) *)
Definition decrypt_wallet_type (self : AccountRow) (password : string) : outcome WalletDbError WalletType :=
  outcome_bind (outcome_map_err (fun _ => DecryptionFailed "Failed to decrypt wallet data")
    (decrypt_data (mkFullEncryptedData (a_encrypted_wallet self) (a_cipher_nonce self) (a_salt self)) password))
    (fun plaintext_bytes =>
  outcome_map_err (fun e => Decoding ("Failed to deserialize wallet JSON: " +:+ e)) (wallet_of_json plaintext_bytes)).

Definition get_address (self : AccountRow) (password : string) : outcome WalletDbError TariAddress :=
  outcome_bind (decrypt_wallet_type self password) (fun wallet =>
  outcome_map_err (fun e => Unexpected ("Failed to generate address: " +:+ e))
    (new_dual_address (get_public_view_key wallet) (get_public_spend_key wallet) None)).

Definition get_address_with_payment_id (self : AccountRow) (password payment_id : string) :
    outcome WalletDbError TariAddress :=
  outcome_bind (decrypt_wallet_type self password) (fun wallet =>
  outcome_map_err (fun e => Unexpected ("Failed to generate address with payment ID: " +:+ e))
    (new_dual_address (get_public_view_key wallet) (get_public_spend_key wallet) (Some payment_id))).

Definition get_key_manager (self : AccountRow) (password : string) : outcome WalletDbError AccountKeys :=
  outcome_bind (decrypt_wallet_type self password) (fun wallet =>
  outcome_map_err (fun e => Unexpected ("Failed to create key manager: " +:+ e)) (key_manager_new wallet)).

Definition get_seed_words (self : AccountRow) (password : string) : outcome WalletDbError (option string) :=
  outcome_bind (decrypt_wallet_type self password) (fun wallet =>
  match cipher_seed wallet with
  | Some seed =>
      outcome_bind (outcome_map_err (fun e => Unexpected ("Failed to generate mnemonic: " +:+ e)) (to_mnemonic seed))
        (fun mnemonic => Ok (Some mnemonic))
  | None => Ok None
  end).

Definition get_keys_hex {X : Ext} (self : AccountRow) (password : string) : outcome WalletDbError (string * string) :=
  outcome_bind (decrypt_wallet_type self password) (fun wallet =>
  Ok (view_key_hex wallet, hex_encode (get_public_spend_key wallet))).

(** ** Creation ([create_account], [utils/init_wallet.rs]) *)

(** The unique indexes on the name and the fingerprint. *)
Definition account_is_new (name fingerprint : string) (d : Db) : bool :=
  negb (existsb (fun a => String.eqb (a_friendly_name a) name || String.eqb (a_fingerprint a) fingerprint)
    (rows (accounts d))).

Definition create_account (salt nonce : string) (friendly_name : string) (wallet : WalletType) (password : string) :
    DbM unit :=
  let fingerprint := calculate_fingerprint wallet in
  let birthday := default 0 (get_birthday wallet) in
  let! wallet_json := lift (outcome_map_err (fun e => Unexpected ("Serialization failed: " +:+ e))
    (wallet_to_json wallet)) in
  let! encrypted_data := lift (outcome_map_err (fun e => Unexpected ("Encryption failed: " +:+ e))
    (encrypt_data salt nonce wallet_json password)) in
  constrained (account_is_new friendly_name fingerprint) ;;;
  modify (fun d => with_accounts (snd (insert_auto (fun id => mkAccountRow id friendly_name fingerprint
    (ciphertext encrypted_data) (Crypto.nonce encrypted_data) (salt_bytes encrypted_data) birthday)
    (accounts d))) d).

(** The errors of [anyhow] are their texts; [db] is the opening of the database and
    [pool] the request for a connection. *)
Definition save_wallet_to_db {X : Ext} (db pool : outcome string unit) (salt nonce : string) (wallet : WalletType)
    (password : string) (friendly_name : option string) : M Db string unit :=
  lift (outcome_map_err (fun _ => "Failed to initialize database") db) ;;;
  lift (outcome_map_err (fun _ => "Failed to get DB connection from pool") pool) ;;;
  map_err db_error_to_string
    (create_account salt nonce (default "default" friendly_name) wallet password).

Definition init_with_view_key {X : Ext} (db pool : outcome string unit) (salt nonce : string)
    (view_private_key spend_public_key password : string) (birthday : Z) (friendly_name : option string) :
    M Db string unit :=
  let! view_key := lift (ok_or (private_key_from_hex view_private_key) "Invalid hex for view key") in
  let! spend_key := lift (ok_or (public_key_from_hex spend_public_key) "Invalid hex for spend key") in
  save_wallet_to_db db pool salt nonce (view_wallet spend_key view_key (Some birthday)) password friendly_name.

Definition init_with_seed_words {X : Ext} (db pool : outcome string unit) (salt nonce : string) (seed : CipherSeed)
    (password : string) (friendly_name : option string) : M Db string unit :=
  let! wallet := lift (outcome_map_err (fun e => "Invalid seed: " +:+ e) (seed_wallet seed)) in
  save_wallet_to_db db pool salt nonce wallet password friendly_name.

(** ** Lemmas *)
Lemma create_account_ok salt nonce name wallet password d d' :
  create_account salt nonce name wallet password d = (Ok tt, d') ->
  exists e json, wallet_to_json wallet = Ok json /\ encrypt_data salt nonce json password = Ok e /\
    account_is_new name (calculate_fingerprint wallet) d = true /\
    d' = with_accounts (mkTable (rows (accounts d) ++
      [mkAccountRow (seqno (accounts d) + 1) name (calculate_fingerprint wallet) (ciphertext e)
        (Crypto.nonce e) (salt_bytes e) (default 0 (get_birthday wallet))]) (seqno (accounts d) + 1)) d.
Proof.
  unfold create_account. intros H. apply bind_ok_inv in H as (json & d1 & Hj & H). injection Hj as Hj <-.
  apply bind_ok_inv in H as (e & d2 & He & H). injection He as He <-.
  apply bind_ok_inv in H as (u & d3 & Hc & H). apply constrained_inv in Hc as [Hnew ->]. injection H as <-.
  exists e, json. split; [by destruct (wallet_to_json wallet); cbn in Hj; simplify_eq|].
  split; [by destruct (encrypt_data _ _ _ _); cbn in He; simplify_eq|]. by split.
Qed.

Lemma account_is_new_spec name fp d :
  account_is_new name fp d = true <->
  (forall a, a ∈ rows (accounts d) -> a_friendly_name a <> name /\ a_fingerprint a <> fp).
Proof.
  unfold account_is_new. rewrite negb_true_iff. split.
  - intros H a Ha. apply not_true_iff_false in H.
    split; intros E; apply H, existsb_exists; exists a; rewrite <- list_elem_of_In; (split; [done|]);
      rewrite E, String.eqb_refl; [done|by rewrite orb_true_r].
  - intros H. apply not_true_iff_false. intros (a & Ha & E)%existsb_exists. rewrite <- list_elem_of_In in Ha.
    destruct (H a Ha) as [H1 H2]. apply orb_true_iff in E as [E|E]; by apply String.eqb_eq in E.
Qed.

End Wallets.
