(* ===== verification/EventsDb.v ===== *)
(** * Wallet events ([minotari/src/db/events.rs]) *)
From S2P Require Import Prelude Models DisplayTypes External Schema.
#[local] Open Scope Z_scope.

Section Operations.
Context {X : Ext}.

Definition insert_wallet_event (account_id : Z) (event : WalletEvent) : DbM Z :=
  let! data_json := lift (ok_or (event_to_json (event_type event)) SerdeJson) in
  constrained (account_exists account_id) ;;;
  let! d := gets id in
  let '(id, t) := insert_auto (fun id => mkEventRow id account_id (to_key_string (event_type event))
    (description event) data_json (clock d)) (events d) in
  modify (with_events t) ;;;
  ret id.

(** [ORDER BY created_at DESC, id DESC]. *)
Definition newest_event_first (a b : EventRow) : bool :=
  (e_created_at b <? e_created_at a) || ((e_created_at a =? e_created_at b) && (e_id b <=? e_id a)).

Definition get_events_by_account_id (account_id limit offset : Z) : DbM (list EventRow) :=
  gets (fun d => limit_offset limit offset
    (sort_by newest_event_first (select (fun e => e_account_id e =? account_id) (events d)))).

Lemma insert_wallet_event_inv account_id event d id d' :
  insert_wallet_event account_id event d = (Ok id, d') ->
  id = seqno (events d) + 1 /\
  exists j, d' = with_events (mkTable (rows (events d) ++
    [mkEventRow id account_id (to_key_string (event_type event)) (description event) j (clock d)]) id) d.
Proof.
  unfold insert_wallet_event. intros H. inv_ok.
  match goal with H : constrained _ _ = _ |- _ => apply constrained_inv in H as [_ ->] end.
  split; [done|]. eexists. cbn. done.
Qed.

Lemma preserves_insert_wallet_event (P : Db -> Prop) account_id event :
  (forall t d, P d -> P (with_events t d)) -> preserves P (insert_wallet_event account_id event).
Proof. intros HP. unfold insert_wallet_event. solve_preserves. Qed.

End Operations.

#[export] Hint Extern 5 (preserves _ (insert_wallet_event _ _)) =>
  apply preserves_insert_wallet_event; intros ? ? ?; subst; cbn; try done : dbm.
