(* ===== verification/CompletedDb.v ===== *)
(** * Completed transactions ([minotari/src/db/completed_transactions.rs])

    Signed transactions and their way from broadcast to confirmation. *)
From S2P Require Import Prelude Models Schema.
#[local] Open Scope Z_scope.

Module CTS := CompletedTransactionStatus.

Record CompletedTransaction := mkCompletedTransaction {
  ct_id : Z;
  pending_tx_id : string;
  ct_account_id : Z;
  ct_status : CTS.t;
  last_rejected_reason : option string;
  kernel_excess : string;
  sent_payref : option string;
  sent_output_hash : option string;
  mined_height : option Z;
  mined_block_hash : option string;
  confirmation_height : option Z;
  broadcast_attempts : Z;
  serialized_transaction : string;
  ct_created_at : Z;
  ct_updated_at : Z;
}.

(** [map_row]; [broadcast_attempts] is an [i32] column value. *)
Definition map_row (r : CompletedRow) : outcome WalletDbError CompletedTransaction :=
  outcome_bind (outcome_map_err (fun _ => Rusqlite ExecuteReturnedResults) (CTS.from_str (c_status r))) (fun status =>
  Ok (mkCompletedTransaction (as_u64 (c_id r)) (c_pending_tx_id r) (c_account_id r) status
    (c_last_rejected_reason r) (c_kernel_excess r) (c_sent_payref r) (c_sent_output_hash r)
    (c_mined_height r) (c_mined_block_hash r) (c_confirmation_height r) (c_broadcast_attempts r)
    (c_serialized_transaction r) (c_created_at r) (c_updated_at r))).

Fixpoint map_rows (l : list CompletedRow) : outcome WalletDbError (list CompletedTransaction) :=
  match l with
  | [] => Ok []
  | r :: l' => outcome_bind (map_row r) (fun t => outcome_bind (map_rows l') (fun ts => Ok (t :: ts)))
  end.

(** ** Row updates *)
Definition set_completed (status : CTS.t) (payref : option string) (height : option Z)
    (hash : option string) (conf : option Z) (attempts now : Z) (c : CompletedRow) : CompletedRow :=
  mkCompletedRow (c_id c) (c_account_id c) (c_pending_tx_id c) (CTS.to_string status)
    (c_last_rejected_reason c) (c_kernel_excess c) payref (c_sent_output_hash c) height hash conf
    attempts (c_serialized_transaction c) (c_created_at c) now.

Definition set_completed_status (status : CTS.t) (now : Z) (c : CompletedRow) : CompletedRow :=
  set_completed status (c_sent_payref c) (c_mined_height c) (c_mined_block_hash c)
    (c_confirmation_height c) (c_broadcast_attempts c) now c.

Definition set_broadcast (attempts now : Z) (c : CompletedRow) : CompletedRow :=
  set_completed CTS.Broadcast (c_sent_payref c) (c_mined_height c) (c_mined_block_hash c)
    (c_confirmation_height c) attempts now c.

Definition set_mined (height : Z) (hash : string) (now : Z) (c : CompletedRow) : CompletedRow :=
  set_completed CTS.MinedUnconfirmed (c_sent_payref c) (Some height) (Some hash)
    (c_confirmation_height c) (c_broadcast_attempts c) now c.

Definition set_mined_confirmed (height : Z) (payref : string) (now : Z) (c : CompletedRow) : CompletedRow :=
  set_completed CTS.MinedConfirmed (Some payref) (c_mined_height c) (c_mined_block_hash c)
    (Some height) (c_broadcast_attempts c) now c.

(** Back to [completed], with no trace of the block and no broadcast attempt. *)
Definition set_reverted (now : Z) (c : CompletedRow) : CompletedRow :=
  set_completed CTS.Completed None None None None 0 now c.

Definition set_rejected (reason : string) (now : Z) (c : CompletedRow) : CompletedRow :=
  mkCompletedRow (c_id c) (c_account_id c) (c_pending_tx_id c) (CTS.to_string CTS.Rejected)
    (Some reason) (c_kernel_excess c) (c_sent_payref c) (c_sent_output_hash c) (c_mined_height c)
    (c_mined_block_hash c) (c_confirmation_height c) (c_broadcast_attempts c)
    (c_serialized_transaction c) (c_created_at c) now.

Definition update_completed (p : CompletedRow -> bool) (f : Z -> CompletedRow -> CompletedRow) : DbM unit :=
  modify (fun d => with_completed_transactions (update_where p (f (clock d)) (completed_transactions d)) d).

(** [WHERE id = :id] with the wrapped [TxId]. *)
Definition has_tx_id (tx_id : Z) (c : CompletedRow) : bool := c_id c =? as_i64 tx_id.

(** ** Operations *)
Definition create_completed_transaction (account_id : Z) (pending_tx_id kernel_excess
    serialized_transaction : string) (sent_output_hash : option string) (tx_id : Z) : DbM unit :=
  constrained (fun d => negb (existsb (has_tx_id tx_id) (rows (completed_transactions d)))
    && account_exists account_id d && pending_exists pending_tx_id d) ;;;
  modify (fun d => with_completed_transactions (insert_row {|
    c_id := as_i64 tx_id;
    c_account_id := account_id;
    c_pending_tx_id := pending_tx_id;
    c_status := CTS.to_string CTS.Completed;
    c_last_rejected_reason := None;
    c_kernel_excess := kernel_excess;
    c_sent_payref := None;
    c_sent_output_hash := sent_output_hash;
    c_mined_height := None;
    c_mined_block_hash := None;
    c_confirmation_height := None;
    c_broadcast_attempts := 0;
    c_serialized_transaction := serialized_transaction;
    c_created_at := clock d;
    c_updated_at := clock d |} (completed_transactions d)) d).

(** [query_row(..).optional()]. *)
Definition optional_row (l : list CompletedRow) : DbM (option CompletedTransaction) :=
  match l with
  | [] => ret None
  | r :: _ => let! t := lift (map_row r) in ret (Some t)
  end.

Definition get_completed_transaction_by_id (tx_id : Z) : DbM (option CompletedTransaction) :=
  let! d := gets id in
  optional_row (select (has_tx_id tx_id) (completed_transactions d)).

Definition get_completed_transactions_by_status (account_id : Z) (status : CTS.t) :
    DbM (list CompletedTransaction) :=
  let! d := gets id in
  lift (map_rows (select (fun c => (c_account_id c =? account_id)
    && String.eqb (c_status c) (CTS.to_string status)) (completed_transactions d))).

Definition update_completed_transaction_status (tx_id : Z) (status : CTS.t) : DbM unit :=
  update_completed (has_tx_id tx_id) (set_completed_status status).

Definition mark_completed_transaction_as_broadcasted (tx_id attempts : Z) : DbM unit :=
  update_completed (has_tx_id tx_id) (set_broadcast attempts).

Definition mark_completed_transaction_as_mined_unconfirmed (tx_id block_height : Z) (block_hash : string) :
    DbM unit :=
  update_completed (has_tx_id tx_id) (set_mined block_height block_hash).

Definition mark_completed_transaction_as_confirmed (tx_id confirmation_height : Z) (sent_payref : string) :
    DbM unit :=
  update_completed (has_tx_id tx_id) (set_mined_confirmed confirmation_height sent_payref).

Definition revert_completed_transaction_to_completed (tx_id : Z) : DbM unit :=
  update_completed (has_tx_id tx_id) set_reverted.

Definition is_mined (c : CompletedRow) : bool :=
  String.eqb (c_status c) (CTS.to_string CTS.MinedUnconfirmed)
  || String.eqb (c_status c) (CTS.to_string CTS.MinedConfirmed).

(** A comparison with [NULL] is not true. *)
Definition mined_from_height (account_id height : Z) (c : CompletedRow) : bool :=
  (c_account_id c =? account_id) && is_mined c
  && match c_mined_height c with Some h => h >=? height | None => false end.

Definition reset_mined_completed_transactions_from_height (account_id reorg_height : Z) : DbM Z :=
  let height := as_i64 reorg_height in
  let! rows_affected := gets (fun d => Z.of_nat (length
    (select (mined_from_height account_id height) (completed_transactions d)))) in
  update_completed (mined_from_height account_id height) set_reverted ;;;
  ret rows_affected.

Definition mark_completed_transaction_as_rejected (tx_id : Z) (reject_reason : string) : DbM unit :=
  update_completed (has_tx_id tx_id) (set_rejected reject_reason).

(** [status NOT IN ('mined_confirmed', 'rejected', 'canceled')]. *)
Definition is_final (s : string) : bool :=
  String.eqb s "mined_confirmed" || String.eqb s "rejected" || String.eqb s "canceled".

Definition get_pending_completed_transactions (account_id : Z) : DbM (list CompletedTransaction) :=
  let! d := gets id in
  lift (map_rows (sort_by (fun a b => c_created_at a <=? c_created_at b)
    (select (fun c => (c_account_id c =? account_id) && negb (is_final (c_status c)))
      (completed_transactions d)))).

(** [ORDER BY created_at DESC, id DESC]. *)
Definition newest_completed_first (a b : CompletedRow) : bool :=
  (c_created_at b <? c_created_at a) || ((c_created_at a =? c_created_at b) && (c_id b <=? c_id a)).

Definition get_completed_transactions_by_account (account_id limit offset : Z) :
    DbM (list CompletedTransaction) :=
  let! d := gets id in
  lift (map_rows (limit_offset limit offset (sort_by newest_completed_first
    (select (fun c => c_account_id c =? account_id) (completed_transactions d))))).

Definition get_completed_transaction_by_payref (account_id : Z) (payref : string) :
    DbM (option CompletedTransaction) :=
  let! d := gets id in
  optional_row (select (fun c => (c_account_id c =? account_id) && opt_eqb (c_sent_payref c) payref)
    (completed_transactions d)).

(** ** Lemmas *)
Lemma set_reverted_not_mined now c : is_mined (set_reverted now c) = false.
Proof. done. Qed.

Lemma has_tx_id_stable tx_id f c :
  (forall c, c_id (f c) = c_id c) -> has_tx_id tx_id (f c) = has_tx_id tx_id c.
Proof. unfold has_tx_id. intros H. by rewrite H. Qed.

(** Reading a page of rows gives one transaction per row, in order. *)
Lemma map_rows_ok l ts : map_rows l = Ok ts -> Forall2 (fun r t => map_row r = Ok t) l ts.
Proof.
  revert ts. induction l as [|r l IH]; intros ts H; cbn in H; [injection H as <-; constructor|].
  destruct (map_row r) as [t| |] eqn:E; cbn in H; try done.
  destruct (map_rows l) as [ts'| |]; cbn in H; try done. injection H as <-. constructor; auto.
Qed.

Lemma map_row_id r t : map_row r = Ok t -> ct_id t = as_u64 (c_id r) /\
  ct_account_id t = c_account_id r /\ CTS.to_string (ct_status t) = c_status r.
Proof.
  unfold map_row. destruct (CTS.from_str (c_status r)) as [s| |] eqn:E; cbn; try done.
  intros [= <-]. cbn. split; [done|]. split; [done|]. exact (to_of_text (A := CTS.t) _ _ E).
Qed.
