(* ===== verification/DisplayedDb.v ===== *)
(** * Displayed transactions table ([minotari/src/db/displayed_transactions.rs])

    The user-facing transactions, one JSON document per row with the columns the
    queries filter on. *)
From S2P Require Import Prelude Models DisplayTypes External Schema.
From Stdlib Require Import Ascii.
#[local] Open Scope Z_scope.

Module TDS := TransactionDisplayStatus.

(** ** SQL [LIKE]: [%] is any text, [_] any character, ASCII letters match
    whatever their case. *)
Definition ascii_lower (c : ascii) : ascii :=
  let n := nat_of_ascii c in
  if ((65 <=? n) && (n <=? 90))%nat then ascii_of_nat (n + 32) else c.

Fixpoint sql_like (pattern : string) : string -> bool :=
  match pattern with
  | EmptyString => fun s => String.eqb s ""
  | String c p =>
      if Ascii.eqb c "%" then
        fix any s := sql_like p s || match s with EmptyString => false | String _ s' => any s' end
      else fun s =>
        match s with
        | EmptyString => false
        | String c' s' => (Ascii.eqb c "_" || Ascii.eqb (ascii_lower c) (ascii_lower c')) && sql_like p s'
        end
  end.

Section Operations.
Context {X : Ext}.

Definition serialize_tx (tx : DisplayedTransaction) : DbM string :=
  lift (ok_or (displayed_to_json tx) SerdeJson).

(** Rows whose JSON does not parse are left out. *)
Definition process_json_rows (rows : list DisplayedRow) : list DisplayedTransaction :=
  omap (fun r => displayed_of_json (d_transaction_json r)) rows.

(** ** Row updates *)
Definition set_displayed (status : string) (height : Z) (json : string) (payref : option string)
    (now : Z) (r : DisplayedRow) : DisplayedRow :=
  mkDisplayedRow (d_id r) (d_account_id r) (d_direction r) (d_source r) status (d_amount r) height
    (d_timestamp r) json payref (d_created_at r) now.

(** [SET status, transaction_json, updated_at]. *)
Definition set_displayed_json (status json : string) (now : Z) (r : DisplayedRow) : DisplayedRow :=
  set_displayed status (d_block_height r) json (d_payref r) now r.

Definition has_id (id : string) (r : DisplayedRow) : bool := String.eqb (d_id r) id.

Definition update_displayed (id : string) (f : Z -> DisplayedRow -> DisplayedRow) : DbM bool :=
  let! affected := gets (fun d => existsb (has_id id) (rows (displayed_transactions d))) in
  modify (fun d => with_displayed_transactions
    (update_where (has_id id) (f (clock d)) (displayed_transactions d)) d) ;;;
  ret affected.

(** ** Operations *)
Definition new_displayed_row (tx : DisplayedTransaction) (json : string) (payref : option string) (now : Z) :
    DisplayedRow := {|
  d_id := pretty (dt_id tx);
  d_account_id := td_account_id (details tx);
  d_direction := direction_lowercase (direction tx);
  d_source := source_lowercase (source tx);
  d_status := TDS.debug_lowercase (status tx);
  d_amount := as_i64 (amount tx);
  d_block_height := as_i64 (block_height (blockchain tx));
  d_timestamp := timestamp (blockchain tx);
  d_transaction_json := json;
  d_payref := payref;
  d_created_at := now;
  d_updated_at := now;
|}.

(** [INSERT .. ON CONFLICT(id) DO UPDATE SET status, transaction_json, payref, updated_at]. *)
Definition insert_displayed_transaction (tx : DisplayedTransaction) : DbM unit :=
  let! transaction_json := serialize_tx tx in
  let! payref := lift (ok_or (payrefs_to_json (sent_payrefs (details tx))) SerdeJson) in
  let row d := new_displayed_row tx transaction_json (Some payref) (clock d) in
  modify (fun d => with_displayed_transactions
    (if existsb (has_id (d_id (row d))) (rows (displayed_transactions d)) then
       update_where (has_id (d_id (row d)))
         (fun r => set_displayed (d_status (row d)) (d_block_height r) (d_transaction_json (row d))
            (d_payref (row d)) (d_updated_at (row d)) r) (displayed_transactions d)
     else insert_row (row d) (displayed_transactions d)) d).

(** [ORDER BY block_height DESC, timestamp DESC]. *)
Definition newest_first (a b : DisplayedRow) : bool :=
  (d_block_height b <? d_block_height a)
  || ((d_block_height a =? d_block_height b) && (d_timestamp b <=? d_timestamp a)).

Definition query_displayed (p : DisplayedRow -> bool) : DbM (list DisplayedTransaction) :=
  gets (fun d => process_json_rows (sort_by newest_first (select p (displayed_transactions d)))).

Definition get_displayed_transactions_by_account (account_id : Z) : DbM (list DisplayedTransaction) :=
  query_displayed (fun r => d_account_id r =? account_id).

Definition get_displayed_transactions_by_status (account_id : Z) (st : TDS.t) :
    DbM (list DisplayedTransaction) :=
  query_displayed (fun r => (d_account_id r =? account_id) && String.eqb (d_status r) (TDS.debug_lowercase st)).

Definition get_displayed_transactions_from_height (account_id from_height : Z) :
    DbM (list DisplayedTransaction) :=
  query_displayed (fun r => (d_account_id r =? account_id) && (d_block_height r >=? as_i64 from_height)).

Definition update_displayed_transaction_status (id : string) (new_status : TDS.t)
    (updated_transaction : DisplayedTransaction) : DbM bool :=
  let! transaction_json := serialize_tx updated_transaction in
  update_displayed id (set_displayed_json (TDS.debug_lowercase new_status) transaction_json).

(** One iteration of the reorganisation loops. *)
Definition reorganize_row (row : DisplayedRow) : DbM (option DisplayedTransaction) :=
  match displayed_of_json (d_transaction_json row) with
  | Some tx =>
      let tx := set_status TDS.Reorganized tx in
      let! updated_json := serialize_tx tx in
      update_displayed (d_id row) (set_displayed_json (TDS.debug_lowercase TDS.Reorganized) updated_json) ;;;
      ret (Some tx)
  | None => ret None
  end.

Definition mark_displayed_transactions_reorganized (account_id from_height : Z) : DbM Z :=
  let! rows_to_update := gets (fun d => select (fun r => (d_account_id r =? account_id)
    && (d_block_height r >=? as_i64 from_height)) (displayed_transactions d)) in
  fold_m (fun updated_count row =>
    let! tx := reorganize_row row in
    ret (match tx with Some _ => updated_count + 1 | None => updated_count end)) 0 rows_to_update.

Definition get_displayed_transaction_by_id (id : string) : DbM (option DisplayedTransaction) :=
  gets (fun d => head (select (has_id id) (displayed_transactions d)) ≫=
    fun r => displayed_of_json (d_transaction_json r)).

Definition sends_output (output_hash : string) (tx : DisplayedTransaction) : bool :=
  existsb (String.eqb output_hash) (sent_output_hashes (details tx))
  || existsb (fun i => String.eqb (ti_output_hash i) output_hash) (td_inputs (details tx)).

Definition find_pending_outbound_by_output_hash (account_id : Z) (output_hash : string) :
    DbM (option DisplayedTransaction) :=
  gets (fun d => List.find (sends_output output_hash) (process_json_rows
    (select (fun r => (d_account_id r =? account_id)
       && String.eqb (d_status r) (TDS.debug_lowercase TDS.Pending)
       && String.eqb (d_direction r) "outgoing") (displayed_transactions d)))).

Definition update_displayed_transaction_mined (tx : DisplayedTransaction) : DbM bool :=
  let! transaction_json := serialize_tx tx in
  let! payref := lift (ok_or (payrefs_to_json (sent_payrefs (details tx))) SerdeJson) in
  update_displayed (pretty (dt_id tx))
    (set_displayed (TDS.debug_lowercase (status tx)) (as_i64 (block_height (blockchain tx)))
       transaction_json (Some payref)).

Definition get_displayed_transactions_paginated (account_id limit offset : Z) :
    DbM (list DisplayedTransaction) :=
  gets (fun d => process_json_rows (limit_offset limit offset
    (sort_by newest_first (select (fun r => d_account_id r =? account_id) (displayed_transactions d))))).

Definition needs_confirmation (account_id : Z) (r : DisplayedRow) : bool :=
  (d_account_id r =? account_id)
  && (String.eqb (d_status r) (TDS.debug_lowercase TDS.Pending)
      || String.eqb (d_status r) (TDS.debug_lowercase TDS.Unconfirmed)).

Definition get_displayed_transactions_needing_confirmation_update (account_id : Z) :
    DbM (list DisplayedTransaction) :=
  gets (fun d => process_json_rows (select (needs_confirmation account_id) (displayed_transactions d))).

Definition update_displayed_transaction_confirmations (tx : DisplayedTransaction) : DbM bool :=
  let! transaction_json := serialize_tx tx in
  update_displayed (pretty (dt_id tx))
    (set_displayed_json (TDS.debug_lowercase (status tx)) transaction_json).

Definition mark_displayed_transaction_rejected (tx_id : Z) : DbM (option DisplayedTransaction) :=
  let! d := gets id in
  match head (select (has_id (pretty tx_id)) (displayed_transactions d)) with
  | None => ret None
  | Some row =>
      let! tx := lift (ok_or (displayed_of_json (d_transaction_json row)) SerdeJson) in
      let tx := set_status TDS.Rejected tx in
      let! updated_json := serialize_tx tx in
      update_displayed (pretty tx_id) (set_displayed_json (TDS.debug_lowercase TDS.Rejected) updated_json) ;;;
      ret (Some tx)
  end.

Definition get_displayed_transactions_excluding_reorged (account_id : Z) : DbM (list DisplayedTransaction) :=
  query_displayed (fun r => (d_account_id r =? account_id)
    && negb (String.eqb (d_status r) (TDS.debug_lowercase TDS.Reorganized))).

Definition reorganizable (account_id height : Z) (r : DisplayedRow) : bool :=
  (d_account_id r =? account_id) && (d_block_height r >=? height)
  && negb (String.eqb (d_status r) (TDS.debug_lowercase TDS.Reorganized)).

Definition mark_displayed_transactions_reorganized_and_return (account_id from_height : Z) :
    DbM (list DisplayedTransaction) :=
  let! rows_to_update := gets (fun d => select (reorganizable account_id (as_i64 from_height))
    (displayed_transactions d)) in
  fold_m (fun updated_transactions row =>
    let! tx := reorganize_row row in
    ret (updated_transactions ++ option_list tx)) [] rows_to_update.

Definition get_displayed_transactions_by_payref (account_id : Z) (payref : string) :
    DbM (list DisplayedTransaction) :=
  let search_pattern := "%" +:+ payref +:+ "%" in
  query_displayed (fun r => (d_account_id r =? account_id)
    && match d_payref r with Some p => sql_like search_pattern p | None => false end).

(** ** Frames *)
Lemma preserves_update_displayed (P : Db -> Prop) i f :
  (forall t d, P d -> P (with_displayed_transactions t d)) -> preserves P (update_displayed i f).
Proof. intros HP. unfold update_displayed. solve_preserves. Qed.

Lemma preserves_insert_displayed (P : Db -> Prop) tx :
  (forall t d, P d -> P (with_displayed_transactions t d)) -> preserves P (insert_displayed_transaction tx).
Proof. intros HP. unfold insert_displayed_transaction, serialize_tx. solve_preserves. Qed.

Lemma preserves_reorganize_row (P : Db -> Prop) r :
  (forall t d, P d -> P (with_displayed_transactions t d)) -> preserves P (reorganize_row r).
Proof.
  intros HP. pose proof preserves_update_displayed.
  unfold reorganize_row, serialize_tx. solve_preserves; auto.
Qed.

Lemma preserves_reorganized_and_return (P : Db -> Prop) acc h :
  (forall t d, P d -> P (with_displayed_transactions t d)) ->
  preserves P (mark_displayed_transactions_reorganized_and_return acc h).
Proof.
  intros HP. pose proof preserves_reorganize_row.
  unfold mark_displayed_transactions_reorganized_and_return. solve_preserves; auto.
Qed.

Lemma preserves_displayed_mined (P : Db -> Prop) tx :
  (forall t d, P d -> P (with_displayed_transactions t d)) -> preserves P (update_displayed_transaction_mined tx).
Proof.
  intros HP. pose proof preserves_update_displayed.
  unfold update_displayed_transaction_mined, serialize_tx. solve_preserves; auto.
Qed.

Lemma preserves_displayed_confirmations (P : Db -> Prop) tx :
  (forall t d, P d -> P (with_displayed_transactions t d)) ->
  preserves P (update_displayed_transaction_confirmations tx).
Proof.
  intros HP. pose proof preserves_update_displayed.
  unfold update_displayed_transaction_confirmations, serialize_tx. solve_preserves; auto.
Qed.

Lemma preserves_displayed_rejected (P : Db -> Prop) i :
  (forall t d, P d -> P (with_displayed_transactions t d)) -> preserves P (mark_displayed_transaction_rejected i).
Proof.
  intros HP. pose proof preserves_update_displayed.
  unfold mark_displayed_transaction_rejected, serialize_tx. solve_preserves; auto.
Qed.

End Operations.

#[export] Hint Extern 5 (preserves _ (update_displayed _ _)) =>
  apply preserves_update_displayed; intros ? ? ?; subst; cbn; try done : dbm.
#[export] Hint Extern 5 (preserves _ (insert_displayed_transaction _)) =>
  apply preserves_insert_displayed; intros ? ? ?; subst; cbn; try done : dbm.
#[export] Hint Extern 5 (preserves _ (mark_displayed_transactions_reorganized_and_return _ _)) =>
  apply preserves_reorganized_and_return; intros ? ? ?; subst; cbn; try done : dbm.
#[export] Hint Extern 5 (preserves _ (update_displayed_transaction_mined _)) =>
  apply preserves_displayed_mined; intros ? ? ?; subst; cbn; try done : dbm.
#[export] Hint Extern 5 (preserves _ (update_displayed_transaction_confirmations _)) =>
  apply preserves_displayed_confirmations; intros ? ? ?; subst; cbn; try done : dbm.
#[export] Hint Extern 5 (preserves _ (mark_displayed_transaction_rejected _)) =>
  apply preserves_displayed_rejected; intros ? ? ?; subst; cbn; try done : dbm.
