(* ===== verification/PayrefDb.v ===== *)
(** * Payment reference history ([minotari/src/db/payref_history.rs])

    A reorg changes the payment references of the transactions it moves; the
    stale references are appended here, so that a lookup by one of them still
    finds the transaction. *)
From S2P Require Import Prelude Models DisplayTypes External Schema CompletedDb DisplayedDb.
From Stdlib Require Import Ascii.
#[local] Open Scope Z_scope.

(** ** [str::parse::<u64>] *)
Definition digit_value (c : ascii) : option Z :=
  let n := Z.of_N (N_of_ascii c) in
  if (48 <=? n) && (n <=? 57) then Some (n - 48) else None.

Fixpoint parse_digits (acc : Z) (s : string) : option Z :=
  match s with
  | EmptyString => Some acc
  | String c s' =>
      x ← digit_value c;
      let acc := acc * 10 + x in
      if acc <=? u64_max then parse_digits acc s' else None
  end.

Definition parse_u64 (s : string) : option Z :=
  match s with
  | EmptyString => None
  | String c EmptyString => if Ascii.eqb c "+" then None else parse_digits 0 s
  | String c s' => if Ascii.eqb c "+" then parse_digits 0 s' else parse_digits 0 s
  end.

Section Operations.
Context {X : Ext}.

Definition save_payref_history (account_id transaction_id : Z) (old_payref : string)
    (output_hash : option string) : DbM unit :=
  constrained (account_exists account_id) ;;;
  modify (fun d =>
    let '(_, t) := insert_auto (fun id => mkPayrefHistoryRow id account_id (as_i64 transaction_id)
      old_payref output_hash (clock d)) (payref_history d) in
    with_payref_history t d).

Definition has_payref (account_id : Z) (payref : string) (h : PayrefHistoryRow) : bool :=
  (h_account_id h =? account_id) && String.eqb (h_old_payref h) payref.

(** [ORDER BY created_at DESC LIMIT 1]. *)
Definition get_transaction_id_by_historical_payref (account_id : Z) (payref : string) : DbM (option Z) :=
  gets (fun d => (fun h => as_u64 (h_transaction_id h)) <$>
    head (sort_by (fun a b => h_created_at b <=? h_created_at a)
      (select (has_payref account_id payref) (payref_history d)))).

(** The body of the loop over displayed rows: a row whose id or payref column
    does not parse is skipped. *)
Definition save_displayed_row_payrefs (account_id count : Z) (row : DisplayedRow) : DbM Z :=
  match parse_u64 (d_id row), d_payref row ≫= strings_of_json with
  | Some tx_id, Some payrefs =>
      fold_m (fun count payref =>
        if String.eqb payref "" then ret count
        else save_payref_history account_id tx_id payref None ;;; ret (count + 1)) count payrefs
  | _, _ => ret count
  end.

Definition has_payref_column (account_id height : Z) (r : DisplayedRow) : bool :=
  (d_account_id r =? account_id) && negb (is_none (d_payref r)) && (d_block_height r >=? height).

Definition save_displayed_transaction_payrefs_before_reorg (account_id reorg_height : Z) : DbM Z :=
  let! rows := gets (fun d => select (has_payref_column account_id (as_i64 reorg_height))
    (displayed_transactions d)) in
  fold_m (save_displayed_row_payrefs account_id) 0 rows.

Definition completed_with_payref (account_id height : Z) (c : CompletedRow) : bool :=
  mined_from_height account_id height c && negb (is_none (c_sent_payref c)).

Definition save_completed_row_payref (account_id count : Z) (row : CompletedRow) : DbM Z :=
  match c_sent_payref row with
  | Some payref =>
      save_payref_history account_id (as_u64 (c_id row)) payref (c_sent_output_hash row) ;;;
      ret (count + 1)
  | None => ret count
  end.

Definition save_completed_transaction_payrefs_before_reorg (account_id reorg_height : Z) : DbM Z :=
  let! rows := gets (fun d => select (completed_with_payref account_id (as_i64 reorg_height))
    (completed_transactions d)) in
  fold_m (save_completed_row_payref account_id) 0 rows.

(** ** Frames *)
Lemma preserves_save_payref (P : Db -> Prop) a t p o :
  (forall t d, P d -> P (with_payref_history t d)) -> preserves P (save_payref_history a t p o).
Proof. intros HP. unfold save_payref_history. solve_preserves. Qed.

Lemma preserves_save_displayed (P : Db -> Prop) a h :
  (forall t d, P d -> P (with_payref_history t d)) ->
  preserves P (save_displayed_transaction_payrefs_before_reorg a h).
Proof.
  intros HP. pose proof preserves_save_payref.
  unfold save_displayed_transaction_payrefs_before_reorg, save_displayed_row_payrefs.
  solve_preserves; auto.
Qed.

Lemma preserves_save_completed (P : Db -> Prop) a h :
  (forall t d, P d -> P (with_payref_history t d)) ->
  preserves P (save_completed_transaction_payrefs_before_reorg a h).
Proof.
  intros HP. pose proof preserves_save_payref.
  unfold save_completed_transaction_payrefs_before_reorg, save_completed_row_payref.
  solve_preserves; auto.
Qed.

End Operations.

#[export] Hint Extern 5 (preserves _ (save_payref_history _ _ _ _)) =>
  apply preserves_save_payref; intros ? ? ?; subst; cbn; try done : dbm.
#[export] Hint Extern 5 (preserves _ (save_displayed_transaction_payrefs_before_reorg _ _)) =>
  apply preserves_save_displayed; intros ? ? ?; subst; cbn; try done : dbm.
#[export] Hint Extern 5 (preserves _ (save_completed_transaction_payrefs_before_reorg _ _)) =>
  apply preserves_save_completed; intros ? ? ?; subst; cbn; try done : dbm.
