(* ===== verification/BurnProofsDb.v ===== *)
(** * Burn proofs ([minotari/src/db/burn_proofs.rs])

    Records of burn transactions that wait for their kernel merkle proof. *)
From S2P Require Import Prelude Models Schema.
#[local] Open Scope Z_scope.

Definition BURN_PROOF_STATUS_PENDING_MERKLE : string := "pending_merkle".
Definition BURN_PROOF_STATUS_COMPLETE : string := "complete".

Record NewBurnProof := mkNewBurnProof {
  nb_account_id : Z;
  nb_output_hash : string;
  nb_commitment : string;
  nb_claim_public_key : string;
  nb_ownership_proof_nonce : string;
  nb_ownership_proof_sig : string;
  nb_kernel_excess : string;
  nb_kernel_excess_nonce : string;
  nb_kernel_excess_sig : string;
  nb_sender_offset_public_key : string;
  nb_encrypted_data : string;
  nb_value : Z;
  nb_kernel_fee : Z;
  nb_kernel_lock_height : Z;
}.

Definition burn_proof_row (proof : NewBurnProof) (now id : Z) : BurnProofRow := {|
  bp_id := id;
  bp_account_id := nb_account_id proof;
  bp_output_hash := nb_output_hash proof;
  bp_commitment := nb_commitment proof;
  bp_claim_public_key := nb_claim_public_key proof;
  bp_ownership_proof_nonce := nb_ownership_proof_nonce proof;
  bp_ownership_proof_sig := nb_ownership_proof_sig proof;
  bp_kernel_excess := nb_kernel_excess proof;
  bp_kernel_excess_nonce := nb_kernel_excess_nonce proof;
  bp_kernel_excess_sig := nb_kernel_excess_sig proof;
  bp_sender_offset_public_key := nb_sender_offset_public_key proof;
  bp_encrypted_data := nb_encrypted_data proof;
  bp_value := as_i64 (nb_value proof);
  bp_kernel_fee := as_i64 (nb_kernel_fee proof);
  bp_kernel_lock_height := as_i64 (nb_kernel_lock_height proof);
  bp_status := BURN_PROOF_STATUS_PENDING_MERKLE;
  bp_created_at := now;
  bp_updated_at := now;
|}.

(** The unique index on [output_hash]. *)
Definition insert_burn_proof (proof : NewBurnProof) : DbM Z :=
  constrained (fun d => account_exists (nb_account_id proof) d
    && negb (existsb (fun b => String.eqb (bp_output_hash b) (nb_output_hash proof)) (rows (burn_proofs d)))) ;;;
  let! d := gets (fun d => d) in
  let '(id, t) := insert_auto (burn_proof_row proof (clock d)) (burn_proofs d) in
  modify (with_burn_proofs t) ;;;
  ret id.

Definition get_burn_proof_by_output_hash (output_hash : string) : DbM (option BurnProofRow) :=
  gets (fun d => head (select (fun b => String.eqb (bp_output_hash b) output_hash) (burn_proofs d))).

Definition is_pending_merkle (b : BurnProofRow) : bool :=
  String.eqb (bp_status b) BURN_PROOF_STATUS_PENDING_MERKLE.

(** [ORDER BY created_at ASC]. *)
Definition get_pending_burn_proofs : DbM (list BurnProofRow) :=
  gets (fun d => sort_by (fun a b => bp_created_at a <=? bp_created_at b)
    (select is_pending_merkle (burn_proofs d))).

Definition set_burn_proof_complete (now : Z) (b : BurnProofRow) : BurnProofRow :=
  mkBurnProofRow (bp_id b) (bp_account_id b) (bp_output_hash b) (bp_commitment b) (bp_claim_public_key b)
    (bp_ownership_proof_nonce b) (bp_ownership_proof_sig b) (bp_kernel_excess b) (bp_kernel_excess_nonce b)
    (bp_kernel_excess_sig b) (bp_sender_offset_public_key b) (bp_encrypted_data b) (bp_value b)
    (bp_kernel_fee b) (bp_kernel_lock_height b) BURN_PROOF_STATUS_COMPLETE (bp_created_at b) now.

Definition mark_burn_proof_complete (id : Z) : DbM unit :=
  modify (fun d => with_burn_proofs
    (update_where (fun b => bp_id b =? id) (set_burn_proof_complete (clock d)) (burn_proofs d)) d).

Lemma preserves_insert_burn_proof (P : Db -> Prop) p :
  (forall t d, P d -> P (with_burn_proofs t d)) -> preserves P (insert_burn_proof p).
Proof. intros HP. unfold insert_burn_proof. solve_preserves. Qed.

#[export] Hint Extern 5 (preserves _ (insert_burn_proof _)) =>
  apply preserves_insert_burn_proof; intros ? ? ?; subst; cbn; try done : dbm.
