(* ===== verification/WebhooksDb.v ===== *)
(** * The webhook queue ([minotari/src/db/webhooks.rs]) *)
From S2P Require Import Prelude Models Schema.
#[local] Open Scope Z_scope.

Module WS := WebhookStatus.

Record WebhookQueueItem := mkWebhookQueueItem {
  wq_id : Z;
  wq_event_id : option Z;
  wq_event_type : string;
  wq_payload : string;
  wq_target_url : string;
  wq_status : WS.t;
  wq_attempt_count : Z;
  wq_next_retry_at : Z;
  wq_created_at : Z;
  wq_last_error : option string;
}.

Definition webhook_item (r : WebhookRow) : WebhookQueueItem :=
  mkWebhookQueueItem (w_id r) (w_event_id r) (w_event_type r) (w_payload r) (w_target_url r)
    (match WS.from_str (w_status r) with Ok s => s | _ => WS.Failed end)
    (w_attempt_count r) (w_next_retry_at r) (w_created_at r) (w_last_error r).

Definition enqueue_webhook (event_id : option Z) (event_type payload target_url : string) : DbM Z :=
  constrained (fun d => opt_ref (fun e => event_exists e d) event_id) ;;;
  let! d := gets (fun d => d) in
  let '(id, t) := insert_auto (fun id => mkWebhookRow id event_id event_type payload target_url
    (WS.to_string WS.Pending) 0 (clock d) (clock d) None) (webhook_queue d) in
  modify (with_webhook_queue t) ;;;
  ret id.

Definition is_due (now : Z) (r : WebhookRow) : bool :=
  (String.eqb (w_status r) "pending" || String.eqb (w_status r) "failed") && (w_next_retry_at r <=? now).

(** [ORDER BY next_retry_at ASC LIMIT :limit]. *)
Definition fetch_due_webhooks (limit : Z) : DbM (list WebhookQueueItem) :=
  gets (fun d => map webhook_item (limit_offset limit 0
    (sort_by (fun a b => w_next_retry_at a <=? w_next_retry_at b)
      (select (is_due (clock d)) (webhook_queue d))))).

Definition set_webhook (status : WS.t) (attempt_count next_retry_at : Z) (last_error : option string)
    (r : WebhookRow) : WebhookRow :=
  mkWebhookRow (w_id r) (w_event_id r) (w_event_type r) (w_payload r) (w_target_url r)
    (WS.to_string status) attempt_count next_retry_at (w_created_at r) last_error.

Definition update_webhook_status (id : Z) (status : WS.t) (attempt_count next_retry_at : Z)
    (last_error : option string) : DbM unit :=
  modify (fun d => with_webhook_queue (update_where (fun r => w_id r =? id)
    (set_webhook status attempt_count next_retry_at last_error) (webhook_queue d)) d).

Definition delete_webhooks_older_than (timestamp : Z) : DbM Z :=
  let! count := gets (fun d => Z.of_nat (length
    (select (fun r => w_created_at r <? timestamp) (webhook_queue d)))) in
  modify (fun d => with_webhook_queue
    (delete_where (fun r => w_created_at r <? timestamp) (webhook_queue d)) d) ;;;
  ret count.

Lemma preserves_enqueue_webhook (P : Db -> Prop) e t p u :
  (forall t d, P d -> P (with_webhook_queue t d)) -> preserves P (enqueue_webhook e t p u).
Proof. intros HP. unfold enqueue_webhook. solve_preserves. Qed.

#[export] Hint Extern 5 (preserves _ (enqueue_webhook _ _ _ _)) =>
  apply preserves_enqueue_webhook; intros ? ? ?; subst; cbn; try done : dbm.
