(* ===== verification/Webhooks.v ===== *)
(** * Webhooks ([minotari/src/webhooks/])

    Enqueueing a delivery with the balance of the account ([utils.rs]), sending
    one ([sender.rs]) and the worker with its retries ([worker.rs]).  The HTTP
    client, the HMAC and the random generator are arguments. *)
From S2P Require Import Prelude Models DisplayTypes External Schema BalanceDb OutputsDb AccountsDb.
From S2P Require Import WebhooksDb.
#[local] Open Scope Z_scope.

(** ** [utils.rs] *)
Record WebhookTriggerConfig := mkWebhookTriggerConfig {
  url : string;
  send_only_event_types : option (list string);
}.

(** A configured, non-empty list of event types filters the events. *)
Definition event_filtered (config : WebhookTriggerConfig) (event_key : string) : bool :=
  match send_only_event_types config with
  | Some allowed_events =>
      negb (match allowed_events with [] => true | _ => false end)
      && negb (existsb (String.eqb event_key) allowed_events)
  | None => false
  end.

Definition trigger_webhook_with_balance {X : Ext} (account_id event_id : Z) (event : WalletEvent)
    (config : WebhookTriggerConfig) : DbM unit :=
  let event_key := to_key_string (event_type event) in
  if event_filtered config event_key then ret tt else
  let! balance := get_balance account_id in
  let snapshot := mkWebhookBalanceSnapshot (available balance) (unconfirmed balance) (locked balance) in
  let! now := gets clock in
  let payload := mkWebhookPayload event_id event_key now (Some snapshot) (event_type event) in
  let! payload_json := lift (ok_or (webhook_payload_to_json payload) (Unexpected "Serialization error")) in
  enqueue_webhook (Some event_id) (wp_event_type payload) payload_json (url config) ;;;
  ret tt.

Lemma preserves_get_balance {X : Ext} (P : Db -> Prop) a : preserves P (get_balance a).
Proof. unfold get_balance, get_output_totals_for_account. solve_preserves. Qed.
#[export] Hint Resolve preserves_get_balance : dbm.

Lemma preserves_trigger_webhook {X : Ext} (P : Db -> Prop) a i e c :
  (forall t d, P d -> P (with_webhook_queue t d)) -> preserves P (trigger_webhook_with_balance a i e c).
Proof.
  intros HP. pose proof preserves_enqueue_webhook. unfold trigger_webhook_with_balance.
  solve_preserves; auto.
Qed.

#[export] Hint Extern 5 (preserves _ (trigger_webhook_with_balance _ _ _ _)) =>
  apply preserves_trigger_webhook; intros ? ? ?; subst; cbn; try done : dbm.

(** ** [sender.rs] *)
Inductive DeliveryResult :=
| Success
| RetryableFailure (msg : string)
| PermanentFailure (msg : string).

(** What [client.post(..).send()] gives: a response with its status code and
    body, or a network error. *)
Inductive HttpOutcome :=
| Response (status : Z) (body : string)
| NetworkError (msg : string).

Definition is_success (status : Z) : bool := (200 <=? status) && (status <? 300).
Definition is_client_error (status : Z) : bool := (400 <=? status) && (status <? 500).

(** [.chars().take(n)]. *)
Definition string_take (n : nat) (s : string) : string := String.substring 0 n s.

Section Sender.
(** HMAC-SHA256 of a text under a key, in hex; [None] for a bad key. *)
Context (hmac_hex : string -> string -> option string).
(** The receiver: URL, signature header, timestamp header, body. *)
Context (post : string -> string -> string -> string -> HttpOutcome).

Definition sign_payload (secret : string) (timestamp : Z) (payload : string) : outcome string string :=
  match hmac_hex secret (pretty timestamp +:+ "." +:+ payload) with
  | None => Err "Invalid key length"
  | Some sig_hex => Ok ("t=" +:+ pretty timestamp +:+ ",v1=" +:+ sig_hex)
  end.

Definition send (now : Z) (url secret payload : string) : DeliveryResult :=
  match sign_payload secret now payload with
  | Err e | Panic e => PermanentFailure ("Signing error: " +:+ e)
  | Ok signature =>
      match post url signature (pretty now) payload with
      | Response status body =>
          if is_success status then Success
          else if is_client_error status then
            PermanentFailure ("Client Error " +:+ pretty status +:+ ": " +:+ string_take 200 body)
          else RetryableFailure ("Server Error " +:+ pretty status)
      | NetworkError e => RetryableFailure ("Network Error: " +:+ e)
      end
  end.
End Sender.

(** ** [worker.rs] *)
Definition BATCH_SIZE : Z := 10.
Definition MAX_ATTEMPTS : Z := 10.
Definition MAX_AGE : Z := 24 * 60 * 60.

(** [4u64.pow(e)]. *)
Definition pow4 {E} (e : Z) : outcome E Z :=
  if e <? 32 then Ok (4 ^ e) else Panic "attempt to multiply with overflow".

(** [draw n] is [gen_range(0..=n)], [plus] is [gen_bool(0.5)].  The [as u32] cast
    of [attempt - 1] wraps a negative exponent to at least [2^31]. *)
Definition calculate_backoff {E} (draw : Z -> Z) (plus : bool) (now attempt : Z) : outcome E (Z * bool) :=
  if MAX_ATTEMPTS <=? attempt then Ok (now, true) else
  outcome_bind (pow4 ((attempt - 1) `mod` 2 ^ 32)) (fun p =>
  let base_seconds := 30 * p in
  let capped_seconds := Z.min base_seconds MAX_AGE in
  let jitter_range := capped_seconds / 10 in
  let jitter := draw jitter_range in
  let final_seconds :=
    if plus then capped_seconds + jitter else u64_saturating_sub capped_seconds jitter in
  Ok (now + as_i64 final_seconds, false)).

Section Worker.
Context (sender : Z -> string -> string -> string -> DeliveryResult).
Context (draw : Z -> Z) (plus : bool).

(** The status, the next attempt and the message that a delivery leads to. *)
Definition delivery_update (now : Z) (item : WebhookQueueItem) (result : DeliveryResult) :
    outcome WalletDbError (WS.t * Z * option string) :=
  match result with
  | Success => Ok (WS.Success, wq_next_retry_at item, None)
  | PermanentFailure msg => Ok (WS.PermanentFailure, wq_next_retry_at item, Some msg)
  | RetryableFailure msg =>
      outcome_bind (calculate_backoff draw plus now (wq_attempt_count item + 1)) (fun '(next_retry, stop_retrying) =>
      Ok (if stop_retrying then WS.PermanentFailure else WS.Failed, next_retry, Some msg))
  end.

(** A failure to store the result is logged and dropped. *)
Definition process_item (secret : string) (item : WebhookQueueItem) : DbM unit :=
  let! now := gets clock in
  let result := sender now (wq_target_url item) secret (wq_payload item) in
  let! (new_status, next_retry, error_msg) := lift (delivery_update now item result) in
  attempt (update_webhook_status (wq_id item) new_status (wq_attempt_count item + 1) next_retry error_msg) ;;;
  ret tt.

Definition process_batch (secret : string) : DbM unit :=
  let! items := fetch_due_webhooks BATCH_SIZE in
  for_each (process_item secret) items.
End Worker.
