(* ===== verification/ScanEvents.v ===== *)
(** * Scanner events and the per-block accumulator
    ([minotari/src/scan/events.rs], [scan/block_event_accumulator.rs]) *)
From S2P Require Import Prelude Models DisplayTypes External.
#[local] Open Scope Z_scope.

Section Events.
Context {X : Ext}.

Record DetectedOutput := mkDetectedOutput {
  do_height : Z;
  do_mined_in_block_hash : string;
  do_output : WalletOutput;
}.

Record SpentInput := mkSpentInput {
  si_output_id : Z;
  mined_in_block : string;
  mined_in_block_height : Z;
  si_output : WalletOutput;
}.

Record BalanceChangeSummary := mkBalanceChangeSummary {
  bcs_credit : Z;
  bcs_debit : Z;
  bcs_description : string;
}.

Record BlockProcessedEvent := mkBlockProcessedEvent {
  bpe_account_id : Z;
  bpe_height : Z;
  bpe_block_hash : string;
  outputs_detected : list DetectedOutput;
  inputs_spent : list SpentInput;
  bpe_balance_changes : list BalanceChangeSummary;
}.

Inductive PauseReason :=
| MaxBlocksReached (limit : Z)
| Cancelled.

Inductive ScanStatusEvent :=
| Started (account_id from_height : Z)
| Progress (account_id current_height blocks_scanned : Z)
| MoreBlocksAvailable (account_id last_scanned_height : Z)
| ScanCompleted (account_id final_height total_blocks_scanned : Z)
| Waiting (account_id resume_in : Z)
| Paused (account_id last_scanned_height : Z) (reason : PauseReason).

Record ReorgDetectedEvent := mkReorgDetectedEvent {
  rde_account_id : Z;
  reorg_from_height : Z;
  new_height : Z;
  blocks_rolled_back : Z;
  invalidated_output_hashes : list string;
  cancelled_transaction_ids : list string;
  reorganized_displayed_transactions : list DisplayedTransaction;
}.

Record DisplayedTransactionsEvent := mkDisplayedTransactionsEvent {
  dte_account_id : Z;
  dte_transactions : list DisplayedTransaction;
  dte_block_height : option Z;
  is_initial_sync : bool;
}.

Record TransactionsUpdatedEvent := mkTransactionsUpdatedEvent {
  tue_account_id : Z;
  updated_transactions : list DisplayedTransaction;
}.

Inductive ProcessingEvent :=
| BlockProcessed (e : BlockProcessedEvent)
| ScanStatus (e : ScanStatusEvent)
| TransactionsReady (e : DisplayedTransactionsEvent)
| TransactionsUpdated (e : TransactionsUpdatedEvent)
| ReorgDetected (e : ReorgDetectedEvent).

(** ** [BlockEventAccumulator] *)
Record BlockEventAccumulator := mkBlockEventAccumulator {
  ba_account_id : Z;
  ba_height : Z;
  ba_block_hash : string;
  debit_balance_changes : list (BalanceChange * SpentInput);
  credit_balance_changes : list (BalanceChange * DetectedOutput);
}.

Definition BlockEventAccumulator_new (account_id height : Z) (block_hash : string) : BlockEventAccumulator :=
  mkBlockEventAccumulator account_id height block_hash [] [].

Definition total_changes (a : BlockEventAccumulator) : nat :=
  (length (debit_balance_changes a) + length (credit_balance_changes a))%nat.

Definition add_debit_change (change : BalanceChange) (input : SpentInput) (a : BlockEventAccumulator) :
    BlockEventAccumulator :=
  mkBlockEventAccumulator (ba_account_id a) (ba_height a) (ba_block_hash a)
    (debit_balance_changes a ++ [(change, input)]) (credit_balance_changes a).

Definition add_credit_change (change : BalanceChange) (output : DetectedOutput) (a : BlockEventAccumulator) :
    BlockEventAccumulator :=
  mkBlockEventAccumulator (ba_account_id a) (ba_height a) (ba_block_hash a)
    (debit_balance_changes a) (credit_balance_changes a ++ [(change, output)]).

Definition is_empty (a : BlockEventAccumulator) : bool :=
  match debit_balance_changes a, credit_balance_changes a with
  | [], [] => true
  | _, _ => false
  end.

Definition summary (c : BalanceChange) : BalanceChangeSummary :=
  mkBalanceChangeSummary (balance_credit c) (balance_debit c) (bc_description c).

Definition into_event (a : BlockEventAccumulator) : BlockProcessedEvent := {|
  bpe_account_id := ba_account_id a;
  bpe_height := ba_height a;
  bpe_block_hash := ba_block_hash a;
  outputs_detected := map snd (credit_balance_changes a);
  inputs_spent := map snd (debit_balance_changes a);
  bpe_balance_changes := map (fun c => summary (fst c)) (credit_balance_changes a)
    ++ map (fun c => summary (fst c)) (debit_balance_changes a);
|}.

End Events.
