(* ===== verification/Subset.v ===== *)
(** * Matching change outputs with spent inputs
    ([transactions/displayed_transaction_processor/processor.rs])

    [solve_back_track] assigns to each target value (the total a transaction
    spends) a set of spent inputs with exactly that sum, by a pruned search over
    the inputs sorted by value. *)
From S2P Require Import Prelude Models DisplayTypes External.
#[local] Open Scope Z_scope.

(** [ProcessorError] ([displayed_transaction_processor/error.rs]). *)
Inductive ProcessorError :=
| DbError (e : WalletDbError)
| ParseError (msg : string)
| MissingError (msg : string).

Definition processor_error_to_string {X : Ext} (e : ProcessorError) : string :=
  match e with
  | DbError e => "Database execution error: " +:+ db_error_to_string e
  | ParseError msg => "Failed to parse output data: " +:+ msg
  | MissingError msg => "Missing data: " +:+ msg
  end.

Section Solver.
Context {X : Ext} {S0 : StdOrder}.

(** [suffix.(i)] is the sum of [vals] from [i] on. *)
Fixpoint suffix_sums (vals : list Z) : outcome ProcessorError (list Z) :=
  match vals with
  | [] => Ok [0]
  | val :: vals' =>
      outcome_bind (suffix_sums vals') (fun s =>
      outcome_bind (mm_plus (hd 0 s) val) (fun x => Ok (x :: s)))
  end.

(** The [assignment] is threaded through the search as the code's mutable vector.
    [fuel] bounds the depth; [length vals + 1] is enough ([back_track_spec]). *)
Fixpoint back_track (fuel : nat) (vals suffix : list Z) (assignment : list bool) (step : nat)
    (current target : Z) : outcome ProcessorError (bool * list bool) :=
  match fuel with
  | O => Panic "out of fuel"
  | S fuel =>
      if current =? target then Ok (true, assignment) else
      if (step =? length vals)%nat then Ok (false, assignment) else
      match vals !! step with
      | None => Ok (false, assignment)
      | Some n =>
          match suffix !! (step + 1)%nat with
          | None => Ok (false, assignment)
          | Some rem =>
              outcome_bind (mm_plus current rem) (fun cr =>
              outcome_bind (mm_plus cr n) (fun crn =>
              if crn <? target then Ok (false, assignment) else
              if current >? target then Ok (false, assignment) else
              if (length assignment <=? step)%nat then Ok (false, assignment) else
              outcome_bind (mm_plus current n) (fun cn =>
              let skip assignment :=
                back_track fuel vals suffix (<[step := false]> assignment) (step + 1) current target in
              if cn <=? target then
                outcome_bind (back_track fuel vals suffix (<[step := true]> assignment) (step + 1) cn target)
                  (fun '(found, assignment) => if found : bool then Ok (true, assignment) else skip assignment)
              else skip assignment)))
          end
      end
  end.

(** [candidates.iter().zip(&assignment).filter(taken).map(index)]. *)
Fixpoint taken (candidates : list nat) (assignment : list bool) : list nat :=
  match candidates, assignment with
  | c :: cs, a :: asg => if a then c :: taken cs asg else taken cs asg
  | _, _ => []
  end.

(** The indices of the pool whose value is at most the target; [None] when an
    index is out of bounds. *)
Fixpoint candidates_of (pool : list nat) (nums : list Z) (target : Z) : option (list nat) :=
  match pool with
  | [] => Some []
  | index :: pool' =>
      n ← nums !! index;
      cs ← candidates_of pool' nums target;
      Some (if n <=? target then index :: cs else cs)
  end.

Definition num (nums : list Z) (i : nat) : Z := default 0 (nums !! i).

Definition backtrack_subset (pool : list nat) (nums : list Z) (target : Z) :
    outcome ProcessorError (option (list nat)) :=
  match candidates_of pool nums target with
  | None => Ok None
  | Some candidates =>
      let candidates := sort_unstable (fun a b => num nums b <=? num nums a) candidates in
      let vals := map (num nums) candidates in
      outcome_bind (suffix_sums vals) (fun suffix =>
      if hd 0 suffix <? target then Ok None else
      outcome_bind (back_track (S (length vals)) vals suffix (replicate (length vals) false) 0 0 target)
        (fun '(found, assignment) =>
          Ok (if found : bool then Some (taken candidates assignment) else None)))
  end.

Fixpoint solve_targets (nums : list Z) (remaining : list nat) (targets : list (Z * nat)) :
    outcome ProcessorError (list (nat * list nat)) :=
  match targets with
  | [] => Ok []
  | (target, original_output_idx) :: targets' =>
      outcome_bind (backtrack_subset remaining nums target) (fun r =>
      let used := default [] r in
      let remaining := List.filter (fun i => negb (existsb (Nat.eqb i) used)) remaining in
      outcome_bind (solve_targets nums remaining targets') (fun result =>
      Ok ((original_output_idx, used) :: result)))
  end.

(** [values] are the values of the inputs, in their order. *)
Definition solve_back_track (values : list Z) (targets : list (Z * nat)) :
    outcome ProcessorError (list (nat * list nat)) :=
  let targets := sort_unstable (fun a b => a.1 <=? b.1) targets in
  let nums := sort_unstable Z.leb values in
  solve_targets nums (seq 0 (length values)) targets.

End Solver.

(** ** Correctness of the search *)

(** The sum of the values an assignment takes. *)
Fixpoint chosen (assignment : list bool) (vals : list Z) : Z :=
  match assignment, vals with
  | a :: asg, v :: vs => (if a then v else 0) + chosen asg vs
  | _, _ => 0
  end.

Lemma chosen_app a1 v1 a2 v2 :
  length a1 = length v1 -> chosen (a1 ++ a2) (v1 ++ v2) = chosen a1 v1 + chosen a2 v2.
Proof.
  revert v1. induction a1 as [|a a1 IH]; intros [|v v1] H; try done.
  cbn in *. rewrite IH by lia. lia.
Qed.

Lemma chosen_bounds vals asg :
  (forall v, v ∈ vals -> 0 <= v) -> 0 <= chosen asg vals <= sumZ vals.
Proof.
  revert asg. unfold sumZ. induction vals as [|v vals IH]; intros asg Hn.
  - destruct asg; cbn; done.
  - rewrite zsum_cons. assert (0 <= v) by (apply Hn; set_solver).
    assert (0 <= zsum id vals) by (apply zsum_nonneg; intros; apply Hn; set_solver).
    change (id v) with v. destruct asg as [|a asg]; cbn; [lia|].
    assert (0 <= chosen asg vals <= zsum id vals) by (apply IH; intros; apply Hn; set_solver).
    destruct a; lia.
Qed.

Lemma chosen_none vals : chosen (replicate (length vals) false) vals = 0.
Proof. induction vals as [|v vals IH]; [done|]. cbn. rewrite IH. done. Qed.

Section Proofs.
Context {X : Ext} {XL : ExtLaws X}.

Definition good_values (vals : list Z) : Prop :=
  (forall v, v ∈ vals -> is_u64 v) /\ sumZ vals <= u64_max.

Lemma good_values_nonneg vals v : good_values vals -> v ∈ vals -> 0 <= v.
Proof. intros [H _] Hv. specialize (H v Hv). unfold is_u64 in H. lia. Qed.

Lemma good_values_cons v vals : good_values (v :: vals) -> is_u64 v /\ good_values vals.
Proof.
  intros [H1 H2]. pose proof (H1 v ltac:(set_solver)) as Hv. split; [done|]. split; [set_solver|].
  unfold sumZ in *. rewrite zsum_cons in H2. unfold id at 1 in H2. unfold is_u64 in Hv. lia.
Qed.

Lemma good_sum_u64 vals : good_values vals -> is_u64 (sumZ vals).
Proof.
  intros Hg. pose proof (zsum_nonneg id vals (fun v => good_values_nonneg vals v Hg)).
  destruct Hg as [_ Hs]. unfold is_u64, u64_max, sumZ, two64 in *. lia.
Qed.

Lemma mm_plus_small {E} a b :
  0 <= a -> 0 <= b -> a + b <= u64_max -> mm_plus (E := E) a b = Ok (a + b).
Proof.
  intros. unfold mm_plus. rewrite mm_add_spec by (unfold is_u64, u64_max, two64 in *; lia).
  rewrite (proj2 (Z.leb_le _ _)) by done. done.
Qed.

(** [suffix_sums] does not overflow when the whole sum fits, and its [i]-th
    entry is the sum of the values from [i] on. *)
Lemma suffix_sums_spec vals :
  good_values vals ->
  exists s, suffix_sums vals = Ok s /\
    forall i, (i <= length vals)%nat -> s !! i = Some (sumZ (drop i vals)).
Proof.
  induction vals as [|v vals IH]; intros Hg.
  - exists [0]. split; [done|]. intros [|i] Hi; [done|]. cbn in Hi. lia.
  - pose proof (good_values_cons _ _ Hg) as [Hv Hg'].
    destruct (IH Hg') as (s & Hs & Hl). cbn [suffix_sums]. rewrite Hs. cbn [outcome_bind].
    pose proof (Hl 0%nat ltac:(lia)) as H0. rewrite drop_0 in H0.
    assert (hd 0 s = sumZ vals) as -> by (destruct s; cbn in *; congruence).
    pose proof (good_sum_u64 _ Hg'). destruct Hg as [_ Hsum].
    assert (sumZ (v :: vals) = v + sumZ vals) as Hc by done. unfold is_u64 in *.
    rewrite mm_plus_small by lia. cbn [outcome_bind]. eexists. split; [done|].
    intros [|i] Hi; cbn in *; [f_equal; lia|]. apply Hl. lia.
Qed.

(** From a partial assignment [a1] of [v1], the search over the remaining values
    [v2] returns without running out of fuel; it finds an extension with the
    exact sum if there is one, and otherwise leaves the rest untaken. *)
Lemma back_track_spec v2 : forall fuel v1 a1 suffix current target,
  (length v2 < fuel)%nat ->
  length a1 = length v1 ->
  current = chosen a1 v1 ->
  good_values (v1 ++ v2) ->
  (forall i, (i <= length (v1 ++ v2))%nat -> suffix !! i = Some (sumZ (drop i (v1 ++ v2)))) ->
  exists found a2,
    back_track fuel (v1 ++ v2) suffix (a1 ++ replicate (length v2) false) (length v1) current target
      = Ok (found, a1 ++ a2) /\
    length a2 = length v2 /\
    if found then current + chosen a2 v2 = target
    else a2 = replicate (length v2) false /\
         forall b, length b = length v2 -> current + chosen b v2 <> target.
Proof.
  induction v2 as [|n v2 IH]; intros fuel v1 a1 suffix current target Hf Hl Hc Hg Hs;
    (destruct fuel as [|fuel]; [lia|]); cbn [back_track].
  - exists (current =? target), []. cbn [length replicate]. rewrite !app_nil_r.
    destruct (Z.eqb_spec current target); [split; [done|]; split; [done|]; cbn; lia|].
    rewrite Nat.eqb_refl. split; [done|]. split; [done|]. split; [done|].
    intros [|? ?]; cbn; try done. lia.
  - destruct (Z.eqb_spec current target) as [->|Hne].
    { exists true, (replicate (length (n :: v2)) false). split; [done|].
      split; [by rewrite length_replicate|]. rewrite chosen_none. lia. }
    assert (Hnl : (length v1 =? length (v1 ++ n :: v2))%nat = false).
    { apply Nat.eqb_neq. rewrite length_app. cbn. lia. }
    rewrite Hnl, list_lookup_middle by done.
    rewrite Hs by (rewrite length_app; cbn; lia).
    assert (drop (length v1 + 1) (v1 ++ n :: v2) = v2) as ->.
    { rewrite <- drop_drop, drop_app_length. done. }
    (* Bounds of the partial sums. *)
    assert (Hpos : forall v, v ∈ v1 ++ n :: v2 -> 0 <= v) by (intros; by eapply good_values_nonneg).
    assert (0 <= n) by (apply Hpos; set_solver).
    pose proof (chosen_bounds v1 a1 ltac:(intros; apply Hpos; set_solver)) as [Hc0 Hc1].
    assert (Hv2 : forall v, v ∈ v2 -> 0 <= v) by (intros; apply Hpos; set_solver).
    assert (0 <= sumZ v2) by (apply zsum_nonneg; auto).
    assert (Htot : sumZ v1 + n + sumZ v2 <= u64_max).
    { destruct Hg as [_ Hg]. unfold sumZ in *. rewrite zsum_app, zsum_cons in Hg. unfold id in *. lia. }
    rewrite <- Hc in Hc0, Hc1.
    rewrite mm_plus_small by lia. cbn [outcome_bind].
    rewrite mm_plus_small by lia. cbn [outcome_bind].
    (* Pruned branches have no solution. *)
    assert (Hprune : forall b, length b = length (n :: v2) ->
      current + sumZ v2 + n < target \/ current > target -> current + chosen b (n :: v2) <> target).
    { intros b _ Hp. pose proof (chosen_bounds (n :: v2) b ltac:(set_solver)) as [? Hb].
      unfold sumZ in *. rewrite zsum_cons in Hb. unfold id at 1 in Hb. lia. }
    destruct (Z.ltb_spec (current + sumZ v2 + n) target).
    { exists false, (replicate (length (n :: v2)) false).
      repeat split; [by rewrite length_replicate|]. intros b Hb. apply Hprune; [done|lia]. }
    rewrite Z.gtb_ltb. destruct (Z.ltb_spec target current).
    { exists false, (replicate (length (n :: v2)) false).
      repeat split; [by rewrite length_replicate|]. intros b Hb. apply Hprune; [done|lia]. }
    assert (Hal : (length (a1 ++ replicate (length (n :: v2)) false) <=? length v1)%nat = false).
    { apply Nat.leb_gt. rewrite length_app, length_replicate. cbn. lia. }
    rewrite Hal. rewrite mm_plus_small by lia. cbn [outcome_bind].
    (* The state after setting position [step]. *)
    assert (Hset : forall c r, <[length v1 := c]> (a1 ++ r :: replicate (length v2) false)
        = (a1 ++ [c]) ++ replicate (length v2) false).
    { intros c r. rewrite <- Hl, insert_app_r_alt by lia. rewrite Nat.sub_diag. cbn.
      by rewrite <- app_assoc. }
    assert (Hstep : (length v1 + 1)%nat = length (v1 ++ [n])) by (rewrite length_app; done).
    assert (Hcons : v1 ++ n :: v2 = (v1 ++ [n]) ++ v2) by (by rewrite <- app_assoc).
    pose proof (fun c cur => IH fuel (v1 ++ [n]) (a1 ++ [c]) suffix cur target) as IHc.
    cbn [length replicate].
    assert (Hskip : exists found a2,
      back_track fuel (v1 ++ n :: v2) suffix ((a1 ++ [false]) ++ replicate (length v2) false)
        (length v1 + 1) current target = Ok (found, a1 ++ a2) /\
      length a2 = S (length v2) /\
      if found then current + chosen a2 (n :: v2) = target
      else a2 = false :: replicate (length v2) false /\
         forall b, length b = length v2 -> current + chosen b v2 <> target).
    { rewrite Hcons, Hstep. destruct (IHc false current) as (found & a2 & He & Hl2 & Hr).
      - cbn in Hf. lia.
      - rewrite !length_app. cbn. lia.
      - rewrite chosen_app by done. cbn. lia.
      - by rewrite <- Hcons.
      - by rewrite <- Hcons.
      - exists found, (false :: a2). split; [by rewrite He, <- app_assoc|]. split; [cbn; lia|].
        destruct found; [cbn; lia|]. destruct Hr as [-> Hr]. done. }
    destruct (Z.leb_spec (current + n) target).
    + rewrite Hset. destruct (IHc true (current + n)) as (found & a2 & He & Hl2 & Hr).
      { cbn in Hf. lia. }
      { rewrite !length_app. cbn. lia. }
      { rewrite chosen_app by done. cbn. lia. }
      { by rewrite <- Hcons. }
      { by rewrite <- Hcons. }
      rewrite <- Hcons, <- Hstep in He. rewrite He. cbn [outcome_bind].
      destruct found.
      { exists true, (true :: a2). rewrite <- app_assoc. cbn. split; [done|]. lia. }
      destruct Hr as [-> Hr]. rewrite <- app_assoc. cbn [app]. rewrite Hset.
      destruct Hskip as (found & a2 & -> & Hl3 & Hr3). exists found, a2.
      split; [done|]. split; [done|]. destruct found; [done|]. destruct Hr3 as [-> Hr3].
      split; [done|]. intros [|c b] Hb; cbn in Hb; [done|]. cbn [chosen].
      specialize (Hr b ltac:(lia)). specialize (Hr3 b ltac:(lia)). destruct c; lia.
    + rewrite Hset. destruct Hskip as (found & a2 & -> & Hl3 & Hr3). exists found, a2.
      split; [done|]. split; [done|]. destruct found; [done|]. destruct Hr3 as [-> Hr3].
      split; [done|]. intros [|c b] Hb; cbn in Hb; [done|]. cbn [chosen].
      pose proof (chosen_bounds v2 b Hv2). specialize (Hr3 b ltac:(lia)). destruct c; lia.
Qed.

(** ** One target *)
Lemma candidates_of_filter pool nums target :
  (forall i, i ∈ pool -> (i < length nums)%nat) ->
  candidates_of pool nums target = Some (List.filter (fun i => num nums i <=? target) pool).
Proof.
  induction pool as [|i pool IH]; intros Hb; [done|]. cbn.
  destruct (lookup_lt_is_Some_2 nums i ltac:(apply Hb; set_solver)) as [n Hn].
  rewrite Hn. cbn. rewrite IH by (intros; apply Hb; set_solver). cbn.
  assert (num nums i = n) as -> by (unfold num; by rewrite Hn). by destruct (n <=? target).
Qed.

Lemma taken_sum cs asg nums : zsum (num nums) (taken cs asg) = chosen asg (map (num nums) cs).
Proof.
  revert asg. induction cs as [|c cs IH]; intros [|a asg]; try done. cbn.
  destruct a; rewrite ?zsum_cons, IH; lia.
Qed.

Lemma taken_sublist cs asg : taken cs asg `sublist_of` cs.
Proof.
  revert asg. induction cs as [|c cs IH]; intros [|a asg]; cbn; try apply sublist_nil_l.
  destruct a; [by apply sublist_skip|by apply sublist_cons].
Qed.

Lemma chosen_select (sel : nat -> bool) cs nums :
  chosen (map sel cs) (map (num nums) cs) = zsum (num nums) (List.filter sel cs).
Proof.
  induction cs as [|c cs IH]; [done|]. cbn. destruct (sel c); rewrite ?zsum_cons, IH; lia.
Qed.

Lemma num_seq nums : zsum (num nums) (seq 0 (length nums)) = sumZ nums.
Proof.
  unfold sumZ. rewrite <- (zsum_map id (num nums)). f_equal.
  apply list_eq. intros i. rewrite list_lookup_fmap.
  destruct (decide (i < length nums)%nat) as [Hi|Hi].
  - rewrite lookup_seq_lt by done. cbn. unfold num.
    destruct (lookup_lt_is_Some_2 nums i Hi) as [n ->]. done.
  - rewrite lookup_seq_ge, lookup_ge_None_2 by lia. done.
Qed.

(** Distinct valid indices select values whose sum does not overflow. *)
Lemma good_values_indices l nums :
  NoDup l -> (forall i, i ∈ l -> (i < length nums)%nat) -> good_values nums ->
  good_values (map (num nums) l).
Proof.
  intros Hd Hb Hg.
  assert (Hu : forall i, (i < length nums)%nat -> is_u64 (num nums i)).
  { intros i Hi. unfold num. destruct (lookup_lt_is_Some_2 nums i Hi) as [n Hn].
    rewrite Hn. apply Hg. by eapply list_elem_of_lookup_2. }
  split.
  - intros v (i & -> & Hi)%list_elem_of_fmap. auto.
  - assert (Hsub : l ⊆+ seq 0 (length nums)).
    { apply NoDup_submseteq; [done|]. intros i Hi. apply elem_of_seq. specialize (Hb i Hi). lia. }
    apply submseteq_Permutation in Hsub as [k Hk].
    pose proof (zsum_perm (num nums) _ _ Hk) as Hz. rewrite zsum_app, num_seq in Hz.
    assert (0 <= zsum (num nums) k).
    { apply zsum_nonneg. intros i Hi.
      assert (i ∈ seq 0 (length nums)) as Hin by (rewrite Hk; set_solver).
      apply elem_of_seq in Hin. specialize (Hu i ltac:(lia)). unfold is_u64 in Hu. lia. }
    unfold sumZ at 1. rewrite zsum_map. change (zsum (num nums) l <= u64_max).
    destruct Hg as [_ Hg]. lia.
Qed.

Context {S0 : StdOrder} {SL : StdOrderLaws S0}.

(** The pool indices whose value is at most the target, by descending value. *)
Definition sorted_candidates (pool : list nat) (nums : list Z) (target : Z) : list nat :=
  sort_unstable (fun a b => num nums b <=? num nums a)
    (List.filter (fun i => num nums i <=? target) pool).

Lemma sorted_candidates_perm pool nums target :
  Permutation (sorted_candidates pool nums target)
    (List.filter (fun i => num nums i <=? target) pool).
Proof. apply sort_unstable_perm. Qed.

(** A selection that sums to the target only picks candidates. *)
Lemma selection_in_candidates (sel : nat -> bool) pool nums target :
  (forall i, i ∈ pool -> 0 <= num nums i) ->
  zsum (num nums) (List.filter sel pool) = target ->
  zsum (num nums) (List.filter sel (sorted_candidates pool nums target)) = target.
Proof.
  intros Hn Hsum. assert (Hp : Permutation (List.filter sel (sorted_candidates pool nums target))
    (List.filter sel (List.filter (fun i => num nums i <=? target) pool))).
  { apply filter_Permutation_bool, sorted_candidates_perm. }
  rewrite (zsum_perm _ _ _ Hp), filter_filter. etransitivity; [|exact Hsum]. f_equal.
  apply filter_ext_elem. intros i Hi. destruct (sel i) eqn:E; rewrite ?andb_true_r, ?andb_false_r; [|done].
  apply Z.leb_le. rewrite <- Hsum. apply zsum_elem_le; [|by apply elem_of_filter_bool].
  intros j Hj. apply elem_of_filter_bool in Hj as [Hj _]. auto.
Qed.

Lemma backtrack_subset_spec pool nums target :
  NoDup pool -> (forall i, i ∈ pool -> (i < length nums)%nat) -> good_values nums ->
  exists r, backtrack_subset pool nums target = Ok r /\
    match r with
    | Some used => used ⊆ pool /\ NoDup used /\ zsum (num nums) used = target
    | None => forall sel, zsum (num nums) (List.filter sel pool) <> target
    end.
Proof.
  intros Hd Hb Hg. unfold backtrack_subset. rewrite candidates_of_filter by done.
  fold (sorted_candidates pool nums target). set (cs := sorted_candidates pool nums target).
  assert (Hperm : Permutation cs (List.filter (fun i => num nums i <=? target) pool)) by apply sorted_candidates_perm.
  assert (Hin : forall i, i ∈ cs -> i ∈ pool).
  { intros i. rewrite Hperm, elem_of_filter_bool. tauto. }
  assert (Hcd : NoDup cs) by (rewrite Hperm; by apply NoDup_filter_bool).
  assert (Hgc : good_values (map (num nums) cs)) by (apply good_values_indices; auto).
  assert (Hpn : forall i, i ∈ pool -> 0 <= num nums i).
  { intros i Hi. unfold num. destruct (lookup_lt_is_Some_2 nums i (Hb i Hi)) as [n Hn].
    rewrite Hn. eapply (good_values_nonneg nums); [done|]. by eapply list_elem_of_lookup_2. }
  destruct (suffix_sums_spec _ Hgc) as (s & -> & Hs). cbn [outcome_bind].
  pose proof (Hs 0%nat ltac:(lia)) as H0. rewrite drop_0 in H0.
  assert (hd 0 s = sumZ (map (num nums) cs)) as -> by (destruct s; cbn in *; congruence).
  destruct (Z.ltb_spec (sumZ (map (num nums) cs)) target) as [Hlt|Hge].
  - exists None. split; [done|]. intros sel Hsel.
    apply selection_in_candidates in Hsel; [|done]. fold cs in Hsel.
    pose proof (chosen_bounds (map (num nums) cs) (map sel cs)
      (fun v => good_values_nonneg _ v Hgc)) as [_ Hbd].
    rewrite chosen_select in Hbd. lia.
  - destruct (back_track_spec (map (num nums) cs) (S (length (map (num nums) cs))) [] [] s 0 target)
      as (found & a & He & Hl & Hr); try done; [lia|].
    cbn [app length] in He. rewrite He. cbn [outcome_bind].
    destruct found.
    + exists (Some (taken cs a)). split; [done|]. pose proof (taken_sublist cs a) as Hsl.
      split; [|split].
      * intros i Hi. apply Hin. by eapply elem_of_sublist.
      * by eapply sublist_NoDup.
      * rewrite taken_sum. lia.
    + exists None. split; [done|]. destruct Hr as [_ Hr]. intros sel Hsel.
      apply selection_in_candidates in Hsel; [|done]. fold cs in Hsel.
      apply (Hr (map sel cs)); [by rewrite !length_map|]. rewrite chosen_select. lia.
Qed.

(** ** All targets

    The abstract specification of the matching: targets are served in order, each
    from the indices that the earlier ones left; a target gets indices whose
    values sum to it, or nothing when no selection of what is left does. *)
Inductive solved (nums : list Z) : list nat -> list (Z * nat) -> list (nat * list nat) -> Prop :=
| solved_nil pool : solved nums pool [] []
| solved_cons pool target idx targets used result :
    used ⊆ pool ->
    NoDup used ->
    zsum (num nums) used = target
      \/ (used = [] /\ forall sel, zsum (num nums) (List.filter sel pool) <> target) ->
    solved nums (List.filter (fun i => negb (existsb (Nat.eqb i) used)) pool) targets result ->
    solved nums pool ((target, idx) :: targets) ((idx, used) :: result).

Lemma solve_targets_spec nums targets pool :
  NoDup pool -> (forall i, i ∈ pool -> (i < length nums)%nat) -> good_values nums ->
  exists result, solve_targets nums pool targets = Ok result /\ solved nums pool targets result.
Proof.
  revert pool. induction targets as [|[target idx] targets IH]; intros pool Hd Hb Hg; cbn.
  - exists []. split; [done|constructor].
  - destruct (backtrack_subset_spec pool nums target Hd Hb Hg) as (r & -> & Hr). cbn [outcome_bind].
    destruct (IH (List.filter (fun i => negb (existsb (Nat.eqb i) (default [] r))) pool)) as (result & -> & Hs).
    + by apply NoDup_filter_bool.
    + intros i [Hi _]%elem_of_filter_bool. auto.
    + done.
    + cbn [outcome_bind]. eexists. split; [done|].
      destruct r as [used|]; cbn in *.
      * destruct Hr as (Hsub & Hnd & Hsum). by constructor; [| |left|].
      * constructor; [set_solver|constructor|by right|done].
Qed.

Lemma existsb_nat_elem i l : existsb (Nat.eqb i) l = true <-> i ∈ l.
Proof.
  rewrite existsb_exists, list_elem_of_In. split.
  - intros (x & Hx & ->%Nat.eqb_eq). done.
  - intros Hi. exists i. by rewrite Nat.eqb_refl.
Qed.

Lemma solved_pool nums pool targets result i :
  solved nums pool targets result -> i ∈ concat (map snd result) -> i ∈ pool.
Proof.
  induction 1 as [|pool target idx targets used result Hsub _ _ _ IH]; cbn; [set_solver|].
  rewrite elem_of_app. intros [Hi|Hi]; [set_solver|].
  apply IH, elem_of_filter_bool in Hi. tauto.
Qed.

(** No input serves two targets. *)
Lemma solved_disjoint nums pool targets result :
  solved nums pool targets result -> NoDup (concat (map snd result)).
Proof.
  induction 1 as [|pool target idx targets used result Hsub Hd Hr Hs IH]; cbn; [constructor|].
  apply NoDup_app. split; [done|]. split; [|done]. intros i Hi Hi'.
  apply (solved_pool _ _ _ _ _ Hs), elem_of_filter_bool in Hi' as [_ Hn].
  apply negb_true_iff in Hn. apply existsb_nat_elem in Hi. congruence.
Qed.

Lemma solved_targets nums pool targets result :
  solved nums pool targets result -> map fst result = map snd targets.
Proof. induction 1; cbn; congruence. Qed.

Lemma good_values_perm vals vals' : Permutation vals vals' -> good_values vals -> good_values vals'.
Proof.
  intros Hp [Hu Hs]. split.
  - intros v Hv. apply Hu. by rewrite Hp.
  - unfold sumZ in *. by rewrite <- (zsum_perm id _ _ Hp).
Qed.

(** The search never runs out of fuel and never overflows when the values of the
    spent inputs sum to a [u64]; it implements [solved] on the sorted values,
    serving the targets by ascending value. *)
Lemma solve_back_track_solved values targets :
  good_values values ->
  exists targets' result,
    Permutation targets' targets /\
    StronglySorted (fun a b => (a.1 <=? b.1) = true) targets' /\
    solve_back_track values targets = Ok result /\
    solved (sort_unstable Z.leb values) (seq 0 (length values)) targets' result.
Proof.
  intros Hg. unfold solve_back_track. set (ts := sort_unstable _ targets).
  assert (Hp : Permutation (sort_unstable Z.leb values) values) by apply sort_unstable_perm.
  destruct (solve_targets_spec (sort_unstable Z.leb values) ts (seq 0 (length values))) as (result & He & Hs).
  - apply NoDup_seq.
  - intros i Hi%elem_of_seq. rewrite (Permutation_length Hp). lia.
  - by eapply good_values_perm.
  - exists ts, result. split; [apply sort_unstable_perm|]. split; [|done].
    apply sort_unstable_sorted; intros; rewrite ?Z.leb_le, ?Z.leb_gt in *; lia.
Qed.

End Proofs.
