(* ===== verification/Builder.v ===== *)
(** * Building displayed transactions
    ([transactions/displayed_transaction_processor/builder.rs]) *)
From S2P Require Import Prelude Models DisplayTypes External DisplayedDb Subset.
#[local] Open Scope Z_scope.

Module Builder.

Record DisplayedTransactionBuilder := mkBuilder {
  x_account_id : option Z;
  x_direction : option TransactionDirection;
  x_source : option TransactionSource;
  x_status : option TDS.t;
  x_amount : option Z;
  x_message : option string;
  x_counterparty_address : option string;
  x_block_height : option Z;
  x_block_hash : option string;
  x_timestamp : option Z;
  x_confirmations : option Z;
  x_fee : option Z;
  x_total_credit : Z;
  x_total_debit : Z;
  x_inputs : list TransactionInput;
  x_outputs : list TransactionOutput;
  x_output_type : option string;
  x_coinbase_extra : option string;
  x_memo_hex : option string;
  x_sent_output_hashes : list string;
}.

(** [Default::default()]. *)
Definition new : DisplayedTransactionBuilder :=
  mkBuilder None None None None None None None None None None None None 0 0 [] [] None None None [].

Definition account_id (id : Z) (b : DisplayedTransactionBuilder) : DisplayedTransactionBuilder :=
    mkBuilder (Some id) (x_direction b) (x_source b) (x_status b) (x_amount b) (x_message b)
      (x_counterparty_address b) (x_block_height b) (x_block_hash b) (x_timestamp b)
      (x_confirmations b) (x_fee b) (x_total_credit b) (x_total_debit b) (x_inputs b) (x_outputs b)
      (x_output_type b) (x_coinbase_extra b) (x_memo_hex b) (x_sent_output_hashes b).

Definition direction (direction : TransactionDirection) (b : DisplayedTransactionBuilder) : DisplayedTransactionBuilder :=
    mkBuilder (x_account_id b) (Some direction) (x_source b) (x_status b) (x_amount b) (x_message b)
      (x_counterparty_address b) (x_block_height b) (x_block_hash b) (x_timestamp b)
      (x_confirmations b) (x_fee b) (x_total_credit b) (x_total_debit b) (x_inputs b) (x_outputs b)
      (x_output_type b) (x_coinbase_extra b) (x_memo_hex b) (x_sent_output_hashes b).

Definition source (source : TransactionSource) (b : DisplayedTransactionBuilder) : DisplayedTransactionBuilder :=
    mkBuilder (x_account_id b) (x_direction b) (Some source) (x_status b) (x_amount b) (x_message b)
      (x_counterparty_address b) (x_block_height b) (x_block_hash b) (x_timestamp b)
      (x_confirmations b) (x_fee b) (x_total_credit b) (x_total_debit b) (x_inputs b) (x_outputs b)
      (x_output_type b) (x_coinbase_extra b) (x_memo_hex b) (x_sent_output_hashes b).

Definition status (status : TDS.t) (b : DisplayedTransactionBuilder) : DisplayedTransactionBuilder :=
    mkBuilder (x_account_id b) (x_direction b) (x_source b) (Some status) (x_amount b) (x_message b)
      (x_counterparty_address b) (x_block_height b) (x_block_hash b) (x_timestamp b)
      (x_confirmations b) (x_fee b) (x_total_credit b) (x_total_debit b) (x_inputs b) (x_outputs b)
      (x_output_type b) (x_coinbase_extra b) (x_memo_hex b) (x_sent_output_hashes b).

Definition set_amounts (amount : Z) (direction : TransactionDirection) (credit debit : Z) (b : DisplayedTransactionBuilder) : DisplayedTransactionBuilder :=
    mkBuilder (x_account_id b) (Some direction) (x_source b) (x_status b) (Some amount) (x_message
      b) (x_counterparty_address b) (x_block_height b) (x_block_hash b) (x_timestamp b)
      (x_confirmations b) (x_fee b) credit debit (x_inputs b) (x_outputs b) (x_output_type b)
      (x_coinbase_extra b) (x_memo_hex b) (x_sent_output_hashes b).

(** The amount and the direction follow from the credits and debits. *)
Definition credits_and_debits {X : Ext} (credit debit : Z) (b : DisplayedTransactionBuilder) :
    DisplayedTransactionBuilder :=
  if debit >? 0 then set_amounts (mm_saturating_sub debit credit) Outgoing credit debit b
  else set_amounts credit Incoming credit debit b.

Definition message (message : option string) (b : DisplayedTransactionBuilder) : DisplayedTransactionBuilder :=
    mkBuilder (x_account_id b) (x_direction b) (x_source b) (x_status b) (x_amount b) message
      (x_counterparty_address b) (x_block_height b) (x_block_hash b) (x_timestamp b)
      (x_confirmations b) (x_fee b) (x_total_credit b) (x_total_debit b) (x_inputs b) (x_outputs b)
      (x_output_type b) (x_coinbase_extra b) (x_memo_hex b) (x_sent_output_hashes b).

Definition counterparty (address : option string) (b : DisplayedTransactionBuilder) : DisplayedTransactionBuilder :=
    mkBuilder (x_account_id b) (x_direction b) (x_source b) (x_status b) (x_amount b) (x_message b)
      address (x_block_height b) (x_block_hash b) (x_timestamp b) (x_confirmations b) (x_fee b)
      (x_total_credit b) (x_total_debit b) (x_inputs b) (x_outputs b) (x_output_type b)
      (x_coinbase_extra b) (x_memo_hex b) (x_sent_output_hashes b).

Definition blockchain_info (height : Z) (hash : string) (timestamp confirmations : Z) (b : DisplayedTransactionBuilder) : DisplayedTransactionBuilder :=
    mkBuilder (x_account_id b) (x_direction b) (x_source b) (x_status b) (x_amount b) (x_message b)
      (x_counterparty_address b) (Some height) (Some hash) (Some timestamp) (Some confirmations)
      (x_fee b) (x_total_credit b) (x_total_debit b) (x_inputs b) (x_outputs b) (x_output_type b)
      (x_coinbase_extra b) (x_memo_hex b) (x_sent_output_hashes b).

Definition fee (fee : option Z) (b : DisplayedTransactionBuilder) : DisplayedTransactionBuilder :=
    mkBuilder (x_account_id b) (x_direction b) (x_source b) (x_status b) (x_amount b) (x_message b)
      (x_counterparty_address b) (x_block_height b) (x_block_hash b) (x_timestamp b)
      (x_confirmations b) fee (x_total_credit b) (x_total_debit b) (x_inputs b) (x_outputs b)
      (x_output_type b) (x_coinbase_extra b) (x_memo_hex b) (x_sent_output_hashes b).

Definition inputs (inputs : list TransactionInput) (b : DisplayedTransactionBuilder) : DisplayedTransactionBuilder :=
    mkBuilder (x_account_id b) (x_direction b) (x_source b) (x_status b) (x_amount b) (x_message b)
      (x_counterparty_address b) (x_block_height b) (x_block_hash b) (x_timestamp b)
      (x_confirmations b) (x_fee b) (x_total_credit b) (x_total_debit b) inputs (x_outputs b)
      (x_output_type b) (x_coinbase_extra b) (x_memo_hex b) (x_sent_output_hashes b).

Definition outputs (outputs : list TransactionOutput) (b : DisplayedTransactionBuilder) : DisplayedTransactionBuilder :=
    mkBuilder (x_account_id b) (x_direction b) (x_source b) (x_status b) (x_amount b) (x_message b)
      (x_counterparty_address b) (x_block_height b) (x_block_hash b) (x_timestamp b)
      (x_confirmations b) (x_fee b) (x_total_credit b) (x_total_debit b) (x_inputs b) outputs
      (x_output_type b) (x_coinbase_extra b) (x_memo_hex b) (x_sent_output_hashes b).

Definition output_type (output_type : option string) (b : DisplayedTransactionBuilder) : DisplayedTransactionBuilder :=
    mkBuilder (x_account_id b) (x_direction b) (x_source b) (x_status b) (x_amount b) (x_message b)
      (x_counterparty_address b) (x_block_height b) (x_block_hash b) (x_timestamp b)
      (x_confirmations b) (x_fee b) (x_total_credit b) (x_total_debit b) (x_inputs b) (x_outputs b)
      output_type (x_coinbase_extra b) (x_memo_hex b) (x_sent_output_hashes b).

Definition coinbase_extra (extra : option string) (b : DisplayedTransactionBuilder) : DisplayedTransactionBuilder :=
    mkBuilder (x_account_id b) (x_direction b) (x_source b) (x_status b) (x_amount b) (x_message b)
      (x_counterparty_address b) (x_block_height b) (x_block_hash b) (x_timestamp b)
      (x_confirmations b) (x_fee b) (x_total_credit b) (x_total_debit b) (x_inputs b) (x_outputs b)
      (x_output_type b) extra (x_memo_hex b) (x_sent_output_hashes b).

Definition memo_hex (hex : option string) (b : DisplayedTransactionBuilder) : DisplayedTransactionBuilder :=
    mkBuilder (x_account_id b) (x_direction b) (x_source b) (x_status b) (x_amount b) (x_message b)
      (x_counterparty_address b) (x_block_height b) (x_block_hash b) (x_timestamp b)
      (x_confirmations b) (x_fee b) (x_total_credit b) (x_total_debit b) (x_inputs b) (x_outputs b)
      (x_output_type b) (x_coinbase_extra b) hex (x_sent_output_hashes b).

Definition sent_output_hashes (hashes : list string) (b : DisplayedTransactionBuilder) : DisplayedTransactionBuilder :=
    mkBuilder (x_account_id b) (x_direction b) (x_source b) (x_status b) (x_amount b) (x_message b)
      (x_counterparty_address b) (x_block_height b) (x_block_hash b) (x_timestamp b)
      (x_confirmations b) (x_fee b) (x_total_credit b) (x_total_debit b) (x_inputs b) (x_outputs b)
      (x_output_type b) (x_coinbase_extra b) (x_memo_hex b) hashes.

(** One payment reference per sent output, once the block is known. *)
Definition payrefs {X : Ext} (b : DisplayedTransactionBuilder) : list string :=
  match x_block_hash b with
  | Some block_hash => map (generate_payment_reference block_hash) (x_sent_output_hashes b)
  | None => []
  end.

Definition build {X : Ext} (id : Z) (b : DisplayedTransactionBuilder) :
    outcome ProcessorError DisplayedTransaction :=
  outcome_bind (ok_or (x_amount b) (ParseError "amount is required")) (fun amount =>
  outcome_bind (ok_or (x_direction b) (ParseError "direction is required")) (fun direction =>
  let fee := match direction with
    | Outgoing => mkFeeInfo <$> x_fee b
    | Incoming => None
    end in
  Ok {|
    dt_id := id;
    DisplayTypes.direction := direction;
    DisplayTypes.source := default Unknown (x_source b);
    DisplayTypes.status := default TDS.Pending (x_status b);
    DisplayTypes.amount := amount;
    DisplayTypes.message := x_message b;
    DisplayTypes.counterparty := x_counterparty_address b;
    blockchain := mkBlockchainInfo (default 0 (x_block_height b)) (default 0 (x_timestamp b))
      (default 0 (x_confirmations b)) (default fixed_hash_default (x_block_hash b));
    DisplayTypes.fee := fee;
    details := {|
      td_account_id := default 0 (x_account_id b);
      total_credit := x_total_credit b;
      total_debit := x_total_debit b;
      td_inputs := x_inputs b;
      td_outputs := x_outputs b;
      DisplayTypes.output_type := x_output_type b;
      DisplayTypes.coinbase_extra := x_coinbase_extra b;
      DisplayTypes.memo_hex := x_memo_hex b;
      DisplayTypes.sent_output_hashes := x_sent_output_hashes b;
      sent_payrefs := payrefs b;
    |};
  |})).

End Builder.
