(* ===== verification/Processor.v ===== *)
(** * From balance changes to displayed transactions
    ([transactions/displayed_transaction_processor/processor.rs])

    The credits and debits of a block either update transactions that are already
    displayed, or become new ones: coinbases, received outputs, change outputs
    matched with the inputs they were paid from, and what is left over. *)
From S2P Require Import Prelude Models DisplayTypes External Schema BalanceDb OutputsDb InputsDb.
From S2P Require Import DisplayedDb ScanEvents Subset Builder.
#[local] Open Scope Z_scope.

#[local] Notation "x |> f" := (f x) (at level 50, left associativity, only parsing).

(** ** [MemoInfo] ([scan/block_processor.rs]) *)
Record MemoInfo := mkMemoInfo { parsed : option string; hex : option string }.

Definition MemoInfo_from_output {X : Ext} (output : WalletOutput) : MemoInfo :=
  let memo_bytes := memo_bytes output in
  if String.eqb memo_bytes "" then mkMemoInfo None None
  else mkMemoInfo (Some (utf8_lossy memo_bytes)) (Some (hex_encode memo_bytes)).

(** A loop from the last index to the first that removes the elements with [p]:
    the removed ones in the order of removal, and the rest. *)
Fixpoint extract_rev {A} (p : A -> bool) (l : list A) : list A * list A :=
  match l with
  | [] => ([], [])
  | x :: l' =>
      let '(removed, rest) := extract_rev p l' in
      if p x then (removed ++ [x], rest) else (removed, x :: rest)
  end.

Section Processor.
Context {X : Ext} {S0 : StdOrder}.

Record DisplayedTransactionProcessor := mkProcessor {
  current_tip_height : Z;
  req_confirmations : Z;
  view_key : string;
}.

Context (self : DisplayedTransactionProcessor).

Definition Credit : Type := BalanceChange * DetectedOutput.
Definition Debit : Type := BalanceChange * SpentInput.

Definition calculate_status_and_confirmations (mined_height : Z) : TDS.t * Z :=
  let confirmations := u64_saturating_sub (current_tip_height self) mined_height in
  (if req_confirmations self <=? confirmations then TDS.Confirmed else TDS.Unconfirmed, confirmations).

(** The [TransactionInput] and [TransactionOutput] literals of the code. *)
Definition transaction_input (input : SpentInput) : TransactionInput :=
  mkTransactionInput (wo_output_hash (si_output input)) (wo_value (si_output input))
    (si_output_id input) (mined_in_block input).

Definition transaction_output (output_type : string) (output : DetectedOutput) : TransactionOutput :=
  mkTransactionOutput (wo_output_hash (do_output output)) (wo_value (do_output output))
    OutputStatus.Unspent (do_height output) (do_mined_in_block_hash output) output_type false.

Definition output_id_of (output : WalletOutput) : Z :=
  tx_id_new_deterministic (view_key self) (wo_output_hash output).

(** ** Matching displayed transactions *)
Definition shows_output (hash : string) (tx : DisplayedTransaction) : bool :=
  existsb (fun o => String.eqb (to_hash o) hash) (td_outputs (details tx)).

Definition shows_input (hash : string) (tx : DisplayedTransaction) : bool :=
  existsb (fun i => String.eqb (ti_output_hash i) hash) (td_inputs (details tx)).

Definition mined_update (height effective_date : Z) (tx : DisplayedTransaction) : DisplayedTransaction :=
  let '(status, confirmations) := calculate_status_and_confirmations height in
  set_status status
    (set_blockchain (mkBlockchainInfo height effective_date confirmations (block_hash (blockchain tx))) tx).

(** [HashMap::insert] on an association list. *)
Fixpoint map_insert {A} (k : Z) (v : A) (m : list (Z * A)) : list (Z * A) :=
  match m with
  | [] => [(k, v)]
  | (k', v') :: m' => if k' =? k then (k, v) :: m' else (k', v') :: map_insert k v m'
  end.

Definition UpdateMap : Type := list (Z * DisplayedTransaction).

Definition output_loop (current : list DisplayedTransaction) (credits : list Credit) :
    UpdateMap * list Credit :=
  foldl (fun '(updated, new_credit) '(balance_change, output) =>
    match List.find (shows_output (wo_output_hash (do_output output))) current with
    | Some tx =>
        (map_insert (dt_id tx) (mined_update (do_height output) (effective_date balance_change) tx) updated,
         new_credit)
    | None => (updated, new_credit ++ [(balance_change, output)])
    end) ([], []) credits.

Definition input_loop (current : list DisplayedTransaction) (updated : UpdateMap) (debits : list Debit) :
    UpdateMap * list Debit :=
  foldl (fun '(updated, new_debit) '(balance_change, input) =>
    match List.find (shows_input (wo_output_hash (si_output input))) current with
    | Some tx =>
        (map_insert (dt_id tx) (mined_update (mined_in_block_height input) (effective_date balance_change) tx)
           updated, new_debit)
    | None => (updated, new_debit ++ [(balance_change, input)])
    end) (updated, []) debits.

(** ** New transactions *)
Definition coinbase_transaction (acc : BlockEventAccumulator) (c : Credit) :
    outcome ProcessorError DisplayedTransaction :=
  let '(balance_change, output) := c in
  let '(initial_status, initial_confirmations) := calculate_status_and_confirmations (do_height output) in
  let memo := MemoInfo_from_output (do_output output) in
  Builder.new
  |> Builder.account_id (ba_account_id acc)
  |> Builder.source Coinbase
  |> Builder.status initial_status
  |> Builder.credits_and_debits (balance_credit balance_change) 0
  |> Builder.counterparty None
  |> Builder.blockchain_info (ba_height acc) (do_mined_in_block_hash output)
       (effective_date balance_change) initial_confirmations
  |> Builder.fee None
  |> Builder.inputs []
  |> Builder.outputs [transaction_output OutputType_Coinbase output]
  |> Builder.message (parsed memo)
  |> Builder.memo_hex (hex memo)
  |> Builder.output_type (Some OutputType_Coinbase)
  |> Builder.coinbase_extra (Some (wo_coinbase_extra (do_output output)))
  |> Builder.build (output_id_of (do_output output)).

(** A received output; [handle_unmatched_inputs_outputs] builds the same. *)
Definition received_transaction (acc : BlockEventAccumulator) (c : Credit) :
    outcome ProcessorError DisplayedTransaction :=
  let '(balance_change, output) := c in
  let '(initial_status, initial_confirmations) := calculate_status_and_confirmations (do_height output) in
  let memo := MemoInfo_from_output (do_output output) in
  let sent := default [] (memo_sent_hashes (do_output output)) in
  let other_party := memo_sender (do_output output) in
  Builder.new
  |> Builder.account_id (ba_account_id acc)
  |> Builder.source Transfer
  |> Builder.status initial_status
  |> Builder.credits_and_debits (balance_credit balance_change) 0
  |> Builder.counterparty other_party
  |> Builder.blockchain_info (ba_height acc) (do_mined_in_block_hash output)
       (effective_date balance_change) initial_confirmations
  |> Builder.fee (memo_fee (do_output output))
  |> Builder.message (parsed memo)
  |> Builder.memo_hex (hex memo)
  |> Builder.outputs [transaction_output OutputType_Standard output]
  |> Builder.output_type (Some OutputType_Standard)
  |> Builder.sent_output_hashes sent
  |> Builder.build (output_id_of (do_output output)).

Definition unpaired_input_transaction (acc : BlockEventAccumulator) (c : Debit) :
    outcome ProcessorError DisplayedTransaction :=
  let '(balance_change, input) := c in
  let '(initial_status, initial_confirmations) :=
    calculate_status_and_confirmations (mined_in_block_height input) in
  Builder.new
  |> Builder.account_id (ba_account_id acc)
  |> Builder.source Transfer
  |> Builder.status initial_status
  |> Builder.credits_and_debits 0 (balance_debit balance_change)
  |> Builder.blockchain_info (ba_height acc) (mined_in_block input)
       (effective_date balance_change) initial_confirmations
  |> Builder.inputs [transaction_input input]
  |> Builder.output_type None
  |> Builder.build (output_id_of (si_output input)).

Definition matched_transaction (acc : BlockEventAccumulator) (c : Credit) (tx_inputs : list TransactionInput)
    (debit_value : Z) : outcome ProcessorError DisplayedTransaction :=
  let '(balance_change, output) := c in
  let sent := default [] (memo_sent_hashes (do_output output)) in
  let '(initial_status, initial_confirmations) := calculate_status_and_confirmations (do_height output) in
  let other_party := memo_sender (do_output output) in
  let memo := MemoInfo_from_output (do_output output) in
  Builder.new
  |> Builder.account_id (ba_account_id acc)
  |> Builder.source Transfer
  |> Builder.status initial_status
  |> Builder.blockchain_info (ba_height acc) (do_mined_in_block_hash output)
       (effective_date balance_change) initial_confirmations
  |> Builder.fee (memo_fee (do_output output))
  |> Builder.message (parsed memo)
  |> Builder.memo_hex (hex memo)
  |> Builder.outputs [transaction_output OutputType_Standard output]
  |> Builder.output_type (Some OutputType_Standard)
  |> Builder.sent_output_hashes sent
  |> Builder.inputs tx_inputs
  |> Builder.credits_and_debits (balance_credit balance_change) debit_value
  |> Builder.counterparty other_party
  |> Builder.build (output_id_of (do_output output)).

Definition index_error (what : string) : ProcessorError := MissingError (what +:+ " index out of bounds").

Definition handle_unmatched_inputs_outputs (acc : BlockEventAccumulator) (inputs : list Debit)
    (outputs : list Credit) (unmatched_outputs : list nat) :
    outcome ProcessorError (list DisplayedTransaction) :=
  outcome_bind (outcome_mapM (fun index =>
    outcome_bind (ok_or (outputs !! index) (index_error "Output")) (received_transaction acc))
    unmatched_outputs) (fun received =>
  outcome_bind (outcome_mapM (unpaired_input_transaction acc) inputs) (fun unpaired =>
  Ok (received ++ unpaired))).

(** [amount + output value + fee]: what the transaction with this change output spent. *)
Definition total_send (amount : Z) (output : WalletOutput) : outcome ProcessorError Z :=
  outcome_bind (mm_plus amount (wo_value output)) (fun s => mm_plus s (default 0 (memo_fee output))).

(** The targets and the outputs without transaction details, with their indices. *)
Fixpoint collect_targets (i : nat) (outputs : list Credit) :
    outcome ProcessorError (list (Z * nat) * list nat) :=
  match outputs with
  | [] => Ok ([], [])
  | (_, output) :: outputs' =>
      match memo_transaction_info (do_output output) with
      | Some (_, amount) =>
          outcome_bind (total_send amount (do_output output)) (fun t =>
          outcome_bind (collect_targets (S i) outputs') (fun '(targets, unmatched) =>
          Ok ((t, i) :: targets, unmatched)))
      | None =>
          outcome_bind (collect_targets (S i) outputs') (fun '(targets, unmatched) =>
          Ok (targets, i :: unmatched))
      end
  end.

(** [balance] and [debit_value] are the same running sum. *)
Definition gather_inputs (inputs : list Debit) (solution : list nat) :
    outcome ProcessorError (Z * list TransactionInput) :=
  outcome_fold (fun '(balance, tx_inputs) index =>
    outcome_bind (ok_or (inputs !! index) (index_error "Input")) (fun '(_, input) =>
    outcome_bind (mm_plus balance (wo_value (si_output input))) (fun balance =>
    Ok (balance, tx_inputs ++ [transaction_input input])))) (0, []) solution.

(** The state of the loop over the solutions: transactions, used input indices
    and unmatched output indices. *)
Definition SearchState : Type := list DisplayedTransaction * list nat * list nat.

Definition search_step (acc : BlockEventAccumulator) (inputs : list Debit) (outputs : list Credit)
    (st : SearchState) (s : nat * list nat) : outcome ProcessorError SearchState :=
  let '(result, used_inputs, unmatched_index) := st in
  let '(output_index, solution) := s in
  outcome_bind (gather_inputs inputs solution) (fun '(balance, tx_inputs) =>
  outcome_bind (ok_or (outputs !! output_index) (index_error "Output")) (fun '(balance_change, output) =>
  outcome_bind (ok_or (memo_transaction_info (do_output output)) (MissingError "Missing Output details"))
    (fun '(_, amount) =>
  outcome_bind (total_send amount (do_output output)) (fun total_send =>
  if negb (total_send =? balance) then
    Ok (result, used_inputs, unmatched_index ++ [output_index])
  else
    outcome_bind (matched_transaction acc (balance_change, output) tx_inputs balance) (fun tx =>
    Ok (result ++ [tx], used_inputs ++ solution, unmatched_index)))))).

(** Popping the binary heap gives the indices in descending order. *)
Definition remove_used (inputs : list Debit) (used_inputs : list nat) : outcome ProcessorError (list Debit) :=
  outcome_fold (fun l i => vec_remove i l) inputs (sort_by (fun a b => (b <=? a)%nat) used_inputs).

Definition search_inputs (inputs : list Debit) (outputs : list Credit) (acc : BlockEventAccumulator) :
    outcome ProcessorError (list DisplayedTransaction) :=
  outcome_bind (collect_targets 0 outputs) (fun '(targets, unmatched_index) =>
  outcome_bind (solve_back_track (map (fun d => wo_value (si_output d.2)) inputs) targets) (fun solutions =>
  outcome_bind (outcome_fold (search_step acc inputs outputs) ([], [], unmatched_index) solutions)
    (fun '(result, used_inputs, unmatched_index) =>
  outcome_bind (remove_used inputs used_inputs) (fun inputs =>
  outcome_bind (handle_unmatched_inputs_outputs acc inputs outputs unmatched_index) (fun rest =>
  Ok (result ++ rest)))))).

Definition is_coinbase_credit (c : Credit) : bool := wo_is_coinbase (do_output c.2).
Definition is_received_credit (c : Credit) : bool :=
  is_none (memo_transaction_info (do_output c.2)).

Definition create_new_updated_display_transactions (acc : BlockEventAccumulator)
    (current_display_transactions : list DisplayedTransaction) :
    outcome ProcessorError (list DisplayedTransaction * list DisplayedTransaction) :=
  let '(updated, new_credit) :=
    output_loop current_display_transactions (credit_balance_changes acc) in
  let '(updated, new_debit) :=
    input_loop current_display_transactions updated (debit_balance_changes acc) in
  let new_debit :=
    sort_by (fun a b => wo_value (si_output a.2) <=? wo_value (si_output b.2)) new_debit in
  let '(coinbases, new_credit) := extract_rev is_coinbase_credit new_credit in
  outcome_bind (outcome_mapM (coinbase_transaction acc) coinbases) (fun coinbase_txs =>
  let '(received, new_credit) := extract_rev is_received_credit new_credit in
  outcome_bind (outcome_mapM (received_transaction acc) received) (fun received_txs =>
  outcome_bind (search_inputs new_debit new_credit acc) (fun searched =>
  Ok (hash_order (map snd updated), coinbase_txs ++ received_txs ++ searched)))).

(** ** Against the database *)
Definition ProcM (A : Type) : Type := M Db ProcessorError A.

Definition from_db {A} (m : DbM A) : ProcM A := map_err DbError m.

Definition create_new_updated_display_transactions_for_height (acc : BlockEventAccumulator) :
    ProcM (list DisplayedTransaction * list DisplayedTransaction) :=
  let! current := from_db (get_displayed_transactions_from_height (ba_account_id acc) (ba_height acc)) in
  let! pending_txs := from_db (get_displayed_transactions_by_status (ba_account_id acc) TDS.Pending) in
  let pending_txs := List.filter
    (fun tx => negb (existsb (fun t => dt_id t =? dt_id tx) current)) pending_txs in
  lift (create_new_updated_display_transactions acc (current ++ pending_txs)).

(** Grouping by effective height; the groups are visited in the map's order. *)
Fixpoint group_push (c : BalanceChange) (groups : list (Z * list BalanceChange)) :
    list (Z * list BalanceChange) :=
  match groups with
  | [] => [(effective_height c, [c])]
  | (h, l) :: groups' =>
      if h =? effective_height c then (h, l ++ [c]) :: groups' else (h, l) :: group_push c groups'
  end.

Definition group_by_height (changes : list BalanceChange) : list (Z * list BalanceChange) :=
  foldl (fun g c => group_push c g) [] changes.

Definition stored_debit (acc : BlockEventAccumulator) (balance_change : BalanceChange) :
    ProcM BlockEventAccumulator :=
  let missing := MissingError "Debit balance change has no associated input" in
  let! input_id := lift (ok_or (caused_by_input_id balance_change) missing) in
  let! input := from_db (get_input_by_id input_id) in
  let! input := lift (ok_or input missing) in
  let! output := from_db (get_output_by_id (i_output_id input)) in
  let! output := lift (ok_or output
    (MissingError ("Ouput does not exist: " +:+ pretty (i_output_id input)))) in
  let! mined_in_block := lift (ok_or (fixed_hash_try_from (i_mined_in_block_hash input))
    (ParseError "Invalid hash length")) in
  let! wallet_output := lift (outcome_map_err DbError (to_wallet_output output)) in
  ret (add_debit_change balance_change
    (mkSpentInput (i_id input) mined_in_block (as_u64 (i_mined_in_block_height input)) wallet_output) acc).

Definition stored_credit (acc : BlockEventAccumulator) (balance_change : BalanceChange) :
    ProcM BlockEventAccumulator :=
  let missing := MissingError "Credit balance change has no associated input" in
  let! output_id := lift (ok_or (caused_by_output_id balance_change) missing) in
  let! output := from_db (get_output_by_id output_id) in
  let! output := lift (ok_or output missing) in
  let! mined_in_block_hash := lift (ok_or (fixed_hash_try_from (o_mined_in_block_hash output))
    (ParseError "Invalid hash length")) in
  let! wallet_output := lift (outcome_map_err DbError (to_wallet_output output)) in
  ret (add_credit_change balance_change
    (mkDetectedOutput (as_u64 (o_mined_in_block_height output)) mined_in_block_hash wallet_output) acc).

Definition process_all_stored_with_conn (account_id : Z) :
    ProcM (list DisplayedTransaction * list DisplayedTransaction) :=
  let! balance_changes := from_db (get_all_active_balance_changes_by_account_id account_id) in
  fold_m (fun '(updated_transactions, new_transactions) '(height, changes) =>
    let! acc := fold_m (fun acc c => if is_debit c then stored_debit acc c else stored_credit acc c)
      (BlockEventAccumulator_new account_id height "") changes in
    let! (updated_tx, new_tx) := create_new_updated_display_transactions_for_height acc in
    ret (updated_transactions ++ updated_tx, new_transactions ++ new_tx))
    ([], []) (hash_order (group_by_height balance_changes)).

End Processor.
