(* ===== verification/BlockProc.v ===== *)
(** * Processing a scanned block ([minotari/src/scan/block_processor.rs])

    [process_block] persists the outputs and inputs of one account, records the
    block, confirms maturing outputs and derives the displayed transactions.  The
    state is the processor with the database it is handed; [sent] is the log of
    what the event sender was given. *)
From S2P Require Import Prelude Models DisplayTypes External Schema BalanceDb OutputsDb InputsDb.
From S2P Require Import TipBlocksDb EventsDb BurnProofsDb DisplayedDb Webhooks ScanEvents Subset.
From S2P Require Import Scanning Processor.
#[local] Open Scope Z_scope.

Inductive BlockProcessorError :=
| BpDbError (e : WalletDbError)
| BpWalletEvent (msg : string).

Definition block_processor_error_to_string {X : Ext} (e : BlockProcessorError) : string :=
  match e with
  | BpDbError e => "Database execution error: " +:+ db_error_to_string e
  | BpWalletEvent msg => "Failed to insert wallet event: " +:+ msg
  end.

(** ** Pure parts *)
Section Changes.
Context {X : Ext}.

(** [DateTime::from_timestamp(ts as i64, 0).unwrap_or_else(Utc::now)]. *)
Definition effective_date_of (now timestamp : Z) : Z :=
  default now (datetime_from_timestamp (as_i64 timestamp)).

Definition make_balance_change_for_output (now account_id output_id timestamp height : Z)
    (output : WalletOutput) : BalanceChange :=
  let effective_date := effective_date_of now timestamp in
  let memo_bytes := memo_bytes output in
  if wo_is_coinbase output then {|
    bc_account_id := account_id;
    caused_by_output_id := Some output_id;
    caused_by_input_id := None;
    bc_description := "Coinbase output found in blockchain scan";
    balance_credit := wo_value output;
    balance_debit := 0;
    Models.effective_date := effective_date;
    effective_height := height;
    claimed_recipient_address := None;
    claimed_sender_address := None;
    bc_memo_parsed := Some (utf8_lossy memo_bytes);
    bc_memo_hex := Some (hex_encode memo_bytes);
    claimed_fee := memo_fee output;
    claimed_amount := memo_amount output;
    is_reversal := false;
    reversal_of_balance_change_id := None;
    is_reversed := false |}
  else {|
    bc_account_id := account_id;
    caused_by_output_id := Some output_id;
    caused_by_input_id := None;
    bc_description := "Output found in blockchain scan";
    balance_credit := wo_value output;
    balance_debit := 0;
    Models.effective_date := effective_date;
    effective_height := height;
    claimed_recipient_address := memo_recipient output;
    claimed_sender_address := memo_sender output;
    bc_memo_parsed := Some (utf8_lossy memo_bytes);
    bc_memo_hex := Some (hex_encode memo_bytes);
    claimed_fee := memo_fee output;
    claimed_amount := memo_amount output;
    is_reversal := false;
    reversal_of_balance_change_id := None;
    is_reversed := false |}.

Definition input_balance_change (now account_id input_id value : Z) (block : BlockScanResult) :
    BalanceChange := {|
  bc_account_id := account_id;
  caused_by_output_id := None;
  caused_by_input_id := Some input_id;
  bc_description := "Output spent as input";
  balance_credit := 0;
  balance_debit := value;
  effective_date := effective_date_of now (mined_timestamp block);
  effective_height := blk_height block;
  claimed_recipient_address := None;
  claimed_sender_address := None;
  bc_memo_parsed := None;
  bc_memo_hex := None;
  claimed_fee := None;
  claimed_amount := None;
  is_reversal := false;
  reversal_of_balance_change_id := None;
  is_reversed := false;
|}.

Definition make_output_detected_event (account_id : Z) (hash : string) (block : BlockScanResult)
    (memo : MemoInfo) : WalletEvent :=
  mkWalletEvent 0 account_id
    (OutputDetected hash (blk_height block) (blk_hash block) (parsed memo) (hex memo))
    ("Detected output at height " +:+ pretty (blk_height block)).

Definition make_confirmation_event (account_id : Z) (output_hash : string)
    (original_height confirmation_height : Z) (memo_parsed memo_hex : option string) : WalletEvent :=
  mkWalletEvent 0 account_id
    (OutputConfirmed output_hash original_height confirmation_height memo_parsed memo_hex)
    ("Output confirmed at height " +:+ pretty confirmation_height
      +:+ " (originally at " +:+ pretty original_height +:+ ")").

End Changes.

(** ** The processor *)
Section BlockProcessor.
Context {X : Ext} {S0 : StdOrder}.

Record BlockProcessor := mkBlockProcessor {
  wallet_index_to_account_id : list Z;
  account_view_keys : list (Z * string);
  wallet_events : list WalletEvent;
  sent : list ProcessingEvent;
  current_block : option BlockEventAccumulator;
  bp_tip_height : Z;
  has_pending_outbound : bool;
  required_confirmations : Z;
  webhook_config : option WebhookTriggerConfig;
}.

(** [HashMap::get] on the collected pairs: a later pair overwrites an earlier one. *)
Definition lookup_view_key (account_id : Z) (keys : list (Z * string)) : option string :=
  snd <$> List.find (fun p => p.1 =? account_id) (rev keys).

Definition build_account_mappings (accounts : list (Z * string)) : list Z * list (Z * string) :=
  (map fst accounts, accounts).

Definition with_event_sender (accounts : list (Z * string)) (has_pending_outbound : bool)
    (required_confirmations : Z) : BlockProcessor :=
  let '(wallet_index_to_account_id, account_view_keys) := build_account_mappings accounts in
  mkBlockProcessor wallet_index_to_account_id account_view_keys [] [] None 0 has_pending_outbound
    required_confirmations None.

Definition set_webhook_config (config : option WebhookTriggerConfig) (p : BlockProcessor) : BlockProcessor :=
  mkBlockProcessor (wallet_index_to_account_id p) (account_view_keys p) (wallet_events p) (sent p)
    (current_block p) (bp_tip_height p) (has_pending_outbound p) (required_confirmations p) config.

Definition set_has_pending_outbound (value : bool) (p : BlockProcessor) : BlockProcessor :=
  mkBlockProcessor (wallet_index_to_account_id p) (account_view_keys p) (wallet_events p) (sent p)
    (current_block p) (bp_tip_height p) value (required_confirmations p) (webhook_config p).

Definition set_current (b : option BlockEventAccumulator) (p : BlockProcessor) : BlockProcessor :=
  mkBlockProcessor (wallet_index_to_account_id p) (account_view_keys p) (wallet_events p) (sent p)
    b (bp_tip_height p) (has_pending_outbound p) (required_confirmations p) (webhook_config p).

Definition set_tip_height (h : Z) (p : BlockProcessor) : BlockProcessor :=
  mkBlockProcessor (wallet_index_to_account_id p) (account_view_keys p) (wallet_events p) (sent p)
    (current_block p) h (has_pending_outbound p) (required_confirmations p) (webhook_config p).

Definition push_event (e : WalletEvent) (p : BlockProcessor) : BlockProcessor :=
  mkBlockProcessor (wallet_index_to_account_id p) (account_view_keys p) (wallet_events p ++ [e]) (sent p)
    (current_block p) (bp_tip_height p) (has_pending_outbound p) (required_confirmations p) (webhook_config p).

Definition send_event (e : ProcessingEvent) (p : BlockProcessor) : BlockProcessor :=
  mkBlockProcessor (wallet_index_to_account_id p) (account_view_keys p) (wallet_events p) (sent p ++ [e])
    (current_block p) (bp_tip_height p) (has_pending_outbound p) (required_confirmations p) (webhook_config p).

(** [std::mem::take(&mut self.wallet_events)]. *)
Definition take_wallet_events (p : BlockProcessor) : list WalletEvent * BlockProcessor :=
  (wallet_events p,
   mkBlockProcessor (wallet_index_to_account_id p) (account_view_keys p) [] (sent p)
     (current_block p) (bp_tip_height p) (has_pending_outbound p) (required_confirmations p) (webhook_config p)).

Definition BpM (A : Type) : Type := M (BlockProcessor * Db) BlockProcessorError A.

(** A database operation on the transaction the processor was handed. *)
Definition on_db {A} (m : DbM A) : BpM A := fun '(p, d) =>
  let '(r, d') := m d in (outcome_map_err BpDbError r, (p, d')).

Definition on_self (f : BlockProcessor -> BlockProcessor) : BpM unit :=
  modify (fun '(p, d) => (f p, d)).

Definition self {A} (f : BlockProcessor -> A) : BpM A := gets (fun '(p, _) => f p).

Definition update_current (f : BlockEventAccumulator -> BlockEventAccumulator) : BpM unit :=
  on_self (fun p => set_current (f <$> current_block p) p).

Definition trigger_webhooks (account_id : Z) (generated_events : list (Z * WalletEvent)) : BpM unit :=
  let! config := self webhook_config in
  match config with
  | None => ret tt
  | Some config =>
      for_each (fun '(event_id, event) =>
        on_db (trigger_webhook_with_balance account_id event_id event config)) generated_events
  end.

Definition record_output_balance_change (account_id output_id : Z) (block : BlockScanResult)
    (output : WalletOutput) : BpM BalanceChange :=
  let! now := on_db (gets clock) in
  let change := make_balance_change_for_output now account_id output_id (mined_timestamp block)
    (blk_height block) output in
  on_db (insert_balance_change change) ;;;
  ret change.

(** The body of the loop for an output of this account. *)
Definition process_output (block : BlockScanResult) (account_id : Z) (account_view_key hash : string)
    (output : WalletOutput) : BpM (Z * WalletEvent) :=
  let memo := MemoInfo_from_output output in
  let event := make_output_detected_event account_id hash block memo in
  on_self (push_event event) ;;;
  let payment_reference := generate_payment_reference (blk_hash block) hash in
  let is_burn := wo_is_burned output in
  let! output_id := on_db (insert_output account_id account_view_key hash output (blk_height block)
    (blk_hash block) (mined_timestamp block) (parsed memo) (hex memo) payment_reference is_burn) in
  let! event_id := on_db (insert_wallet_event account_id event) in
  let! balance_change := record_output_balance_change account_id output_id block output in
  update_current (add_credit_change balance_change
    (mkDetectedOutput (blk_height block) (blk_hash block) output)) ;;;
  ret (event_id, event).

Definition process_outputs (block : BlockScanResult) (account_id : Z) (account_view_key : string) : BpM unit :=
  let! generated_events := fold_m (fun generated_events '(hash, output, wallet_idx) =>
      let! mapped := self (fun p => wallet_index_to_account_id p !! wallet_idx) in
      match mapped with
      | None => ret generated_events
      | Some mapped_account_id =>
          if negb (mapped_account_id =? account_id) then ret generated_events
          else
            let! e := process_output block account_id account_view_key hash output in
            ret (generated_events ++ [e])
      end) [] (wallet_outputs block) in
  trigger_webhooks account_id generated_events.

Definition record_input_balance_change (account_id input_id value : Z) (block : BlockScanResult) :
    BpM BalanceChange :=
  let! now := on_db (gets clock) in
  let change := input_balance_change now account_id input_id value block in
  on_db (insert_balance_change change) ;;;
  ret change.

Definition process_input (block : BlockScanResult) (account_id : Z) (input_hash : string) : BpM unit :=
  let! info := on_db (get_output_info_by_hash_for_account account_id input_hash) in
  match info with
  | None => ret tt
  | Some (output_id, tx_id, output) =>
      let! input_id := on_db (insert_input account_id output_id (blk_height block) (blk_hash block)
        (mined_timestamp block)) in
      let! balance_change := record_input_balance_change account_id input_id (wo_value output) block in
      on_db (update_output_status output_id OutputStatus.Spent) ;;;
      update_current (add_debit_change balance_change
        (mkSpentInput output_id (blk_hash block) (blk_height block) output))
  end.

Definition process_inputs (block : BlockScanResult) (account_id : Z) : BpM unit :=
  for_each (process_input block account_id) (blk_inputs block).

Definition record_scanned_block (block : BlockScanResult) (account_id : Z) : BpM unit :=
  on_db (insert_scanned_tip_block account_id (as_i64 (blk_height block)) (blk_hash block)).

(** The lookup of a burn proof is only logged. *)
Definition confirm_output (block : BlockScanResult) (account_id : Z) (o : UnconfirmedOutputRow) :
    BpM (Z * WalletEvent) :=
  let event := make_confirmation_event account_id (uo_output_hash o)
    (as_u64 (uo_mined_in_block_height o)) (blk_height block) (uo_memo_parsed o) (uo_memo_hex o) in
  on_self (push_event event) ;;;
  let! event_id := on_db (insert_wallet_event account_id event) in
  on_db (mark_output_confirmed (uo_output_hash o) (blk_height block) (blk_hash block)) ;;;
  when (negb (uo_is_burn o =? 0))
    (on_db (get_burn_proof_by_output_hash (uo_output_hash o)) ;;; ret tt) ;;;
  ret (event_id, event).

Definition process_confirmations (block : BlockScanResult) (account_id : Z) : BpM unit :=
  let! required := self required_confirmations in
  let! unconfirmed_outputs := on_db (get_unconfirmed_outputs account_id (blk_height block) required) in
  let! generated_events := fold_m (fun generated_events o =>
      let! e := confirm_output block account_id o in
      ret (generated_events ++ [e])) [] unconfirmed_outputs in
  trigger_webhooks account_id generated_events.

Definition processor_failed (e : ProcessorError) : BlockProcessorError :=
  BpWalletEvent ("Failed to process displayed transactions: " +:+ processor_error_to_string e).

(** An operation of the displayed-transaction processor; its error is logged and
    wrapped. *)
Definition on_processor {A} (m : ProcM A) : BpM A := fun '(p, d) =>
  let '(r, d') := m d in (outcome_map_err processor_failed r, (p, d')).

Definition save_and_emit_displayed_transactions (block_height account_id : Z) (account_view_key : string)
    (accumulator : BlockEventAccumulator) : BpM unit :=
  if is_empty accumulator then ret tt else
  let! tip := self bp_tip_height in
  let! required := self required_confirmations in
  let processor := mkProcessor tip required account_view_key in
  let! (updated_transactions, new_transactions) :=
    on_processor (create_new_updated_display_transactions_for_height processor accumulator) in
  for_each (fun updated => on_db (update_displayed_transaction_mined updated) ;;; ret tt)
    updated_transactions ;;;
  for_each (fun new => on_db (insert_displayed_transaction new)) new_transactions ;;;
  on_self (send_event (TransactionsReady (mkDisplayedTransactionsEvent account_id
    (updated_transactions ++ new_transactions) (Some block_height) false))).

Definition process_block (block : BlockScanResult) (account_id : Z) : BpM unit :=
  let! keys := self account_view_keys in
  let! account_view_key := lift (ok_or (lookup_view_key account_id keys)
    (BpWalletEvent ("Unknown account id: " +:+ pretty account_id))) in
  on_self (set_tip_height (blk_height block)) ;;;
  on_self (set_current (Some (BlockEventAccumulator_new account_id (blk_height block) (blk_hash block)))) ;;;
  process_outputs block account_id account_view_key ;;;
  process_inputs block account_id ;;;
  record_scanned_block block account_id ;;;
  process_confirmations block account_id ;;;
  let! current := self current_block in
  on_self (set_current None) ;;;
  match current with
  | None => ret tt
  | Some acc =>
      when (negb (is_empty acc))
        (save_and_emit_displayed_transactions (blk_height block) account_id account_view_key acc) ;;;
      on_self (send_event (BlockProcessed (into_event acc)))
  end.

End BlockProcessor.
