(* ===== verification/Reorg.v ===== *)
(** * Chain reorganisations ([minotari/src/scan/reorg.rs])

    [handle_reorgs] compares the recorded tip blocks with the chain and
    [rollback_from_height] undoes what the blocks above the fork point did. *)
From S2P Require Import Prelude Models DisplayTypes External Schema BalanceDb OutputsDb InputsDb.
From S2P Require Import TipBlocksDb PendingDb EventsDb CompletedDb DisplayedDb PayrefDb Webhooks.
#[local] Open Scope Z_scope.

Record ReorgInformation := mkReorgInformation {
  rolled_back_from_height : Z;
  rolled_back_blocks_count : Z;
  ri_invalidated_output_hashes : list string;
  ri_cancelled_transaction_ids : list string;
  ri_reorganized_displayed_transactions : list DisplayedTransaction;
}.

Record ReorgResult := mkReorgResult {
  resume_height : Z;
  reorg_information : option ReorgInformation;
}.

Section Reorg.
Context {X : Ext} {S0 : StdOrder}.

Definition block_rolled_back_event (account_id : Z) (block : ScannedTipBlock) : WalletEvent :=
  mkWalletEvent 0 account_id (BlockRolledBack (stb_height block) (stb_hash block))
    ("Block at height " +:+ pretty (stb_height block) +:+ " was rolled back due to reorg").

Definition output_rolled_back_event (account_id reorg_start_height : Z) (output_hash : string)
    (row : ReorgOutputInfo) : WalletEvent :=
  mkWalletEvent 0 account_id
    (OutputRolledBack output_hash (as_u64 (ro_mined_in_block_height row)) reorg_start_height)
    ("Output " +:+ debug_hex (ro_output_hash row) +:+ " at height "
      +:+ pretty (ro_mined_in_block_height row) +:+ " was rolled back due to reorg").

Definition pending_cancelled_event (account_id : Z) (tx_id : string) : WalletEvent :=
  mkWalletEvent 0 account_id
    (PendingTransactionCancelled tx_id "Transaction cancelled due to blockchain reorg")
    ("Pending transaction " +:+ tx_id +:+ " cancelled due to reorg").

(** Insert an event and remember it for the webhooks. *)
Definition log_event (account_id : Z) (generated : list (Z * WalletEvent)) (event : WalletEvent) :
    AnyM (list (Z * WalletEvent)) :=
  let! event_id := any_db (insert_wallet_event account_id event) in
  ret (generated ++ [(event_id, event)]).

(** [HashSet::insert]. *)
Definition set_insert (x : string) (s : list string) : list string :=
  if existsb (String.eqb x) s then s else s ++ [x].

(** The loop over the affected outputs: events, pending transactions to cancel,
    hashes. *)
Definition log_output_rolled_back (account_id reorg_start_height : Z)
    (st : list (Z * WalletEvent) * list string * list string) (row : ReorgOutputInfo) :
    AnyM (list (Z * WalletEvent) * list string * list string) :=
  let '(generated, cancelled, invalidated) := st in
  let! output_hash := lift (ok_or (fixed_hash_try_from (ro_output_hash row)) (AnyMsg "Invalid hash length")) in
  let! generated := log_event account_id generated
    (output_rolled_back_event account_id reorg_start_height output_hash row) in
  ret (generated,
       match ro_locked_by_request_id row with
       | Some request_id => set_insert request_id cancelled
       | None => cancelled
       end,
       invalidated ++ [output_hash]).

Definition cancel_pending (account_id : Z) (generated : list (Z * WalletEvent)) (ids : list string) :
    AnyM (list (Z * WalletEvent)) :=
  match ids with
  | [] => ret generated
  | _ =>
      any_db (cancel_pending_transactions_by_ids ids PendingTransactionStatus.Cancelled) ;;;
      fold_m (fun generated tx_id => log_event account_id generated (pending_cancelled_event account_id tx_id))
        generated ids
  end.

Definition rollback_from_height (account_id reorg_start_height : Z)
    (webhook_config : option WebhookTriggerConfig) : AnyM ReorgInformation :=
  let! tips := any_db (get_scanned_tip_blocks_by_account account_id) in
  let rolled_back_blocks := List.filter (fun b => stb_height b >=? reorg_start_height) tips in
  let blocks_rolled_back := Z.of_nat (length rolled_back_blocks) in
  let! generated_events := fold_m (fun generated block =>
    log_event account_id generated (block_rolled_back_event account_id block)) [] rolled_back_blocks in
  let! affected_outputs := any_db (get_active_outputs_from_height account_id reorg_start_height) in
  let! (generated_events, cancelled_pending_tx_ids, invalidated_output_hashes) :=
    fold_m (log_output_rolled_back account_id reorg_start_height) (generated_events, [], []) affected_outputs in
  let cancelled_transaction_ids := hash_order cancelled_pending_tx_ids in
  let! generated_events := cancel_pending account_id generated_events cancelled_transaction_ids in
  any_db (soft_delete_inputs_from_height account_id reorg_start_height) ;;;
  any_db (soft_delete_outputs_from_height account_id reorg_start_height) ;;;
  any_db (delete_scanned_tip_blocks_from_height account_id reorg_start_height) ;;;
  any_db (save_displayed_transaction_payrefs_before_reorg account_id reorg_start_height) ;;;
  let! reorganized_displayed_transactions :=
    any_db (mark_displayed_transactions_reorganized_and_return account_id reorg_start_height) in
  any_db (save_completed_transaction_payrefs_before_reorg account_id reorg_start_height) ;;;
  any_db (reset_mined_completed_transactions_from_height account_id reorg_start_height) ;;;
  match webhook_config with
  | Some config => for_each (fun '(event_id, event) =>
      any_db (trigger_webhook_with_balance account_id event_id event config)) generated_events
  | None => ret tt
  end ;;;
  ret (mkReorgInformation reorg_start_height blocks_rolled_back invalidated_output_hashes
    cancelled_transaction_ids reorganized_displayed_transactions).

(** ** Finding the fork point

    [get_header_by_height] asks the base node for the hash of the block at a
    height; [None] when the chain has no such block. *)
Context (get_header_by_height : Z -> outcome string (option string)).

(** [reorg_start_height] and [is_reorg_detected] after the loop. *)
Fixpoint find_fork (blocks : list ScannedTipBlock) (is_reorg_detected : bool) : outcome AnyError (Z * bool) :=
  match blocks with
  | [] => Ok (0, is_reorg_detected)
  | block :: blocks' =>
      outcome_bind (outcome_map_err (fun e => AnyMsg ("Failed to get header by height: " +:+ e))
        (get_header_by_height (stb_height block))) (fun chain_block =>
      match chain_block with
      | Some hash =>
          if String.eqb hash (stb_hash block) then
            outcome_bind (u64_add (stb_height block) 1) (fun h => Ok (h, is_reorg_detected))
          else find_fork blocks' true
      | None => find_fork blocks' true
      end)
  end.

Definition handle_reorgs (account_id : Z) (webhook_config : option WebhookTriggerConfig) : AnyM ReorgResult :=
  let! last_blocks := any_db (get_scanned_tip_blocks_by_account account_id) in
  match last_blocks with
  | [] => ret (mkReorgResult 0 None)
  | first :: _ =>
      let! (reorg_start_height, is_reorg_detected) := lift (find_fork last_blocks false) in
      if is_reorg_detected then
        let! reorg_info :=
          transaction (rollback_from_height account_id reorg_start_height webhook_config) in
        ret (mkReorgResult reorg_start_height (Some reorg_info))
      else
        let! h := lift (u64_add (stb_height first) 1) in
        ret (mkReorgResult h None)
  end.

End Reorg.
