(* ===== verification/InputSelector.v ===== *)
(** * Input selection ([minotari/src/transactions/input_selector.rs],
    [transactions/fee_estimator.rs])

    The fee table, the default output size and the branch-and-bound search belong
    to the transaction library; [SelectionExt] names what the selector uses of
    them and [SelectionLaws] what it relies on. *)
From S2P Require Import Prelude Models DisplayTypes External Schema BalanceDb OutputsDb TipBlocksDb.
From S2P Require Import AccountsDb.
#[local] Open Scope Z_scope.

(** ** The library's search *)

(** The result of [bnb.search()]. *)
Record BnbSelection {X : Ext} := mkBnbSelection {
  selected_utxos : list DbWalletOutput;
  current_value : Z;
  has_change : bool;
  final_fee : Z;
}.

Class SelectionExt {X : Ext} := {
  (** [Fee::calculate(fee_per_gram, kernels, inputs, outputs, size)]. *)
  fee_calculate : Z -> Z -> Z -> Z -> Z -> Z;
  default_features_and_scripts_size : outcome string Z;
  (** [Display] of [MicroMinotari]. *)
  micro_minotari_text : Z -> string;
  (** The builder and its search: outputs, target, fee per input, total output
      fee, change fee. *)
  branch_and_bound : list DbWalletOutput -> Z -> Z -> Z -> Z -> outcome string (option BnbSelection);
}.

(** A selection picks distinct outputs among those offered, reports their total
    value, and that value covers the target and the fee; amounts are [u64]. *)
Class SelectionLaws {X : Ext} (SE : SelectionExt) := {
  bnb_subset : forall uo t fi fo fc s, branch_and_bound uo t fi fo fc = Ok (Some s) ->
    selected_utxos s ⊆+ uo;
  bnb_value : forall uo t fi fo fc s, branch_and_bound uo t fi fo fc = Ok (Some s) ->
    current_value s = zsum (fun u => wo_value (dwo_output u)) (selected_utxos s);
  bnb_covers : forall uo t fi fo fc s, branch_and_bound uo t fi fo fc = Ok (Some s) ->
    t + final_fee s <= current_value s;
  bnb_value_u64 : forall uo t fi fo fc s, branch_and_bound uo t fi fo fc = Ok (Some s) -> is_u64 (current_value s);
  bnb_fee_u64 : forall uo t fi fo fc s, branch_and_bound uo t fi fo fc = Ok (Some s) -> is_u64 (final_fee s);
  fee_calculate_u64 : forall g k i o b, is_u64 (fee_calculate g k i o b);
}.

(** ** The selector *)
Inductive UtxoSelectionError :=
| SerializationError (msg : string)
| InsufficientFunds (available required : Z)
| FundsPending (available pending required : Z)
| SelDbError (e : WalletDbError)
| ServiceError (msg : string).

Record InputSelector := mkInputSelector {
  is_account_id : Z;
  confirmation_window : Z;
}.

Section Selector.
Context {X : Ext} {SE : SelectionExt}.

Record UtxoSelection := mkUtxoSelection {
  us_utxos : list DbWalletOutput;
  us_requires_change_output : bool;
  us_total_value : Z;
  us_fee_without_change : Z;
  us_fee_with_change : Z;
}.

(** [UtxoSelection::fee]. *)
Definition selection_fee (s : UtxoSelection) : Z :=
  if us_requires_change_output s then us_fee_with_change s else us_fee_without_change s.

(** [Display] of the error. *)
Definition selection_error_to_string (e : UtxoSelectionError) : string :=
  match e with
  | SerializationError msg => "Serialization error: " +:+ msg
  | InsufficientFunds available required =>
      "Not enough funds. Available: " +:+ micro_minotari_text available +:+ ", required: " +:+
      micro_minotari_text required
  | FundsPending available pending required =>
      "Funds are pending. Available: " +:+ micro_minotari_text available +:+ ", Pending: " +:+
      micro_minotari_text pending +:+ ", Required: " +:+ micro_minotari_text required
  | SelDbError e => "Database execution error: " +:+ db_error_to_string e
  | ServiceError msg => "UTXO selection service error: " +:+ msg
  end.

Definition SelM (A : Type) : Type := M Db UtxoSelectionError A.
Definition sel_db {A} (m : DbM A) : SelM A := map_err SelDbError m.

(** The fees from the search's result. *)
Definition make_selection (selection : BnbSelection) (kernel_fee default_output_fee : Z) :
    outcome UtxoSelectionError UtxoSelection :=
  outcome_bind (mm_plus (final_fee selection) kernel_fee) (fun final_fee =>
  outcome_bind
    (if has_change selection then Ok (final_fee, mm_saturating_sub final_fee default_output_fee)
     else outcome_bind (mm_plus final_fee default_output_fee) (fun w => Ok (w, final_fee)))
    (fun '(fee_with_change, fee_without_change) =>
  Ok (mkUtxoSelection (selected_utxos selection) (has_change selection) (current_value selection)
    fee_without_change fee_with_change))).

Definition min_selectable_height (s : InputSelector) (tip : option ScannedTipBlock) : Z :=
  u64_saturating_sub (match tip with Some b => stb_height b | None => 0 end) (confirmation_window s).

Definition select_unspent_outputs (s : InputSelector) (amount num_outputs fee_per_gram : Z)
    (estimated_output_size : option Z) : SelM UtxoSelection :=
  let! tip := sel_db (get_latest_scanned_tip_block_by_account (is_account_id s)) in
  let min_height := min_selectable_height s tip in
  let! (locked_amount, _unconfirmed, _locked_and_unconfirmed) :=
    sel_db (get_output_totals_for_account (is_account_id s)) in
  let! total_unspent_balance := sel_db (get_total_unspent_balance (is_account_id s)) in
  let available_balance := total_unspent_balance in
  let! total_including_locked := lift (mm_plus total_unspent_balance locked_amount) in
  if (available_balance <=? amount) && (total_including_locked >=? amount) then
    throw (FundsPending available_balance locked_amount amount)
  else
  let! uo := sel_db (fetch_unspent_outputs (is_account_id s) min_height) in
  let! features_and_scripts_byte_size := lift
    (match estimated_output_size with
     | Some sz => Ok sz
     | None => outcome_map_err SerializationError default_features_and_scripts_size
     end) in
  let kernel_fee := fee_calculate fee_per_gram 1 0 0 0 in
  let default_output_fee := fee_calculate fee_per_gram 0 0 1 features_and_scripts_byte_size in
  let output_fee := fee_calculate fee_per_gram 0 0 num_outputs features_and_scripts_byte_size in
  let input_fee := fee_calculate fee_per_gram 0 1 0 0 in
  let! target_amount := lift (mm_plus amount kernel_fee) in
  let! selection_result := lift (outcome_map_err ServiceError
    (branch_and_bound uo target_amount input_fee output_fee default_output_fee)) in
  match selection_result with
  | None =>
      let! required := lift (mm_plus amount 1) in
      throw (InsufficientFunds total_unspent_balance required)
  | Some selection => lift (make_selection selection kernel_fee default_output_fee)
  end.

(** ** Fee estimates ([fee_estimator.rs]) *)
Inductive FeePriority := Slow | Medium | Fast.

Record FeeEstimateResult := mkFeeEstimateResult {
  priority : FeePriority;
  fee_per_gram : Z;
  estimated_fee : Z;
  total_amount_required : Z;
  input_count : Z;
}.

(** [FeePerGramStat] of the transaction library. *)
Record FeePerGramStat := mkFeePerGramStat {
  stat_order : Z;
  min_fee_per_gram : Z;
  avg_fee_per_gram : Z;
  max_fee_per_gram : Z;
}.

(** Fast, medium and slow fees; the defaults when there are no statistics. *)
Definition fees_from_stats (stats : list FeePerGramStat) : Z * Z * Z :=
  match stats with
  | [] => (10, 5, 1)
  | s0 :: rest =>
      (avg_fee_per_gram s0, avg_fee_per_gram (hd s0 rest), min_fee_per_gram (List.last rest s0))
  end.

Definition calculate_single_estimate (prio : FeePriority)
    (fee_per_gram amount input_count output_count output_size : Z) : outcome string FeeEstimateResult :=
  outcome_bind (u64_mul output_size output_count) (fun size =>
  let fee := fee_calculate fee_per_gram 1 input_count output_count size in
  outcome_bind (mm_plus amount fee) (fun total =>
  Ok (mkFeeEstimateResult prio fee_per_gram fee total input_count))).

(** The errors of [anyhow] are their texts.  [pool] is the request for a connection, [client]
    the creation of the HTTP client for the node's address and [stats] the answer of the base
    node; an error of the node counts as no statistics. *)
Definition estimate_fees (pool client : outcome string unit) (stats : outcome string (list FeePerGramStat))
    (account_name : string) (amount num_outputs confirmation_window : Z) (estimated_output_size : option Z) :
    M Db string (list FeeEstimateResult) :=
  lift pool ;;;
  let! account := map_err db_error_to_string (get_account_by_name account_name) in
  let! account := lift (ok_or account ("Account with name '" +:+ account_name +:+ "' not found")) in
  lift client ;;;
  let '(fast_fee, medium_fee, slow_fee) :=
    fees_from_stats (match stats with Ok l => l | _ => [] end) in
  let! selection := map_err selection_error_to_string
    (select_unspent_outputs (mkInputSelector (a_id account) confirmation_window)
      amount num_outputs fast_fee estimated_output_size) in
  let input_count := Z.of_nat (length (us_utxos selection)) in
  let! total_outputs := lift (if us_requires_change_output selection then u64_add num_outputs 1 else Ok num_outputs) in
  let! output_size := lift
    (match estimated_output_size with
     | Some sz => Ok sz
     | None => default_features_and_scripts_size
     end) in
  lift (outcome_mapM (fun '(prio, fee_per_gram) =>
    calculate_single_estimate prio fee_per_gram amount input_count total_outputs output_size)
    [(Slow, slow_fee); (Medium, medium_fee); (Fast, fast_fee)]).

End Selector.
