(* ===== verification/FundLocker.v ===== *)
(** * Locking and releasing funds ([minotari/src/transactions/fund_locker.rs],
    [minotari/src/tasks/unlocker.rs]) *)
From S2P Require Import Prelude Models DisplayTypes External Schema BalanceDb OutputsDb TipBlocksDb.
From S2P Require Import PendingDb InputSelector.
#[local] Open Scope Z_scope.

(** The errors of [anyhow] that the two modules propagate. *)
Inductive LockError :=
| LockDb (e : WalletDbError)
| LockSelection (e : UtxoSelectionError).

Definition LockM (A : Type) : Type := M Db LockError A.
Definition lock_db {A} (m : DbM A) : LockM A := map_err LockDb m.

Section Locker.
Context {X : Ext} {SE : SelectionExt}.

Definition lock_result (s : UtxoSelection) : LockFundsResult :=
  mkLockFundsResult (map dwo_output (us_utxos s)) (us_requires_change_output s) (us_total_value s)
    (us_fee_without_change s) (us_fee_with_change s).

Definition lock_error_to_string (e : LockError) : string :=
  match e with
  | LockDb e => db_error_to_string e
  | LockSelection e => selection_error_to_string e
  end.

(** The part inside the database transaction; [uuid] is the id of the new
    pending transaction. *)
Definition lock_selection (uuid key : string) (account_id expires_at : Z) (utxo_selection : UtxoSelection) :
    DbM unit :=
  let! pending_tx_id := create_pending_transaction uuid key account_id
    (us_requires_change_output utxo_selection) (us_total_value utxo_selection)
    (us_fee_without_change utxo_selection) (us_fee_with_change utxo_selection) expires_at in
  for_each (fun utxo => lock_output (dwo_id utxo) pending_tx_id expires_at) (us_utxos utxo_selection).

(** [uuid] and [uuid_key] are the fresh UUIDs for the transaction and, without a
    key of the caller, for the idempotency key. *)
Definition lock (uuid uuid_key : string) (account_id amount num_outputs fee_per_gram : Z)
    (estimated_output_size : option Z) (idempotency_key : option string)
    (seconds_to_lock_utxos confirmation_window : Z) : LockM LockFundsResult :=
  let! existing := match idempotency_key with
    | Some key => lock_db (find_pending_transaction_locked_funds_by_idempotency_key key account_id)
    | None => ret None
    end in
  match existing with
  | Some response => ret response
  | None =>
      let! utxo_selection := map_err LockSelection
        (select_unspent_outputs (mkInputSelector account_id confirmation_window) amount num_outputs
          fee_per_gram estimated_output_size) in
      let! now := gets clock in
      let! expires_at := lift (datetime_plus now (as_i64 seconds_to_lock_utxos)) in
      let idempotency_key := default uuid_key idempotency_key in
      lock_db (transaction (lock_selection uuid idempotency_key account_id expires_at utxo_selection)) ;;;
      ret (lock_result utxo_selection)
  end.

End Locker.

(** ** The unlocker *)
Definition unlock_expired (tx_id : string) : DbM unit :=
  transaction (
    update_pending_transaction_status tx_id PendingTransactionStatus.Expired ;;;
    unlock_outputs_for_request tx_id).

Definition unlock_expired_transactions : DbM unit :=
  let! expired_txs := find_expired_pending_transactions in
  for_each unlock_expired expired_txs.
