(* ===== verification/Monitor.v ===== *)
(** * Monitoring outbound transactions ([minotari/src/transactions/monitor.rs])

    The monitor drives a completed transaction through broadcast, mining and
    confirmation, or to rejection.  The base node's client and the transaction
    codec are the class [TxClient]. *)
From S2P Require Import Prelude Models DisplayTypes External Schema OutputsDb EventsDb CompletedDb.
From S2P Require Import DisplayedDb Webhooks.
#[local] Open Scope Z_scope.

(** ** The base node *)
Inductive TxSubmissionRejectionReason :=
| AlreadyMined
| OtherReason (msg : string).

Record TxSubmissionResponse := mkTxSubmissionResponse {
  accepted : bool;
  rejection_reason : TxSubmissionRejectionReason;
}.

Inductive TxLocation := Mined | NotMined.

Record TxQueryResponse := mkTxQueryResponse {
  location : TxLocation;
  q_mined_height : option Z;
  mined_header_hash : option string;
}.

Class TxClient := {
  Transaction : Type;
  transaction_of_json : string -> outcome string Transaction;
  transaction_to_json : Transaction -> outcome string string;
  (** Public nonce and signature of the first kernel. *)
  first_kernel : Transaction -> option (string * string);
  reason_to_string : TxSubmissionRejectionReason -> string;
  submit_transaction : Transaction -> outcome string TxSubmissionResponse;
  transaction_query : string -> string -> outcome string TxQueryResponse;
}.

Definition MAX_BROADCAST_ATTEMPTS : Z := 10.

(** ** Results *)
Record MonitoringResult := mkMonitoringResult {
  mr_wallet_events : list WalletEvent;
  updated_displayed_transactions : list DisplayedTransaction;
}.

Definition empty_result : MonitoringResult := mkMonitoringResult [] [].

Definition extend (a b : MonitoringResult) : MonitoringResult :=
  mkMonitoringResult (mr_wallet_events a ++ mr_wallet_events b)
    (updated_displayed_transactions a ++ updated_displayed_transactions b).

(** ** Grouping by status *)
Record PendingTransactionsByStatus := mkByStatus {
  completed : list CompletedTransaction;
  broadcast : list CompletedTransaction;
  mined_unconfirmed : list CompletedTransaction;
}.

Definition push_by_status (r : PendingTransactionsByStatus) (tx : CompletedTransaction) :
    PendingTransactionsByStatus :=
  match ct_status tx with
  | CTS.Completed => mkByStatus (completed r ++ [tx]) (broadcast r) (mined_unconfirmed r)
  | CTS.Broadcast => mkByStatus (completed r) (broadcast r ++ [tx]) (mined_unconfirmed r)
  | CTS.MinedUnconfirmed => mkByStatus (completed r) (broadcast r) (mined_unconfirmed r ++ [tx])
  | CTS.MinedConfirmed | CTS.Rejected | CTS.Canceled => r
  end.

Definition from_transactions (l : list CompletedTransaction) : PendingTransactionsByStatus :=
  foldl push_by_status (mkByStatus [] [] []) l.

Definition remaining_count (r : PendingTransactionsByStatus) : nat :=
  (length (completed r) + length (broadcast r) + length (mined_unconfirmed r))%nat.

(** ** The monitor *)
Record TransactionMonitor := mkTransactionMonitor {
  tm_required_confirmations : Z;
  tm_webhook_config : option WebhookTriggerConfig;
}.

Section Monitor.
Context {X : Ext} {C : TxClient}.
Context (self : TransactionMonitor).

Definition persist_event (account_id : Z) (event : WalletEvent) : AnyM unit :=
  let! event_id := any_db (insert_wallet_event account_id event) in
  match tm_webhook_config self with
  | Some config => any_db (trigger_webhook_with_balance account_id event_id event config)
  | None => ret tt
  end.

Definition determine_status_from_confirmations (confirmations : Z) : TDS.t :=
  if confirmations >=? tm_required_confirmations self then TDS.Confirmed
  else if confirmations >? 0 then TDS.Unconfirmed
  else TDS.Pending.

(** The displayed transaction with its new confirmation count. *)
Definition confirmations_updated (new_confirmations : Z) (tx : DisplayedTransaction) : DisplayedTransaction :=
  let new_status := determine_status_from_confirmations new_confirmations in
  let tx := set_confirmations new_confirmations tx in
  if negb (bool_decide (status tx = new_status))
     && (bool_decide (status tx = TDS.Pending) || bool_decide (status tx = TDS.Unconfirmed))
  then set_status new_status tx else tx.

Definition update_displayed_confirmations (account_id current_chain_height : Z) :
    AnyM (list DisplayedTransaction) :=
  let! needing := any_db (get_displayed_transactions_needing_confirmation_update account_id) in
  fold_m (fun updated tx =>
    let new_confirmations := u64_saturating_sub current_chain_height (block_height (blockchain tx)) in
    if new_confirmations =? confirmations (blockchain tx) then ret updated
    else
      let tx := confirmations_updated new_confirmations tx in
      any_db (update_displayed_transaction_confirmations tx) ;;;
      ret (updated ++ [tx])) [] needing.

(** ** Broadcast *)
Definition broadcast_transaction (tx : CompletedTransaction) : outcome string unit :=
  outcome_bind (outcome_map_err (fun e => "Deserialization failed: " +:+ e)
    (transaction_of_json (serialized_transaction tx))) (fun transaction =>
  outcome_bind (outcome_map_err (fun e => "Broadcast failed: " +:+ e)
    (submit_transaction transaction)) (fun response =>
  if accepted response || match rejection_reason response with AlreadyMined => true | _ => false end then Ok tt
  else Err ("Transaction rejected: " +:+ reason_to_string (rejection_reason response)))).

(** Reject the transaction, release its outputs, update its display and record
    the event. *)
Definition reject_transaction (account_id : Z) (tx : CompletedTransaction) (reason descr : string) :
    AnyM MonitoringResult :=
  any_db (mark_completed_transaction_as_rejected (ct_id tx) reason) ;;;
  any_db (unlock_outputs_for_request (pending_tx_id tx)) ;;;
  let! rejected_displayed_tx := any_db (mark_displayed_transaction_rejected (ct_id tx)) in
  let event := mkWalletEvent 0 account_id (TransactionRejected (ct_id tx) reason) descr in
  persist_event account_id event ;;;
  ret (mkMonitoringResult [event] (option_list rejected_displayed_tx)).

Definition rebroadcast_one (account_id : Z) (tx : CompletedTransaction) : AnyM MonitoringResult :=
  if broadcast_attempts tx >=? MAX_BROADCAST_ATTEMPTS then
    reject_transaction account_id tx
      ("Exceeded " +:+ pretty MAX_BROADCAST_ATTEMPTS +:+ " broadcast attempts")
      ("Transaction " +:+ pretty (ct_id tx) +:+ " exceeded broadcast attempts")
  else
    match broadcast_transaction tx with
    | Ok _ =>
        any_db (mark_completed_transaction_as_broadcasted (ct_id tx) (broadcast_attempts tx + 1)) ;;;
        let event := mkWalletEvent 0 account_id (TransactionBroadcast (ct_id tx) (kernel_excess tx))
          ("Transaction " +:+ pretty (ct_id tx) +:+ " broadcast") in
        persist_event account_id event ;;;
        ret (mkMonitoringResult [event] [])
    | Err reason =>
        reject_transaction account_id tx reason ("Transaction " +:+ pretty (ct_id tx) +:+ " rejected")
    | Panic msg => panic msg
    end.

Definition rebroadcast_completed_transactions (account_id : Z) (transactions : list CompletedTransaction) :
    AnyM MonitoringResult :=
  fold_m (fun result tx => let! r := rebroadcast_one account_id tx in ret (extend result r))
    empty_result transactions.

(** ** Mining *)
Definition find_kernel_on_chain (tx : CompletedTransaction) : outcome AnyError (option (Z * string)) :=
  outcome_bind (outcome_map_err (fun e => AnyMsg ("Deserialization failed: " +:+ e))
    (transaction_of_json (serialized_transaction tx))) (fun transaction =>
  outcome_bind (ok_or (first_kernel transaction) (AnyMsg "Transaction has no kernel")) (fun '(nonce, sig) =>
  outcome_bind (outcome_map_err (fun e => AnyMsg ("Transaction query failed: " +:+ e))
    (transaction_query nonce sig)) (fun response =>
  match location response with
  | Mined =>
      outcome_bind (ok_or (q_mined_height response) (AnyMsg "Mined transaction missing height")) (fun height =>
      outcome_bind (ok_or (mined_header_hash response) (AnyMsg "Mined transaction missing block hash"))
        (fun hash => Ok (Some (height, hash))))
  | NotMined => Ok None
  end))).

Definition check_one_mined (account_id : Z) (tx : CompletedTransaction) : AnyM (list WalletEvent) :=
  let! found := lift (find_kernel_on_chain tx) in
  match found with
  | None => ret []
  | Some (block_height, block_hash) =>
      any_db (mark_completed_transaction_as_mined_unconfirmed (ct_id tx) (as_i64 block_height) block_hash) ;;;
      let event := mkWalletEvent 0 account_id (TransactionUnconfirmed (ct_id tx) block_height 0)
        ("Transaction " +:+ pretty (ct_id tx) +:+ " mined at height " +:+ pretty block_height) in
      persist_event account_id event ;;;
      ret [event]
  end.

Definition check_broadcast_for_mining (account_id : Z) (transactions : list CompletedTransaction) :
    AnyM (list WalletEvent) :=
  fold_m (fun events tx => let! e := check_one_mined account_id tx in ret (events ++ e)) [] transactions.

(** ** Confirmation *)
Definition fixed_hash (bytes : string) : outcome AnyError string :=
  ok_or (fixed_hash_try_from bytes) (AnyMsg "Invalid hash length").

Definition payref_of (tx : CompletedTransaction) : outcome AnyError string :=
  outcome_bind (outcome_bind (ok_or (mined_block_hash tx)
    (AnyMsg ("Block hash missing for a mined tx: " +:+ pretty (ct_id tx)))) fixed_hash) (fun block_hash =>
  outcome_bind (ok_or (sent_output_hash tx)
    (AnyMsg ("Sent output hash missing for a mined tx: " +:+ pretty (ct_id tx)))) (fun h =>
  outcome_bind (ok_or (hex_decode h) (AnyMsg "Invalid hex")) (fun b =>
  outcome_bind (fixed_hash b) (fun output_hash =>
  Ok (hex_encode (generate_payment_reference block_hash output_hash)))))).

Definition check_one_confirmed (account_id current_height : Z) (tx : CompletedTransaction) :
    AnyM (list WalletEvent) :=
  match CompletedDb.mined_height tx with
  | None => ret []
  | Some h =>
      let mined_height := as_u64 h in
      let confirmations := u64_saturating_sub current_height mined_height in
      if confirmations >=? tm_required_confirmations self then
        let! payref := lift (payref_of tx) in
        any_db (mark_completed_transaction_as_confirmed (ct_id tx) (as_i64 current_height) payref) ;;;
        let event := mkWalletEvent 0 account_id (TransactionConfirmed (ct_id tx) mined_height current_height)
          ("Transaction " +:+ pretty (ct_id tx) +:+ " confirmed") in
        persist_event account_id event ;;;
        ret [event]
      else ret []
  end.

Definition check_confirmation_status (account_id current_height : Z)
    (transactions : list CompletedTransaction) : AnyM (list WalletEvent) :=
  fold_m (fun events tx => let! e := check_one_confirmed account_id current_height tx in ret (events ++ e))
    [] transactions.

Definition process_pending_transactions (account_id current_chain_height : Z)
    (by_status : PendingTransactionsByStatus) : AnyM MonitoringResult :=
  let! rebroadcast := rebroadcast_completed_transactions account_id (completed by_status) in
  let result := extend empty_result rebroadcast in
  let! broadcast_events := check_broadcast_for_mining account_id (broadcast by_status) in
  let result := extend result (mkMonitoringResult broadcast_events []) in
  let! confirmation_events :=
    check_confirmation_status account_id current_chain_height (mined_unconfirmed by_status) in
  ret (extend result (mkMonitoringResult confirmation_events [])).

(** ** The monitoring state: the [has_pending_outbound] flag *)
Definition MonM (A : Type) : Type := M (bool * Db) AnyError A.
Definition mon_db {A} (m : AnyM A) : MonM A := fun '(flag, d) =>
  let '(r, d') := m d in (r, (flag, d')).
Definition set_flag (b : bool) : MonM unit := modify (fun '(_, d) => (b, d)).

Definition initialize (account_id : Z) : MonM unit :=
  let! pending := mon_db (any_db (get_pending_completed_transactions account_id)) in
  set_flag (negb (match pending with [] => true | _ => false end)).

Definition signal_transaction_broadcast : MonM unit := set_flag true.
Definition clear_pending_outbound : MonM unit := set_flag false.

Definition is_terminal_event (e : WalletEvent) : bool :=
  match event_type e with
  | TransactionConfirmed _ _ _ | TransactionRejected _ _ => true
  | _ => false
  end.

Definition monitor_if_needed (account_id current_chain_height : Z) : MonM MonitoringResult :=
  let! updated := mon_db (update_displayed_confirmations account_id current_chain_height) in
  let result := mkMonitoringResult [] updated in
  let! has_pending_outbound := gets fst in
  if negb has_pending_outbound then ret result else
  let! pending_transactions := mon_db (any_db (get_pending_completed_transactions account_id)) in
  match pending_transactions with
  | [] => clear_pending_outbound ;;; ret result
  | _ =>
      let by_status := from_transactions pending_transactions in
      let initial_count := remaining_count by_status in
      let! pending_result :=
        mon_db (process_pending_transactions account_id current_chain_height by_status) in
      let result := extend result pending_result in
      let terminal_transitions :=
        length (List.filter is_terminal_event (mr_wallet_events result)) in
      when (initial_count <=? terminal_transitions)%nat clear_pending_outbound ;;;
      ret result
  end.

End Monitor.
