(* ===== verification/Manager.v ===== *)
(** * Creating and sending transactions ([minotari/src/transactions/manager.rs])

    A [TransactionSender] locks funds for a recipient, prepares the transaction
    for signing, and later records, broadcasts and displays the signed one.  The
    address and the preparation, which the transaction library computes from the
    account's keys, are arguments. *)
From S2P Require Import Prelude Models DisplayTypes External Schema OutputsDb PendingDb CompletedDb.
From S2P Require Import DisplayedDb Subset Builder InputSelector Monitor.
#[local] Open Scope Z_scope.

#[local] Notation "x |> f" := (f x) (at level 50, left associativity, only parsing).

(** [Recipient] ([one_sided_transaction.rs]). *)
Record Recipient := mkRecipient {
  rc_address : string;
  rc_amount : Z;
  rc_payment_id : option string;
}.

Inductive SenderError :=
| SendDb (e : WalletDbError)
| SendSelection (e : UtxoSelectionError)
| SendMsg (msg : string).

Section Manager.
Context {X : Ext} {SE : SelectionExt} {C : TxClient}.

Record ProcessedTransaction := mkProcessedTransaction {
  pr_id : option string;
  idempotency_key : string;
  recipient : Recipient;
  seconds_to_lock_utxos : Z;
  pr_selected_utxos : list DbWalletOutput;
}.

Definition processed_id (p : ProcessedTransaction) : string := default "" (pr_id p).

Definition update_id (id : string) (p : ProcessedTransaction) : ProcessedTransaction :=
  mkProcessedTransaction (Some id) (idempotency_key p) (recipient p) (seconds_to_lock_utxos p)
    (pr_selected_utxos p).

Definition set_selected_utxos (l : list DbWalletOutput) (p : ProcessedTransaction) : ProcessedTransaction :=
  mkProcessedTransaction (pr_id p) (idempotency_key p) (recipient p) (seconds_to_lock_utxos p) l.

Record TransactionSender := mkTransactionSender {
  account : AccountRow;
  processed_transactions : ProcessedTransaction;
  ts_fee_per_gram : Z;
  ts_confirmation_window : Z;
}.

Definition SndM (A : Type) : Type := M Db SenderError A.
Definition snd_db {A} (m : DbM A) : SndM A := map_err SendDb m.

(** [TransactionSender::new] looks the account up and starts with an empty
    processed transaction and a fee of 5 per gram. *)
Definition TransactionSender_new (account_name : string) (row : option AccountRow)
    (confirmation_window : Z) : outcome SenderError TransactionSender :=
  outcome_bind (ok_or row (SendMsg ("Account with name '" +:+ account_name +:+ "' not found"))) (fun a =>
  Ok (mkTransactionSender a (mkProcessedTransaction None "" (mkRecipient "" 0 None) 0 []) 5
    confirmation_window)).

(** The address of the account, with whether it supports one-sided payments. *)
Context (sender_address : outcome SenderError (string * bool)).
(** [prepare_transaction_builder], which loads the inputs and the fee into the
    library's builder, and the library's preparation for signing. *)
Context {TxBuilder Prepared : Type}
  (prepare_transaction_builder : Z -> list WalletOutput -> outcome SenderError TxBuilder)
  (prepare_one_sided_transaction_for_signing :
     TxBuilder -> Recipient -> string -> outcome SenderError Prepared).

Definition validate_transaction_creation_request (self : TransactionSender) (p : ProcessedTransaction) :
    SndM unit :=
  let! already := snd_db (check_if_transaction_was_already_completed_by_idempotency_key
    (idempotency_key p) (a_id (account self))) in
  if already then throw (SendMsg "A pending transaction with the same idempotency key already exists")
  else
    let! (_, one_sided) := lift sender_address in
    if one_sided : bool then ret tt
    else throw (SendMsg "The sender address does not support one-sided transactions.").

Definition check_if_transaction_expired (self : TransactionSender) (p : ProcessedTransaction) : SndM unit :=
  let! is_expired := snd_db (check_if_transaction_is_expired_by_idempotency_key
    (idempotency_key p) (a_id (account self))) in
  if is_expired : bool then
    snd_db (update_pending_transaction_status (processed_id p) PendingTransactionStatus.Expired) ;;;
    throw (SendMsg "The transaction has expired.")
  else ret tt.

Definition create_utxo_selection (self : TransactionSender) (p : ProcessedTransaction) : SndM UtxoSelection :=
  map_err SendSelection
    (select_unspent_outputs (mkInputSelector (a_id (account self)) (ts_confirmation_window self))
      (rc_amount (recipient p)) 1 (ts_fee_per_gram self) None).

(** Each statement commits on its own: there is no transaction around them. *)
Definition manager_create_pending_transaction (self : TransactionSender) (uuid : string)
    (p : ProcessedTransaction) : SndM (string * ProcessedTransaction) :=
  let! now := gets clock in
  let! expires_at := lift (datetime_plus now (as_i64 (seconds_to_lock_utxos p))) in
  let! utxo_selection := create_utxo_selection self p in
  let! pending_tx_id := snd_db (create_pending_transaction uuid (idempotency_key p) (a_id (account self))
    (us_requires_change_output utxo_selection) (us_total_value utxo_selection)
    (us_fee_without_change utxo_selection) (us_fee_with_change utxo_selection) expires_at) in
  for_each (fun utxo => snd_db (lock_output (dwo_id utxo) pending_tx_id expires_at))
    (us_utxos utxo_selection) ;;;
  let p := match pr_selected_utxos p with
    | [] => set_selected_utxos (us_utxos utxo_selection) p
    | _ => p
    end in
  ret (pending_tx_id, p).

Definition create_or_find_pending_transaction (self : TransactionSender) (uuid : string)
    (p : ProcessedTransaction) : SndM (string * ProcessedTransaction) :=
  let! response := snd_db (find_pending_transaction_by_idempotency_key (idempotency_key p)
    (a_id (account self))) in
  match response with
  | Some pending_tx => ret (pt_id pending_tx, p)
  | None => manager_create_pending_transaction self uuid p
  end.

(** Both errors are logged and dropped. *)
Definition fail_and_unlock_pending_transaction (pending_tx_id : string) : SndM unit :=
  attempt (snd_db (update_pending_transaction_status pending_tx_id PendingTransactionStatus.Expired)) ;;;
  attempt (snd_db (unlock_outputs_for_request pending_tx_id)) ;;;
  ret tt.

(** Selecting the inputs and preparing the transaction. *)
Definition prepare_locked (self : TransactionSender) (p : ProcessedTransaction) : SndM Prepared :=
  let! utxo_selection := match pr_selected_utxos p with
    | [] => snd_db (fetch_outputs_by_lock_request_id (processed_id p))
    | l => ret l
    end in
  let! tx_builder := lift (prepare_transaction_builder (ts_fee_per_gram self)
    (map dwo_output utxo_selection)) in
  let! (sender, _) := lift sender_address in
  lift (prepare_one_sided_transaction_for_signing tx_builder (recipient p) sender).

Definition start_new_transaction (self : TransactionSender) (uuid key : string) (to : Recipient)
    (seconds_to_lock_utxo : Z) : SndM (Prepared * TransactionSender) :=
  let p := mkProcessedTransaction None key to seconds_to_lock_utxo [] in
  validate_transaction_creation_request self p ;;;
  let! (pending_transaction_id, p) := create_or_find_pending_transaction self uuid p in
  let p := update_id pending_transaction_id p in
  let! result := attempt (prepare_locked self p) in
  match result with
  | Ok res =>
      ret (res, mkTransactionSender (account self) p (ts_fee_per_gram self) (ts_confirmation_window self))
  | Err e => fail_and_unlock_pending_transaction pending_transaction_id ;;; throw e
  | Panic msg => panic msg
  end.

(** ** Finalising *)

(** What the library's signed result holds. *)
Record SignedOneSidedTransactionResult := mkSignedResult {
  sg_fee : Z;
  sg_transaction : Transaction;
  sg_kernel_excess : option string;
  sg_tx_id : Z;
  sent_hashes : list string;
  sg_outputs : list WalletOutput;
  sg_change_output : option WalletOutput;
}.

(** [.inspect_err(fail_and_unlock)]: release the funds, then raise the error. *)
Definition or_unlock {A} (p : ProcessedTransaction) (m : SndM A) : SndM A :=
  let! r := attempt m in
  match r with
  | Ok a => ret a
  | Err e => fail_and_unlock_pending_transaction (processed_id p) ;;; throw e
  | Panic msg => panic msg
  end.

Definition pending_output (is_change : bool) (o : WalletOutput) : TransactionOutput :=
  mkTransactionOutput (wo_output_hash o) (wo_value o) OutputStatus.Unspent 0 fixed_hash_default
    OutputType_Standard is_change.

Definition pending_input (u : DbWalletOutput) : TransactionInput :=
  mkTransactionInput (wo_output_hash (dwo_output u)) (wo_value (dwo_output u)) (dwo_id u) fixed_hash_default.

Definition build_pending_displayed_transaction (self : TransactionSender) (now : Z)
    (p : ProcessedTransaction) (signed : SignedOneSidedTransactionResult) :
    outcome SenderError DisplayedTransaction :=
  outcome_bind (outcome_fold (fun debit u => mm_plus debit (wo_value (dwo_output u))) 0 (pr_selected_utxos p))
    (fun debit =>
  outcome_bind (match sg_change_output signed with
    | Some change => mm_plus 0 (wo_value change)
    | None => Ok 0
    end) (fun credit =>
  outcome_map_err (fun e => SendMsg ("Failed to build displayed transaction: " +:+ processor_error_to_string e))
    (Builder.new
     |> Builder.account_id (a_id (account self))
     |> Builder.direction Outgoing
     |> Builder.status TDS.Pending
     |> Builder.source OneSided
     |> Builder.credits_and_debits credit debit
     |> Builder.message (rc_payment_id (recipient p))
     |> Builder.counterparty (Some (rc_address (recipient p)))
     |> Builder.blockchain_info 0 fixed_hash_default now 0
     |> Builder.fee (Some (sg_fee signed))
     |> Builder.inputs (map pending_input (pr_selected_utxos p))
     |> Builder.outputs (map (pending_output false) (sg_outputs signed)
          ++ map (pending_output true) (option_list (sg_change_output signed)))
     |> Builder.sent_output_hashes (sent_hashes signed)
     |> Builder.build (sg_tx_id signed)))).

(** Record the answer of the network to the submission. *)
Definition handle_submission (p : ProcessedTransaction) (completed_tx_id : Z)
    (response : outcome string TxSubmissionResponse) : SndM unit :=
  match response with
  | Panic msg => panic msg
  | Err e =>
      snd_db (mark_completed_transaction_as_rejected completed_tx_id
        ("Transaction submission failed: " +:+ e)) ;;;
      fail_and_unlock_pending_transaction (processed_id p) ;;;
      throw (SendMsg ("Transaction submission failed: " +:+ e))
  | Ok submission_response =>
      if accepted submission_response then
        snd_db (mark_completed_transaction_as_broadcasted completed_tx_id 1)
      else match rejection_reason submission_response with
      | AlreadyMined => ret tt
      | reason =>
          snd_db (mark_completed_transaction_as_rejected completed_tx_id (reason_to_string reason)) ;;;
          fail_and_unlock_pending_transaction (processed_id p) ;;;
          throw (SendMsg ("Transaction was not accepted by the network: " +:+ reason_to_string reason))
      end
  end.

(** [client] is the parsing of the node's address. *)
Definition finalize_transaction_and_broadcast (self : TransactionSender)
    (signed : SignedOneSidedTransactionResult) (client : outcome string unit) : SndM DisplayedTransaction :=
  let p := processed_transactions self in
  or_unlock p (check_if_transaction_expired self p) ;;;
  let kernel_excess := default "" (sg_kernel_excess signed) in
  let! serialized_transaction := or_unlock p (lift (outcome_map_err
    (fun e => SendMsg ("Failed to serialize transaction: " +:+ e)) (transaction_to_json (sg_transaction signed)))) in
  let sent_output_hash := hex_encode <$> head (sent_hashes signed) in
  or_unlock p (snd_db (update_pending_transaction_status (processed_id p) PendingTransactionStatus.Completed)) ;;;
  let completed_tx_id := sg_tx_id signed in
  or_unlock p (snd_db (create_completed_transaction (a_id (account self)) (processed_id p) kernel_excess
    serialized_transaction sent_output_hash completed_tx_id)) ;;;
  lift (outcome_map_err SendMsg client) ;;;
  handle_submission p completed_tx_id (submit_transaction (sg_transaction signed)) ;;;
  let! now := gets clock in
  let! displayed_transaction := lift (build_pending_displayed_transaction self now p signed) in
  snd_db (insert_displayed_transaction displayed_transaction) ;;;
  ret displayed_transaction.

End Manager.
