(* ===== verification/HttpScanner.v ===== *)
(** * The HTTP scanner ([minotari-scanning/src/scanning/http/scanner.rs])

    Requests with retries, the download of blocks page by page, the recovery of
    outputs in the blocks of a page, and the two tasks and two channels that
    [scan_blocks] starts.

    The base node is [net]: its answer to the [n]-th request of a scanner, [None]
    when the request timed out.  Nothing is assumed of it here. *)
From S2P Require Import Prelude Models DisplayTypes External Scanning.
#[local] Open Scope Z_scope.

Definition SYNC_UTXOS_BY_BLOCK_PAGE_LIMIT : Z := 50.
Definition MAX_BACKOFF_EXPONENT : Z := 5.
Definition MAX_BACKOFF_SECONDS : Z := 60.
(** The capacity of the channels between the tasks. *)
Definition CHANNEL_CAPACITY : nat := Z.to_nat 1000.

(** [u64::pow], which panics on overflow like [+]. *)
Definition u64_pow {E} (a n : Z) : outcome E Z :=
  if a ^ n <=? u64_max then Ok (a ^ n) else Panic "attempt to multiply with overflow".

(** ** Requests and responses *)
Inductive Request :=
| GetTipInfo
| GetHeaderByHeight (height : Z)
| SyncUtxosByBlock (start_header_hash : string) (limit page : Z) (exclude_spent : bool)
| GetUtxosByBlock (header_hash : string).

Record HttpResponse := mkHttpResponse {
  rs_status : Z;
  rs_status_text : string;
  rs_body : outcome string string;
}.

(** [StatusCode::is_success]. *)
Definition is_success (status : Z) : bool := (200 <=? status) && (status <? 300).

(** [SyncUtxosByBlockResponseV0]. *)
Record SyncResponse := mkSyncResponse {
  sr_blocks : list BlockUtxoInfo;
  sr_has_next_page : bool;
  next_header_to_scan : string;
}.

(** [serde_json] on the bodies; the version 1 response is converted to version 0. *)
Class ScanJson (X : Ext) (SX : ScanningExt X) := {
  sync_of_json : string -> outcome string SyncResponse;
  utxos_of_json : string -> outcome string (list FullOutput);
  (** [HttpTipInfoResponse] and [HttpBlockHeader], their hashes as raw bytes. *)
  tip_of_json : string -> outcome string TipInfo;
  header_of_json : string -> outcome string BlockHeaderInfo;
}.

(** [n] answers of the base node from some time on. *)
Definition Net : Type := nat -> Request -> option (outcome string HttpResponse).

(** A scanner: the progress of its download, the requests it has made and the
    seconds it has slept between them. *)
Record Scanner := mkScanner {
  current_in_progress : InProgressScan;
  requests : nat;
  slept : list Z;
}.

Definition set_in_progress (p : InProgressScan) (s : Scanner) : Scanner :=
  mkScanner p (requests s) (slept s).

Definition ScM (A : Type) : Type := M Scanner WalletError A.

(** What a scanner is created with. *)
Record HttpConfig {X : Ext} {SX : ScanningExt X} := mkHttpConfig {
  hc_key_managers : list KeyManager;
  max_error_retries : Z;
  error_backoff_base_secs : Z;
}.
Arguments mkHttpConfig {X SX}.

(** ** Creation

    [client] is the creation of the HTTP client, [reached] tells whether its first
    request, for the tip, got any response. *)
Section Creation.
Context {X : Ext} {SX : ScanningExt X}.
Context (client : outcome string unit) (reached : string -> bool) (num_cpus : Z).

Record HttpBlockchainScanner := mkHttpScanner {
  base_url : string;
  scanner_timeout : Z;
  scanner_thread_count : Z;
  scanner_config : HttpConfig;
  scanner_in_progress : InProgressScan;
}.

Definition with_timeout (base_url : string) (timeout : Z) (key_managers : list KeyManager)
    (number_processing_threads max_error_retries error_backoff_base_secs : Z) :
    outcome WalletError HttpBlockchainScanner :=
  let thread_count := if number_processing_threads >? 0 then number_processing_threads
    else Z.max (u64_saturating_sub num_cpus 2) 1 in
  match key_managers with
  | [] => Err (ConfigurationError "At least one key manager must be specified")
  | _ =>
      outcome_bind (outcome_map_err
        (fun e => blockchain_connection_failed ("Failed to create HTTP client: " +:+ e)) client) (fun _ =>
      if negb (reached base_url) then Err (blockchain_connection_failed ("Failed to connect to " +:+ base_url))
      else Ok (mkHttpScanner base_url timeout thread_count
        (mkHttpConfig key_managers max_error_retries error_backoff_base_secs) InProgressScan_new_empty))
  end.

Definition new (base_url : string) (key_managers : list KeyManager) (number_processing_threads : Z) :
    outcome WalletError HttpBlockchainScanner :=
  with_timeout base_url 30 key_managers number_processing_threads 3 2.

Definition create_scan_config_with_wallet_keys (self : HttpBlockchainScanner) (start_height : Z)
    (end_height : option Z) : outcome WalletError ScanConfig :=
  Ok (mkScanConfig start_height end_height (Some 50) (scanner_timeout self) false).

(** The node serves no blocks by height over HTTP. *)
Definition get_block_by_height {Block : Type} (_ : Z) : outcome WalletError (option Block) := Ok None.

Definition get_blocks_by_heights {Block : Type} (heights : list Z) : outcome WalletError (list Block) :=
  outcome_bind (outcome_mapM get_block_by_height heights) (fun blocks => Ok (omap id blocks)).

End Creation.

Section Http.
Context {X : Ext} {SX : ScanningExt X} {J : ScanJson X SX}.
Context (self : HttpConfig) (net : Net).

Definition send (req : Request) : ScM (option (outcome string HttpResponse)) := fun s =>
  (Ok (net (requests s) req), mkScanner (current_in_progress s) (S (requests s)) (slept s)).

Definition sleep (secs : Z) : ScM unit :=
  modify (fun s => mkScanner (current_in_progress s) (requests s) (slept s ++ [secs])).

(** ** The answers *)
Definition response_of (r : outcome string HttpResponse) : outcome WalletError HttpResponse :=
  outcome_map_err (fun e => blockchain_connection_failed ("HTTP request failed: " +:+ e)) r.

Definition http_error {A} (resp : HttpResponse) : outcome WalletError A :=
  Err (blockchain_connection_failed ("HTTP error: " +:+ rs_status_text resp)).

Definition body_text (resp : HttpResponse) : outcome WalletError string :=
  outcome_map_err (fun e => blockchain_connection_failed ("Failed to read response body: " +:+ e)) (rs_body resp).

Definition parse {A} (of_json : string -> outcome string A) (body : string) : outcome WalletError A :=
  outcome_map_err (fun e => blockchain_connection_failed ("Failed to parse response: " +:+ e)) (of_json body).

(** [response.json()]: a failure to read the body is a parse error too. *)
Definition sync_utxos_by_block_http_call (r : outcome string HttpResponse) : outcome WalletError SyncResponse :=
  outcome_bind (response_of r) (fun resp =>
  if negb (is_success (rs_status resp)) then http_error resp
  else outcome_map_err (fun e => blockchain_connection_failed ("Failed to parse response: " +:+ e))
    (outcome_bind (rs_body resp) sync_of_json)).

Definition get_utxos_by_block_http_call (r : outcome string HttpResponse) : outcome WalletError (list FullOutput) :=
  outcome_bind (response_of r) (fun resp =>
  if negb (is_success (rs_status resp)) then http_error resp
  else outcome_bind (body_text resp) (parse utxos_of_json)).

Definition get_tip_info_http_call (r : outcome string HttpResponse) : outcome WalletError TipInfo :=
  outcome_bind (response_of r) (fun resp =>
  if negb (is_success (rs_status resp)) then http_error resp
  else
    outcome_bind (body_text resp) (fun body_text =>
    outcome_bind (parse tip_of_json body_text) (fun tip =>
    outcome_bind (ok_or (fixed_hash_try_from (best_block_hash tip)) (ConversionError fixed_hash_error_text))
      (fun hash =>
    Ok (mkTipInfo (best_block_height tip) hash (accumulated_difficulty tip) (pruned_height tip)
      (tip_timestamp tip)))))).

(** A missing block is an answer, not an error. *)
Definition get_header_by_height_http_call (r : outcome string HttpResponse) :
    outcome WalletError (option BlockHeaderInfo) :=
  outcome_bind (response_of r) (fun resp =>
  if negb (is_success (rs_status resp)) then
    if rs_status resp =? 404 then Ok None else http_error resp
  else
    outcome_bind (body_text resp) (fun body =>
    outcome_bind (parse header_of_json body) (fun header =>
    outcome_bind (ok_or (fixed_hash_try_from (hdr_hash header)) (ConversionError fixed_hash_error_text))
      (fun hash => Ok (Some (mkBlockHeaderInfo (hdr_height header) hash (hdr_timestamp header))))))).

(** ** Retries

    Errors and timeouts are counted apart; the [max_error_retries]-th of either kind
    is final.  An error is followed by a growing pause, a timeout by a second. *)
Definition backoff_secs (error_retries : Z) : outcome WalletError Z :=
  outcome_bind (u64_pow (error_backoff_base_secs self) (Z.min error_retries MAX_BACKOFF_EXPONENT)) (fun secs =>
  Ok (Z.min secs MAX_BACKOFF_SECONDS)).

Fixpoint retry_loop {A} (call : outcome string HttpResponse -> outcome WalletError A) (req : Request)
    (fuel : nat) (timeout_retries error_retries : Z) : ScM A :=
  match fuel with
  | O => panic "out of fuel"
  | S fuel =>
      let! answer := send req in
      match answer with
      | Some r =>
          match call r with
          | Ok result => ret result
          | Err e =>
              let error_retries := error_retries + 1 in
              if error_retries >=? max_error_retries self then throw e
              else
                let! secs := lift (backoff_secs error_retries) in
                sleep secs ;;;
                retry_loop call req fuel timeout_retries error_retries
          | Panic msg => panic msg
          end
      | None =>
          let timeout_retries := timeout_retries + 1 in
          if timeout_retries >=? max_error_retries self
          then throw (WalletTimeout ("Failed after " +:+ pretty timeout_retries))
          else
            sleep 1 ;;;
            retry_loop call req fuel timeout_retries error_retries
      end
  end.

(** Every turn raises one of the two counters. *)
Definition retry_fuel : nat := S (2 * Z.to_nat (max_error_retries self)).

Definition sync_utxos_by_block (start_header_hash : string) (limit page : Z) (exclude_spent : bool) :
    ScM SyncResponse :=
  retry_loop sync_utxos_by_block_http_call (SyncUtxosByBlock start_header_hash limit page exclude_spent)
    retry_fuel 0 0.

Definition get_utxos_by_block (current_header_hash : string) : ScM (list FullOutput) :=
  retry_loop get_utxos_by_block_http_call (GetUtxosByBlock current_header_hash) retry_fuel 0 0.

Definition get_tip_info : ScM TipInfo := retry_loop get_tip_info_http_call GetTipInfo retry_fuel 0 0.

Definition get_header_by_height (height : Z) : ScM (option BlockHeaderInfo) :=
  retry_loop get_header_by_height_http_call (GetHeaderByHeight height) retry_fuel 0 0.

(** ** The download *)
Definition in_progress (f : InProgressScan -> InProgressScan) : ScM unit :=
  modify (fun s => set_in_progress (f (current_in_progress s)) s).

(** The hash that the pages are counted from; the first request asks for it. *)
Definition header_to_fetch (start_height : Z) : ScM string :=
  let! p := gets current_in_progress in
  match ip_header p with
  | Some h => ret h
  | None =>
      let! start_header := get_header_by_height start_height in
      match start_header with
      | None => throw (blockchain_connection_failed ("Failed to get header at height " +:+ pretty start_height))
      | Some hdr =>
          let current_header_hash := hex_encode (hdr_hash hdr) in
          in_progress (set_next_request current_header_hash) ;;;
          ret current_header_hash
      end
  end.

(** The loop over the blocks of a response: a block above the end height ends the
    download, but is kept, with all that follow it. *)
Definition take_block (st : list BlockUtxoInfo * bool * bool) (block : BlockUtxoInfo) :
    ScM (list BlockUtxoInfo * bool * bool) :=
  let '(all_blocks, more_blocks, has_next_page) := st in
  let! p := gets current_in_progress in
  match ip_config p ≫= sc_end_height with
  | Some end_height =>
      if bu_height block >? end_height
      then in_progress clear ;;; ret (all_blocks ++ [block], false, false)
      else ret (all_blocks ++ [block], more_blocks, has_next_page)
  | None => ret (all_blocks ++ [block], more_blocks, has_next_page)
  end.

(** Where the next request starts, when the pages of this one are exhausted; the
    result is [more_blocks]. *)
Definition next_request (next_header : string) (more_blocks : bool) : ScM bool :=
  let! p := gets current_in_progress in
  if String.eqb next_header "" then in_progress clear ;;; ret false
  else
    let next_header_hex := hex_encode next_header in
    if String.eqb next_header_hex (default "" (ip_header p)) then in_progress clear ;;; ret false
    else in_progress (set_next_request next_header_hex) ;;; ret more_blocks.

Definition fetch_block_range : ScM (list BlockUtxoInfo * bool) :=
  let! p := gets current_in_progress in
  let start_height := match ip_config p with Some c => start_height c | None => 0 end in
  let exclude_spent := match ip_config p with Some c => exclude_spent c | None => false end in
  let! current_header_hash := header_to_fetch start_height in
  let! p := gets current_in_progress in
  let limit := default SYNC_UTXOS_BY_BLOCK_PAGE_LIMIT (ip_config p ≫= sc_batch_size) in
  let! response := sync_utxos_by_block current_header_hash limit (current_page p) exclude_spent in
  match sr_blocks response with
  | [] => ret ([], false)
  | blocks =>
      let! (all_blocks, more_blocks, has_next_page) :=
        fold_m take_block ([], true, sr_has_next_page response) blocks in
      let! p := gets current_in_progress in
      let! p := lift (increment_page p) in
      in_progress (fun _ => p) ;;;
      if negb has_next_page && is_active p then
        let! more_blocks := next_request (next_header_to_scan response) more_blocks in
        ret (all_blocks, more_blocks)
      else ret (all_blocks, more_blocks)
  end.

(** ** The recovery of outputs *)

(** One block, in the thread pool: the errors it pushes, and its result. *)
Definition scan_output (st : list WalletError * list IncompleteScannedOutput) (output : MinimalUtxoSyncInfo) :
    outcome WalletError (list WalletError * list IncompleteScannedOutput) :=
  let '(errors, found) := st in
  match outcome_bind (scanning_output_try_from output) (scan_for_recoverable_output (hc_key_managers self)) with
  | Ok (Some o) => Ok (errors, found ++ [o])
  | Ok None => Ok (errors, found)
  | Err e => Ok (errors ++ [e], found)
  | Panic msg => Panic msg
  end.

Definition ScannedBlock : Type := list WalletError * option (BlockScanResult * list IncompleteScannedOutput).

Definition scan_block (block : BlockUtxoInfo) : outcome WalletError ScannedBlock :=
  match fixed_hash_try_from (bu_header_hash block) with
  | None => Ok ([ConversionError fixed_hash_error_text], None)
  | Some header_hash =>
      outcome_bind (outcome_fold scan_output ([], []) (bu_outputs block)) (fun '(errors, outputs) =>
      Ok (errors, Some (mkBlockScanResult (bu_height block) header_hash []
        (map (fun i => default fixed_hash_default (fixed_hash_try_from i)) (bu_inputs block))
        (bu_mined_timestamp block), outputs)))
  end.

Definition push_output (o : string * WalletOutput * nat) (b : BlockScanResult) : BlockScanResult :=
  mkBlockScanResult (blk_height b) (blk_hash b) (wallet_outputs b ++ [o]) (blk_inputs b) (mined_timestamp b).

(** The full output with the same encrypted data, imported for its key manager. *)
Definition complete_output (full_outputs : list FullOutput) (block : BlockScanResult)
    (output : IncompleteScannedOutput) : ScM BlockScanResult :=
  match List.find (fun o => bool_decide (fo_encrypted_data o = io_encrypted_data output)) full_outputs with
  | None => ret block
  | Some tx_output =>
      match nth_error (hc_key_managers self) (key_manager_index output) with
      | None => panic "should exist"
      | Some km =>
          match to_wallet_output output tx_output km with
          | Some final_output =>
              ret (push_output (io_output_hash output, final_output, key_manager_index output) block)
          | None => ret block
          end
      end
  end.

(** The future of a block. *)
Definition complete_block (scanned : BlockScanResult * list IncompleteScannedOutput) : ScM BlockScanResult :=
  let '(block, wallet_outputs) := scanned in
  match wallet_outputs with
  | [] => ret block
  | _ =>
      let! full_outputs := get_utxos_by_block (hex_encode (blk_hash block)) in
      fold_m (complete_output full_outputs) block wallet_outputs
  end.

End Http.
