(* ===== verification/ScanPipeline.v ===== *)
(** * The two tasks of [scan_blocks] ([minotari-scanning/src/scanning/http/scanner.rs])

    [scan_blocks] starts a task that downloads pages of blocks into one channel and a
    task that scans them, a page at a time, into the channel that the caller reads.
    The tasks run concurrently: a state is a [Pipeline], and [pipe_step] is one step
    of the download, of the processing or of the reader.

    The order in which the blocks of a page are finished is open, too: [completion]
    permutes the blocks of the [n]-th page for the thread pool's errors, its results
    and the futures. *)
From S2P Require Import Prelude Models DisplayTypes External Scanning HttpScanner.
From stdpp Require Import relations.
#[local] Open Scope Z_scope.

(** The phases of a page whose order of completion is open. *)
Inductive Phase := PoolErrors | PoolResults | Futures.

Class Completion := {
  completion : nat -> Phase -> forall {A : Type}, list A -> list A;
}.

Class CompletionLaws (C : Completion) := {
  completion_perm : forall n ph {A} (l : list A), Permutation (completion n ph l) l;
}.

Section Pipeline.
Context {X : Ext} {SX : ScanningExt X} {J : ScanJson X SX} {C : Completion}.
Context (self : HttpConfig).
(** The base node for the download task and for the block with a hash on a page: the
    scanners are clones, which count their requests apart. *)
Context (net : Net) (block_net : nat -> string -> Net).
(** The creation of the thread pool. *)
Context (pool : outcome string unit).

(** ** A page *)

(** A clone of the scanner for one future, which does not read its download. *)
Definition new_clone : Scanner := mkScanner InProgressScan_new_empty 0 [].

Definition complete_in_page (page : nat) (scanned : BlockScanResult * list IncompleteScannedOutput) :
    outcome WalletError BlockScanResult :=
  fst (complete_block self (block_net page (blk_hash (fst scanned))) scanned new_clone).

Definition by_height (a b : BlockScanResult) : bool := blk_height a <=? blk_height b.

Definition process_page (page : nat) (http_blocks : list BlockUtxoInfo) :
    outcome WalletError (list BlockScanResult) :=
  outcome_bind (outcome_mapM (scan_block self) http_blocks) (fun scanned =>
  match concat (completion page PoolErrors (map fst scanned)) with
  | e :: _ => Err e
  | [] =>
      let results := completion page PoolResults (omap snd scanned) in
      outcome_bind (outcome_mapM (complete_in_page page) (completion page Futures results)) (fun final_results =>
      Ok (sort_by by_height final_results))
  end).

(** ** The tasks *)
Inductive DownloadTask := DlStart | DlFetch (s : Scanner) | DlFinish | DlDone.
Inductive ProcessTask := PrStart | PrIdle | PrPage (http_blocks : list BlockUtxoInfo) | PrDone.

Definition Message : Type := outcome WalletError (list BlockScanResult).

(** [raw] and [out] are the channels; [received] is what the reader took, [reading]
    is false once it dropped its end.  [downloaded] is the log of the pages that were
    fetched, [processed] counts the pages that were taken from [raw]. *)
Record Pipeline := mkPipeline {
  download : DownloadTask;
  process : ProcessTask;
  raw : list (list BlockUtxoInfo);
  out : list Message;
  received : list Message;
  reading : bool;
  downloaded : list (list BlockUtxoInfo);
  processed : nat;
}.

Definition set_download (x : DownloadTask) (p : Pipeline) : Pipeline :=
  mkPipeline x (process p) (raw p) (out p) (received p) (reading p) (downloaded p) (processed p).
Definition set_process (x : ProcessTask) (p : Pipeline) : Pipeline :=
  mkPipeline (download p) x (raw p) (out p) (received p) (reading p) (downloaded p) (processed p).

(** A send waits for room; it fails when the receiver is gone. *)
Inductive SendResult := Sent (p : Pipeline) | Waits | Closed.

Definition send_out (m : Message) (p : Pipeline) : SendResult :=
  if negb (reading p) then Closed
  else if (length (out p) <? CHANNEL_CAPACITY)%nat then
    Sent (mkPipeline (download p) (process p) (raw p) (out p ++ [m]) (received p) (reading p)
      (downloaded p) (processed p))
  else Waits.

Definition process_running (p : Pipeline) : bool := match process p with PrDone => false | _ => true end.

Definition send_raw (page : list BlockUtxoInfo) (p : Pipeline) : SendResult :=
  if negb (process_running p) then Closed
  else if (length (raw p) <? CHANNEL_CAPACITY)%nat then
    Sent (mkPipeline (download p) (process p) (raw p ++ [page]) (out p) (received p) (reading p)
      (downloaded p ++ [page]) (processed p))
  else Waits.

(** The result of a send that is only logged when it fails. *)
Definition after_send (r : SendResult) (p : Pipeline) (k : Pipeline -> Pipeline) : option Pipeline :=
  match r with
  | Sent p' => Some (k p')
  | Waits => None
  | Closed => Some (k p)
  end.

(** A step of the download task; [None] when it waits or has ended.  A panic ends the
    task, as does a failure of the first request, without a message. *)
Definition download_step (config : ScanConfig) (p : Pipeline) : option Pipeline :=
  match download p with
  | DlStart =>
      match get_tip_info self net (mkScanner (InProgressScan_new config) 0 []) with
      | (Ok tip, s) =>
          if start_height config >? best_block_height tip
          then after_send (send_out (Ok []) p) p (set_download DlDone)
          else Some (set_download (DlFetch s) p)
      | _ => Some (set_download DlDone p)
      end
  | DlFetch s =>
      match fetch_block_range self net s with
      | (Ok (http_blocks, more_blocks), s') =>
          match send_raw http_blocks p with
          | Sent p' => Some (set_download (if more_blocks : bool then DlFetch s' else DlFinish) p')
          | Waits => None
          | Closed => Some (set_download DlDone p)
          end
      | (Err e, _) => after_send (send_out (Err e) p) p (set_download DlDone)
      | (Panic _, _) => Some (set_download DlDone p)
      end
  | DlFinish => after_send (send_out (Ok []) p) p (set_download DlDone)
  | DlDone => None
  end.

Definition download_running (p : Pipeline) : bool := match download p with DlDone => false | _ => true end.

Definition take_page (page : list BlockUtxoInfo) (rest : list (list BlockUtxoInfo)) (p : Pipeline) : Pipeline :=
  mkPipeline (download p) (PrPage page) rest (out p) (received p) (reading p) (downloaded p) (processed p).

Definition finish_page (p : Pipeline) : Pipeline :=
  mkPipeline (download p) PrIdle (raw p) (out p) (received p) (reading p) (downloaded p) (S (processed p)).

(** A step of the processing task. *)
Definition process_step (p : Pipeline) : option Pipeline :=
  match process p with
  | PrStart =>
      match pool with
      | Ok _ => Some (set_process PrIdle p)
      | Err e => after_send (send_out (Err (ConfigurationError ("Failed to build thread pool: " +:+ e))) p) p
          (set_process PrDone)
      | Panic _ => Some (set_process PrDone p)
      end
  | PrIdle =>
      match raw p with
      | page :: rest => Some (take_page page rest p)
      | [] => if download_running p then None else Some (set_process PrDone p)
      end
  | PrPage http_blocks =>
      match process_page (processed p) http_blocks with
      | Ok final_results => after_send (send_out (Ok final_results) p) p finish_page
      | Err e => after_send (send_out (Err e) p) p (set_process PrDone)
      | Panic _ => Some (set_process PrDone p)
      end
  | PrDone => None
  end.

(** The reader is the scan loop: it stops at an empty message and at an error. *)
Definition keeps_reading (m : Message) : bool := match m with Ok (_ :: _) => true | _ => false end.

Definition read_step (p : Pipeline) : option Pipeline :=
  if reading p then
    match out p with
    | m :: rest => Some (mkPipeline (download p) (process p) (raw p) rest (received p ++ [m])
        (keeps_reading m) (downloaded p) (processed p))
    | [] => None
    end
  else None.

(** ** The interleavings *)
Definition pipeline_start : Pipeline := mkPipeline DlStart PrStart [] [] [] true [] 0.

Inductive pipe_step (config : ScanConfig) : Pipeline -> Pipeline -> Prop :=
| ps_download p p' : download_step config p = Some p' -> pipe_step config p p'
| ps_process p p' : process_step p = Some p' -> pipe_step config p p'
| ps_read p p' : read_step p = Some p' -> pipe_step config p p'.

Definition reachable_pipeline (config : ScanConfig) (p : Pipeline) : Prop :=
  rtc (pipe_step config) pipeline_start p.

(** [scan_blocks]: the streams that the caller may read. *)
Definition scan_blocks_streams (config : ScanConfig) (stream : outcome WalletError (list Message)) : Prop :=
  if start_height_after_end config
  then stream = Err (OperationNotSupported "start_height cannot be greater than end_height")
  else exists p, reachable_pipeline config p /\ stream = Ok (received p).

(** A schedule: which task moves next. *)
Inductive Task := TDownload | TProcess | TRead.

Definition run_task (config : ScanConfig) (t : Task) (p : Pipeline) : option Pipeline :=
  match t with
  | TDownload => download_step config p
  | TProcess => process_step p
  | TRead => read_step p
  end.

Fixpoint run_schedule (config : ScanConfig) (l : list Task) (p : Pipeline) : option Pipeline :=
  match l with
  | [] => Some p
  | t :: l' => p' ← run_task config t p; run_schedule config l' p'
  end.

End Pipeline.

(** ** A concrete base node

    Three blocks from height 10 on, the second with an output of key ["km"], served in
    pages of two; the node misses its first request. *)
Module ScanDemo.
Import Demo.

Definition minimal (h : string) : MinimalUtxoSyncInfo := mkMinimalUtxo h "km" "sealed" "sender".
Definition block_a : BlockUtxoInfo := mkBlockUtxoInfo [] [] 10 "a" 900.
Definition block_b : BlockUtxoInfo := mkBlockUtxoInfo [minimal "h1"] ["h0"] 11 "b" 901.
Definition block_c : BlockUtxoInfo := mkBlockUtxoInfo [] [] 12 "c" 902.
Definition full_output : output := mkOutput 7 "h1" false false "sealed" None None.

(** Keys are texts, and a key recovers the outputs with its commitment. *)
#[export] Instance scanning_ext : ScanningExt ext := {
  KeyManager := string;
  Commitment := string;
  EncryptedData := string;
  PublicKey := string;
  KeyId := string;
  MemoField := string;
  FullOutput := output;
  commitment_from_canonical_bytes := Ok;
  encrypted_data_from_bytes := Ok;
  public_key_from_canonical_bytes := Ok;
  fo_encrypted_data := d_memo;
  fo_commitment := d_hash;
  fo_sender_offset_public_key := d_hash;
  fo_hash := d_hash;
  try_output_key_recovery := fun km c e k => Ok (if String.eqb km c then Some (km, 7, "memo") else None);
  new_imported := fun v k m o km => Some o;
  fixed_hash_error_text := "Invalid hash length";
}.

(** The bodies are names of the values they stand for. *)
#[export] Instance scan_json : ScanJson ext scanning_ext := {
  sync_of_json := fun s =>
    if String.eqb s "page0" then Ok (mkSyncResponse [block_a; block_b] true "")
    else if String.eqb s "page1" then Ok (mkSyncResponse [block_c] false "")
    else if String.eqb s "all" then Ok (mkSyncResponse [block_a; block_b; block_c] false "")
    else Err "expected value";
  utxos_of_json := fun s => if String.eqb s "utxos" then Ok [full_output] else Err "expected value";
  tip_of_json := fun s => if String.eqb s "tip" then Ok (mkTipInfo 12 "c" "1" 0 902) else Err "expected value";
  header_of_json := fun s =>
    if String.eqb s "header" then Ok (mkBlockHeaderInfo 10 "a" 900) else Err "expected value";
}.

Definition answer_with (body : string) : option (outcome string HttpResponse) :=
  Some (Ok (mkHttpResponse 200 "200 OK" (Ok body))).
Definition server_error : option (outcome string HttpResponse) :=
  Some (Ok (mkHttpResponse 500 "500 Internal Server Error" (Ok ""))).

Definition net (n : nat) (req : Request) : option (outcome string HttpResponse) :=
  match n, req with
  | O, _ => None
  | _, GetTipInfo => answer_with "tip"
  | _, GetHeaderByHeight h =>
      if h =? 10 then answer_with "header" else Some (Ok (mkHttpResponse 404 "404 Not Found" (Ok "")))
  | _, SyncUtxosByBlock h limit page _ =>
      if String.eqb h "a" && (limit =? 2) then
        if page =? 0 then answer_with "page0" else if page =? 1 then answer_with "page1" else server_error
      else if String.eqb h "a" && (limit =? 50) then answer_with "all"
      else server_error
  | _, GetUtxosByBlock _ => answer_with "utxos"
  end.

Definition block_net (page : nat) (hash : string) : Net := net.

Definition config : ScanConfig := with_batch_size 2 (with_start_height 10 ScanConfig_default).
Definition scanner_config : HttpConfig := mkHttpConfig ["other"; "km"] 3 2.

(** Blocks finish in the opposite order. *)
#[export] Instance backwards : Completion := {
  completion := fun _ _ A l => rev l;
}.

#[export] Instance backwards_laws : CompletionLaws backwards.
Proof. constructor. intros. cbn. symmetry. apply Permutation_rev. Qed.

Definition run (l : list Task) : option Pipeline :=
  run_schedule scanner_config net block_net (Ok tt) config l pipeline_start.

(** The heights and the outputs of the blocks of each message that was read. *)
Definition read_by (p : option Pipeline) : list (list (Z * nat)) :=
  match p with
  | Some p => map (fun m => match m with
      | Ok l => map (fun b => (blk_height b, length (wallet_outputs b))) l
      | _ => [(-1, 0%nat)]
      end) (received p)
  | None => []
  end.

(** The whole chain arrives when the processing keeps up with the download. *)
Definition keeping_up : list Task :=
  [TProcess; TDownload; TDownload; TProcess; TProcess; TRead; TDownload; TProcess; TProcess; TRead;
   TDownload; TRead; TProcess].

Example keeps_up : read_by (run keeping_up) = [[(10, 0%nat); (11, 1%nat)]; [(12, 0%nat)]; []].
Proof. vm_compute. reflexivity. Qed.

(** Nothing arrives when the download ends first. *)
Definition overtaking : list Task := [TProcess; TDownload; TDownload; TDownload; TDownload; TRead].

Example overtaken : read_by (run overtaking) = [[]].
Proof. vm_compute. reflexivity. Qed.

(** An end height of 10 does not keep the blocks 11 and 12 out of the page. *)
Example page_above_end_height :
  match fetch_block_range scanner_config net
    (mkScanner (InProgressScan_new (mkScanConfig 10 (Some 10) (Some 50) 30 false)) 0 []) with
  | (Ok (blocks, more), _) => map bu_height blocks = [10; 11; 12] /\ more = false
  | _ => False
  end.
Proof. vm_compute. split; reflexivity. Qed.

End ScanDemo.
