(* ===== verification/Burn.v ===== *)
(** * Burning funds ([minotari/src/transactions/burn/mod.rs],
    [tasks/burn_proof_worker.rs], [api/accounts/burn.rs], [commands/burn.rs])

    A burn locks funds, builds a transaction with a burn output, stores a partial
    proof, and broadcasts; a worker later asks the base node for the merkle proof of the
    kernel, writes the complete proof to a file and marks the record. *)
From S2P Require Import Prelude Models DisplayTypes External Schema OutputsDb PendingDb CompletedDb.
From S2P Require Import BurnProofsDb InputSelector FundLocker Monitor.
From stdpp Require Import gmap.
#[local] Open Scope Z_scope.

Inductive BurnError :=
| BurnLock (e : LockError)
| BurnDb (e : WalletDbError)
| BurnMsg (msg : string).

Definition BurnM (A : Type) : Type := M Db BurnError A.

(** A kernel of the built transaction, with the parts of its signature. *)
Record BurnKernel := mkBurnKernel {
  k_is_burned : bool;
  k_excess : string;
  k_nonce : string;
  k_sig : string;
  k_fee : Z;
  k_lock_height : Z;
}.

(** What the transaction library and the key manager make of a burn. *)
Class BurnExt {X : Ext} {C : TxClient} := {
  PublicKey : Type;
  PrivateKey : Type;
  BurnMemo : Type;
  BurnKeys : Type;
  BurnOutput : Type;
  public_key_hex : PublicKey -> string;
  (** [account.get_address] and [account.get_key_manager]. *)
  burn_sender_address : AccountRow -> outcome string string;
  burn_key_manager : AccountRow -> outcome string unit;
  (** The commitment mask and sender offset keys. *)
  next_burn_keys : outcome string BurnKeys;
  sender_offset_key_bytes : BurnKeys -> string;
  (** [MemoField::new_open_from_string(s, TxType::Burn)], and the empty default. *)
  memo_from_string : string -> outcome string BurnMemo;
  memo_default : BurnMemo;
  (** The output builder, with the claim and side-chain keys, the amount and the memo. *)
  build_burn_output : BurnKeys -> option PublicKey -> option PrivateKey -> Z -> BurnMemo -> outcome string BurnOutput;
  burn_output_hash : BurnOutput -> string;
  burn_output_commitment : BurnOutput -> string;
  (** The transaction builder: fee per gram, inputs, memo, recipient address and the burn
      output, built and signed; with the encrypted data of its first sent output. *)
  build_burn_transaction : Z -> list WalletOutput -> BurnMemo -> string -> BurnOutput -> BurnKeys ->
    outcome string (Transaction * Z * option string);
  burn_kernels : Transaction -> list BurnKernel;
  (** [generate_burn_claim_signature]: public nonce and signature. *)
  burn_claim_signature : BurnKeys -> Z -> PublicKey -> outcome string (string * string);
}.

Section Create.
Context {X : Ext} {SE : SelectionExt} {C : TxClient} {BX : BurnExt}.

Record BurnTxParams := mkBurnTxParams {
  bt_account_id : Z;
  bt_amount : Z;
  bt_claim_public_key : option PublicKey;
  bt_sidechain_deployment_key : option PrivateKey;
  bt_fee_per_gram : Z;
  bt_payment_id : option string;
  bt_idempotency_key : option string;
  bt_seconds_to_lock : Z;
  bt_confirmation_window : Z;
}.

Record BurnTxResult := mkBurnTxResult {
  br_transaction : Transaction;
  br_output_hash : string;
  br_new_burn_proof : NewBurnProof;
  br_tx_id : Z;
}.

Definition burn_error_to_string (e : BurnError) : string :=
  match e with
  | BurnLock e => lock_error_to_string e
  | BurnDb e => db_error_to_string e
  | BurnMsg msg => msg
  end.

Definition burn_msg {A} (r : outcome string A) : BurnM A := lift (outcome_map_err BurnMsg r).

Definition burn_kernel (tx : Transaction) : option BurnKernel := List.find k_is_burned (burn_kernels tx).

(** A payment id that does not fit gives an empty memo. *)
Definition burn_memo (payment_id : option string) : BurnMemo :=
  let empty := result_or memo_default (memo_from_string "") in
  match payment_id with
  | Some s => result_or empty (memo_from_string s)
  | None => empty
  end.

Definition new_burn_proof_of (params : BurnTxParams) (cpk : PublicKey) (keys : BurnKeys) (output : BurnOutput)
    (signature : string * string) (kernel : BurnKernel) (encrypted_data : option string) : NewBurnProof := {|
  nb_account_id := bt_account_id params;
  nb_output_hash := burn_output_hash output;
  nb_commitment := burn_output_commitment output;
  nb_claim_public_key := public_key_hex cpk;
  nb_ownership_proof_nonce := fst signature;
  nb_ownership_proof_sig := snd signature;
  nb_kernel_excess := k_excess kernel;
  nb_kernel_excess_nonce := k_nonce kernel;
  nb_kernel_excess_sig := k_sig kernel;
  nb_sender_offset_public_key := sender_offset_key_bytes keys;
  nb_encrypted_data := default "" encrypted_data;
  nb_value := bt_amount params;
  nb_kernel_fee := k_fee kernel;
  nb_kernel_lock_height := k_lock_height kernel;
|}.

(** What follows the lock: nothing of it touches the database. *)
Definition build_burn (account : AccountRow) (params : BurnTxParams) (sender : string)
    (utxos : list WalletOutput) : outcome string BurnTxResult :=
  outcome_bind (burn_key_manager account) (fun _ =>
  outcome_bind next_burn_keys (fun keys =>
  let memo := burn_memo (bt_payment_id params) in
  outcome_bind (build_burn_output keys (bt_claim_public_key params) (bt_sidechain_deployment_key params)
    (bt_amount params) memo) (fun burn_output =>
  outcome_bind (build_burn_transaction (bt_fee_per_gram params) utxos memo sender burn_output keys)
    (fun '(transaction, tx_id, encrypted_data) =>
  match bt_claim_public_key params with
  | None => Err "claim_public_key is required to generate a burn proof"
  | Some cpk =>
      outcome_bind (burn_claim_signature keys (bt_amount params) cpk) (fun ownership_proof =>
      outcome_bind (ok_or (burn_kernel transaction) "No burn kernel found in transaction") (fun kernel =>
      Ok (mkBurnTxResult transaction (burn_output_hash burn_output)
        (new_burn_proof_of params cpk keys burn_output ownership_proof kernel encrypted_data) tx_id)))
  end)))).

(** [uuid] and [uuid_key] are the fresh ids of [FundLocker::lock]. *)
Definition create_burn_tx (uuid uuid_key : string) (account : AccountRow) (params : BurnTxParams) :
    BurnM BurnTxResult :=
  let! sender_address := burn_msg (burn_sender_address account) in
  let! locked_funds := map_err BurnLock (lock uuid uuid_key (a_id account) (bt_amount params) 1
    (bt_fee_per_gram params) None (bt_idempotency_key params) (bt_seconds_to_lock params)
    (bt_confirmation_window params)) in
  burn_msg (build_burn account params sender_address (lf_utxos locked_funds)).

(** ** Records *)

(** The pending transaction of the key, if there is one, becomes completed; the failures of
    these statements are dropped. *)
Definition complete_pending_burn (result : BurnTxResult) (account_id : Z) (idempotency_key : string) : BurnM unit :=
  let kernel_excess := match burn_kernel (br_transaction result) with Some k => k_excess k | None => "" end in
  let! serialized_tx := burn_msg (outcome_map_err (fun e => "Failed to serialize transaction: " +:+ e)
    (transaction_to_json (br_transaction result))) in
  let sent_output_hash := Some (hex_encode (br_output_hash result)) in
  let! found := attempt (map_err BurnDb
    (find_pending_transaction_by_idempotency_key idempotency_key account_id)) in
  match found with
  | Ok (Some pending_tx) =>
      attempt (map_err BurnDb
        (update_pending_transaction_status (pt_id pending_tx) PendingTransactionStatus.Completed)) ;;;
      attempt (map_err BurnDb
        (create_completed_transaction account_id (pt_id pending_tx) kernel_excess serialized_tx
          sent_output_hash (br_tx_id result))) ;;;
      ret tt
  | _ => ret tt
  end.

(** The burn proof comes first. *)
Definition persist_burn_records (result : BurnTxResult) (account_id : Z) (idempotency_key : string) : BurnM unit :=
  map_err (fun e => BurnMsg ("Failed to insert burn proof: " +:+ db_error_to_string e))
    (insert_burn_proof (br_new_burn_proof result)) ;;;
  complete_pending_burn result account_id idempotency_key.

(** ** The handlers: [api_burn_funds] and [handle_burn_funds] after their arguments are parsed

    [client] is the creation of the HTTP client for the node's address. *)
Definition broadcast_burn (result : BurnTxResult) (client : outcome string unit) : BurnM (Z * string) :=
  burn_msg client ;;;
  let! response := burn_msg (outcome_map_err (fun e => "Broadcast failed: " +:+ e)
    (submit_transaction (br_transaction result))) in
  if accepted response then
    map_err BurnDb (mark_completed_transaction_as_broadcasted (br_tx_id result) 1) ;;;
    ret (br_tx_id result, br_output_hash result)
  else throw (BurnMsg ("Transaction rejected: " +:+ reason_to_string (rejection_reason response))).

Definition burn_funds (uuid uuid_key idempotency_key : string) (account : AccountRow) (params : BurnTxParams)
    (client : outcome string unit) : BurnM (Z * string) :=
  let! result := create_burn_tx uuid uuid_key account params in
  persist_burn_records result (a_id account) idempotency_key ;;;
  broadcast_burn result client.

End Create.

(** ** The worker *)

(** [GenerateKernelMerkleProofResponse]. *)
Record MerkleResponse := mkMerkleResponse {
  mr_block_hash : string;
  mr_encoded_merkle_proof : string;
  mr_leaf_index : Z;
}.

(** The curve points and scalars, the node, and the file system. *)
Class WorkerExt := {
  Point : Type;
  Scalar : Type;
  point_from_bytes : string -> outcome string Point;
  scalar_from_bytes : string -> outcome string Scalar;
  worker_hex_decode : string -> outcome string string;
  kernel_merkle_proof : string -> string -> outcome string MerkleResponse;
}.

Section Worker.
Context {X : Ext} {W : WorkerExt}.

Record CompleteClaimBurnProof := mkCompleteProof {
  burn_public_key : Point;
  cp_commitment : Point;
  ownership_proof : Point * Scalar;
  encoded_merkle_proof : MerkleResponse;
  kernel_version : Z;
  cp_fee : Z;
  lock_height : Z;
  excess : Point;
  excess_sig : Point * Scalar;
  cp_value : Z;
  cp_sender_offset_public_key : Point;
  cp_encrypted_data : string;
}.

Definition invalid {A} (field : string) (r : outcome string A) : outcome string A :=
  outcome_map_err (fun e => "Invalid " +:+ field +:+ ": " +:+ e) r.

Definition assemble_complete_proof (proof : BurnProofRow) (merkle : MerkleResponse) :
    outcome string CompleteClaimBurnProof :=
  outcome_bind (invalid "sender_offset_public_key" (point_from_bytes (bp_sender_offset_public_key proof)))
    (fun sender_offset_public_key =>
  outcome_bind (invalid "commitment" (point_from_bytes (bp_commitment proof))) (fun commitment =>
  outcome_bind (invalid "ownership_proof_nonce" (point_from_bytes (bp_ownership_proof_nonce proof))) (fun nonce =>
  outcome_bind (invalid "ownership_proof_sig" (scalar_from_bytes (bp_ownership_proof_sig proof))) (fun sig_scalar =>
  outcome_bind (invalid "kernel_excess" (point_from_bytes (bp_kernel_excess proof))) (fun excess_commitment =>
  outcome_bind (invalid "kernel_excess_nonce" (point_from_bytes (bp_kernel_excess_nonce proof))) (fun excess_nonce =>
  outcome_bind (invalid "kernel_excess_sig" (scalar_from_bytes (bp_kernel_excess_sig proof)))
    (fun excess_sig_scalar =>
  outcome_bind (invalid "claim_public_key hex" (worker_hex_decode (bp_claim_public_key proof))) (fun claim =>
  outcome_bind (invalid "claim_public_key" (point_from_bytes claim)) (fun burn_public_key =>
  Ok {| burn_public_key := burn_public_key;
        cp_commitment := commitment;
        ownership_proof := (nonce, sig_scalar);
        encoded_merkle_proof := merkle;
        kernel_version := 0;
        cp_fee := as_u64 (bp_kernel_fee proof);
        lock_height := as_u64 (bp_kernel_lock_height proof);
        excess := excess_commitment;
        excess_sig := (excess_nonce, excess_sig_scalar);
        cp_value := as_u64 (bp_value proof);
        cp_sender_offset_public_key := sender_offset_public_key;
        cp_encrypted_data := bp_encrypted_data proof |}))))))))).

(** The files of the proofs directory next to the database. *)
Definition Files : Type := gmap string string.
Definition WkM (A : Type) : Type := M (Files * Db) string A.

(** [create_dir_all], [to_vec_pretty] and [fs::write]: a failed write leaves what
    [torn] says of the file. *)
Context (create_dir_all : outcome string unit) (to_vec_pretty : CompleteClaimBurnProof -> outcome string string).
Context (write : string -> string -> outcome string unit) (torn : string -> string -> option string).

Definition worker_db {A} (m : DbM A) : WkM A := fun s =>
  let '(r, d) := m (snd s) in (outcome_map_err db_error_to_string r, (fst s, d)).

Definition proof_file_name (claim_public_key_hex commitment : string) : string :=
  claim_public_key_hex +:+ "-" +:+ hex_encode commitment +:+ ".json".

Definition fs_write (path contents : string) : WkM unit := fun s =>
  match write path contents with
  | Ok _ => (Ok tt, (<[path := contents]> (fst s), snd s))
  | Err e => (Err e, (partial_alter (fun _ => torn path contents) path (fst s), snd s))
  | Panic m => (Panic m, s)
  end.

Definition write_proof_file (claim_public_key_hex commitment : string) (proof : CompleteClaimBurnProof) : WkM unit :=
  lift create_dir_all ;;;
  let! json := lift (to_vec_pretty proof) in
  fs_write (proof_file_name claim_public_key_hex commitment) json.

Definition process_single_proof (proof : BurnProofRow) : WkM unit :=
  let! merkle_response := lift (kernel_merkle_proof (bp_kernel_excess_nonce proof) (bp_kernel_excess_sig proof)) in
  let! complete_proof := lift (assemble_complete_proof proof merkle_response) in
  write_proof_file (bp_claim_public_key proof) (bp_commitment proof) complete_proof ;;;
  worker_db (mark_burn_proof_complete (bp_id proof)).

(** A proof that fails is tried again in the next cycle. *)
Definition process_pending_proofs : WkM unit :=
  let! pending := worker_db get_pending_burn_proofs in
  for_each (fun proof => attempt (process_single_proof proof) ;;; ret tt) pending.

End Worker.
