(* ===== verification/ValidatorNode.v ===== *)
(** * Validator node transactions ([minotari/src/transactions/validator_node/],
    [commands/validator_nodes.rs])

    A registration, an exit or an eviction locks the deposit, pays it back to the wallet
    in an output with the features of the operation, and is signed, recorded and
    broadcast.  The signatures, the features and the transactions belong to the Tari
    libraries. *)
From S2P Require Import Prelude Models DisplayTypes External Schema AccountsDb Crypto OutputsDb PendingDb CompletedDb.
From S2P Require Import InputSelector FundLocker Monitor.
#[local] Open Scope Z_scope.

(** A transaction after [sign_locked_transaction]; the excess is that of its first kernel. *)
Record VnSigned {C : TxClient} := mkVnSigned {
  vs_transaction : Transaction;
  vs_tx_id : Z;
  vs_kernel_excess : option string;
  vs_sent_hashes : list string;
}.

Class VnExt {X : Ext} {C : TxClient} {W : WalletExt} := {
  VnPublicKey : Type;
  VnPrivateKey : Type;
  VnSignature : Type;
  VnFeatures : Type;
  EvictionProof : Type;
  VnMemo : Type;
  VnBuilder : Type;
  VnUnsigned : Type;
  vn_hex_decode : string -> outcome string string;
  vn_public_key_of_bytes : string -> outcome string VnPublicKey;
  vn_private_key_of_bytes : string -> outcome string VnPrivateKey;
  (** [CompressedSignature::new] of a nonce and a scalar. *)
  vn_signature : VnPublicKey -> VnPrivateKey -> VnSignature;
  vn_public_key_of : VnPrivateKey -> VnPublicKey;
  (** Of the node's key and signature: side chain, claim key and last epoch. *)
  is_valid_registration_signature_for : VnPublicKey -> VnSignature -> option VnPublicKey -> VnPublicKey -> Z -> bool;
  is_valid_exit_signature_for : VnPublicKey -> VnSignature -> option VnPublicKey -> Z -> bool;
  for_validator_node_registration : VnPublicKey -> VnSignature -> VnPublicKey -> option VnPrivateKey -> Z -> VnFeatures;
  for_validator_node_exit : VnPublicKey -> VnSignature -> option VnPrivateKey -> Z -> VnFeatures;
  for_validator_node_eviction : EvictionProof -> option VnPrivateKey -> VnFeatures;
  eviction_of_json : string -> outcome string EvictionProof;
  validator_node_registration_min_deposit_amount : Z;
  vn_memo_open : string -> outcome string VnMemo;
  vn_memo_default : VnMemo;
  (** The builder with the fee and the inputs, for the account's keys. *)
  vn_builder : AccountKeys -> Z -> list WalletOutput -> outcome string VnBuilder;
  (** [prepare_one_sided_transaction_for_signing] of one recipient (amount, features and
      address), the memo and the sender. *)
  vn_prepare : VnBuilder -> Z -> VnFeatures -> TariAddress -> VnMemo -> TariAddress -> outcome string VnUnsigned;
  vn_sign : AccountKeys -> VnUnsigned -> outcome string VnSigned;
}.

Section ValidatorNode.
Context {X : Ext} {SE : SelectionExt} {C : TxClient} {CE : CryptoExt} {W : WalletExt} {V : VnExt}.

(** The errors of [anyhow] are their texts. *)
Definition VnM (A : Type) : Type := M Db string A.

Definition vn_account {A} (r : outcome WalletDbError A) : VnM A := lift (outcome_map_err db_error_to_string r).
Definition vn_db {A} (m : DbM A) : VnM A := map_err db_error_to_string m.

(** ** The transaction ([common.rs]) *)

(** What follows the lock: nothing of it touches the database. *)
Definition pay_to_self (account : AccountRow) (password : string) (output_features : VnFeatures) (fee_per_gram : Z)
    (payment_id : option string) (sender_address : TariAddress) (utxos : list WalletOutput) :
    outcome string VnUnsigned :=
  let deposit_amount := validator_node_registration_min_deposit_amount in
  outcome_bind (outcome_map_err db_error_to_string (get_key_manager account password)) (fun key_manager =>
  outcome_bind (vn_builder key_manager fee_per_gram utxos) (fun tx_builder =>
  let memo := match payment_id with
    | Some s => result_or vn_memo_default (vn_memo_open s)
    | None => vn_memo_default
    end in
  vn_prepare tx_builder deposit_amount output_features sender_address memo sender_address)).

Definition build_vn_pay_to_self_tx (uuid uuid_key : string) (account : AccountRow) (password : string)
    (output_features : VnFeatures) (fee_per_gram : Z) (payment_id idempotency_key : option string)
    (seconds_to_lock confirmation_window : Z) : VnM VnUnsigned :=
  let deposit_amount := validator_node_registration_min_deposit_amount in
  let! sender_address := vn_account (get_address account password) in
  let! locked_funds := map_err lock_error_to_string (lock uuid uuid_key (a_id account) deposit_amount 1 fee_per_gram
    None idempotency_key seconds_to_lock confirmation_window) in
  lift (pay_to_self account password output_features fee_per_gram payment_id sender_address (lf_utxos locked_funds)).

(** ** The operations ([registration.rs], [exit.rs], [eviction.rs]) *)
Record ValidatorNodeRegistrationParams := mkRegistration {
  vr_public_key : VnPublicKey;
  vr_signature : VnSignature;
  vr_claim_public_key : VnPublicKey;
  vr_max_epoch : Z;
  vr_fee_per_gram : Z;
  vr_payment_id : option string;
  vr_sidechain_deployment_key : option VnPrivateKey;
}.

Record ValidatorNodeExitParams := mkExit {
  vx_public_key : VnPublicKey;
  vx_signature : VnSignature;
  vx_max_epoch : Z;
  vx_fee_per_gram : Z;
  vx_payment_id : option string;
  vx_sidechain_deployment_key : option VnPrivateKey;
}.

Record ValidatorNodeEvictionParams := mkEviction {
  ve_eviction_proof : EvictionProof;
  ve_fee_per_gram : Z;
  ve_payment_id : option string;
  ve_sidechain_deployment_key : option VnPrivateKey;
}.

(** [matches!(wallet_type, WalletType::SeedWords(_))]. *)
Definition is_seed_words (w : WalletType) : bool := match cipher_seed w with Some _ => true | None => false end.

Definition require_seed_words (account : AccountRow) (password operation : string) : VnM unit :=
  let! wallet_type := vn_account (decrypt_wallet_type account password) in
  if is_seed_words wallet_type then ret tt
  else throw ("Validator node " +:+ operation +:+ " requires a SeedWords wallet, not a view-only wallet").

Definition create_validator_node_registration_tx (params : ValidatorNodeRegistrationParams) (uuid uuid_key : string)
    (account : AccountRow) (password : string) (idempotency_key : option string) (seconds window : Z) : VnM VnUnsigned :=
  require_seed_words account password "registration" ;;;
  let sidechain_pk := vn_public_key_of <$> vr_sidechain_deployment_key params in
  if negb (is_valid_registration_signature_for (vr_public_key params) (vr_signature params) sidechain_pk
    (vr_claim_public_key params) (vr_max_epoch params))
  then throw "Invalid validator node registration signature"
  else
    let output_features := for_validator_node_registration (vr_public_key params) (vr_signature params)
      (vr_claim_public_key params) (vr_sidechain_deployment_key params) (vr_max_epoch params) in
    build_vn_pay_to_self_tx uuid uuid_key account password output_features (vr_fee_per_gram params)
      (vr_payment_id params) idempotency_key seconds window.

Definition create_validator_node_exit_tx (params : ValidatorNodeExitParams) (uuid uuid_key : string)
    (account : AccountRow) (password : string) (idempotency_key : option string) (seconds window : Z) : VnM VnUnsigned :=
  require_seed_words account password "exit" ;;;
  let sidechain_pk := vn_public_key_of <$> vx_sidechain_deployment_key params in
  if negb (is_valid_exit_signature_for (vx_public_key params) (vx_signature params) sidechain_pk (vx_max_epoch params))
  then throw "Invalid validator node exit signature"
  else
    let output_features := for_validator_node_exit (vx_public_key params) (vx_signature params)
      (vx_sidechain_deployment_key params) (vx_max_epoch params) in
    build_vn_pay_to_self_tx uuid uuid_key account password output_features (vx_fee_per_gram params)
      (vx_payment_id params) idempotency_key seconds window.

Definition create_validator_node_eviction_tx (params : ValidatorNodeEvictionParams) (uuid uuid_key : string)
    (account : AccountRow) (password : string) (idempotency_key : option string) (seconds window : Z) : VnM VnUnsigned :=
  require_seed_words account password "eviction" ;;;
  let output_features := for_validator_node_eviction (ve_eviction_proof params) (ve_sidechain_deployment_key params) in
  build_vn_pay_to_self_tx uuid uuid_key account password output_features (ve_fee_per_gram params)
    (ve_payment_id params) idempotency_key seconds window.

(** ** Parsing ([commands/validator_nodes.rs]) *)
Definition parse_compressed_public_key (hex_str field_name : string) : outcome string VnPublicKey :=
  outcome_bind (outcome_map_err (fun e => "Invalid " +:+ field_name +:+ " hex: " +:+ e) (vn_hex_decode hex_str))
    (fun bytes => outcome_map_err (fun e => "Invalid " +:+ field_name +:+ ": " +:+ e) (vn_public_key_of_bytes bytes)).

Definition parse_vn_signature (pk_hex nonce_hex sig_hex : string) : outcome string (VnPublicKey * VnSignature) :=
  outcome_bind (parse_compressed_public_key pk_hex "vn-public-key") (fun vn_public_key =>
  outcome_bind (parse_compressed_public_key nonce_hex "vn-sig-nonce") (fun nonce =>
  outcome_bind (outcome_map_err (fun e => "Invalid vn-sig hex: " +:+ e) (vn_hex_decode sig_hex)) (fun sig_bytes =>
  outcome_bind (outcome_map_err (fun e => "Invalid vn-sig scalar: " +:+ e) (vn_private_key_of_bytes sig_bytes))
    (fun sig_scalar => Ok (vn_public_key, vn_signature nonce sig_scalar))))).

Definition parse_sidechain_deployment_key (key : option string) : outcome string (option VnPrivateKey) :=
  match key with
  | None => Ok None
  | Some k =>
      outcome_bind (outcome_map_err (fun e => "Invalid sidechain-deployment-key hex: " +:+ e) (vn_hex_decode k))
        (fun bytes =>
      outcome_bind (outcome_map_err (fun e => "Invalid sidechain-deployment-key: " +:+ e) (vn_private_key_of_bytes bytes))
        (fun k => Ok (Some k)))
  end.

(** ** Signing, recording and broadcasting *)

(** The pending transaction of the key, if there still is one, becomes completed. *)
Definition save_vn_tx (signed : VnSigned) (account : AccountRow) (idempotency_key : string) : VnM unit :=
  let kernel_excess := default "" (vs_kernel_excess signed) in
  let! serialized_tx := lift (outcome_map_err (fun e => "Failed to serialize transaction: " +:+ e)
    (transaction_to_json (vs_transaction signed))) in
  let sent_output_hash := hex_encode <$> head (vs_sent_hashes signed) in
  let! pending := vn_db (find_pending_transaction_by_idempotency_key idempotency_key (a_id account)) in
  match pending with
  | Some pending_tx =>
      vn_db (update_pending_transaction_status (pt_id pending_tx) PendingTransactionStatus.Completed) ;;;
      vn_db (create_completed_transaction (a_id account) (pt_id pending_tx) kernel_excess serialized_tx
        sent_output_hash (vs_tx_id signed))
  | None => ret tt
  end.

(** [client] is the parsing of the node's address and the creation of the client. *)
Definition broadcast_vn_tx (signed : VnSigned) (client : outcome string unit) : VnM unit :=
  lift client ;;;
  let! r := lift (outcome_map_err (fun e => "Broadcast failed: " +:+ e) (submit_transaction (vs_transaction signed))) in
  if accepted r then vn_db (mark_completed_transaction_as_broadcasted (vs_tx_id signed) 1)
  else throw ("Transaction rejected by network: " +:+ reason_to_string (rejection_reason r)).

Definition sign_save_and_broadcast (unsigned : VnUnsigned) (account : AccountRow) (password idempotency_key : string)
    (client : outcome string unit) (tx_kind : string) : VnM unit :=
  let! key_manager := vn_account (get_key_manager account password) in
  let! signed := lift (outcome_map_err (fun e => "Failed to sign " +:+ tx_kind +:+ " transaction: " +:+ e)
    (vn_sign key_manager unsigned)) in
  save_vn_tx signed account idempotency_key ;;;
  broadcast_vn_tx signed client.

(** ** The commands *)

(** What a command is started with; [db] is the opening of the database and the request for
    a connection, [new_key] a fresh UUID for the idempotency key. *)
Record VnCommand := mkVnCommand {
  vc_db : outcome string unit;
  vc_account_name : string;
  vc_password : string;
  vc_idempotency_key : option string;
  vc_new_key : string;
  vc_seconds_to_lock : Z;
  vc_confirmation_window : Z;
  vc_client : outcome string unit;
}.

Definition run_vn_command (c : VnCommand) (tx_kind : string)
    (create_tx : AccountRow -> string -> option string -> Z -> Z -> VnM VnUnsigned) : VnM unit :=
  let idempotency_key := default (vc_new_key c) (vc_idempotency_key c) in
  lift (vc_db c) ;;;
  let! account := vn_db (get_account_by_name (vc_account_name c)) in
  let! account := lift (ok_or account ("Account not found: " +:+ vc_account_name c)) in
  let! unsigned_result := create_tx account (vc_password c) (Some idempotency_key) (vc_seconds_to_lock c)
    (vc_confirmation_window c) in
  sign_save_and_broadcast unsigned_result account (vc_password c) idempotency_key (vc_client c) tx_kind.

Definition handle_register_validator_node (uuid uuid_key : string)
    (vn_public_key vn_sig_nonce vn_sig claim_public_key : string)
    (max_epoch fee_per_gram : Z) (payment_id sidechain_deployment_key : option string) (c : VnCommand) : VnM unit :=
  let! (pk, sig) := lift (parse_vn_signature vn_public_key vn_sig_nonce vn_sig) in
  let! claim := lift (parse_compressed_public_key claim_public_key "claim-public-key") in
  let! sidechain := lift (parse_sidechain_deployment_key sidechain_deployment_key) in
  run_vn_command c "VN registration" (create_validator_node_registration_tx
    (mkRegistration pk sig claim max_epoch fee_per_gram payment_id sidechain) uuid uuid_key).

Definition handle_submit_validator_node_exit (uuid uuid_key : string) (vn_public_key vn_sig_nonce vn_sig : string)
    (max_epoch fee_per_gram : Z) (payment_id sidechain_deployment_key : option string) (c : VnCommand) : VnM unit :=
  let! (pk, sig) := lift (parse_vn_signature vn_public_key vn_sig_nonce vn_sig) in
  let! sidechain := lift (parse_sidechain_deployment_key sidechain_deployment_key) in
  run_vn_command c "VN exit" (create_validator_node_exit_tx
    (mkExit pk sig max_epoch fee_per_gram payment_id sidechain) uuid uuid_key).

(** [file] is the result of reading the proof file at [path]. *)
Definition handle_submit_validator_eviction_proof (uuid uuid_key : string) (path : string) (file : outcome string string)
    (fee_per_gram : Z) (payment_id sidechain_deployment_key : option string) (c : VnCommand) : VnM unit :=
  let! proof_json := lift (outcome_map_err (fun e => "Failed to read proof file '" +:+ path +:+ "': " +:+ e) file) in
  let! eviction_proof := lift (outcome_map_err (fun e => "Failed to parse eviction proof JSON: " +:+ e)
    (eviction_of_json proof_json)) in
  let! sidechain := lift (parse_sidechain_deployment_key sidechain_deployment_key) in
  run_vn_command c "VN eviction proof" (create_validator_node_eviction_tx
    (mkEviction eviction_proof fee_per_gram payment_id sidechain) uuid uuid_key).

End ValidatorNode.
