(* ===== verification/HttpClient.v ===== *)
(** * The client of the base node ([minotari/src/http/http_client.rs],
    [wallet_http_client.rs], [error.rs], [types.rs], [utils.rs])

    One request and its answer, with the latency of the last one, and the operations of
    the wallet on top of it.  The transport (with the retries of its middleware), the
    URLs and the JSON codecs are parameters. *)
From S2P Require Import Prelude Models DisplayTypes External InputSelector Monitor Burn.
#[local] Open Scope Z_scope.

(** ** The size of a transaction ([utils.rs]) *)
Definition RPC_MAX_FRAME_SIZE : Z := 4 * 1024 * 1024.
Definition SIZE_MARGIN : Z := 1024 * 10 + 2 * 1024 * 1024.
Definition MAX_TRANSACTION_SIZE : Z := RPC_MAX_FRAME_SIZE - SIZE_MARGIN.

Record TransactionTooLargeError := mkTooLarge {
  got : Z;
  max_allowed : Z;
}.

Definition too_large_to_string (e : TransactionTooLargeError) : string :=
  "Transaction too large: got " +:+ pretty (got e) +:+ " bytes, max allowed is " +:+ pretty (max_allowed e) +:+ " bytes".

Definition check_transaction_size {C : TxClient} (transaction : Transaction) : outcome TransactionTooLargeError unit :=
  outcome_bind (outcome_map_err (fun _ => mkTooLarge 0 MAX_TRANSACTION_SIZE) (transaction_to_json transaction))
    (fun serialized =>
  let size := Z.of_nat (String.length serialized) in
  if MAX_TRANSACTION_SIZE <? size then Err (mkTooLarge size MAX_TRANSACTION_SIZE) else Ok tt).

(** ** Errors ([error.rs]) *)
Inductive HttpError :=
| RequestFailed (e : string)
| MiddlewareError (e : string)
| ServerError (status : Z) (status_text body : string)
| UrlError (e : string)
| UnsupportedMethod
| JsonError (e : string).

Definition http_error_to_string (e : HttpError) : string :=
  match e with
  | RequestFailed e => "Request failed: " +:+ e
  | MiddlewareError e => "Middleware error: " +:+ e
  | ServerError _ status body => "Server error " +:+ status +:+ ": " +:+ body
  | UrlError e => "URL parse error: " +:+ e
  | UnsupportedMethod => "Unsupported HTTP method"
  | JsonError e => "JSON serialization error: " +:+ e
  end.

(** ** Types ([types.rs]) *)
Record JsonRpcResponse (T : Type) := mkJsonRpcResponse {
  jr_result : option T;
  jr_error : option string;
  jr_id : string;
}.
Arguments mkJsonRpcResponse {T}.
Arguments jr_result {T}.
Arguments jr_error {T}.

Record FeePerGramStatResponse := mkFeeStatResponse {
  fr_order : Z;
  fr_min_fee_per_gram : Z;
  fr_avg_fee_per_gram : Z;
  fr_max_fee_per_gram : Z;
}.

(** ** The transport *)
Inductive Method := GET | POST | OtherMethod (name : string).

Record HttpRequest (U : Type) := mkHttpRequest {
  rq_method : Method;
  rq_url : U;
  (** A JSON body, with its content type. *)
  rq_body : option string;
}.
Arguments mkHttpRequest {U}.

Record HttpResponse := mkHttpResponse {
  status : Z;
  status_text : string;
  (** Reading the text of the body. *)
  text : outcome string string;
}.

Class HttpExt (C : TxClient) := {
  Url : Type;
  url_parse : string -> outcome string Url;
  url_join : Url -> string -> outcome string Url;
  url_to_string : Url -> string;
  (** [reqwest::Client::builder().timeout(..).build()]. *)
  build_client : Z -> outcome string unit;
  (** [to_hex]. *)
  to_hex : string -> string;
  Json : Type;
  json_to_string : Json -> outcome string string;
  (** The [json!] object of a submission. *)
  submission_request : Transaction -> Json;
  TipInfoResponse : Type;
  tip_info_of_json : string -> outcome string TipInfoResponse;
  submission_of_json : string -> outcome string (JsonRpcResponse TxSubmissionResponse);
  query_of_json : string -> outcome string TxQueryResponse;
  u64_of_json : string -> outcome string Z;
  merkle_of_json : string -> outcome string MerkleResponse;
  fee_stats_of_json : string -> outcome string (list FeePerGramStatResponse);
}.

(** [StatusCode::is_success]. *)
Definition http_success (s : Z) : bool := (200 <=? s) && (s <? 300).

Definition DEFAULT_TIMEOUT_SECS : Z := 30.
Definition DEFAULT_MAX_RETRIES : Z := 3.

Section Client.
Context {C : TxClient} {H : HttpExt C}.

(** The client; [requests] is what it sent so far, and of the last latency only the
    duration is ever read. *)
Record HttpClient := mkHttpClient {
  hc_base_url : Url;
  hc_max_retries : Z;
  hc_timeout : Z;
  last_latency : option Z;
  requests : list (HttpRequest Url);
}.

(** The answer to a request, after the requests sent before, and the time it took. *)
Context (net : list (HttpRequest Url) -> HttpRequest Url -> outcome string HttpResponse * Z).

Definition with_config (base_url : Url) (max_retries timeout : Z) : outcome string HttpClient :=
  outcome_bind (build_client timeout) (fun _ => Ok (mkHttpClient base_url max_retries timeout None [])).

Definition HttpClient_new (base_url : Url) : outcome string HttpClient :=
  with_config base_url DEFAULT_MAX_RETRIES DEFAULT_TIMEOUT_SECS.

Definition ClientM (A : Type) : Type := M HttpClient HttpError A.

Definition update_latency (duration : Z) : ClientM unit :=
  modify (fun s => mkHttpClient (hc_base_url s) (hc_max_retries s) (hc_timeout s) (Some duration) (requests s)).

Definition get_latency (s : HttpClient) : option Z := last_latency s.

(** [req.send()] and the time it took. *)
Definition send (req : HttpRequest Url) : ClientM (HttpResponse * Z) := fun s =>
  let '(r, elapsed) := net (requests s) req in
  (outcome_map_err MiddlewareError (outcome_bind r (fun resp => Ok (resp, elapsed))),
   mkHttpClient (hc_base_url s) (hc_max_retries s) (hc_timeout s) (last_latency s) (requests s ++ [req])).

Definition build_request (method : Method) (url : Url) (body : option Json) : outcome HttpError (HttpRequest Url) :=
  match method with
  | GET => Ok (mkHttpRequest GET url None)
  | POST =>
      match body with
      | Some body => outcome_bind (outcome_map_err JsonError (json_to_string body)) (fun b =>
          Ok (mkHttpRequest POST url (Some b)))
      | None => Ok (mkHttpRequest POST url None)
      end
  | OtherMethod _ => Err UnsupportedMethod
  end.

Definition send_request {T} (of_json : string -> outcome string T) (method : Method) (path : string)
    (body : option Json) : ClientM T :=
  let! base_url := gets hc_base_url in
  let! url := lift (outcome_map_err UrlError (url_join base_url path)) in
  let! req := lift (build_request method url body) in
  let! (resp, latency) := send req in
  update_latency latency ;;;
  if negb (http_success (status resp)) then
    throw (ServerError (status resp) (status_text resp)
      (match text resp with Ok body => body | _ => "Failed to read response body" end))
  else lift (outcome_map_err RequestFailed (outcome_bind (text resp) of_json)).

(** ** The operations of the wallet ([WalletHttpClient])

    The errors of [anyhow] are their texts. *)
Definition WalletM (A : Type) : Type := M HttpClient string A.

Definition WalletHttpClient_new (base_url : Url) : outcome string HttpClient := HttpClient_new base_url.
Definition WalletHttpClient_with_config (base_url : Url) (max_retries timeout : Z) : outcome string HttpClient :=
  with_config base_url max_retries timeout.

Definition http_get {T} (of_json : string -> outcome string T) (path : string) : WalletM T :=
  map_err http_error_to_string (send_request of_json GET path None).

Definition http_get_address : WalletM string := gets (fun s => url_to_string (hc_base_url s)).
Definition http_get_tip_info : WalletM TipInfoResponse := http_get tip_info_of_json "/get_tip_info".

Definition is_online : WalletM bool := fun s =>
  let '(r, s') := http_get_tip_info s in
  match r with
  | Ok _ => (Ok true, s')
  | Err _ => (Ok false, s')
  | Panic msg => (Panic msg, s')
  end.

Definition get_last_request_latency : WalletM (option Z) := gets get_latency.

Definition http_submit_transaction (transaction : Transaction) : WalletM TxSubmissionResponse :=
  lift (outcome_map_err too_large_to_string (check_transaction_size transaction)) ;;;
  let! response := map_err http_error_to_string
    (send_request submission_of_json POST "/json_rpc" (Some (submission_request transaction))) in
  match jr_result response with
  | Some result => ret result
  | None => throw ("Transaction submission failed: " +:+ default "Unknown error" (jr_error response))
  end.

Definition http_transaction_query (excess_sig_nonce excess_sig : string) : WalletM TxQueryResponse :=
  http_get query_of_json
    ("/transactions?excess_sig_nonce=" +:+ to_hex excess_sig_nonce +:+ "&excess_sig_sig=" +:+ to_hex excess_sig).

Definition http_get_height_at_time (epoch_time : Z) : WalletM Z :=
  http_get u64_of_json ("/get_height_at_time?time=" +:+ pretty epoch_time).

Definition http_get_kernel_merkle_proof (excess_sig_nonce excess_sig : string) : WalletM MerkleResponse :=
  http_get merkle_of_json ("/generate_kernel_merkle_proof?excess_sig_public_nonce=" +:+ to_hex excess_sig_nonce +:+
    "&excess_sig_signature=" +:+ to_hex excess_sig).

Definition http_get_mempool_fee_per_gram_stats (count : Z) : WalletM (list FeePerGramStat) :=
  let! stats := http_get fee_stats_of_json ("/get_mempool_fee_per_gram_stats?count=" +:+ pretty count) in
  ret (map (fun s => mkFeePerGramStat (fr_order s) (fr_min_fee_per_gram s) (fr_avg_fee_per_gram s)
    (fr_max_fee_per_gram s)) stats).

(** The wallet's view of the base node: the client's answers in a state. *)
Definition http_tx_client (s : HttpClient) : TxClient := {|
  Monitor.Transaction := @Transaction C;
  Monitor.transaction_of_json := transaction_of_json;
  Monitor.transaction_to_json := transaction_to_json;
  Monitor.first_kernel := first_kernel;
  Monitor.reason_to_string := reason_to_string;
  Monitor.submit_transaction := fun tx => fst (http_submit_transaction tx s);
  Monitor.transaction_query := fun nonce sig => fst (http_transaction_query nonce sig s);
|}.

(** ** Theorems *)

(** What a request leaves in the log: nothing, or the request itself. *)
Lemma send_request_log {T} (of_json : string -> outcome string T) method path body s r s' :
  send_request of_json method path body s = (r, s') ->
  (requests s' = requests s /\ (forall a, r <> Ok a)) \/
  exists url req, url_join (hc_base_url s) path = Ok url /\ build_request method url body = Ok req /\
    requests s' = requests s ++ [req] /\
    (forall a, r = Ok a -> exists resp txt, fst (net (requests s) req) = Ok resp /\ http_success (status resp) = true /\
      text resp = Ok txt /\ of_json txt = Ok a).
Proof.
  unfold send_request, bind, gets, lift. cbn. intros E.
  destruct (url_join (hc_base_url s) path) as [url| |] eqn:Hu; cbn in E; [|by injection E as <- <-; left..].
  destruct (build_request method url body) as [req| |] eqn:Hb; cbn in E; [|by injection E as <- <-; left..].
  right. exists url, req. split; [done|]. split; [done|]. unfold send in E.
  destruct (net (requests s) req) as [[resp|e|p] elapsed]; cbn in E; [|by injection E as <- <-..].
  destruct (http_success (status resp)) eqn:Hs; cbn in E; injection E as <- <-; (split; [done|]); [|done].
  intros a Ha. destruct (text resp) as [txt| |] eqn:Ht; cbn in Ha; [|done..].
  exists resp, txt. repeat split; try done. by destruct (of_json txt); cbn in Ha; simplify_eq.
Qed.

(** Submitting a transaction, whatever the base node answers: at most one request is
    made, the POST of the submission to ["/json_rpc"], and only for a transaction whose JSON
    is at most 2086912 bytes long; a success is the result that the node's answer carries. *)
Theorem submission_sends tx s :
  let '(r, s') := http_submit_transaction tx s in
  (requests s' = requests s /\ (forall a, r <> Ok a)) \/
  exists json url body, transaction_to_json tx = Ok json /\ Z.of_nat (String.length json) <= 2086912 /\
    url_join (hc_base_url s) "/json_rpc" = Ok url /\ json_to_string (submission_request tx) = Ok body /\
    requests s' = requests s ++ [mkHttpRequest POST url (Some body)] /\
    (forall a, r = Ok a -> exists resp txt rpc,
      fst (net (requests s) (mkHttpRequest POST url (Some body))) = Ok resp /\ http_success (status resp) = true /\
      text resp = Ok txt /\ submission_of_json txt = Ok rpc /\ jr_result rpc = Some a).
Proof.
  destruct (http_submit_transaction tx s) as [r s'] eqn:E. unfold http_submit_transaction, check_transaction_size in E.
  destruct (transaction_to_json tx) as [json| |] eqn:Hj; cbn -[MAX_TRANSACTION_SIZE] in E; [|by injection E as <- <-; left..].
  destruct (MAX_TRANSACTION_SIZE <? Z.of_nat (String.length json)) eqn:Hm;
    cbn -[MAX_TRANSACTION_SIZE send_request] in E; [by injection E as <- <-; left|].
  unfold bind, map_err in E. cbn -[send_request] in E.
  destruct (send_request _ _ _ _ s) as [r1 s1] eqn:E1. cbn in E.
  assert (Hs : s' = s1) by (destruct r1 as [rpc| |]; cbn in E; [destruct (jr_result rpc); by injection E|by injection E..]).
  subst s'. apply send_request_log in E1 as [[Hr Hno]|(url & req & Hu & Hb & Hr & Hok)].
  - left. split; [done|]. intros a ->. destruct r1 as [rpc| |]; cbn in E; [by apply (Hno rpc)|done..].
  - right. unfold build_request in Hb. destruct (json_to_string _) as [body| |] eqn:Hbody; [|done..].
    injection Hb as <-. exists json, url, body. split; [done|]. split.
    { unfold MAX_TRANSACTION_SIZE, RPC_MAX_FRAME_SIZE, SIZE_MARGIN in Hm. lia. }
    repeat split; try done. intros a ->. destruct r1 as [rpc| |]; cbn in E; [|done..].
    destruct (Hok rpc eq_refl) as (resp & txt & H1 & H2 & H3 & H4). exists resp, txt, rpc.
    repeat split; try done. destruct (jr_result rpc); [by injection E as ->|discriminate E].
Qed.

End Client.
