(* ===== verification/History.v ===== *)
(** * Transaction history ([minotari/src/transactions/transaction_history.rs])

    Queries for the transactions of an account, whole, page by page or in chunks that
    are handed to a callback; here the callback's calls are returned, in order. *)
From S2P Require Import Prelude Models DisplayTypes External Schema DisplayedDb Subset Processor ScanEvents.
#[local] Open Scope Z_scope.

Inductive TransactionHistoryError :=
| HistoryProcessing (e : ProcessorError)
| HistoryDb (e : WalletDbError).

Section History.
Context {X : Ext}.

(** The request for a connection. *)
Context (db_pool : outcome string unit).

Definition HistM (A : Type) : Type := M Db TransactionHistoryError A.

Definition history_connection : HistM unit := lift (outcome_map_err (fun e => HistoryDb (ConnectionError e)) db_pool).

Definition history_db {A} (m : DbM A) : HistM A := history_connection ;;; map_err HistoryDb m.

Definition load_all_transactions (account_id : Z) : HistM (list DisplayedTransaction) :=
  history_db (get_displayed_transactions_by_account account_id).
Definition load_transactions_excluding_reorged (account_id : Z) : HistM (list DisplayedTransaction) :=
  history_db (get_displayed_transactions_excluding_reorged account_id).
Definition load_transactions_by_status (account_id : Z) (status : TDS.t) : HistM (list DisplayedTransaction) :=
  history_db (get_displayed_transactions_by_status account_id status).
Definition load_transaction_by_id (id : string) : HistM (option DisplayedTransaction) :=
  history_db (get_displayed_transaction_by_id id).
Definition load_transactions_paginated (account_id limit offset : Z) : HistM (list DisplayedTransaction) :=
  history_db (get_displayed_transactions_paginated account_id limit offset).

Definition history_event (account_id : Z) (transactions : list DisplayedTransaction) : DisplayedTransactionsEvent :=
  mkDisplayedTransactionsEvent account_id transactions None true.

Definition load_and_emit (account_id : Z) : HistM (nat * list DisplayedTransactionsEvent) :=
  let! transactions := load_all_transactions account_id in
  ret (length transactions,
    match transactions with [] => [] | _ => [history_event account_id transactions] end).

(** [slice::chunks] of a size that is not zero; a chunk takes at least one element, so
    the length of the list is enough fuel. *)
Fixpoint chunks_fuel {A} (fuel chunk_size : nat) (l : list A) : list (list A) :=
  match fuel, l with
  | S fuel, _ :: _ => take chunk_size l :: chunks_fuel fuel chunk_size (drop chunk_size l)
  | _, _ => []
  end.

Definition chunks {E A} (chunk_size : nat) (l : list A) : outcome E (list (list A)) :=
  match chunk_size with
  | O => Panic "chunk size must be non-zero"
  | _ => Ok (chunks_fuel (length l) chunk_size l)
  end.

Definition emit_in_chunks (account_id : Z) (chunk_size : nat) : HistM (nat * list DisplayedTransactionsEvent) :=
  let! all_transactions := load_all_transactions account_id in
  let! parts := lift (chunks chunk_size all_transactions) in
  ret (length all_transactions, map (history_event account_id) parts).

(** ** Theorems *)
Lemma chunks_fuel_concat {A} n : (0 < n)%nat -> forall fuel (l : list A), (length l <= fuel)%nat ->
  concat (chunks_fuel fuel n l) = l.
Proof.
  intros Hn. induction fuel as [|fuel IH]; intros l Hl; [by destruct l; cbn in *; [|lia]|].
  destruct l as [|a l]; [done|]. cbn [chunks_fuel concat]. rewrite IH; [by rewrite take_drop|].
  rewrite length_drop. cbn in *. lia.
Qed.

Lemma chunks_fuel_sizes {A} n : (0 < n)%nat -> forall fuel (l : list A),
  Forall (fun c => (0 < length c <= n)%nat) (chunks_fuel fuel n l).
Proof.
  intros Hn. induction fuel as [|fuel IH]; intros l; [constructor|]. destruct l as [|a l]; constructor; [|apply IH].
  rewrite length_take. cbn. lia.
Qed.

(** Chunked history: put together, the chunks are the history that a single load
    returns, in its order, and none is empty or larger than the chunk size; the callback is
    told of each account's initial sync, and the database is not changed. *)
Theorem chunks_cover_history account_id chunk_size d r d' :
  (0 < chunk_size)%nat -> emit_in_chunks account_id chunk_size d = (Ok r, d') ->
  d' = d /\ load_all_transactions account_id d = (Ok (concat (map dte_transactions (snd r))), d) /\
  fst r = length (concat (map dte_transactions (snd r))) /\
  Forall (fun e => (0 < length (dte_transactions e) <= chunk_size)%nat /\ dte_account_id e = account_id /\
    is_initial_sync e = true) (snd r).
Proof.
  intros Hn H. unfold emit_in_chunks, load_all_transactions, history_db, history_connection in *.
  apply bind_ok_inv in H as (l & d1 & H1 & H). destruct db_pool as [[]|e|p]; [|done|done].
  cbn in H1. injection H1 as <- <-.
  set (l := process_json_rows _) in *. destruct chunk_size as [|n]; [lia|]. cbn in H. injection H as <- <-.
  split; [done|]. cbn [fst snd]. rewrite map_map. cbn [dte_transactions history_event]. rewrite map_id.
  rewrite chunks_fuel_concat by lia. split; [done|]. split; [done|].
  apply Forall_map. eapply Forall_impl; [apply (chunks_fuel_sizes (S n)); lia|]. by intros c Hc.
Qed.

Lemma zero_chunk_panics account_id d l : load_all_transactions account_id d = (Ok l, d) ->
  emit_in_chunks account_id 0 d = (Panic "chunk size must be non-zero", d).
Proof. intros H. unfold emit_in_chunks, bind. by rewrite H. Qed.

End History.
