(* ===== verification/Api.v ===== *)
(** * The HTTP API ([minotari/src/api/mod.rs], [error.rs], [types.rs], [accounts/])

    A request is what the router has matched and the extractors have parsed; a handler
    is a computation on the database that ends in a reply or an [ApiError], which
    becomes a status and a message.  Each handler runs in a blocking task: a panic of
    the task is an error of the join. *)
From S2P Require Import Prelude Models DisplayTypes External Schema AccountsDb Crypto EventsDb CompletedDb.
From S2P Require Import DisplayedDb PayrefDb PendingDb TipBlocksDb BurnProofsDb InputSelector FundLocker Monitor Manager Burn.
#[local] Open Scope Z_scope.

(** ** Errors ([error.rs]) *)
Inductive ApiError :=
| InternalServerError (msg : string)
| DbError (msg : string)
| AccountNotFound (name : string)
| NotFound (msg : string)
| BadRequest (msg : string)
| FailedToLockFunds (msg : string)
| FailedCreateUnsignedTx (msg : string)
| FailedToBurnFunds (msg : string).

Definition api_error_to_string (e : ApiError) : string :=
  match e with
  | InternalServerError m => "Internal server error: " +:+ m
  | DbError m => "Database error: " +:+ m
  | AccountNotFound m => "Account not found: " +:+ m
  | NotFound m => m
  | BadRequest m => m
  | FailedToLockFunds m => "Failed to lock funds: " +:+ m
  | FailedCreateUnsignedTx m => "Failed to create an unsigned transaction: " +:+ m
  | FailedToBurnFunds m => "Failed to burn funds: " +:+ m
  end.

(** The status, and the ["error"] of the body. *)
Definition into_response (e : ApiError) : Z * string :=
  match e with
  | InternalServerError msg => (500, msg)
  | DbError e => (500, e)
  | AccountNotFound name => (404, "Account '" +:+ name +:+ "' not found")
  | NotFound msg => (404, msg)
  | BadRequest msg => (400, msg)
  | FailedToLockFunds e => (500, e)
  | FailedCreateUnsignedTx e => (500, e)
  | FailedToBurnFunds e => (500, e)
  end.

Definition ApiM (A : Type) : Type := M Db ApiError A.

(** ** Request bodies and parameters

    An optional field of a JSON body may be missing, [null] or given.  A default of
    [serde] replaces a missing field only. *)
Inductive Field (A : Type) := Missing | Null | Given (a : A).
Arguments Missing {A}.
Arguments Null {A}.
Arguments Given {A}.

Definition field_option {A} (default_ : option A) (f : Field A) : option A :=
  match f with
  | Missing => default_
  | Null => None
  | Given a => Some a
  end.

Definition default_seconds_to_lock_utxos : option Z := Some 86400.
Definition default_num_outputs : option Z := Some 1.
Definition default_fee_per_gram : option Z := Some 5.
Definition default_one_usize : Z := 1.
Definition DEFAULT_PAGE_LIMIT : Z := 50.
Definition MAX_PAGE_LIMIT : Z := 1000.

Record PaginationParams := mkPagination {
  pg_limit : option Z;
  pg_offset : option Z;
}.

(** The limit and the offset that the queries get. *)
Definition page_limit (p : PaginationParams) : Z := Z.min (default DEFAULT_PAGE_LIMIT (pg_limit p)) MAX_PAGE_LIMIT.
Definition page_offset (p : PaginationParams) : Z := Z.max (default 0 (pg_offset p)) 0.

Record LockFundsRequest := mkLockFundsRequest {
  lr_amount : Z;
  lr_num_outputs : option Z;
  lr_fee_per_gram : option Z;
  lr_estimated_output_size : option Z;
  lr_seconds_to_lock_utxos : option Z;
  lr_idempotency_key : option string;
  lr_confirmation_window : option Z;
}.

(** The derived [Deserialize]. *)
Definition lock_funds_request_of (amount : Z) (num_outputs fee_per_gram estimated_output_size seconds : Field Z)
    (idempotency_key : Field string) (confirmation_window : Field Z) : LockFundsRequest :=
  mkLockFundsRequest amount (field_option default_num_outputs num_outputs)
    (field_option default_fee_per_gram fee_per_gram) (field_option None estimated_output_size)
    (field_option default_seconds_to_lock_utxos seconds) (field_option None idempotency_key)
    (field_option None confirmation_window).

Record CreateTransactionRequest := mkCreateTransactionRequest {
  cr_recipients : list Recipient;
  cr_seconds_to_lock_utxos : option Z;
  cr_idempotency_key : option string;
  cr_confirmation_window : option Z;
}.

Record EstimateFeeRequest := mkEstimateFeeRequest {
  er_amount : Z;
  er_num_outputs : Z;
  er_confirmation_window : option Z;
  er_estimated_output_size : option Z;
}.

Record BurnFundsRequest := mkBurnFundsRequest {
  br_amount : Z;
  br_claim_public_key : option string;
  br_sidechain_deployment_key : option string;
  br_fee_per_gram : option Z;
  br_payment_id : option string;
  br_idempotency_key : option string;
  br_seconds_to_lock : option Z;
}.

(** ** Replies ([types.rs]) *)
Record ScanStatusResponse := mkScanStatus {
  last_scanned_height : Z;
  last_scanned_block_hash : string;
  ss_scanned_at : option Z;
}.

Record AddressResponse := mkAddressResponse { ar_address : string; ar_emoji_id : string }.
Record AddressWithPaymentIdResponse := mkAddressWithPaymentId {
  ap_address : string;
  ap_emoji_id : string;
  ap_payment_id_hex : string;
}.

Record VersionResponse := mkVersion { vr_version : string; vr_name : string }.
Record BurnFundsResponse := mkBurnFundsResponse { bf_tx_id : string; bf_output_hash : string }.

(** What the handlers use of the libraries: texts, the burn keys, and the construction of
    an unsigned one-sided transaction. *)
Class ApiExt {X : Ext} {C : TxClient} {BX : BurnExt} {WT : WalletExt} := {
  CARGO_PKG_VERSION : string;
  CARGO_PKG_NAME : string;
  to_rfc3339 : Z -> string;
  hex_error_text : string -> string;
  public_key_of_bytes : string -> outcome string PublicKey;
  private_key_of_bytes : string -> outcome string PrivateKey;
  OneSidedMemo : Type;
  (** [MemoField::new_open_from_string(s, TxType::PaymentToOther)] and [new_empty]. *)
  memo_new_open : string -> outcome string OneSidedMemo;
  memo_new_empty : OneSidedMemo;
  OneSidedBuilder : Type;
  UnsignedTransaction : Type;
  (** The transaction builder with the fee and the inputs, for the account's keys. *)
  one_sided_builder : AccountKeys -> Z -> list WalletOutput -> outcome string OneSidedBuilder;
  (** [prepare_one_sided_transaction_for_signing]: recipients, main payment id, sender. *)
  prepare_for_signing : OneSidedBuilder -> list (string * Z * OneSidedMemo) -> OneSidedMemo -> TariAddress ->
    outcome string UnsignedTransaction;
  unsigned_to_json : UnsignedTransaction -> outcome string string;
}.

Section Api.
Context {X : Ext} {SE : SelectionExt} {C : TxClient} {BX : BurnExt} {CR : CryptoExt} {WT : WalletExt}.
Context {AX : ApiExt}.

Record CompletedTransactionResponse := mkCompletedResponse {
  rs_id : Z;
  rs_pending_tx_id : string;
  rs_account_id : Z;
  rs_status : string;
  rs_last_rejected_reason : option string;
  rs_kernel_excess_hex : string;
  rs_sent_payref : option string;
  rs_sent_output_hash : option string;
  rs_mined_height : option Z;
  rs_mined_block_hash_hex : option string;
  rs_confirmation_height : option Z;
  rs_broadcast_attempts : Z;
  rs_created_at : string;
  rs_updated_at : string;
}.

Definition completed_response (tx : CompletedTransaction) : CompletedTransactionResponse := {|
  rs_id := ct_id tx;
  rs_pending_tx_id := CompletedDb.pending_tx_id tx;
  rs_account_id := ct_account_id tx;
  rs_status := CTS.to_string (ct_status tx);
  rs_last_rejected_reason := last_rejected_reason tx;
  rs_kernel_excess_hex := hex_encode (kernel_excess tx);
  rs_sent_payref := sent_payref tx;
  rs_sent_output_hash := sent_output_hash tx;
  rs_mined_height := mined_height tx;
  rs_mined_block_hash_hex := hex_encode <$> mined_block_hash tx;
  rs_confirmation_height := confirmation_height tx;
  rs_broadcast_attempts := broadcast_attempts tx;
  rs_created_at := to_rfc3339 (ct_created_at tx);
  rs_updated_at := to_rfc3339 (ct_updated_at tx);
|}.

Definition scan_status_response (block : LatestScannedBlock) : ScanStatusResponse :=
  mkScanStatus (lsb_height block) (hex_encode (lsb_hash block)) (Some (scanned_at block)).

(** The state of the server.  [pool n] is the [n]-th request of a handler for a
    connection; [url] and [client] are the parsing of the node's address and the
    creation of the HTTP client; [stats] is the node's answer on fees. *)
Record AppState := mkAppState {
  pool : nat -> outcome string unit;
  app_password : string;
  required_confirmations : Z;
  url : outcome string unit;
  client : outcome string unit;
  stats : outcome string (list FeePerGramStat);
}.

Context (app_state : AppState).

(** ** Common steps *)
Definition get_connection (n : nat) : ApiM unit := lift (outcome_map_err DbError (pool app_state n)).
Definition api_db {A} (m : DbM A) : ApiM A := map_err (fun e => DbError (db_error_to_string e)) m.

Definition spawn_blocking {A} (m : ApiM A) : ApiM A := fun d =>
  match m d with
  | (Panic msg, d') => (Err (InternalServerError ("Task join error: " +:+ join_error_text msg)), d')
  | r => r
  end.

(** The account of the path. *)
Definition find_account (name : string) : ApiM AccountRow :=
  let! account := api_db (get_account_by_name name) in
  lift (ok_or account (AccountNotFound name)).

Definition with_account {A} (name : string) (k : AccountRow -> ApiM A) : ApiM A :=
  spawn_blocking (
    get_connection 0 ;;;
    let! account := find_account name in
    k account).

(** ** Balance, addresses and scan status ([accounts/balance.rs]) *)
Definition api_get_version : ApiM VersionResponse := ret (mkVersion CARGO_PKG_VERSION CARGO_PKG_NAME).

Definition api_get_balance (name : string) : ApiM AccountBalance :=
  with_account name (fun account => api_db (get_balance (a_id account))).

Definition api_get_address (name : string) : ApiM AddressResponse :=
  with_account name (fun account =>
    let! address := lift (outcome_map_err
      (fun e => InternalServerError ("Failed to get address: " +:+ db_error_to_string e))
      (get_address account (app_password app_state))) in
    ret (mkAddressResponse (to_base58 address) (to_emoji_string address))).

Definition api_create_address_with_payment_id (name payment_id_hex : string) : ApiM AddressWithPaymentIdResponse :=
  let! payment_id_bytes := lift (ok_or (hex_decode payment_id_hex)
    (BadRequest ("Invalid hex in payment_id_hex: " +:+ hex_error_text payment_id_hex))) in
  with_account name (fun account =>
    let! address := lift (outcome_map_err
      (fun e => InternalServerError ("Failed to create address with payment ID: " +:+ db_error_to_string e))
      (get_address_with_payment_id account (app_password app_state) payment_id_bytes)) in
    ret (mkAddressWithPaymentId (to_base58 address) (to_emoji_string address) payment_id_hex)).

Definition api_get_scan_status (name : string) : ApiM ScanStatusResponse :=
  let! scan_status := with_account name (fun account =>
    api_db (get_latest_scanned_block_with_timestamp (a_id account))) in
  ret (match scan_status with
       | Some block => scan_status_response block
       | None => mkScanStatus 0 "" None
       end).

(** ** Lists ([accounts/events.rs], [accounts/transactions.rs]) *)
Definition api_get_events (name : string) (pagination : PaginationParams) : ApiM (list EventRow) :=
  with_account name (fun account =>
    api_db (get_events_by_account_id (a_id account) (page_limit pagination) (page_offset pagination))).

Definition api_get_completed_transactions (name : string) (pagination : PaginationParams) :
    ApiM (list CompletedTransactionResponse) :=
  let! transactions := with_account name (fun account =>
    api_db (get_completed_transactions_by_account (a_id account) (page_limit pagination) (page_offset pagination))) in
  ret (map completed_response transactions).

Definition api_get_displayed_transactions (name : string) (pagination : PaginationParams) :
    ApiM (list DisplayedTransaction) :=
  with_account name (fun account =>
    api_db (get_displayed_transactions_paginated (a_id account) (page_limit pagination) (page_offset pagination))).

(** ** Lookups by payment reference, with the history as a fallback *)
Definition api_get_completed_transaction_by_payref (name payref : string) : ApiM CompletedTransactionResponse :=
  let! transaction := with_account name (fun account =>
    let! live := api_db (get_completed_transaction_by_payref (a_id account) payref) in
    match live with
    | Some tx => ret tx
    | None =>
        let! historical_tx_id := api_db (get_transaction_id_by_historical_payref (a_id account) payref) in
        let! found := match historical_tx_id with
          | Some tx_id => api_db (get_completed_transaction_by_id tx_id)
          | None => ret None
          end in
        match found with
        | Some tx => ret tx
        | None => throw (NotFound ("No completed transaction found with payref: " +:+ payref))
        end
    end) in
  ret (completed_response transaction).

Definition api_get_displayed_transactions_by_payref (name payref : string) : ApiM (list DisplayedTransaction) :=
  with_account name (fun account =>
    let! results := api_db (get_displayed_transactions_by_payref (a_id account) payref) in
    match results with
    | _ :: _ => ret results
    | [] =>
        let! historical_tx_id := api_db (get_transaction_id_by_historical_payref (a_id account) payref) in
        let! found := match historical_tx_id with
          | Some tx_id => api_db (get_displayed_transaction_by_id (pretty tx_id))
          | None => ret None
          end in
        ret (option_list found)
    end).

(** ** Locking funds and unsigned transactions ([accounts/fund_lock.rs]) *)

(** [Option::expect]. *)
Definition expect {A} (o : option A) : ApiM A :=
  match o with Some a => ret a | None => panic "must be defaulted" end.

Definition api_lock (uuid uuid_key : string) (account : AccountRow) (amount num_outputs fee_per_gram : Z)
    (estimated_output_size : option Z) (idempotency_key : option string) (seconds window : Z) :
    ApiM LockFundsResult :=
  map_err (fun e => FailedToLockFunds (lock_error_to_string e))
    (lock uuid uuid_key (a_id account) amount num_outputs fee_per_gram estimated_output_size
      idempotency_key seconds window).

(** [uuid] and [uuid_key] are the fresh ids of [FundLocker::lock]. *)
Definition api_lock_funds (uuid uuid_key name : string) (body : LockFundsRequest) : ApiM LockFundsResult :=
  with_account name (fun account =>
    let confirmation_window := default (required_confirmations app_state) (lr_confirmation_window body) in
    let! num_outputs := expect (lr_num_outputs body) in
    let! fee_per_gram := expect (lr_fee_per_gram body) in
    let! seconds_to_lock_utxos := expect (lr_seconds_to_lock_utxos body) in
    api_lock uuid uuid_key account (lr_amount body) num_outputs fee_per_gram (lr_estimated_output_size body)
      (lr_idempotency_key body) seconds_to_lock_utxos confirmation_window).

(** [OneSidedTransaction::create_unsigned_transaction]; the errors of [anyhow] are their
    texts.  A payment id that does not fit gives an empty memo. *)
Definition payment_recipient (r : Recipient) : string * Z * OneSidedMemo :=
  (rc_address r, rc_amount r,
   match rc_payment_id r with
   | Some s => result_or memo_new_empty (memo_new_open s)
   | None => memo_new_empty
   end).

Definition create_unsigned_transaction (password : string) (account : AccountRow) (utxos : list WalletOutput)
    (recipients : list Recipient) (fee_per_gram : Z) : outcome string UnsignedTransaction :=
  match map payment_recipient recipients with
  | [] => Err "No recipients provided"
  | main :: _ as payment_recipients =>
      outcome_bind (outcome_map_err db_error_to_string (get_address account password))
        (fun sender_address =>
      outcome_bind (outcome_map_err db_error_to_string (get_key_manager account password))
        (fun key_manager =>
      outcome_bind (one_sided_builder key_manager fee_per_gram utxos) (fun tx_builder =>
      prepare_for_signing tx_builder payment_recipients (snd main) sender_address)))
  end.

Definition sum_amounts {E} (recipients : list Recipient) : outcome E Z :=
  outcome_fold (fun acc r => mm_plus acc (rc_amount r)) 0 recipients.

Definition api_create_unsigned_transaction (uuid uuid_key name : string) (body : CreateTransactionRequest) :
    ApiM string :=
  let! result := with_account name (fun account =>
    let! amount := lift (sum_amounts (cr_recipients body)) in
    let num_outputs := Z.of_nat (length (cr_recipients body)) in
    let fee_per_gram := 5 in
    let seconds_to_lock_utxos := default 86400 (cr_seconds_to_lock_utxos body) in
    let confirmation_window := default (required_confirmations app_state) (cr_confirmation_window body) in
    let! locked_funds := api_lock uuid uuid_key account amount num_outputs fee_per_gram None
      (cr_idempotency_key body) seconds_to_lock_utxos confirmation_window in
    lift (outcome_map_err FailedCreateUnsignedTx
      (create_unsigned_transaction (app_password app_state) account (lf_utxos locked_funds) (cr_recipients body) fee_per_gram))) in
  lift (outcome_map_err (fun e => InternalServerError ("JSON serialization error: " +:+ e))
    (unsigned_to_json result)).

(** ** Fee estimates ([accounts/fees.rs]): not in a blocking task *)
Definition api_estimate_fees (name : string) (body : EstimateFeeRequest) : ApiM (list FeeEstimateResult) :=
  let confirmation_window := default (required_confirmations app_state) (er_confirmation_window body) in
  map_err InternalServerError
    (estimate_fees (pool app_state 0) (outcome_bind (url app_state) (fun _ => client app_state)) (stats app_state)
      name (er_amount body) (er_num_outputs body) confirmation_window (er_estimated_output_size body)).

(** ** Burning funds ([accounts/burn.rs], [utils/crypto.rs]) *)
Definition parse_public_key_hex (s : string) : outcome string PublicKey :=
  outcome_bind (ok_or (hex_decode s) ("Invalid public key hex: " +:+ hex_error_text s)) (fun bytes =>
  outcome_map_err (fun e => "Invalid public key: " +:+ e) (public_key_of_bytes bytes)).

Definition parse_private_key_hex (s : string) : outcome string PrivateKey :=
  outcome_bind (ok_or (hex_decode s) ("Invalid private key hex: " +:+ hex_error_text s)) (fun bytes =>
  outcome_map_err (fun e => "Invalid private key: " +:+ e) (private_key_of_bytes bytes)).

(** [as_deref().map(parse).transpose()]. *)
Definition parse_optional {A} (field : string) (parse : string -> outcome string A) (o : option string) :
    outcome ApiError (option A) :=
  match o with
  | None => Ok None
  | Some s => outcome_bind (outcome_map_err (fun e => BadRequest ("Invalid " +:+ field +:+ ": " +:+ e)) (parse s))
      (fun a => Ok (Some a))
  end.

Definition burn_params (account : AccountRow) (body : BurnFundsRequest) (claim : option PublicKey)
    (sidechain : option PrivateKey) (idempotency_key : string) : BurnTxParams := {|
  bt_account_id := a_id account;
  bt_amount := br_amount body;
  bt_claim_public_key := claim;
  bt_sidechain_deployment_key := sidechain;
  bt_fee_per_gram := default 5 (br_fee_per_gram body);
  bt_payment_id := br_payment_id body;
  bt_idempotency_key := Some idempotency_key;
  bt_seconds_to_lock := default 86400 (br_seconds_to_lock body);
  bt_confirmation_window := required_confirmations app_state;
|}.

(** The blocking part: create the transaction and store its records. *)
Definition burn_prepare (uuid uuid_key new_key name : string) (body : BurnFundsRequest) : ApiM BurnTxResult :=
  spawn_blocking (
    let! claim_public_key := lift (parse_optional "claim_public_key" parse_public_key_hex (br_claim_public_key body)) in
    let! sidechain_key := lift (parse_optional "sidechain_deployment_key" parse_private_key_hex
      (br_sidechain_deployment_key body)) in
    let idempotency_key := default new_key (br_idempotency_key body) in
    get_connection 0 ;;;
    let! account := find_account name in
    let params := burn_params account body claim_public_key sidechain_key idempotency_key in
    let! result := map_err (fun e => FailedToBurnFunds (burn_error_to_string e))
      (create_burn_tx uuid uuid_key account params) in
    map_err (fun e => DbError (burn_error_to_string e)) (persist_burn_records result (a_id account) idempotency_key) ;;;
    ret result).

Definition api_burn_funds (uuid uuid_key new_key name : string) (body : BurnFundsRequest) : ApiM BurnFundsResponse :=
  let! result := burn_prepare uuid uuid_key new_key name body in
  lift (outcome_map_err (fun e => InternalServerError ("Invalid base node URL: " +:+ e)) (url app_state)) ;;;
  lift (outcome_map_err InternalServerError (client app_state)) ;;;
  let! response := lift (outcome_map_err (fun e => FailedToBurnFunds ("Broadcast failed: " +:+ e))
    (submit_transaction (br_transaction result))) in
  if negb (accepted response)
  then throw (FailedToBurnFunds ("Transaction rejected: " +:+ reason_to_string (rejection_reason response)))
  else
    spawn_blocking (
      get_connection 1 ;;;
      api_db (mark_completed_transaction_as_broadcasted (br_tx_id result) 1)) ;;;
    ret (mkBurnFundsResponse (pretty (br_tx_id result)) (hex_encode (br_output_hash result))).

(** ** The router ([create_router]) *)
Inductive ApiRequest :=
| GetVersion
| GetBalance (name : string)
| GetAddress (name : string)
| CreateAddressWithPaymentId (name payment_id_hex : string)
| GetScanStatus (name : string)
| GetEvents (name : string) (pagination : PaginationParams)
| GetCompletedTransactions (name : string) (pagination : PaginationParams)
| GetCompletedTransactionByPayref (name payref : string)
| GetDisplayedTransactions (name : string) (pagination : PaginationParams)
| GetDisplayedTransactionsByPayref (name payref : string)
| LockFunds (name : string) (body : LockFundsRequest)
| CreateUnsignedTransaction (name : string) (body : CreateTransactionRequest)
| EstimateFees (name : string) (body : EstimateFeeRequest)
| BurnFunds (name : string) (body : BurnFundsRequest).

Inductive Reply :=
| VersionReply (v : VersionResponse)
| BalanceReply (b : AccountBalance)
| AddressReply (a : AddressResponse)
| PaymentIdAddressReply (a : AddressWithPaymentIdResponse)
| ScanStatusReply (s : ScanStatusResponse)
| EventsReply (l : list EventRow)
| CompletedReply (l : list CompletedTransactionResponse)
| CompletedTransactionReply (t : CompletedTransactionResponse)
| DisplayedReply (l : list DisplayedTransaction)
| LockReply (r : LockFundsResult)
| UnsignedReply (json : string)
| FeesReply (l : list FeeEstimateResult)
| BurnReply (r : BurnFundsResponse).

Definition reply {A} (f : A -> Reply) (m : ApiM A) : ApiM Reply := let! a := m in ret (f a).

(** [u0], [u1] and [u2] are the fresh ids of the request. *)
Definition handle (u0 u1 u2 : string) (req : ApiRequest) : ApiM Reply :=
  match req with
  | GetVersion => reply VersionReply api_get_version
  | GetBalance name => reply BalanceReply (api_get_balance name)
  | GetAddress name => reply AddressReply (api_get_address name)
  | CreateAddressWithPaymentId name h => reply PaymentIdAddressReply (api_create_address_with_payment_id name h)
  | GetScanStatus name => reply ScanStatusReply (api_get_scan_status name)
  | GetEvents name p => reply EventsReply (api_get_events name p)
  | GetCompletedTransactions name p => reply CompletedReply (api_get_completed_transactions name p)
  | GetCompletedTransactionByPayref name r =>
      reply CompletedTransactionReply (api_get_completed_transaction_by_payref name r)
  | GetDisplayedTransactions name p => reply DisplayedReply (api_get_displayed_transactions name p)
  | GetDisplayedTransactionsByPayref name r => reply DisplayedReply (api_get_displayed_transactions_by_payref name r)
  | LockFunds name body => reply LockReply (api_lock_funds u0 u1 name body)
  | CreateUnsignedTransaction name body => reply UnsignedReply (api_create_unsigned_transaction u0 u1 name body)
  | EstimateFees name body => reply FeesReply (api_estimate_fees name body)
  | BurnFunds name body => reply BurnReply (api_burn_funds u0 u1 u2 name body)
  end.

(** The status and the body; after a panic outside a blocking task the connection is
    dropped without a response. *)
Definition respond (r : outcome ApiError Reply) : option (Z * (Reply + string)) :=
  match r with
  | Ok reply => Some (200, inl reply)
  | Err e => Some (fst (into_response e), inr (snd (into_response e)))
  | Panic _ => None
  end.

Definition serve (u0 u1 u2 : string) (req : ApiRequest) (d : Db) : option (Z * (Reply + string)) * Db :=
  let '(r, d') := handle u0 u1 u2 req d in (respond r, d').

End Api.
