(* ===== verification/Coordinator.v ===== *)
(** * The multi-account scan ([minotari/src/scan/coordinator.rs],
    [scan_db_handler.rs], [scanner_state_manager.rs])

    One loop scans all accounts: at each turn the accounts that are furthest
    behind are active; the blocks of the scanner's stream are processed for each of
    them, the chain is checked for reorgs, and the scan ends, pauses or polls.

    The base node is [get_header_by_height] and [scan_blocks]; the latter, like the
    cancellation token, is a function of the turn of the loop, since the chain
    moves between two calls. *)
From S2P Require Import Prelude Models DisplayTypes External Schema TipBlocksDb Webhooks ScanEvents.
From S2P Require Import Subset Processor Scanning BlockProc Reorg Monitor.
#[local] Open Scope Z_scope.

Definition MAX_CONTINUOUS_BUFFERED_EVENTS : nat := Z.to_nat 10000.

(** [ScanError] ([scan/types.rs]). *)
Inductive ScanError :=
| Fatal (e : AnyError)
| Intermittent (msg : string)
| Timeout (retries : Z)
| ScanDbError (e : WalletDbError).

(** [ScanMode] ([scan/config.rs]). *)
Inductive ScanMode :=
| Full
| Partial (max_blocks : Z)
| Continuous (poll_interval : Z).

(** ** Buffered events *)
Definition push_events_with_limit (all_events events : list WalletEvent) (max_buffered_events : option nat) :
    list WalletEvent :=
  let all := all_events ++ events in
  match max_buffered_events with
  | Some limit => drop (length all - limit) all
  | None => all
  end.

(** ** Targets *)
Record AccountSyncTarget := mkTarget {
  tg_account_id : Z;
  tg_view_key : string;
  next_block_to_scan : Z;
  tg_has_pending_outbound : bool;
}.

Definition set_next (h : Z) (t : AccountSyncTarget) : AccountSyncTarget :=
  mkTarget (tg_account_id t) (tg_view_key t) h (tg_has_pending_outbound t).
Definition set_pending (b : bool) (t : AccountSyncTarget) : AccountSyncTarget :=
  mkTarget (tg_account_id t) (tg_view_key t) (next_block_to_scan t) b.

Definition find_target (id : Z) (targets : list AccountSyncTarget) : option AccountSyncTarget :=
  List.find (fun t => tg_account_id t =? id) targets.

(** Writing through [iter_mut().find(..)]: the first target with the id. *)
Fixpoint update_target (id : Z) (f : AccountSyncTarget -> AccountSyncTarget)
    (targets : list AccountSyncTarget) : list AccountSyncTarget :=
  match targets with
  | [] => []
  | t :: ts => if tg_account_id t =? id then f t :: ts else t :: update_target id f ts
  end.

(** ** The plan of a turn *)
Definition min_height_of (l : list Z) : option Z :=
  match l with
  | [] => None
  | h :: hs => Some (foldl Z.min h hs)
  end.

Definition global_next_block (targets : list AccountSyncTarget) : Z :=
  default 0 (min_height_of (map next_block_to_scan targets)).

Definition active_account_ids (targets : list AccountSyncTarget) : list Z :=
  map tg_account_id (List.filter (fun t => next_block_to_scan t =? global_next_block targets) targets).

Definition next_horizon_height (targets : list AccountSyncTarget) : option Z :=
  min_height_of (List.filter (fun h => h >? global_next_block targets) (map next_block_to_scan targets)).

Definition end_height (mode : ScanMode) (targets : list AccountSyncTarget) (total_scanned_globally : Z) :
    option Z :=
  let horizon := (fun h => u64_saturating_sub h 1) <$> next_horizon_height targets in
  match mode with
  | Partial max_blocks =>
      let max_height_to_scan := u64_saturating_sub
        (u64_saturating_add (global_next_block targets) max_blocks) total_scanned_globally in
      match horizon with
      | Some h => Some (Z.min h max_height_to_scan)
      | None => Some max_height_to_scan
      end
  | _ => horizon
  end.

Definition effective_batch_size (batch_size : Z) (targets : list AccountSyncTarget) : Z :=
  match next_horizon_height targets with
  | Some h => Z.min (u64_saturating_sub h (global_next_block targets)) batch_size
  | None => batch_size
  end.

(** ** The scanner ([scanner_state_manager.rs]) *)
(** A scanner is known by the accounts of its key managers, in their order: the
    index that [scan_blocks] gives an output points into this list. *)
Record ScannerStateManager := mkScannerStateManager {
  scanner : option (list Z);
  sm_active_account_ids : list Z;
}.

Definition ScannerStateManager_new : ScannerStateManager := mkScannerStateManager None [].

Fixpoint key_managers (ids : list Z) (targets : list AccountSyncTarget) : outcome ScanError (list Z) :=
  match ids with
  | [] => Ok []
  | id :: ids' =>
      outcome_bind (ok_or (find_target id targets)
        (Fatal (AnyMsg ("Unknown active account id: " +:+ pretty id)))) (fun t =>
      outcome_bind (key_managers ids' targets) (fun kms => Ok (tg_account_id t :: kms)))
  end.

(** The configuration for the scanner: the default one with the end height set. *)
Definition config_of_turn (new_start_height : Z) (new_end_height : option Z) (batch_size : Z) : ScanConfig :=
  let c := with_batch_size batch_size (with_start_height new_start_height ScanConfig_default) in
  mkScanConfig (start_height c) new_end_height (sc_batch_size c) (request_timeout c) (exclude_spent c).

(** [connect] is the creation of the HTTP scanner. *)
Definition get_scanner_and_config (connect : outcome string unit) (new_active_account_ids : list Z)
    (new_start_height : Z) (new_end_height : option Z) (batch_size : Z) (all_targets : list AccountSyncTarget)
    (m : ScannerStateManager) : outcome ScanError (list Z * ScanConfig * ScannerStateManager) :=
  let config := config_of_turn new_start_height new_end_height batch_size in
  let recreate := is_none (scanner m) || negb (bool_decide (sm_active_account_ids m = new_active_account_ids)) in
  if recreate then
    outcome_bind (key_managers new_active_account_ids all_targets) (fun kms =>
    outcome_bind (outcome_map_err Intermittent connect) (fun _ =>
    Ok (kms, config, mkScannerStateManager (Some kms) new_active_account_ids)))
  else
    outcome_bind (ok_or (scanner m) (Fatal (AnyMsg "Scanner was not initialized"))) (fun kms =>
    Ok (kms, config, m)).

(** ** The state of the loop *)
Section Coordinator.
Context {X : Ext} {S0 : StdOrder} {C : TxClient}.

(** [channel] is what the event sender, shared with the block processor, was given. *)
Record LoopState := mkLoopState {
  db : Db;
  targets : list AccountSyncTarget;
  all_events : list WalletEvent;
  handler : option BlockProcessor;
  channel : list ProcessingEvent;
  total_scanned_globally : Z;
  blocks_since_reorg_check : Z;
  state_manager : ScannerStateManager;
}.

Definition set_db (x : Db) (s : LoopState) : LoopState :=
  mkLoopState x (targets s) (all_events s) (handler s) (channel s) (total_scanned_globally s)
    (blocks_since_reorg_check s) (state_manager s).
Definition set_targets (x : list AccountSyncTarget) (s : LoopState) : LoopState :=
  mkLoopState (db s) x (all_events s) (handler s) (channel s) (total_scanned_globally s)
    (blocks_since_reorg_check s) (state_manager s).
Definition set_all_events (x : list WalletEvent) (s : LoopState) : LoopState :=
  mkLoopState (db s) (targets s) x (handler s) (channel s) (total_scanned_globally s)
    (blocks_since_reorg_check s) (state_manager s).
Definition set_handler (x : option BlockProcessor) (s : LoopState) : LoopState :=
  mkLoopState (db s) (targets s) (all_events s) x (channel s) (total_scanned_globally s)
    (blocks_since_reorg_check s) (state_manager s).
Definition set_channel (x : list ProcessingEvent) (s : LoopState) : LoopState :=
  mkLoopState (db s) (targets s) (all_events s) (handler s) x (total_scanned_globally s)
    (blocks_since_reorg_check s) (state_manager s).
Definition set_counters (total since : Z) (s : LoopState) : LoopState :=
  mkLoopState (db s) (targets s) (all_events s) (handler s) (channel s) total since (state_manager s).
Definition set_state_manager (x : ScannerStateManager) (s : LoopState) : LoopState :=
  mkLoopState (db s) (targets s) (all_events s) (handler s) (channel s) (total_scanned_globally s)
    (blocks_since_reorg_check s) x.

Definition ScanM (A : Type) : Type := M LoopState ScanError A.

Definition on_loop_db {E A} (f : E -> ScanError) (m : M Db E A) : ScanM A := fun s =>
  let '(r, d) := m (db s) in (outcome_map_err f r, set_db d s).

Definition emit (e : ProcessingEvent) : ScanM unit := modify (fun s => set_channel (channel s ++ [e]) s).
Definition emit_status (e : ScanStatusEvent) : ScanM unit := emit (ScanStatus e).

Definition push_events (events : list WalletEvent) (limit : option nat) : ScanM unit :=
  modify (fun s => set_all_events (push_events_with_limit (all_events s) events limit) s).

(** What the coordinator is configured with. *)
Record Config := mkConfig {
  cf_required_confirmations : Z;
  cf_webhook_config : option WebhookTriggerConfig;
  reorg_check_interval : Z;
  cf_batch_size : Z;
}.
Context (self : Config).

(** ** [ScanDbHandler] *)

(** The body of the blocking task: the blocks that the account has not seen. *)
Definition process_new_blocks (blocks : list BlockScanResult) (target_account_id next_block : Z) : BpM unit :=
  for_each (fun block =>
    if blk_height block <? next_block then ret tt else process_block block target_account_id) blocks.

Definition set_sent (l : list ProcessingEvent) (p : BlockProcessor) : BlockProcessor :=
  mkBlockProcessor (wallet_index_to_account_id p) (account_view_keys p) (wallet_events p) l
    (current_block p) (bp_tip_height p) (has_pending_outbound p) (required_confirmations p) (webhook_config p).

(** The blocks are processed in one database transaction, in a task of their own,
    whose panic is an error here.  On an error the database is rolled back and the
    processor, which was taken, is lost; what it emitted stays emitted. *)
Definition process_blocks (blocks : list BlockScanResult) (target_account_id : Z)
    (has_pending : bool) (next_block : Z) : ScanM (list WalletEvent) := fun s =>
  match blocks with
  | [] => (Ok [], s)
  | _ =>
      match handler s with
      | None => (Err (Fatal (AnyMsg "BlockProcessor not initialized")), s)
      | Some p =>
          let p := BlockProc.set_webhook_config (cf_webhook_config self) (set_has_pending_outbound has_pending p) in
          match process_new_blocks blocks target_account_id next_block (set_sent (channel s) p, db s) with
          | (Ok _, (p', d')) =>
              let '(events, p'') := take_wallet_events p' in
              (Ok events, set_db d' (set_channel (sent p') (set_handler (Some p'') s)))
          | (Err e, (p', _)) =>
              (Err (ScanDbError (Unexpected (block_processor_error_to_string e))),
               set_channel (sent p') (set_handler None s))
          | (Panic msg, (p', _)) =>
              (Err (Fatal (AnyMsg ("Block processing task failed: " +:+ join_error_text msg))),
               set_channel (sent p') (set_handler None s))
          end
      end
  end.

Definition prune_tips (account_id height : Z) : ScanM unit :=
  on_loop_db ScanDbError (prune_scanned_tip_blocks account_id height).

(** ** Reorgs, pauses, polling *)
Context (get_header_by_height : Z -> outcome string (option string)).

Definition emit_reorg_event (account_id : Z) (info : ReorgInformation) (resume_height : Z) : ScanM unit :=
  emit (ReorgDetected (mkReorgDetectedEvent account_id (rolled_back_from_height info) resume_height
    (rolled_back_blocks_count info) (ri_invalidated_output_hashes info) (ri_cancelled_transaction_ids info)
    (ri_reorganized_displayed_transactions info))).

Definition check_target_reorg (account_id : Z) : ScanM unit :=
  let! res := on_loop_db Fatal (handle_reorgs get_header_by_height account_id (cf_webhook_config self)) in
  match reorg_information res with
  | Some info =>
      emit_reorg_event account_id info (resume_height res) ;;;
      modify (fun s => set_targets (update_target account_id (set_next (resume_height res)) (targets s)) s)
  | None => ret tt
  end.

Definition check_global_reorgs : ScanM unit :=
  let! ids := gets (fun s => map tg_account_id (targets s)) in
  for_each check_target_reorg ids.

Definition handle_pause (reason : PauseReason) : ScanM (list WalletEvent * bool) :=
  let! ts := gets targets in
  for_each (fun t => emit_status (Paused (tg_account_id t) (u64_saturating_sub (next_block_to_scan t) 1) reason))
    ts ;;;
  let! events := gets all_events in
  ret (events, true).

(** [interrupted]: the token was cancelled during the sleep. *)
Definition wait_for_next_poll_cycle (interval : Z) (interrupted : bool) : ScanM unit :=
  modify (fun s => set_targets
    (map (fun t => set_next (u64_saturating_sub (next_block_to_scan t) 1) t) (targets s)) s) ;;;
  let! ts := gets targets in
  for_each (fun t => emit_status (Waiting (tg_account_id t) interval)) ts ;;;
  if interrupted then ret tt else check_global_reorgs.

(** ** One batch of blocks *)
Definition emit_monitor_events (account_id height : Z) (res : MonitoringResult) : ScanM unit :=
  match updated_displayed_transactions res with
  | [] => ret tt
  | l =>
      emit (TransactionsUpdated (mkTransactionsUpdatedEvent account_id l)) ;;;
      emit (TransactionsReady (mkDisplayedTransactionsEvent account_id l (Some height) false))
  end.

(** [transaction_monitor.monitor_if_needed] with the target's flag. *)
Definition run_monitor (account_id height : Z) : ScanM MonitoringResult := fun s =>
  let flag := match find_target account_id (targets s) with
    | Some t => tg_has_pending_outbound t
    | None => false
    end in
  let monitor := mkTransactionMonitor (cf_required_confirmations self) (cf_webhook_config self) in
  let '(r, (flag', d')) := monitor_if_needed monitor account_id height (flag, db s) in
  (outcome_map_err Fatal r,
   set_db d' (set_targets (update_target account_id (set_pending flag') (targets s)) s)).

(** What follows the processing of a batch when the account made progress. *)
Definition after_progress (account_id last_height : Z) (limit : option nat) : ScanM unit :=
  let! monitor_res := run_monitor account_id last_height in
  push_events (mr_wallet_events monitor_res) limit ;;;
  emit_monitor_events account_id last_height monitor_res ;;;
  prune_tips account_id last_height ;;;
  let! total := gets total_scanned_globally in
  emit_status (Progress account_id last_height total).

Definition scan_account (blocks : list BlockScanResult) (limit : option nat) (account_id : Z) : ScanM unit :=
  let! ts := gets targets in
  let! target := lift (ok_or (find_target account_id ts)
    (Fatal (AnyMsg ("Unknown active account id: " +:+ pretty account_id)))) in
  let! events := process_blocks blocks account_id (tg_has_pending_outbound target)
    (next_block_to_scan target) in
  push_events events limit ;;;
  match last blocks with
  | None => ret tt
  | Some last_block =>
      let! h := lift (u64_add (blk_height last_block) 1) in
      modify (fun s => set_targets (update_target account_id (set_next h) (targets s)) s) ;;;
      let! next := gets (fun s => next_block_to_scan <$> find_target account_id (targets s)) in
      if match next with Some n => blk_height last_block >=? n | None => false end
      then after_progress account_id (blk_height last_block) limit
      else ret tt
  end.

(** One message of the stream; [true] when it was empty, which ends the stream. *)
Definition scan_batch (ids : list Z) (limit : option nat) (global_next : Z)
    (response : outcome string (list BlockScanResult)) : ScanM bool :=
  let! scanned_blocks := lift (outcome_map_err Intermittent response) in
  match scanned_blocks with
  | [] => ret true
  | _ =>
      for_each (fun id => emit_status (MoreBlocksAvailable id (u64_saturating_sub global_next 1))) ids ;;;
      for_each (scan_account scanned_blocks limit) ids ;;;
      let new_blocks_count := Z.of_nat (length scanned_blocks) in
      let! since := gets blocks_since_reorg_check in
      let! total := gets total_scanned_globally in
      let! since := lift (u64_add since new_blocks_count) in
      let! total := lift (u64_add total new_blocks_count) in
      modify (set_counters total since) ;;;
      (if since >=? reorg_check_interval self then
        check_global_reorgs ;;;
        modify (fun s => set_counters (total_scanned_globally s) 0 s)
      else ret tt) ;;;
      ret false
  end.

(** [while let Some(response) = utxo_stream.recv().await]; the result is
    [is_batch_empty]. *)
Fixpoint drain_stream (ids : list Z) (limit : option nat) (global_next : Z) (is_batch_empty : bool)
    (stream : list (outcome string (list BlockScanResult))) : ScanM bool :=
  match stream with
  | [] => ret is_batch_empty
  | response :: stream' =>
      let! empty := scan_batch ids limit global_next response in
      if empty : bool then ret true else drain_stream ids limit global_next false stream'
  end.

(** ** The loop *)
Context (connect : outcome string unit).
(** The stream of a turn, for a scanner with these key managers. *)
Context (scan_blocks : nat -> list Z -> ScanConfig -> outcome string (list (outcome string (list BlockScanResult)))).
Context (cancelled interrupted : nat -> bool).

Definition max_buffered_events (mode : ScanMode) : option nat :=
  match mode with Continuous _ => Some MAX_CONTINUOUS_BUFFERED_EVENTS | _ => None end.

(** [Completed] for each active account. *)
Definition emit_completed (ids : list Z) : ScanM unit :=
  let! ts := gets targets in
  let! total := gets total_scanned_globally in
  for_each (fun id =>
    let! target := lift (ok_or (find_target id ts)
      (Fatal (AnyMsg ("Unknown active account id: " +:+ pretty id)))) in
    emit_status (ScanCompleted id (u64_saturating_sub (next_block_to_scan target) 1) total)) ids.

(** The limit of a partial scan, once it is reached. *)
Definition limit_reached (mode : ScanMode) (total : Z) : option Z :=
  match mode with
  | Partial max_blocks => if total >=? max_blocks then Some max_blocks else None
  | _ => None
  end.

(** The end of a turn: [Some] is the result of the scan. *)
Definition finish_turn (turn : nat) (mode : ScanMode) (ids : list Z) (is_batch_empty : bool) :
    ScanM (option (list WalletEvent * bool)) :=
  let! total := gets total_scanned_globally in
  match limit_reached mode total with
  | Some max_blocks => let! r := handle_pause (MaxBlocksReached max_blocks) in ret (Some r)
  | None =>
      if is_batch_empty then
        emit_completed ids ;;;
        match mode with
        | Continuous poll_interval =>
            wait_for_next_poll_cycle poll_interval (interrupted turn) ;;; ret None
        | _ => let! events := gets all_events in ret (Some (events, false))
        end
      else ret None
  end.

Definition scan_turn (turn : nat) (mode : ScanMode) : ScanM (option (list WalletEvent * bool)) :=
  if cancelled turn then
    let! r := handle_pause Cancelled in ret (Some r)
  else
    let! ts := gets targets in
    let! total := gets total_scanned_globally in
    let! manager := gets state_manager in
    let global_next := global_next_block ts in
    let ids := active_account_ids ts in
    let! (kms, config, manager) := lift (get_scanner_and_config connect ids global_next
      (end_height mode ts total) (effective_batch_size (cf_batch_size self) ts) ts manager) in
    modify (set_state_manager manager) ;;;
    let! stream := lift (outcome_map_err Intermittent (scan_blocks turn kms config)) in
    let! is_batch_empty := drain_stream ids (max_buffered_events mode) global_next false stream in
    finish_turn turn mode ids is_batch_empty.

(** The scan, for at most [fuel] turns: in continuous mode it runs until it is
    cancelled or fails. *)
Fixpoint unified_scan_loop (fuel turn : nat) (mode : ScanMode) : ScanM (option (list WalletEvent * bool)) :=
  match fuel with
  | O => ret None
  | S fuel =>
      let! r := scan_turn turn mode in
      match r with
      | Some r => ret (Some r)
      | None => unified_scan_loop fuel (S turn) mode
      end
  end.

(** The state the loop starts in: the processor knows all the targets, in order. *)
Definition initial_state (d : Db) (ts : list AccountSyncTarget) : LoopState :=
  mkLoopState d ts []
    (Some (with_event_sender (map (fun t => (tg_account_id t, tg_view_key t)) ts) false
      (cf_required_confirmations self)))
    [] 0 0 ScannerStateManager_new.

End Coordinator.
