(* ===== verification/ScanSetup.v ===== *)
(** * Preparing a scan ([minotari/src/scan/config.rs], [scan/builder.rs] and the preparation
    of the targets in [scan/coordinator.rs])

    The builder collects the options of a scan; [run] prepares a target per account, after
    a check for reorgs, and hands them to the loop of [Coordinator].

    The opening of the database, the creation of the scanners and of the client and the
    answers of the base node are parameters. *)
From S2P Require Import Prelude Models DisplayTypes External Schema AccountsDb Crypto Webhooks ScanEvents.
From S2P Require Import Scanning BlockProc Reorg Monitor HttpScanner Coordinator.
#[local] Open Scope Z_scope.

(** ** Defaults ([config.rs]); durations are in seconds *)
Definition DEFAULT_SCAN_TIMEOUT : Z := 60 * 5.
Definition DEFAULT_MAX_TIMEOUT_RETRIES : Z := 3.
Definition DEFAULT_MAX_ERROR_RETRIES : Z := 3.
Definition DEFAULT_ERROR_BACKOFF_BASE_SECS : Z := 2.
Definition DEFAULT_SCANNING_OFFSET_DAYS : Z := 2.
Definition OPTIMAL_SCANNING_THREADS : Z := 0.

Record ScanTimeoutConfig := mkScanTimeoutConfig {
  tc_timeout : Z;
  tc_max_retries : Z;
}.

Definition ScanTimeoutConfig_default : ScanTimeoutConfig :=
  mkScanTimeoutConfig DEFAULT_SCAN_TIMEOUT DEFAULT_MAX_TIMEOUT_RETRIES.

Record ScanRetryConfig := mkScanRetryConfig {
  rc_timeout : Z;
  rc_max_timeout_retries : Z;
  rc_max_error_retries : Z;
  rc_error_backoff_base_secs : Z;
}.

Definition ScanRetryConfig_default : ScanRetryConfig :=
  mkScanRetryConfig DEFAULT_SCAN_TIMEOUT DEFAULT_MAX_TIMEOUT_RETRIES DEFAULT_MAX_ERROR_RETRIES
    DEFAULT_ERROR_BACKOFF_BASE_SECS.

Definition retry_config_of_timeout (config : ScanTimeoutConfig) : ScanRetryConfig :=
  mkScanRetryConfig (tc_timeout config) (tc_max_retries config) DEFAULT_MAX_ERROR_RETRIES
    DEFAULT_ERROR_BACKOFF_BASE_SECS.

(** ** The builder ([builder.rs]) *)
Record Scanner := mkScanBuilder {
  sb_password : string;
  sb_account_name : option string;
  sb_batch_size : Z;
  sb_processing_threads : Z;
  sb_scanning_offset : Z;
  sb_reorg_check_interval : Z;
  sb_mode : ScanMode;
  sb_retry_config : ScanRetryConfig;
  sb_required_confirmations : Z;
  sb_webhook_config : option WebhookTriggerConfig;
}.

(** The base URL, the database file and the token are in the parameters of [run_internal]. *)
Definition Scanner_new (password : string) (batch_size required_confirmations : Z) : Scanner :=
  mkScanBuilder password None batch_size OPTIMAL_SCANNING_THREADS DEFAULT_SCANNING_OFFSET_DAYS 1000 Full
    ScanRetryConfig_default required_confirmations None.

Definition account (name : string) (s : Scanner) : Scanner :=
  mkScanBuilder (sb_password s) (Some name) (sb_batch_size s) (sb_processing_threads s) (sb_scanning_offset s)
    (sb_reorg_check_interval s) (sb_mode s) (sb_retry_config s) (sb_required_confirmations s) (sb_webhook_config s).
Definition mode (m : ScanMode) (s : Scanner) : Scanner :=
  mkScanBuilder (sb_password s) (sb_account_name s) (sb_batch_size s) (sb_processing_threads s) (sb_scanning_offset s)
    (sb_reorg_check_interval s) m (sb_retry_config s) (sb_required_confirmations s) (sb_webhook_config s).
Definition processing_threads (threads : Z) (s : Scanner) : Scanner :=
  mkScanBuilder (sb_password s) (sb_account_name s) (sb_batch_size s) threads (sb_scanning_offset s)
    (sb_reorg_check_interval s) (sb_mode s) (sb_retry_config s) (sb_required_confirmations s) (sb_webhook_config s).
Definition builder_reorg_check_interval (interval : Z) (s : Scanner) : Scanner :=
  mkScanBuilder (sb_password s) (sb_account_name s) (sb_batch_size s) (sb_processing_threads s) (sb_scanning_offset s)
    interval (sb_mode s) (sb_retry_config s) (sb_required_confirmations s) (sb_webhook_config s).
Definition retry_config (config : ScanRetryConfig) (s : Scanner) : Scanner :=
  mkScanBuilder (sb_password s) (sb_account_name s) (sb_batch_size s) (sb_processing_threads s) (sb_scanning_offset s)
    (sb_reorg_check_interval s) (sb_mode s) config (sb_required_confirmations s) (sb_webhook_config s).
Definition timeout_config (config : ScanTimeoutConfig) (s : Scanner) : Scanner :=
  retry_config (retry_config_of_timeout config) s.
Definition builder_webhook_config (config : WebhookTriggerConfig) (s : Scanner) : Scanner :=
  mkScanBuilder (sb_password s) (sb_account_name s) (sb_batch_size s) (sb_processing_threads s) (sb_scanning_offset s)
    (sb_reorg_check_interval s) (sb_mode s) (sb_retry_config s) (sb_required_confirmations s) (Some config).

Definition on_retry_config (f : ScanRetryConfig -> ScanRetryConfig) (s : Scanner) : Scanner :=
  retry_config (f (sb_retry_config s)) s.
Definition scan_timeout (timeout : Z) : Scanner -> Scanner := on_retry_config (fun c =>
  mkScanRetryConfig timeout (rc_max_timeout_retries c) (rc_max_error_retries c) (rc_error_backoff_base_secs c)).
Definition max_timeout_retries (retries : Z) : Scanner -> Scanner := on_retry_config (fun c =>
  mkScanRetryConfig (rc_timeout c) retries (rc_max_error_retries c) (rc_error_backoff_base_secs c)).
Definition max_scan_retries (retries : Z) : Scanner -> Scanner := on_retry_config (fun c =>
  mkScanRetryConfig (rc_timeout c) retries (rc_max_error_retries c) (rc_error_backoff_base_secs c)).
Definition builder_max_error_retries (retries : Z) : Scanner -> Scanner := on_retry_config (fun c =>
  mkScanRetryConfig (rc_timeout c) (rc_max_timeout_retries c) retries (rc_error_backoff_base_secs c)).
Definition builder_error_backoff_base_secs (secs : Z) : Scanner -> Scanner := on_retry_config (fun c =>
  mkScanRetryConfig (rc_timeout c) (rc_max_timeout_retries c) (rc_max_error_retries c) secs).

(** ** The scanners and the client of a scan *)
Section Setup.
Context {X : Ext} {S0 : StdOrder} {C : TxClient} {CE : CryptoExt} {W : WalletExt} {SX : ScanningExt X}.

(** The environment of a scan: the requests for connections, the creation of the HTTP
    clients, whether the base node can be reached, the keys as the scanner takes them,
    and the base node's answers. *)
Record ScanEnv := mkScanEnv {
  init_db : outcome WalletDbError unit;
  pool : nat -> outcome string unit;
  parse_base_url : outcome string unit;
  wallet_client : outcome string unit;
  scanner_client : outcome string unit;
  reached : string -> bool;
  num_cpus : Z;
  node_url : string;
  scanning_keys : AccountKeys -> KeyManager;
  BIRTHDAY_GENESIS_FROM_UNIX_EPOCH : Z;
  get_header_by_height : Z -> outcome string (option string);
  get_height_at_time : Z -> outcome string Z;
  scan_blocks : nat -> list Z -> ScanConfig -> outcome string (list (outcome string (list BlockScanResult)));
  token_cancelled : nat -> bool;
  sleep_interrupted : nat -> bool;
}.
Context (env : ScanEnv).

Definition create_reorg_scanner (key_manager : AccountKeys) : outcome ScanError HttpBlockchainScanner :=
  outcome_map_err (fun e => Intermittent (wallet_error_to_string e))
    (HttpScanner.new (scanner_client env) (reached env) (num_cpus env) (node_url env)
      [scanning_keys env key_manager] OPTIMAL_SCANNING_THREADS).

(** The scanner of the loop: its creation fails for the same reasons, whatever the keys. *)
Definition connect_scanner (config : ScanRetryConfig) (threads : Z) (key_manager : AccountKeys) : outcome string unit :=
  outcome_bind (outcome_map_err wallet_error_to_string
    (with_timeout (scanner_client env) (reached env) (num_cpus env) (node_url env) (rc_timeout config)
      [scanning_keys env key_manager] threads (rc_max_error_retries config) (rc_error_backoff_base_secs config)))
    (fun _ => Ok tt).

(** ** Targets *)
Definition keys_of (account : AccountRow) (password : string) : outcome ScanError AccountKeys :=
  outcome_map_err ScanDbError (get_key_manager account password).

(** The seconds since the epoch at which the scan of a new wallet starts. *)
Definition birthday_time (birthday scanning_offset : Z) : outcome ScanError Z :=
  outcome_bind (u64_mul (u64_saturating_sub (as_u64 birthday) scanning_offset) 24) (fun hours =>
  outcome_bind (u64_mul hours 60) (fun minutes =>
  outcome_bind (u64_mul minutes 60) (fun secs => u64_add secs (BIRTHDAY_GENESIS_FROM_UNIX_EPOCH env)))).

Definition prepare_target (webhooks : option WebhookTriggerConfig) (account : AccountRow) (password : string)
    (scanning_offset : Z) : M Db ScanError AccountSyncTarget :=
  let! key_manager := lift (keys_of account password) in
  let view_key := get_private_view_key key_manager in
  let! reorg_result := map_err Fatal (handle_reorgs (get_header_by_height env) (a_id account) webhooks) in
  let! next_block :=
    (if resume_height reorg_result =? 0 then
       let! timestamp := lift (birthday_time (a_birthday account) scanning_offset) in
       lift (outcome_map_err (fun e => Fatal (AnyMsg e)) (get_height_at_time env timestamp))
     else ret (resume_height reorg_result)) in
  let! has_pending_outbound := (fun d =>
    let '(r, (flag, d')) := initialize (a_id account) (false, d) in
    (outcome_map_err Fatal (outcome_bind r (fun _ => Ok flag)), d')) in
  ret (mkTarget (a_id account) view_key next_block has_pending_outbound).

Definition prepare_targets (webhooks : option WebhookTriggerConfig) (accounts : list AccountRow) (password : string)
    (scanning_offset : Z) : M Db ScanError (list AccountSyncTarget) :=
  fold_m (fun sync_targets account =>
    let! target := prepare_target webhooks account password scanning_offset in
    ret (sync_targets ++ [target])) [] accounts.

(** ** The scan *)

(** [ScanCoordinator::new] builds the client of the wallet. *)
Definition coordinator_new : outcome ScanError unit :=
  outcome_bind (outcome_map_err (fun e => Fatal (AnyMsg ("Invalid Base URL: " +:+ e))) (parse_base_url env)) (fun _ =>
  outcome_map_err (fun e => Fatal (AnyMsg e)) (wallet_client env)).

Definition coordinator_config (self : Scanner) : Config :=
  mkConfig (sb_required_confirmations self) (sb_webhook_config self) (sb_reorg_check_interval self)
    (sb_batch_size self).

(** The database and the events sent so far. *)
Definition RunM (A : Type) : Type := M (Db * list ProcessingEvent) ScanError A.

Definition run_db {A} (m : M Db ScanError A) : RunM A := fun '(d, sent) =>
  let '(r, d') := m d in (r, (d', sent)).

Definition run_loop (self : Scanner) (connect : outcome string unit) (targets : list AccountSyncTarget) (fuel : nat) :
    RunM (option (list WalletEvent * bool)) := fun '(d, sent) =>
  let '(r, s) := unified_scan_loop (coordinator_config self) (get_header_by_height env) connect (scan_blocks env)
    (token_cancelled env) (sleep_interrupted env) fuel 0 (sb_mode self)
    (set_channel sent (initial_state (coordinator_config self) d targets)) in
  (r, (db s, channel s)).

(** [ScanCoordinator::run]; [None]: still scanning after [fuel] turns. *)
Definition coordinator_run (self : Scanner) (accounts : list AccountRow) (fuel : nat) :
    RunM (option (list WalletEvent * bool)) :=
  match accounts with
  | [] => ret (Some ([], false))
  | first :: _ =>
      lift (outcome_map_err (fun e => ScanDbError (Models.ConnectionError e)) (pool env 1)) ;;;
      let! first_km := lift (keys_of first (sb_password self)) in
      let! _reorg_scanner := lift (create_reorg_scanner first_km) in
      let! sync_targets := run_db (prepare_targets (sb_webhook_config self) accounts (sb_password self)
        (sb_scanning_offset self)) in
      run_loop self (connect_scanner (sb_retry_config self) (sb_processing_threads self) first_km) sync_targets fuel
  end.

Definition run_internal (self : Scanner) (fuel : nat) : RunM (option (list WalletEvent * bool)) :=
  lift (outcome_map_err ScanDbError (init_db env)) ;;;
  lift (outcome_map_err (fun e => ScanDbError (Models.ConnectionError e)) (pool env 0)) ;;;
  let! accounts := run_db (map_err ScanDbError (get_accounts (sb_account_name self))) in
  lift coordinator_new ;;;
  coordinator_run self accounts fuel.

End Setup.
