(* ===== verification/Daemon.v ===== *)
(** * The daemon ([minotari/src/daemon.rs])

    The daemon scans, sleeps and scans again, next to the API server and the workers that
    unlock expired transactions, complete burn proofs and deliver webhooks, until Ctrl-C or
    an error of the scan that is not worth a retry.  A cycle of a task is one step: its
    parameters (the answers of the node, the connections, the time) are arguments of the
    step, and the tasks step in any order. *)
From S2P Require Import Prelude Models DisplayTypes External Schema AccountsDb Crypto Webhooks ScanEvents Scanning.
From S2P Require Import BlockProc InputSelector FundLocker Monitor HttpScanner Burn Api Coordinator ScanSetup.
From stdpp Require Import relations.
#[local] Open Scope Z_scope.

(** [webhooks/worker.rs]. *)
Record WebhookWorkerConfig := mkWebhookWorkerConfig {
  ww_enabled : bool;
  ww_secret : option string;
  ww_send_only_event_types : option (list string);
}.

(** The network is part of the parameters, as everywhere. *)
Record Daemon := mkDaemon {
  dm_password : string;
  dm_base_url : string;
  dm_database_file : string;
  dm_max_blocks : Z;
  dm_batch_size : Z;
  dm_scan_interval : Z;
  dm_api_port : Z;
  dm_required_confirmations : Z;
  dm_webhook_config : WebhookWorkerConfig;
  dm_webhook_trigger_config : option WebhookTriggerConfig;
  dm_burn_proofs_dir : string;
}.

Definition Daemon_new (password base_url database_file : string)
    (max_blocks batch_size scan_interval_secs api_port required_confirmations : Z)
    (webhook_url webhook_secret : option string) (send_only_event_types : option (list string))
    (burn_proofs_dir : string) : Daemon :=
  mkDaemon password base_url database_file max_blocks batch_size scan_interval_secs api_port required_confirmations
    (mkWebhookWorkerConfig (bool_decide (is_Some webhook_url) && bool_decide (is_Some webhook_secret)) webhook_secret
      send_only_event_types)
    ((fun url => mkWebhookTriggerConfig url send_only_event_types) <$> webhook_url) burn_proofs_dir.

(** The scan of a cycle. *)
Definition cycle_scanner (self : Daemon) : Scanner :=
  let scanner := mode (Partial (dm_max_blocks self))
    (Scanner_new (dm_password self) (dm_batch_size self) (dm_required_confirmations self)) in
  match dm_webhook_trigger_config self with
  | Some cfg => builder_webhook_config cfg scanner
  | None => scanner
  end.

(** ** The state of a running daemon *)
Inductive Task := UnlockerTask | BurnProofTask | WebhookTask | ApiTask | CtrlCTask.
#[export] Instance Task_dec : EqDecision Task.
Proof. solve_decision. Defined.

Definition tasks : list Task := [ApiTask; UnlockerTask; BurnProofTask; WebhookTask; CtrlCTask].

Inductive TaskState := Running | Finished | Panicked (msg : string).

(** The scan loop scans, sleeps for an interval, or has ended with a result. *)
Inductive ScannerPhase := ScanningBlocks | Sleeping | Ended (r : outcome ScanError unit).

Record DaemonState := mkDaemonState {
  dn_files : Files;
  dn_db : Db;
  dn_scanner : ScannerPhase;
  (** The shutdown signal was sent. *)
  dn_signalled : bool;
  dn_task : Task -> TaskState;
}.

Definition set_wallet (files : Files) (d : Db) (s : DaemonState) : DaemonState :=
  mkDaemonState files d (dn_scanner s) (dn_signalled s) (dn_task s).
Definition set_phase (phase : ScannerPhase) (s : DaemonState) : DaemonState :=
  mkDaemonState (dn_files s) (dn_db s) phase (dn_signalled s) (dn_task s).
Definition signal_shutdown (s : DaemonState) : DaemonState :=
  mkDaemonState (dn_files s) (dn_db s) (dn_scanner s) true (dn_task s).
Definition set_task (t : Task) (st : TaskState) (s : DaemonState) : DaemonState :=
  mkDaemonState (dn_files s) (dn_db s) (dn_scanner s) (dn_signalled s)
    (fun t' => if decide (t = t') then st else dn_task s t').

(** What a task is after a cycle: an error is logged, a panic ends it. *)
Definition after_tick {E A} (r : outcome E A) : TaskState := match r with Panic msg => Panicked msg | _ => Running end.

Section Daemon.
Context {X : Ext} {S0 : StdOrder} {SE : SelectionExt} {C : TxClient} {CE : CryptoExt} {W : WalletExt}.
Context {SX : ScanningExt X} {BX : BurnExt} {AX : ApiExt}.

(** ** The workers *)

(** [TransactionUnlocker::run]: without a connection, [?] ends the task. *)
Definition unlocker_tick (connection : outcome string unit) (s : DaemonState) : DaemonState :=
  match connection with
  | Ok _ =>
      let '(r, d) := unlock_expired_transactions (dn_db s) in
      set_task UnlockerTask (after_tick r) (set_wallet (dn_files s) d s)
  | Err _ => set_task UnlockerTask Finished s
  | Panic msg => set_task UnlockerTask (Panicked msg) s
  end.

(** [BurnProofWorker::run]: the connection is requested inside the cycle. *)
Definition burn_proof_tick {WX : WorkerExt} (dir : outcome string unit)
    (to_json : CompleteClaimBurnProof -> outcome string string) (write : string -> string -> outcome string unit)
    (torn : string -> string -> option string) (connection : outcome string unit) (s : DaemonState) : DaemonState :=
  let '(r, (files, d)) := bind (lift connection) (fun _ => process_pending_proofs dir to_json write torn)
    (dn_files s, dn_db s) in
  set_task BurnProofTask (after_tick r) (set_wallet files d s).

(** [WebhookWorker::run]. *)
Definition webhook_worker_starts (config : WebhookWorkerConfig) : bool :=
  ww_enabled config && bool_decide (is_Some (ww_secret config)).

Definition webhook_tick (config : WebhookWorkerConfig) (sender : Z -> string -> string -> string -> DeliveryResult)
    (draw : Z -> Z) (plus : bool) (connection : outcome string unit) (s : DaemonState) : DaemonState :=
  match connection, ww_secret config with
  | Ok _, Some secret =>
      let '(r, d) := process_batch sender draw plus secret (dn_db s) in
      set_task WebhookTask (after_tick r) (set_wallet (dn_files s) d s)
  | Err _, _ => s
  | _, _ => set_task WebhookTask (Panicked "called `Option::unwrap()` on a `None` value") s
  end.

(** ** The scan loop *)

(** What the loop does at the end of a cycle; [None]: the scan has not ended.  After a scan
    the loop sleeps in [scan_and_sleep], after an error worth a retry in
    [wait_for_next_cycle]. *)
Definition after_cycle (r : outcome ScanError (option (list WalletEvent * bool))) : option ScannerPhase :=
  match r with
  | Ok (Some _) => Some Sleeping
  | Ok None => None
  | Err (Fatal e) => Some (Ended (Err (Fatal e)))
  | Err (Intermittent _) => Some Sleeping
  | Err (ScanDbError e) => Some (Ended (Err (ScanDbError e)))
  | Err (Timeout _) => Some Sleeping
  | Panic msg => Some (Ended (Panic msg))
  end.

(** A scan that [select!] drops stops where it waits: like one whose awaited operation never
    answers, which is [Panic] here, or one that is still scanning. *)
Definition dropped (r : outcome ScanError (option (list WalletEvent * bool))) : bool :=
  match r with
  | Ok None | Panic _ => true
  | _ => false
  end.

(** ** Starting *)

(** [env] has the opening of the database and the clients; [bind] is that of the listener. *)
Definition daemon_starts (env : ScanEnv) (base_url addr : string) (bind : outcome string unit) : outcome ScanError unit :=
  outcome_bind (outcome_map_err ScanDbError (init_db env)) (fun _ =>
  outcome_bind (outcome_map_err (fun e => Fatal (AnyMsg ("Invalid base URL '" +:+ base_url +:+ "': " +:+ e)))
    (parse_base_url env)) (fun _ =>
  outcome_bind (outcome_map_err (fun e => Fatal (AnyMsg e)) (wallet_client env)) (fun _ =>
  outcome_map_err (fun e => Fatal (AnyMsg ("Failed to bind API server to " +:+ addr +:+ ": " +:+ e))) bind))).

Definition daemon_start (self : Daemon) (files : Files) (d : Db) : DaemonState :=
  mkDaemonState files d ScanningBlocks false (fun t =>
    match t with
    | WebhookTask => if webhook_worker_starts (dm_webhook_config self) then Running else Finished
    | _ => Running
    end).

(** ** Steps *)
Inductive daemon_step (self : Daemon) : DaemonState -> DaemonState -> Prop :=
| ds_cycle env fuel s r d sent phase :
    dn_scanner s = ScanningBlocks ->
    run_internal env (cycle_scanner self) fuel (dn_db s, []) = (r, (d, sent)) -> after_cycle r = Some phase ->
    daemon_step self s (set_phase phase (set_wallet (dn_files s) d s))
| ds_wake s : dn_scanner s = Sleeping -> daemon_step self s (set_phase ScanningBlocks s)
| ds_drop env fuel s r d sent :
    dn_scanner s = ScanningBlocks -> dn_signalled s = true ->
    run_internal env (cycle_scanner self) fuel (dn_db s, []) = (r, (d, sent)) -> dropped r = true ->
    daemon_step self s (set_phase (Ended (Ok tt)) (set_wallet (dn_files s) d s))
| ds_exit s :
    dn_scanner s = Sleeping -> dn_signalled s = true ->
    daemon_step self s (set_phase (Ended (Ok tt)) s)
| ds_ended s r : dn_scanner s = Ended r -> daemon_step self s (signal_shutdown s)
| ds_ctrl_c s : dn_task s CtrlCTask = Running -> daemon_step self s (set_task CtrlCTask Finished (signal_shutdown s))
| ds_unlocker connection s :
    dn_task s UnlockerTask = Running -> daemon_step self s (unlocker_tick connection s)
| ds_burn_proofs {WX : WorkerExt} dir to_json write torn connection s :
    dn_task s BurnProofTask = Running -> daemon_step self s (burn_proof_tick dir to_json write torn connection s)
| ds_webhooks sender draw plus connection s :
    dn_task s WebhookTask = Running ->
    daemon_step self s (webhook_tick (dm_webhook_config self) sender draw plus connection s)
| ds_request app_state u0 u1 u2 req s :
    dn_task s ApiTask = Running ->
    daemon_step self s (set_wallet (dn_files s) (snd (serve app_state u0 u1 u2 req (dn_db s))) s)
| ds_stop t s :
    dn_signalled s = true -> dn_task s t = Running -> t <> CtrlCTask -> daemon_step self s (set_task t Finished s)
| ds_api_fails msg s :
    dn_task s ApiTask = Running -> daemon_step self s (set_task ApiTask (Panicked msg) s)
| ds_time now s : daemon_step self s (set_wallet (dn_files s) (with_clock now (dn_db s)) s).

Definition daemon_runs (self : Daemon) (files : Files) (d : Db) : DaemonState -> Prop :=
  rtc (daemon_step self) (daemon_start self files d).

(** ** The result of [run] *)
Definition finished (st : TaskState) : bool := match st with Finished => true | _ => false end.
Definition panicked (st : TaskState) : option string := match st with Panicked msg => Some msg | _ => None end.

(** [try_join!]: the first panic, or the end of every task; [join_text] is the text of the
    panic of a task. *)
Definition join_tasks (join_text : string -> string) (s : DaemonState) : option (outcome ScanError unit) :=
  match omap (fun t => panicked (dn_task s t)) tasks with
  | msg :: _ => Some (Err (Fatal (AnyMsg ("A task panicked during shutdown: " +:+ join_text msg))))
  | [] => if forallb (fun t => finished (dn_task s t)) tasks then Some (Ok tt) else None
  end.

(** [None]: still running. *)
Definition daemon_result (join_text : string -> string) (s : DaemonState) : option (outcome ScanError unit) :=
  match dn_scanner s with
  | Ended (Ok _) => if dn_signalled s then join_tasks join_text s else None
  | Ended (Err e) => if dn_signalled s then Some (Err e) else None
  | Ended (Panic msg) => Some (Panic msg)
  | _ => None
  end.

End Daemon.
