(* ===== verification/Config.v ===== *)
(** * The configuration ([minotari/src/config/])

    The configuration file, written with the defaults when there is none, is read with the
    environment; the network of the command line goes before the one of the file, and the
    arguments of a command before both. *)
From S2P Require Import Prelude Burn.
#[local] Open Scope Z_scope.

(** The network and the [config] crate. *)
Class ConfigExt := {
  Network : Type;
  MainNet : Network;
  default_network : Network;
  network_to_string : Network -> string;
  as_key_str : Network -> string;
  network_from_str : string -> outcome string Network;
  (** [dirs_next::data_dir] and [PathBuf::join]. *)
  data_dir : option string;
  path_join : string -> string -> string;
  Config : Type;
  (** The sources: the file's contents and the environment. *)
  build_config : option string -> outcome string Config;
  (** [NotFound] is [Ok None]. *)
  get_string : Config -> string -> outcome string (option string);
  set_override : Config -> string -> string -> outcome string Config;
  (** The file of [include_str!]. *)
  get_default_config : string;
}.

Section Config.
Context {K : ConfigExt}.

(** ** Defaults ([defaults.rs]) *)
Definition default_burn_proofs_dir (network : Network) : string :=
  path_join (path_join (path_join (default "." data_dir) "tari") (as_key_str network)) "burn_proofs".

Record WebhookConfig := mkWebhookConfig {
  wh_url : option string;
  wh_secret : option string;
  wh_send_only_event_types : option (list string);
}.

Record WalletConfig := mkWalletConfig {
  wc_network : Network;
  wc_base_url : string;
  wc_database_path : string;
  wc_batch_size : Z;
  wc_scan_interval_secs : Z;
  wc_api_port : Z;
  wc_confirmation_window : Z;
  wc_account_name : option string;
  wc_webhook : WebhookConfig;
  wc_burn_proofs_dir : option string;
}.

Definition WalletConfig_default : WalletConfig :=
  mkWalletConfig MainNet "https://rpc.tari.com" "data/wallet.db" 25 60 9000 3 None (mkWebhookConfig None None None) None.

Definition effective_burn_proofs_dir (self : WalletConfig) : string :=
  default (default_burn_proofs_dir (wc_network self)) (wc_burn_proofs_dir self).

(** ** Arguments ([cli.rs]) *)
Record DatabaseArgs := mkDatabaseArgs { da_database_path : option string }.
Record NodeArgs := mkNodeArgs { na_base_url : option string; na_batch_size : option Z }.
Record AccountArgs := mkAccountArgs { aa_account_name : option string }.
Record TransactionArgs := mkTransactionArgs { ta_idempotency_key : option string; ta_confirmation_window : option Z }.
Record BurnArgs := mkBurnArgs { ba_burn_proofs_dir : option string }.
Record DaemonArgs := mkDaemonArgs { dg_scan_interval_secs : option Z; dg_api_port : option Z }.

(** [ApplyArgs]: an argument that is given replaces the setting. *)
Definition apply_database (args : DatabaseArgs) (c : WalletConfig) : WalletConfig :=
  mkWalletConfig (wc_network c) (wc_base_url c) (default (wc_database_path c) (da_database_path args)) (wc_batch_size c)
    (wc_scan_interval_secs c) (wc_api_port c) (wc_confirmation_window c) (wc_account_name c) (wc_webhook c)
    (wc_burn_proofs_dir c).
Definition apply_node (args : NodeArgs) (c : WalletConfig) : WalletConfig :=
  mkWalletConfig (wc_network c) (default (wc_base_url c) (na_base_url args)) (wc_database_path c)
    (default (wc_batch_size c) (na_batch_size args)) (wc_scan_interval_secs c) (wc_api_port c)
    (wc_confirmation_window c) (wc_account_name c) (wc_webhook c) (wc_burn_proofs_dir c).
Definition apply_account (args : AccountArgs) (c : WalletConfig) : WalletConfig :=
  mkWalletConfig (wc_network c) (wc_base_url c) (wc_database_path c) (wc_batch_size c) (wc_scan_interval_secs c)
    (wc_api_port c) (wc_confirmation_window c)
    (match aa_account_name args with Some name => Some name | None => wc_account_name c end) (wc_webhook c)
    (wc_burn_proofs_dir c).
Definition apply_transaction (args : TransactionArgs) (c : WalletConfig) : WalletConfig :=
  mkWalletConfig (wc_network c) (wc_base_url c) (wc_database_path c) (wc_batch_size c) (wc_scan_interval_secs c)
    (wc_api_port c) (default (wc_confirmation_window c) (ta_confirmation_window args)) (wc_account_name c)
    (wc_webhook c) (wc_burn_proofs_dir c).
Definition apply_burn (args : BurnArgs) (c : WalletConfig) : WalletConfig :=
  mkWalletConfig (wc_network c) (wc_base_url c) (wc_database_path c) (wc_batch_size c) (wc_scan_interval_secs c)
    (wc_api_port c) (wc_confirmation_window c) (wc_account_name c) (wc_webhook c)
    (match ba_burn_proofs_dir args with Some dir => Some dir | None => wc_burn_proofs_dir c end).
Definition apply_daemon (args : DaemonArgs) (c : WalletConfig) : WalletConfig :=
  mkWalletConfig (wc_network c) (wc_base_url c) (wc_database_path c) (wc_batch_size c)
    (default (wc_scan_interval_secs c) (dg_scan_interval_secs args)) (default (wc_api_port c) (dg_api_port args))
    (wc_confirmation_window c) (wc_account_name c) (wc_webhook c) (wc_burn_proofs_dir c).

(** ** Loading ([loader.rs]); the error of a step has its context in front *)
Definition context {A} (text : string) (r : outcome string A) : outcome string A :=
  outcome_map_err (fun e => text +:+ ": " +:+ e) r.

Definition get_config_property_overrides (network : Network) : list (string * string) :=
  [("wallet.override_from", network_to_string network); ("wallet.network", network_to_string network)].

Definition config_network (cli_network : option Network) (cfg : Config) : outcome string Network :=
  match cli_network with
  | Some val => Ok val
  | None =>
      match get_string cfg "network" with
      | Ok (Some network_str) => context "Invalid network" (network_from_str network_str)
      | Ok None => Ok default_network
      | Err e => context "Could not get network configuration" (Err e)
      | Panic msg => Panic msg
      end
  end.

(** The files, keyed by path; [create_parents] is the creation of the parent directories;
    [write] that of the file, which leaves what [torn] says when it fails. *)
Context (create_parents : string -> outcome string unit) (write : string -> string -> outcome string unit).
Context (torn : string -> string -> option string).

Definition ConfigM (A : Type) : Type := M Files string A.

Definition write_config_to (path source : string) : ConfigM unit :=
  lift (context "Failed to create parent directories" (create_parents path)) ;;;
  let contents := source +:+ newline in
  fun files =>
    match write path contents with
    | Ok _ => (Ok tt, <[path := contents]> files)
    | Err e => (Err ("Failed to write config content: " +:+ e), partial_alter (fun _ => torn path contents) path files)
    | Panic msg => (Panic msg, files)
    end.

Definition load_configuration (path : string) (cli_network : option Network) : ConfigM Config :=
  let! exists_ := gets (fun files => bool_decide (is_Some (files !! path))) in
  (if exists_ then ret tt
   else map_err (fun e => "Could not create default config: " +:+ e) (write_config_to path get_default_config)) ;;;
  let! source := gets (fun files => files !! path) in
  let! cfg := lift (context "Could not build initial config" (build_config source)) in
  let! network := lift (config_network cli_network cfg) in
  lift (context "Could not override config property" (outcome_fold
    (fun cfg '(key, value) => set_override cfg key value) cfg (get_config_property_overrides network))).

End Config.
