(* ===== verification/Log.v ===== *)
(** * Logging ([minotari/src/log/])

    What a log line may show of the wallet: the masks of addresses, names and amounts,
    the environment variable that lifts them, the choice of the configuration, and the
    encoder that adds a record's key-value pairs to its line.  [log4rs] and the terminal
    are parameters. *)
From S2P Require Import Prelude.
From Stdlib Require Import Ascii.
#[local] Open Scope Z_scope.

(** ** Masks ([mod.rs]) *)

(** [str::to_lowercase], compared with ASCII text: no other character has a lower case in ASCII
    but the Kelvin sign, whose [k] neither text has. *)
Definition to_lower (c : ascii) : ascii :=
  let n := N_of_ascii c in
  if (65 <=? n)%N && (n <=? 90)%N then ascii_of_N (n + 32) else c.

Fixpoint to_lowercase (s : string) : string :=
  match s with
  | "" => ""
  | String c s => String (to_lower c) (to_lowercase s)
  end.

(** The variable is read once; [REVEAL_PII_CACHE] keeps the answer. *)
Definition reveal_pii {E} (REVEAL_PII : option string) : M (option bool) E bool := fun cache =>
  let b := match cache with
    | Some b => b
    | None =>
        match REVEAL_PII with
        | Some v => let val := to_lowercase v in String.eqb val "true" || String.eqb val "1"
        | None => false
        end
    end in
  (Ok b, Some b).

(** [str::chars] of UTF-8 bytes: a byte that continues a character belongs to the one before it. *)
Definition continues (ch : string) : bool :=
  match ch with
  | String c _ => is_continuation c
  | "" => false
  end.

Fixpoint chars (s : string) : list string :=
  match s with
  | "" => []
  | String c s =>
      match chars s with
      | ch :: chs => if continues ch then String c ch :: chs else String c "" :: ch :: chs
      | [] => [String c ""]
      end
  end.

(** [collect::<String>()]. *)
Definition collect (l : list string) : string := String.concat "" l.

(** What is shown of a text that is masked: its length is counted in bytes, its ends in
    characters. *)
Definition masked (s : string) : string :=
  if (String.length s <=? 12)%nat then "***"
  else
    let start := collect (take 6 (chars s)) in
    let end_ := collect (rev (take 6 (rev (chars s)))) in
    start +:+ "..." +:+ end_.

Definition mask_string {E} (REVEAL_PII : option string) (s : string) : M (option bool) E string :=
  let! reveal := reveal_pii REVEAL_PII in
  ret (if reveal then s else masked s).

Definition mask_amount {E} (amount_to_string : Z -> string) (REVEAL_PII : option string) (amount : Z) :
    M (option bool) E string :=
  let! reveal := reveal_pii REVEAL_PII in
  ret (if reveal then amount_to_string amount else "<REDACTED>").

(** ** The configuration *)
Record LogSetup := mkLogSetup {
  config_exists : bool;
  (** [log4rs::init_file]. *)
  init_file : outcome string unit;
  (** The embedded configuration: its parsing, the errors of its appenders (printed together), its building and its start. *)
  parse_embedded : outcome string unit;
  appender_errors : option string;
  build_config : outcome string unit;
  init_config : outcome string unit;
}.

(** [Result::expect]. *)
Definition expect {S E A} (msg : string) (r : outcome string A) : M S E A :=
  match r with
  | Ok a => ret a
  | Err e => panic (msg +:+ ": " +:+ e)
  | Panic e => panic e
  end.

(** Which configuration the process logs with; every failure ends it. *)
Inductive LogConfig := ExternalConfig | EmbeddedConfig.

Definition init_logging {E} (setup : LogSetup) : M (option LogConfig) E unit :=
  if config_exists setup then
    expect "Failed to load external log4rs.yml" (init_file setup) ;;;
    modify (fun _ => Some ExternalConfig)
  else
    expect "Embedded logging configuration is invalid YAML" (parse_embedded setup) ;;;
    match appender_errors setup with
    | None => ret tt
    | Some e => panic ("Errors parsing embedded appenders: " +:+ e)
    end ;;;
    expect "Failed to build logging config" (build_config setup) ;;;
    expect "Failed to initialize logging from embedded config" (init_config setup) ;;;
    modify (fun _ => Some EmbeddedConfig).

(** ** The encoder ([structured_console_encoder.rs]) *)
Section Encoder.

(** What is written to the terminal. *)
Inductive Token :=
| Text (s : string)
| CyanStyle
| DefaultStyle.

(** The writer appends a token, or fails with the error it has for the number of
    tokens written so far. *)
Context (io_error : nat -> option string).

Definition put (t : Token) : M (list Token) string unit := fun out =>
  match io_error (length out) with
  | Some e => (Err e, out)
  | None => (Ok tt, out ++ [t])
  end.

(** A record, as the pattern encoder prints it, and its key-value pairs; the visit of
    the pairs may fail in the library as well, after them. *)
Record LogRecord := mkLogRecord {
  pattern_line : list Token;
  key_values : list (string * string);
  visit_error : option string;
}.

Definition visit_pair (p : string * string) : M (list Token) string unit :=
  let '(key, value) := p in
  put CyanStyle ;;;
  put (Text (" " +:+ key +:+ "=")) ;;;
  put DefaultStyle ;;;
  put (Text value).

(** The visit stops at the first error of the writer, which is returned in place of the
    visitor's; an error of the pairs themselves is written to the line. *)
Definition encode (record : LogRecord) : M (list Token) string unit :=
  for_each put (pattern_line record) ;;;
  for_each visit_pair (key_values record) ;;;
  match visit_error record with
  | Some e => put (Text (" [KV Error: " +:+ e +:+ "]"))
  | None => ret tt
  end ;;;
  put (Text newline).

End Encoder.

(** [deserialize]: the pattern of the configuration, or the default one. *)
Definition encoder_pattern (pattern : option string) : string := default "{d} {l} {m}" pattern.

(** ** What the masks hide *)
Lemma collect_cons x l : collect (x :: l) = x +:+ collect l.
Proof. unfold collect. destruct l; cbn; [by rewrite append_empty|done]. Qed.

(** The characters of a text, in order, are the text. *)
Lemma collect_chars s : collect (chars s) = s.
Proof.
  induction s as [|c s IH]; [done|]. cbn. destruct (chars s) as [|ch chs]; [cbn in *; by subst|].
  rewrite collect_cons in IH. by destruct (continues ch); rewrite !collect_cons, <- IH.
Qed.

(** A long text of few characters is printed whole, twice: the length is counted in
    bytes and the ends are cut in characters. *)
Theorem mask_shows_wide_text s :
  (12 < String.length s)%nat -> (length (chars s) <= 6)%nat -> masked s = s +:+ "..." +:+ s.
Proof.
  intros Hl Hc. unfold masked. cbv zeta. rewrite (proj2 (Nat.leb_gt _ _)) by done.
  rewrite !take_ge by (rewrite ?length_rev; done). by rewrite rev_involutive, collect_chars.
Qed.

(** The parts that a mask shows: six characters at each end, so of a text of more than
    twelve characters the ones between are not printed. *)
Theorem mask_shows_ends s :
  (12 < length (chars s))%nat -> (12 < String.length s)%nat ->
  exists start hidden end_, chars s = start ++ hidden ++ end_
    /\ length start = 6%nat /\ length end_ = 6%nat /\ hidden <> []
    /\ masked s = collect start +:+ "..." +:+ collect end_.
Proof.
  intros Hc Hl. set (cs := chars s) in *.
  exists (take 6 cs), (drop 6 (take (length cs - 6) cs)), (drop (length cs - 6) cs).
  assert (Hlen : length (drop 6 (take (length cs - 6) cs)) = (length cs - 12)%nat)
    by (rewrite length_drop, length_take; lia).
  split; [|split; [|split; [|split]]].
  - rewrite <- (take_drop (length cs - 6) cs) at 1. rewrite app_assoc. f_equal.
    rewrite <- (take_drop 6 (take (length cs - 6) cs)) at 1. f_equal. rewrite take_take. f_equal. lia.
  - rewrite length_take. lia.
  - rewrite length_drop. lia.
  - intros E. rewrite E in Hlen. cbn in Hlen. lia.
  - unfold masked. cbv zeta. rewrite (proj2 (Nat.leb_gt _ _)) by done. fold cs. do 3 f_equal.
    rewrite <- (rev_involutive (drop (length cs - 6) cs)). f_equal.
    rewrite <- (take_drop (length cs - 6) cs) at 1. rewrite rev_app_distr, take_app_le.
    + apply take_ge. rewrite length_rev, length_drop. lia.
    + rewrite length_rev, length_drop. lia.
Qed.

(** ** Examples *)
Module LogExamples.

Example mask_ascii : masked "abcdefghijklmno" = "abcdef...jklmno".
Proof. reflexivity. Qed.

(** Four emoji: sixteen bytes. *)
Definition emoji : string := String "240" (String "159" (String "152" (String "128" ""))).
Definition emojis : string := emoji +:+ emoji +:+ emoji +:+ emoji.

Lemma mask_shows_wide_text_witness : masked emojis = emojis +:+ "..." +:+ emojis.
Proof. apply mask_shows_wide_text; vm_compute; repeat constructor. Defined.

Lemma mask_shows_ends_witness : exists start hidden end_, chars "abcdefghijklmno" = start ++ hidden ++ end_
    /\ length start = 6%nat /\ length end_ = 6%nat /\ hidden <> []
    /\ masked "abcdefghijklmno" = collect start +:+ "..." +:+ collect end_.
Proof. apply mask_shows_ends; vm_compute; repeat constructor. Defined.

End LogExamples.
