(* ===== verification/Cli.v ===== *)
(** * The command line ([minotari/src/main.rs], [cli.rs], [commands/burn.rs])

    A command takes its settings from the configuration and its arguments, works on the
    wallet's database, writes an output file or prints lines.  The parsing of the arguments
    belongs to [clap]. *)
From S2P Require Import Prelude Models DisplayTypes External Schema AccountsDb Crypto PendingDb CompletedDb BurnProofsDb.
From S2P Require Import Webhooks ScanEvents Scanning BlockProc Reorg InputSelector FundLocker Monitor Manager HttpScanner.
From Stdlib Require Import Ascii.
From S2P Require Import Burn ValidatorNode Api Coordinator ScanSetup Daemon Config.
#[local] Open Scope Z_scope.

(** What the commands take from the Tari libraries. *)
Class CliExt {X : Ext} {CR : CryptoExt} {W : WalletExt} := {
  tari_address_of_str : string -> outcome string string;
  minotari_of_str : string -> outcome string Z;
  minotari_to_string : Z -> string;
  max_date_text : Z -> string;
  seed_of_words : string -> outcome string CipherSeed;
  seed_birthday : CipherSeed -> Z;
  get_spend_key : AccountKeys -> string;
  public_key_of_secret : string -> string;
  (** [new_dual_address] on the main network, whatever the configuration. *)
  main_net_address : string -> string -> outcome string TariAddress;
  key_of_bytes : string -> Key;
  locked_funds_to_json : LockFundsResult -> outcome string string;
}.

(** The text of an [anyhow] error. *)
Definition any_error_to_string {X : Ext} (e : AnyError) : string :=
  match e with AnyDb e => db_error_to_string e | AnyMsg msg => msg end.

(** [ScanError] ([scan/types.rs]). *)
Definition scan_error_to_string {X : Ext} (e : ScanError) : string :=
  match e with
  | Fatal e => "Fatal error: " +:+ any_error_to_string e
  | Intermittent msg => "Intermittent error: " +:+ msg
  | Timeout retries => "Scan timed out after " +:+ pretty retries +:+ " retries"
  | ScanDbError e => "Database execution error: " +:+ db_error_to_string e
  end.

(** ** Texts *)

(** [str::split] with ["::"]. *)
Fixpoint split_colons (s : string) : list string :=
  match s with
  | "" => [""]
  | String ":"%char (String ":"%char rest) => "" :: split_colons rest
  | String c rest =>
      match split_colons rest with
      | part :: parts => String c part :: parts
      | [] => [String c ""]
      end
  end.

(** [chars().count()], in which a format width is counted. *)
Fixpoint char_count (s : string) : nat :=
  match s with
  | "" => 0%nat
  | String c rest => if is_continuation c then char_count rest else S (char_count rest)
  end.

Fixpoint zeros (n : nat) : string := match n with O => "" | S n => String "0"%char (zeros n) end.

(** [&s[..n]] of a text of more than [n] bytes panics inside a character. *)
Definition slice_to (n : nat) (s : string) : outcome string string :=
  match String.get n s with
  | Some c => if is_continuation c then Panic "byte index is not a char boundary" else Ok (String.substring 0 n s)
  | None => Ok s
  end.

(** The key of [create-address]: the password, padded with [{:0<32}] or cut. *)
Definition address_file_key (password : string) : outcome string string :=
  outcome_bind (if Nat.ltb (String.length password) 32 then Ok (password +:+ zeros (32 - char_count password))
                else slice_to 32 password) (fun password =>
  if Nat.eqb (String.length password) 32 then Ok password else Err "Password must be 32 bytes").

(** The parts of a path. *)
Fixpoint path_parts (s : string) : list string :=
  match s with
  | "" => [""]
  | String "/"%char rest => "" :: path_parts rest
  | String c rest =>
      match path_parts rest with
      | part :: parts => String c part :: parts
      | [] => [String c ""]
      end
  end.

(** [Path::parent] is [None] for the empty path and for the root. *)
Definition has_parent (path : string) : bool :=
  match path with
  | "" => false
  | String "/"%char rest => existsb (fun part => negb (String.eqb part "" || String.eqb part ".")) (path_parts rest)
  | _ => true
  end.

(** ** The commands ([cli.rs]) *)
Module Commands.
Inductive t :=
| CreateAddress (password : option string) (output_file : string)
| Scan (password : string) (node : NodeArgs) (db : DatabaseArgs) (account : AccountArgs) (max_blocks_to_scan : Z)
| ReScan (password : string) (node : NodeArgs) (db : DatabaseArgs) (account_name : string) (rescan_from_height : Z)
| RunDaemon (password : string) (node : NodeArgs) (db : DatabaseArgs) (scan_interval_secs api_port : option Z)
| Balance (db : DatabaseArgs) (account : AccountArgs)
| ImportViewKey (view_private_key spend_public_key password : string) (db : DatabaseArgs) (birthday : Z)
| Create (password : string) (db : DatabaseArgs) (account : AccountArgs) (seed_words : option string)
| ShowSeedWords (password : string) (db : DatabaseArgs) (account : AccountArgs)
| ShowKeys (password : string) (db : DatabaseArgs) (account : AccountArgs)
| CreateUnsignedTransaction (password : string) (db : DatabaseArgs) (tx : TransactionArgs) (account_name : string)
    (recipient : list string) (output_file : string) (seconds_to_lock : Z)
| LockFunds (db : DatabaseArgs) (tx : TransactionArgs) (account_name output_file : string)
    (amount num_outputs fee_per_gram : Z) (estimated_output_size seconds_to_lock_utxos : option Z)
| RegisterValidatorNode (password : string) (node : NodeArgs) (db : DatabaseArgs) (tx : TransactionArgs)
    (account_name vn_public_key vn_sig_nonce vn_sig claim_public_key : string) (max_epoch fee_per_gram : Z)
    (payment_id sidechain_deployment_key : option string) (seconds_to_lock : Z)
| SubmitValidatorNodeExit (password : string) (node : NodeArgs) (db : DatabaseArgs) (tx : TransactionArgs)
    (account_name vn_public_key vn_sig_nonce vn_sig : string) (max_epoch fee_per_gram : Z)
    (payment_id sidechain_deployment_key : option string) (seconds_to_lock : Z)
| SubmitValidatorEvictionProof (password : string) (node : NodeArgs) (db : DatabaseArgs) (tx : TransactionArgs)
    (account_name proof_file : string) (fee_per_gram : Z) (payment_id sidechain_deployment_key : option string)
    (seconds_to_lock : Z)
| Delete (db : DatabaseArgs) (account : AccountArgs)
| BurnFunds (password : string) (db : DatabaseArgs) (tx : TransactionArgs) (burn : BurnArgs) (node : NodeArgs)
    (account_name : string) (amount : Z) (claim_public_key sidechain_deployment_key : option string)
    (fee_per_gram : Z) (payment_id : option string) (seconds_to_lock : Z).
End Commands.

Section Cli.
Context {X : Ext} {S0 : StdOrder} {SE : SelectionExt} {C : TxClient} {CR : CryptoExt} {W : WalletExt}.
Context {SX : ScanningExt X} {BX : BurnExt} {AX : ApiExt} {V : VnExt} {K : ConfigExt} {CX : CliExt}.

(** What a command meets: the opening of the database and the node ([cl_scan]), the HTTP
    client for the configured address, the file system, and the fresh ids and random bytes. *)
Record CliEnv := mkCliEnv {
  cl_scan : ScanEnv;
  cl_client : outcome string unit;
  cl_create_parent : string -> outcome string unit;
  cl_write : string -> string -> outcome string unit;
  cl_torn : string -> string -> option string;
  cl_read : string -> outcome string string;
  cl_uuid : string;
  cl_uuid_key : string;
  cl_new_key : string;
  cl_salt : string;
  cl_nonce : string;
  cl_address_nonce : string;
  cl_random_seed : CipherSeed;
}.
Context (env : CliEnv).

Definition CliM (A : Type) : Type := M (Files * Db) string A.

Definition on_wallet {A} (m : M Db string A) : CliM A := fun s =>
  let '(r, d) := m (snd s) in (r, (fst s, d)).
Definition cli_db {A} (m : DbM A) : CliM A := on_wallet (map_err db_error_to_string m).

(** [init_db] and [pool.get()]. *)
Definition open_database : CliM unit :=
  lift (outcome_map_err db_error_to_string (init_db (cl_scan env))) ;;; lift (ScanSetup.pool (cl_scan env) 0).

Definition find_account (name not_found : string) : CliM AccountRow :=
  let! account := cli_db (get_account_by_name name) in
  lift (ok_or account not_found).

(** [create_dir_all(Path::new(&output_file).parent().unwrap())] and [fs::write] of the JSON. *)
Definition write_output (output_file : string) (json : outcome string string) : CliM unit :=
  (if has_parent output_file then lift (cl_create_parent env output_file)
   else panic "called `Option::unwrap()` on a `None` value") ;;;
  let! contents := lift json in
  fs_write (cl_write env) (cl_torn env) output_file contents.

(** ** Addresses and accounts *)

(** The JSON of [create-address]. *)
Inductive WalletData :=
| EncryptedWallet (address encrypted_view_key encrypted_spend_key encrypted_seed_words nonce : string) (birthday : Z)
| PlainWallet (address view_key spend_key seed_words : string) (birthday : Z).

Context (wallet_data_to_json : WalletData -> outcome string string).

(** One key and one nonce for the three texts. *)
Definition wallet_data (password : option string) (address : TariAddress) (view_key spend_key seed_words : string)
    (birthday : Z) : outcome string WalletData :=
  match password with
  | Some password =>
      outcome_bind (address_file_key password) (fun key_bytes =>
      let key := key_of_bytes key_bytes in
      let nonce := cl_address_nonce env in
      outcome_bind (cipher_encrypt key nonce view_key) (fun encrypted_view_key =>
      outcome_bind (cipher_encrypt key nonce spend_key) (fun encrypted_spend_key =>
      outcome_bind (cipher_encrypt key nonce seed_words) (fun encrypted_seed_words =>
      Ok (EncryptedWallet (to_base58 address) (hex_encode encrypted_view_key) (hex_encode encrypted_spend_key)
        (hex_encode encrypted_seed_words) (hex_encode nonce) birthday)))))
  | None => Ok (PlainWallet (to_base58 address) (hex_encode view_key) (hex_encode spend_key) seed_words birthday)
  end.

Definition create_address (password : option string) (output_file : string) : CliM unit :=
  let seeds := cl_random_seed env in
  let birthday := seed_birthday seeds in
  let! seed_words := lift (to_mnemonic seeds) in
  let! wallet := lift (outcome_map_err (fun _ => "Invalid seeds") (seed_wallet seeds)) in
  let! key_manager := lift (key_manager_new wallet) in
  let view_key := get_private_view_key key_manager in
  let spend_key := get_spend_key key_manager in
  let! tari_address := lift (main_net_address (public_key_of_secret view_key) spend_key) in
  let! data := lift (wallet_data password tari_address view_key spend_key seed_words birthday) in
  write_output output_file (wallet_data_to_json data).

Definition import_view_key (view_private_key spend_public_key password : string) (birthday : Z) : CliM unit :=
  on_wallet (init_with_view_key (outcome_map_err db_error_to_string (init_db (cl_scan env))) (ScanSetup.pool (cl_scan env) 0)
    (cl_salt env) (cl_nonce env) view_private_key spend_public_key password birthday None).

Definition create_wallet (password : string) (account_name seed_words : option string) : CliM unit :=
  let! cipher_seed := lift (match seed_words with
    | Some words_str => seed_of_words words_str
    | None => Ok (cl_random_seed env)
    end) in
  on_wallet (init_with_seed_words (outcome_map_err db_error_to_string (init_db (cl_scan env)))
    (ScanSetup.pool (cl_scan env) 0) (cl_salt env) (cl_nonce env) cipher_seed password account_name).

Definition rule : string := "---------------------------------------------------------".

(** The lines that are printed. *)
Definition show_seed_words (password : string) (account_name : option string) : CliM (list string) :=
  open_database ;;;
  let name := default "default" account_name in
  let! account := find_account name ("Account '" +:+ name +:+ "' not found") in
  let! words := lift (outcome_map_err db_error_to_string (get_seed_words account password)) in
  match words with
  | Some words => ret [rule; "Wallet: " +:+ a_friendly_name account; "Seed Words: " +:+ words; rule;
      "WARNING: Keep these words safe. Anyone with them can spend your funds."]
  | None => ret ["Account '" +:+ name +:+ "' does not have seed words (It might be a View-Only or Ledger wallet)."]
  end.

Definition show_keys (password : string) (account_name : option string) : CliM (list string) :=
  open_database ;;;
  let name := default "default" account_name in
  let! account := find_account name ("Account '" +:+ name +:+ "' not found") in
  let! (view_key_hex, spend_key_hex) := lift (outcome_map_err db_error_to_string (get_keys_hex account password)) in
  ret [rule; "Wallet           : " +:+ a_friendly_name account; "Private View Key : " +:+ view_key_hex;
    "Public Spend Key : " +:+ spend_key_hex; rule;
    "WARNING: Keep your private view key safe. Anyone with it can see your transaction history."].

Definition balance_line (balance : AccountBalance) : string :=
  "Balance at height " +:+ pretty (default 0 (ab_max_height balance)) +:+ "("
    +:+ default "N/A" (max_date_text <$> ab_max_date balance) +:+ "): " +:+ minotari_to_string (total balance).

Definition handle_balance (config : WalletConfig) : CliM (list string) :=
  open_database ;;;
  let! accounts := cli_db (get_accounts (wc_account_name config)) in
  fold_m (fun lines account =>
    let! agg_result := cli_db (get_balance (a_id account)) in
    ret (lines ++ [balance_line agg_result])) [] accounts.

Definition delete_account_command (account_name : option string) : CliM (list string) :=
  let name := default "default" account_name in
  lift (context "Failed to initialize database" (outcome_map_err db_error_to_string (init_db (cl_scan env)))) ;;;
  lift (context "Failed to get DB connection from pool" (ScanSetup.pool (cl_scan env) 0)) ;;;
  on_wallet (map_err any_error_to_string (delete_wallet name)) ;;;
  ret ["Wallet account '" +:+ name +:+ "' deleted successfully."].

(** ** Payments *)
Definition parse_recipient (r_str : string) : outcome string Recipient :=
  match split_colons r_str with
  | address :: amount :: rest =>
      if Nat.ltb 1 (length rest)
      then Err "Invalid recipient format. Expected 'address::amount' or 'address::amount::payment_id'"
      else
        outcome_bind (tari_address_of_str address) (fun address =>
        outcome_bind (minotari_of_str amount) (fun amount => Ok (mkRecipient address amount (head rest))))
  | _ => Err "Invalid recipient format. Expected 'address::amount' or 'address::amount::payment_id'"
  end.

Definition handle_create_unsigned_transaction (recipient : list string) (account_name password : string)
    (idempotency_key : option string) (seconds_to_lock confirmation_window : Z) (output_file : string) : CliM unit :=
  let! recipients := lift (outcome_fold (fun l r => outcome_bind (parse_recipient r) (fun r => Ok (l ++ [r]))) [] recipient) in
  open_database ;;;
  let! account := find_account account_name ("Account not found: " +:+ account_name) in
  let! amount := lift (sum_amounts recipients) in
  let num_outputs := Z.of_nat (length recipients) in
  let fee_per_gram := 5 in
  let! locked_funds := on_wallet (map_err (fun e => "Failed to lock funds: " +:+ lock_error_to_string e)
    (lock (cl_uuid env) (cl_uuid_key env) (a_id account) amount num_outputs fee_per_gram None idempotency_key
      seconds_to_lock confirmation_window)) in
  let! result := lift (outcome_map_err (fun e => "Failed to create an unsigned transaction: " +:+ e)
    (create_unsigned_transaction password account (lf_utxos locked_funds) recipients fee_per_gram)) in
  write_output output_file (unsigned_to_json result).

(** [expect("must be present")]. *)
Definition must_be_present {A} (o : option A) : CliM A :=
  match o with Some a => ret a | None => panic "must be present" end.

Definition handle_lock_funds (account_name output_file : string) (request : LockFundsRequest) : CliM unit :=
  open_database ;;;
  let! account := find_account account_name ("Account not found: " +:+ account_name) in
  let! num_outputs := must_be_present (lr_num_outputs request) in
  let! fee_per_gram := must_be_present (lr_fee_per_gram request) in
  let! seconds_to_lock := must_be_present (lr_seconds_to_lock_utxos request) in
  let! confirmation_window := must_be_present (lr_confirmation_window request) in
  let! result := on_wallet (map_err (fun e => "Failed to lock funds: " +:+ lock_error_to_string e)
    (lock (cl_uuid env) (cl_uuid_key env) (a_id account) (lr_amount request) num_outputs fee_per_gram
      (lr_estimated_output_size request) (lr_idempotency_key request) seconds_to_lock confirmation_window)) in
  write_output output_file (locked_funds_to_json result).

(** ** Burning ([commands/burn.rs]) *)
Definition parse_argument {A} (field : string) (parse : string -> outcome string A) (o : option string) :
    outcome string (option A) :=
  match o with
  | None => Ok None
  | Some s => outcome_bind (outcome_map_err (fun e => "Invalid " +:+ field +:+ ": " +:+ e) (parse s)) (fun a => Ok (Some a))
  end.

Definition broadcast_burn_command (result : BurnTxResult) : CliM (list string) :=
  lift (cl_client env) ;;;
  let! r := lift (outcome_map_err (fun e => "Broadcast failed: " +:+ e) (submit_transaction (br_transaction result))) in
  if accepted r then
    cli_db (mark_completed_transaction_as_broadcasted (br_tx_id result) 1) ;;;
    ret ["Burn transaction broadcasted. tx_id=" +:+ pretty (br_tx_id result) +:+ ", output_hash="
      +:+ hex_encode (br_output_hash result)]
  else throw ("Transaction rejected by network: " +:+ reason_to_string (rejection_reason r)).

Definition handle_burn_funds (account_name : string) (amount : Z) (claim_public_key : option string) (fee_per_gram : Z)
    (payment_id sidechain_deployment_key : option string) (password : string) (idempotency_key : option string)
    (seconds_to_lock confirmation_window : Z) : CliM (list string) :=
  let! claim := lift (parse_argument "claim-public-key" parse_public_key_hex claim_public_key) in
  let! sidechain := lift (parse_argument "sidechain-deployment-key" parse_private_key_hex sidechain_deployment_key) in
  let idempotency_key := default (cl_new_key env) idempotency_key in
  open_database ;;;
  let! account := find_account account_name ("Account '" +:+ account_name +:+ "' not found") in
  let params := mkBurnTxParams (a_id account) amount claim sidechain fee_per_gram payment_id (Some idempotency_key)
    seconds_to_lock confirmation_window in
  let! result := on_wallet (map_err (fun e => "Failed to build burn transaction: " +:+ burn_error_to_string e)
    (create_burn_tx (cl_uuid env) (cl_uuid_key env) account params)) in
  on_wallet (map_err burn_error_to_string (persist_burn_records result (a_id account) idempotency_key)) ;;;
  broadcast_burn_command result.

(** ** Scanning *)
Definition run_scanner (scanner : Scanner) (fuel : nat) : CliM (option (list WalletEvent * bool)) := fun s =>
  let '(r, (d, _)) := run_internal (cl_scan env) scanner fuel (snd s, []) in
  (outcome_map_err scan_error_to_string r, (fst s, d)).

Definition trigger_config (config : WalletConfig) : option WebhookTriggerConfig :=
  (fun url => mkWebhookTriggerConfig url (wh_send_only_event_types (wc_webhook config))) <$> wh_url (wc_webhook config).

Definition with_webhooks (webhooks : option WebhookTriggerConfig) (scanner : Scanner) : Scanner :=
  match webhooks with Some cfg => builder_webhook_config cfg scanner | None => scanner end.

Definition scan (password : string) (config : WalletConfig) (max_blocks : Z) (account_name : option string)
    (fuel : nat) : CliM (option (list WalletEvent * bool)) :=
  let scanner := mode (Partial max_blocks) (Scanner_new password (wc_batch_size config) (wc_confirmation_window config)) in
  let scanner := match account_name with Some name => ScanSetup.account name scanner | None => scanner end in
  run_scanner (with_webhooks (trigger_config config) scanner) fuel.

(** The blocking task of [rescan]: a rollback on a bare connection. *)
Definition rescan_task (account_name : string) (rescan_from_height : Z) (webhooks : option WebhookTriggerConfig) :
    CliM unit :=
  lift (outcome_map_err (fun e => "Failed to init db: " +:+ db_error_to_string e) (init_db (cl_scan env))) ;;;
  lift (outcome_map_err (fun e => "Failed to get connection: " +:+ e) (ScanSetup.pool (cl_scan env) 0)) ;;;
  let! account := on_wallet (map_err (fun e => "DB error querying account: " +:+ db_error_to_string e)
    (get_account_by_name account_name)) in
  let! account := lift (ok_or account ("Account not found: " +:+ account_name)) in
  on_wallet (map_err (fun e => "Rollback failed: " +:+ any_error_to_string e)
    (rollback_from_height (a_id account) rescan_from_height webhooks)) ;;;
  ret tt.

(** [join_text] is the text of a panic of the task. *)
Definition rescan_rollback (account_name : string) (rescan_from_height : Z) (webhooks : option WebhookTriggerConfig)
    (join_text : string -> string) : CliM unit := fun s =>
  let failed msg := scan_error_to_string (ScanDbError (Unexpected msg)) in
  match rescan_task account_name rescan_from_height webhooks s with
  | (Ok _, s') => (Ok tt, s')
  | (Err e, s') => (Err (failed e), s')
  | (Panic msg, s') => (Err (failed ("Task join error: " +:+ join_text msg)), s')
  end.

Definition rescan (password : string) (config : WalletConfig) (account_name : string) (rescan_from_height : Z)
    (webhooks : option WebhookTriggerConfig) (join_text : string -> string) (fuel : nat) :
    CliM (option (list WalletEvent * bool)) :=
  rescan_rollback account_name rescan_from_height webhooks join_text ;;;
  let scanner := mode (Partial u64_max)
    (Scanner_new password (wc_batch_size config) (wc_confirmation_window config)) in
  run_scanner (ScanSetup.account account_name (with_webhooks webhooks scanner)) fuel.

End Cli.

(** ** [main] after the configuration is loaded *)
Section Main.
Context {X : Ext} {S0 : StdOrder} {SE : SelectionExt} {C : TxClient} {CR : CryptoExt} {W : WalletExt}.
Context {SX : ScanningExt X} {BX : BurnExt} {AX : ApiExt} {V : VnExt} {K : ConfigExt} {CX : CliExt}.

(** What a command meets depends on its settings: the database file and the node. *)
Context (env : WalletConfig -> CliEnv) (wallet_data_to_json : WalletData -> outcome string string).
Context (join_text : string -> string).

(** The daemon is started; [StillScanning]: after [fuel] turns of the scan. *)
Inductive CommandResult := Done (lines : list string) | Scanned (events : list WalletEvent) | StillScanning
| RunsDaemon (daemon : Daemon).

Definition done (m : CliM unit) : CliM CommandResult := m ;;; ret (Done []).
Definition printed (m : CliM (list string)) : CliM CommandResult := let! lines := m in ret (Done lines).
Definition scanned (m : CliM (option (list WalletEvent * bool))) : CliM CommandResult :=
  let! r := m in ret (match r with Some (events, _) => Scanned events | None => StillScanning end).

Definition daemon_of (config : WalletConfig) (password : string) : Daemon :=
  Daemon_new password (wc_base_url config) (wc_database_path config) u64_max (wc_batch_size config)
    (wc_scan_interval_secs config) (wc_api_port config) (wc_confirmation_window config) (wh_url (wc_webhook config))
    (wh_secret (wc_webhook config)) (wh_send_only_event_types (wc_webhook config)) (effective_burn_proofs_dir config).

Definition vn_command_of (config : WalletConfig) (account_name password : string) (tx : TransactionArgs)
    (seconds_to_lock : Z) : VnCommand :=
  let env := env config in
  mkVnCommand (outcome_bind (outcome_map_err db_error_to_string (init_db (cl_scan env)))
      (fun _ => ScanSetup.pool (cl_scan env) 0))
    account_name password (ta_idempotency_key tx) (cl_new_key env) seconds_to_lock (wc_confirmation_window config)
    (cl_client env).

(** The arms of [match cli.command]: the settings first. *)
Definition command_create (config : WalletConfig) (password : string) (db : DatabaseArgs) (account : AccountArgs)
    (seed_words : option string) : CliM CommandResult :=
  let config := apply_account account (apply_database db config) in
  done (create_wallet (env config) password (wc_account_name config) seed_words).

Definition command_show_seed_words (config : WalletConfig) (password : string) (db : DatabaseArgs)
    (account : AccountArgs) : CliM CommandResult :=
  let config := apply_account account (apply_database db config) in
  printed (show_seed_words (env config) password (wc_account_name config)).

Definition command_show_keys (config : WalletConfig) (password : string) (db : DatabaseArgs)
    (account : AccountArgs) : CliM CommandResult :=
  let config := apply_account account (apply_database db config) in
  printed (show_keys (env config) password (wc_account_name config)).

Definition command_scan (config : WalletConfig) (password : string) (node : NodeArgs) (db : DatabaseArgs)
    (account : AccountArgs) (max_blocks_to_scan : Z) (fuel : nat) : CliM CommandResult :=
  let config := apply_account account (apply_database db (apply_node node config)) in
  scanned (scan (env config) password config max_blocks_to_scan (wc_account_name config) fuel).

Definition command_rescan (config : WalletConfig) (password : string) (node : NodeArgs) (db : DatabaseArgs)
    (account_name : string) (rescan_from_height : Z) (fuel : nat) : CliM CommandResult :=
  let config := apply_database db (apply_node node config) in
  scanned (rescan (env config) password config account_name rescan_from_height (trigger_config config) join_text fuel).

Definition command_daemon (config : WalletConfig) (password : string) (node : NodeArgs) (db : DatabaseArgs)
    (scan_interval_secs api_port : option Z) : CliM CommandResult :=
  let config := apply_daemon (mkDaemonArgs scan_interval_secs api_port) (apply_database db (apply_node node config)) in
  ret (RunsDaemon (daemon_of config password)).

Definition command_balance (config : WalletConfig) (db : DatabaseArgs) (account : AccountArgs) : CliM CommandResult :=
  let config := apply_account account (apply_database db config) in
  printed (handle_balance (env config) config).

Definition command_create_unsigned_transaction (config : WalletConfig) (password : string) (db : DatabaseArgs)
    (tx : TransactionArgs) (account_name : string) (recipient : list string) (output_file : string)
    (seconds_to_lock : Z) : CliM CommandResult :=
  let config := apply_transaction tx (apply_database db config) in
  done (handle_create_unsigned_transaction (env config) recipient account_name password (ta_idempotency_key tx)
    seconds_to_lock (wc_confirmation_window config) output_file).

Definition command_lock_funds (config : WalletConfig) (db : DatabaseArgs) (tx : TransactionArgs)
    (account_name output_file : string) (amount num_outputs fee_per_gram : Z)
    (estimated_output_size seconds_to_lock_utxos : option Z) : CliM CommandResult :=
  let config := apply_transaction tx (apply_database db config) in
  let confirmation_window := match ta_confirmation_window tx with
    | Some w => Some w
    | None => Some (wc_confirmation_window config)
    end in
  done (handle_lock_funds (env config) account_name output_file (mkLockFundsRequest amount (Some num_outputs)
    (Some fee_per_gram) estimated_output_size seconds_to_lock_utxos (ta_idempotency_key tx) confirmation_window)).

Definition command_register_validator_node (config : WalletConfig) (password : string) (node : NodeArgs)
    (db : DatabaseArgs) (tx : TransactionArgs) (account_name pk nonce sig claim : string) (max_epoch fee : Z)
    (payment_id sidechain : option string) (seconds : Z) : CliM CommandResult :=
  let config := apply_transaction tx (apply_database db (apply_node node config)) in
  done (on_wallet (handle_register_validator_node (cl_uuid (env config)) (cl_uuid_key (env config)) pk nonce sig claim
    max_epoch fee payment_id sidechain (vn_command_of config account_name password tx seconds))).

Definition command_submit_validator_node_exit (config : WalletConfig) (password : string) (node : NodeArgs)
    (db : DatabaseArgs) (tx : TransactionArgs) (account_name pk nonce sig : string) (max_epoch fee : Z)
    (payment_id sidechain : option string) (seconds : Z) : CliM CommandResult :=
  let config := apply_transaction tx (apply_database db (apply_node node config)) in
  done (on_wallet (handle_submit_validator_node_exit (cl_uuid (env config)) (cl_uuid_key (env config)) pk nonce sig
    max_epoch fee payment_id sidechain (vn_command_of config account_name password tx seconds))).

Definition command_submit_validator_eviction_proof (config : WalletConfig) (password : string) (node : NodeArgs)
    (db : DatabaseArgs) (tx : TransactionArgs) (account_name proof_file : string) (fee : Z)
    (payment_id sidechain : option string) (seconds : Z) : CliM CommandResult :=
  let config := apply_transaction tx (apply_database db (apply_node node config)) in
  done (on_wallet (handle_submit_validator_eviction_proof (cl_uuid (env config)) (cl_uuid_key (env config)) proof_file
    (cl_read (env config) proof_file) fee payment_id sidechain (vn_command_of config account_name password tx seconds))).

(** The directory for burn proofs is set, but nothing of the command uses it. *)
Definition command_burn_funds (config : WalletConfig) (password : string) (db : DatabaseArgs) (tx : TransactionArgs)
    (burn : BurnArgs) (node : NodeArgs) (account_name : string) (amount : Z) (claim sidechain : option string)
    (fee : Z) (payment_id : option string) (seconds : Z) : CliM CommandResult :=
  let config := apply_burn burn (apply_node node (apply_transaction tx (apply_database db config))) in
  printed (handle_burn_funds (env config) account_name amount claim fee payment_id sidechain password
    (ta_idempotency_key tx) seconds (wc_confirmation_window config)).

Definition main_command (config : WalletConfig) (command : Commands.t) (fuel : nat) : CliM CommandResult :=
  match command with
  | Commands.CreateAddress password output_file =>
      done (create_address (env config) wallet_data_to_json password output_file)
  | Commands.ImportViewKey view_private_key spend_public_key password db birthday =>
      done (import_view_key (env (apply_database db config)) view_private_key spend_public_key password birthday)
  | Commands.Create password db account seed_words => command_create config password db account seed_words
  | Commands.ShowSeedWords password db account => command_show_seed_words config password db account
  | Commands.ShowKeys password db account => command_show_keys config password db account
  | Commands.Scan password node db account max_blocks => command_scan config password node db account max_blocks fuel
  | Commands.ReScan password node db account_name height => command_rescan config password node db account_name height fuel
  | Commands.RunDaemon password node db interval api_port => command_daemon config password node db interval api_port
  | Commands.Balance db account => command_balance config db account
  | Commands.CreateUnsignedTransaction password db tx account_name recipient output_file seconds =>
      command_create_unsigned_transaction config password db tx account_name recipient output_file seconds
  | Commands.LockFunds db tx account_name output_file amount num_outputs fee size seconds =>
      command_lock_funds config db tx account_name output_file amount num_outputs fee size seconds
  | Commands.RegisterValidatorNode password node db tx account_name pk nonce sig claim max_epoch fee payment_id sidechain
      seconds =>
      command_register_validator_node config password node db tx account_name pk nonce sig claim max_epoch fee payment_id
        sidechain seconds
  | Commands.SubmitValidatorNodeExit password node db tx account_name pk nonce sig max_epoch fee payment_id sidechain
      seconds =>
      command_submit_validator_node_exit config password node db tx account_name pk nonce sig max_epoch fee payment_id
        sidechain seconds
  | Commands.SubmitValidatorEvictionProof password node db tx account_name proof_file fee payment_id sidechain seconds =>
      command_submit_validator_eviction_proof config password node db tx account_name proof_file fee payment_id sidechain
        seconds
  | Commands.Delete db account => printed (delete_account_command (env (apply_database db config)) (aa_account_name account))
  | Commands.BurnFunds password db tx burn node account_name amount claim sidechain fee payment_id seconds =>
      command_burn_funds config password db tx burn node account_name amount claim sidechain fee payment_id seconds
  end.

End Main.
