(* ===== verification/OpenDb.v ===== *)
(** * Opening the database ([minotari/src/db/mod.rs])

    [init_db] resolves the path, creates its directory, opens the file and brings it to
    the latest migration, after it has taken over the version of a database that [sqlx]
    managed before.  The file system, the pool of connections and [rusqlite_migration]
    are libraries; the state is the database file of every path. *)
From S2P Require Import Prelude Models.
From stdpp Require Import gmap strings.
#[local] Open Scope Z_scope.

(** What the code reads of a database file: the header's [user_version], the number of
    rows of [_sqlx_migrations] when the table exists, and the other tables. *)
Record DbFile (T : Type) : Type := mkDbFile {
  user_version : Z;
  sqlx_migrations : option Z;
  tables : T;
}.
Arguments mkDbFile {T} user_version sqlx_migrations tables.
Arguments user_version {T} d.
Arguments sqlx_migrations {T} d.
Arguments tables {T} d.

(** [rusqlite_migration] with the embedded directory of migrations. *)
Class MigrationExt := {
  Tables : Type;
  (** Of a new file. *)
  no_tables : Tables;
  (** The migrations of the directory, in order, as SQLite executes them. *)
  MIGRATIONS : list (Tables -> outcome string Tables);
  (** [Migrations::to_latest] on a connection. *)
  to_latest : DbFile Tables -> outcome string unit * DbFile Tables;
}.

(** The migrations that are left are executed in order; the first error stops them. *)
Fixpoint run_migrations {T} (ms : list (T -> outcome string T)) (t : T) : outcome string T :=
  match ms with
  | [] => Ok t
  | m :: ms => outcome_bind (m t) (run_migrations ms)
  end.

(** The documented behaviour: the migrations from [user_version] on are applied in one
    transaction, and a database ahead of the last one is refused. *)
Class MigrationLaws (MX : MigrationExt) := {
  to_latest_up : forall d t, 0 <= user_version d <= Z.of_nat (length MIGRATIONS) ->
    run_migrations (drop (Z.to_nat (user_version d)) MIGRATIONS) (tables d) = Ok t ->
    to_latest d = (Ok tt, mkDbFile (Z.of_nat (length MIGRATIONS)) (sqlx_migrations d) t);
  to_latest_fails : forall d e, 0 <= user_version d <= Z.of_nat (length MIGRATIONS) ->
    run_migrations (drop (Z.to_nat (user_version d)) MIGRATIONS) (tables d) = Err e ->
    exists e', to_latest d = (Err e', d);
  to_latest_ahead : forall d, Z.of_nat (length MIGRATIONS) < user_version d -> exists e, to_latest d = (Err e, d);
}.

Section Open.
Context {MX : MigrationExt}.

Definition new_file : DbFile Tables := mkDbFile 0 None no_tables.
Definition set_version (v : Z) (d : DbFile Tables) : DbFile Tables := mkDbFile v (sqlx_migrations d) (tables d).
Definition drop_sqlx (d : DbFile Tables) : DbFile Tables := mkDbFile (user_version d) None (tables d).

(** The statements of the adoption that SQLite may refuse, with its error. *)
Record AdoptionFaults := mkAdoptionFaults {
  lookup_fault : bool;
  count_fault : option SqlError;
  pragma_fault : option SqlError;
  drop_fault : option SqlError;
}.
Definition no_faults : AdoptionFaults := mkAdoptionFaults false None None None.

Definition statement (fault : option SqlError) (f : DbFile Tables -> DbFile Tables) : M (DbFile Tables) WalletDbError unit :=
  match fault with
  | Some e => throw (Rusqlite e)
  | None => modify f
  end.

Definition is_i32 (z : Z) : bool := (- 2 ^ 31 <=? z) && (z <? 2 ^ 31).

(** Each statement is a transaction of its own. *)
Definition attempt_sqlx_adoption (faults : AdoptionFaults) : M (DbFile Tables) WalletDbError unit :=
  let! sqlx := gets sqlx_migrations in
  let table_exists := if lookup_fault faults then None else sqlx in
  match table_exists with
  | Some rows =>
      let! count := lift (match count_fault faults with
        | Some e => Err (Rusqlite e)
        | None => if is_i32 rows then Ok rows else Err (Rusqlite IntegerOverflow)
        end) in
      when (count >? 0) (statement (pragma_fault faults) (set_version count)) ;;;
      statement (drop_fault faults) drop_sqlx
  | None => ret tt
  end.

(** The errors of the adoption are dropped. *)
Definition migrate (faults : AdoptionFaults) : M (DbFile Tables) WalletDbError unit :=
  attempt (attempt_sqlx_adoption faults) ;;;
  fun d => let '(r, d') := to_latest d in (outcome_map_err Migration r, d').

(** ** The file system *)
Record FileSystem := mkFileSystem {
  is_relative : string -> bool;
  current_dir : outcome string string;
  join : string -> string -> string;
  parent : string -> option string;
  create_dir_all : string -> outcome string unit;
  (** [Pool::build] and [Pool::get] for a file, with the pragmas of each connection. *)
  build_pool : string -> outcome string unit;
}.
Context (fs : FileSystem).

(** SQLite creates a file that does not exist. *)
Definition connect_and_migrate (faults : AdoptionFaults) (path : string) : M (gmap string (DbFile Tables)) WalletDbError unit := fun disk =>
  match build_pool fs path with
  | Ok _ => let '(r, d) := migrate faults (default new_file (disk !! path)) in (r, <[path := d]> disk)
  | Err e => (Err (ConnectionError e), disk)
  | Panic msg => (Panic msg, disk)
  end.

Definition migration_failed : WalletDbError :=
  Unexpected "Unexpected error occurred. It is possibly a migration from sqlx that has failed. Consider removing database file and try again".

Definition resolve (db_path : string) : outcome WalletDbError string :=
  if is_relative fs db_path
  then outcome_bind (outcome_map_err Io (current_dir fs)) (fun dir => Ok (join fs dir db_path))
  else Ok db_path.

Definition init_db (faults : AdoptionFaults) (db_path : string) : M (gmap string (DbFile Tables)) WalletDbError unit :=
  let! path := lift (resolve db_path) in
  let! parent_dir := lift (ok_or (parent fs path) (Io "Invalid database file path")) in
  lift (outcome_map_err Io (create_dir_all fs parent_dir)) ;;;
  map_err (fun _ => migration_failed) (connect_and_migrate faults path).

End Open.
