(* ===== verification/OpenTheory.v ===== *)
(** * What opening the database promises

    The migrations that a database has seen are not run again, whichever library ran
    them; opening twice is opening once; and an adoption that could not drop the table of
    [sqlx] leaves a database that can never be opened again. *)
From S2P Require Import Prelude Models OpenDb.
From stdpp Require Import gmap strings.
#[local] Open Scope Z_scope.

Section Open.
Context {MX : MigrationExt} {ML : MigrationLaws MX} (fs : FileSystem).

Definition latest : Z := Z.of_nat (length MIGRATIONS).

(** The migrations that have been applied, by one library or the other. *)
Definition applied (d : DbFile Tables) : Z :=
  match sqlx_migrations d with
  | Some rows => if rows >? 0 then rows else user_version d
  | None => user_version d
  end.

Definition adopted (d : DbFile Tables) : DbFile Tables := mkDbFile (applied d) None (tables d).

(** The rows of [_sqlx_migrations] are counted in an [i32]. *)
Definition countable (d : DbFile Tables) : Prop := forall rows, sqlx_migrations d = Some rows -> is_i32 rows = true.

Lemma adoption_ok d : countable d -> attempt_sqlx_adoption no_faults d = (Ok tt, adopted d).
Proof.
  unfold countable, attempt_sqlx_adoption, adopted, applied. destruct d as [v [rows|] t]; intros Hc; [|done].
  cbn in *. specialize (Hc rows eq_refl). unfold bind, lift. rewrite Hc. unfold when. by destruct (rows >? 0).
Qed.

Lemma migrate_ok d : countable d -> migrate no_faults d = let '(r, d') := to_latest (adopted d) in (outcome_map_err Migration r, d').
Proof. intros Hc. unfold migrate, bind, attempt. by rewrite adoption_ok. Qed.

(** A path whose directory can be created and whose file can be opened. *)
Definition opens (db_path path : string) : Prop :=
  resolve fs db_path = Ok path
  /\ (exists dir, parent fs path = Some dir /\ create_dir_all fs dir = Ok tt)
  /\ build_pool fs path = Ok tt.

Lemma init_db_run faults db_path path disk :
  opens db_path path ->
  init_db fs faults db_path disk
  = let '(r, d) := migrate faults (default new_file (disk !! path)) in
    (outcome_map_err (fun _ => migration_failed) r, <[path := d]> disk).
Proof.
  intros (Hr & (dir & Hp & Hc) & Hb). unfold init_db, connect_and_migrate. rewrite Hr. unfold bind at 1, lift.
  rewrite Hp. unfold bind at 1. cbn. rewrite Hc. unfold bind, map_err. cbn. rewrite Hb.
  by destruct (migrate faults _).
Qed.

(** C27: opening runs the missing migrations and no other: the file is brought from the
    version that either library recorded to the latest one, by the migrations in between,
    in their order, and the table of [sqlx] is gone. *)
Theorem init_db_migrates db_path path disk t :
  let d := default new_file (disk !! path) in
  opens db_path path -> countable d -> 0 <= applied d <= latest ->
  run_migrations (drop (Z.to_nat (applied d)) MIGRATIONS) (tables d) = Ok t ->
  init_db fs no_faults db_path disk = (Ok tt, <[path := mkDbFile latest None t]> disk).
Proof.
  intros d Ho Hc Hv Hm. rewrite (init_db_run _ _ _ _ Ho). fold d. rewrite migrate_ok by done.
  by rewrite (to_latest_up (adopted d) t).
Qed.

(** A database at the latest version is left as it is, whatever fails of the adoption. *)
Lemma migrate_latest faults (d : DbFile Tables) :
  user_version d = latest -> sqlx_migrations d = None -> migrate faults d = (Ok tt, d).
Proof.
  intros Hv Hs. unfold migrate, bind, attempt, attempt_sqlx_adoption. cbn. rewrite Hs.
  destruct (lookup_fault faults); cbn; rewrite (to_latest_up d (tables d));
    try (rewrite Hv; unfold latest; lia); try (rewrite Hv; unfold latest; by rewrite Nat2Z.id, drop_all);
    cbn; fold latest; rewrite <- Hv; by destruct d; cbn in *; subst.
Qed.

(** Opening twice is opening once: whatever was opened without a fault is found as
    it was left. *)
Theorem init_db_idempotent faults db_path path disk t :
  let d := default new_file (disk !! path) in
  opens db_path path -> countable d -> 0 <= applied d <= latest ->
  run_migrations (drop (Z.to_nat (applied d)) MIGRATIONS) (tables d) = Ok t ->
  let disk' := snd (init_db fs no_faults db_path disk) in
  init_db fs faults db_path disk' = (Ok tt, disk').
Proof.
  intros d Ho Hc Hv Hm disk'. assert (disk' = <[path := mkDbFile latest None t]> disk) as ->.
  { unfold disk'. rewrite (init_db_run _ _ _ _ Ho). fold d. rewrite migrate_ok by done.
    by rewrite (to_latest_up (adopted d) t). }
  rewrite (init_db_run _ _ _ _ Ho), lookup_insert_eq. cbn [from_option]. unfold id. rewrite migrate_latest by done.
  cbn. by rewrite insert_insert_eq.
Qed.

(** A database whose missing migrations fail is refused, and stays as the adoption left it. *)
Lemma init_db_stuck faults db_path path disk d e :
  opens db_path path -> disk !! path = Some d -> attempt_sqlx_adoption faults d = (Ok tt, d) \/ sqlx_migrations d = None ->
  0 <= user_version d <= latest ->
  run_migrations (drop (Z.to_nat (user_version d)) MIGRATIONS) (tables d) = Err e ->
  init_db fs faults db_path disk = (Err migration_failed, disk).
Proof.
  intros Ho Hd Ha Hv Hm. rewrite (init_db_run _ _ _ _ Ho), Hd. cbn [from_option]. unfold id.
  assert (attempt_sqlx_adoption faults d = (Ok tt, d)) as Hat.
  { destruct Ha as [Ha|Hs]; [done|]. unfold attempt_sqlx_adoption, bind, gets. rewrite Hs. by destruct (lookup_fault faults). }
  unfold migrate, bind, attempt. rewrite Hat. destruct (to_latest_fails d e Hv Hm) as [e' ->]. cbn.
  by rewrite insert_id.
Qed.

(** C28: an adoption that failed to drop the table of [sqlx] is not recovered from: its
    error is dropped and the migrations go on, but the next start adopts the old version
    again, runs the migrations after it a second time, and when these fail the database
    is refused at every later start, under whatever faults. *)
Theorem unfinished_adoption_sticks faults db_path path disk d e :
  opens db_path path -> disk !! path = Some d ->
  user_version d = latest -> countable d -> 0 <= applied d <= latest -> sqlx_migrations d <> None ->
  run_migrations (drop (Z.to_nat (applied d)) MIGRATIONS) (tables d) = Err e ->
  exists disk', init_db fs no_faults db_path disk = (Err migration_failed, disk') /\
    disk' = <[path := adopted d]> disk /\
    init_db fs faults db_path disk' = (Err migration_failed, disk').
Proof.
  intros Ho Hd Hv Hc Ha Hs Hm. exists (<[path := adopted d]> disk). split; [|split; [done|]].
  - rewrite (init_db_run _ _ _ _ Ho), Hd. cbn [from_option]. unfold id. rewrite migrate_ok by done.
    by destruct (to_latest_fails (adopted d) e Ha Hm) as [e' ->].
  - apply (init_db_stuck faults db_path path _ (adopted d) e); [done|apply lookup_insert_eq|by right|done|done].
Qed.

End Open.

(** ** Examples *)
Module OpenExamples.

(** A migration that creates a table; SQLite refuses a second one of the same name. *)
Definition create_table (name : string) (t : list string) : outcome string (list string) :=
  if bool_decide (name ∈ t) then Err ("table " +:+ name +:+ " already exists") else Ok (t ++ [name]).

Definition demo_migrations : list (list string -> outcome string (list string)) :=
  [create_table "accounts"; create_table "outputs"; create_table "inputs"].

Definition demo_latest (d : DbFile (list string)) : outcome string unit * DbFile (list string) :=
  if Z.of_nat (length demo_migrations) <? user_version d then (Err "DatabaseTooFarAhead", d)
  else match run_migrations (drop (Z.to_nat (user_version d)) demo_migrations) (tables d) with
       | Ok t => (Ok tt, mkDbFile (Z.of_nat (length demo_migrations)) (sqlx_migrations d) t)
       | Err e => (Err e, d)
       | Panic msg => (Panic msg, d)
       end.

#[local] Instance demo_ext : MigrationExt := {
  Tables := list string;
  no_tables := [];
  MIGRATIONS := demo_migrations;
  to_latest := demo_latest;
}.

#[local] Instance demo_laws : MigrationLaws demo_ext.
Proof.
  constructor; cbn [to_latest MIGRATIONS demo_ext]; unfold demo_latest.
  - intros d t [_ Hv] Hr. rewrite (proj2 (Z.ltb_ge _ _)) by done. cbn in *. by rewrite Hr.
  - intros d e [_ Hv] Hr. rewrite (proj2 (Z.ltb_ge _ _)) by done. cbn in *. rewrite Hr. by eexists.
  - intros d Hv. rewrite (proj2 (Z.ltb_lt _ _)) by done. by eexists.
Qed.

Definition demo_fs : FileSystem :=
  mkFileSystem (fun p => String.eqb p "wallet.db") (Ok "/home") (fun a b => a +:+ "/" +:+ b)
    (fun _ => Some "/home") (fun _ => Ok tt) (fun _ => Ok tt).

Lemma demo_opens : opens demo_fs "wallet.db" "/home/wallet.db".
Proof. split; [reflexivity|]. split; [by exists "/home"|reflexivity]. Qed.

(** A database to which [sqlx] applied the first migration. *)
Definition from_sqlx : DbFile Tables := mkDbFile 0 (Some 1) ["accounts"].
Definition sqlx_disk : gmap string (DbFile Tables) := {["/home/wallet.db" := from_sqlx]}.

Lemma from_sqlx_found : default new_file (sqlx_disk !! "/home/wallet.db") = from_sqlx.
Proof. reflexivity. Qed.

Lemma init_db_migrates_witness :
  init_db demo_fs no_faults "wallet.db" sqlx_disk
  = (Ok tt, <["/home/wallet.db" := mkDbFile 3 None ["accounts"; "outputs"; "inputs"]]> sqlx_disk).
Proof.
  apply (init_db_migrates demo_fs "wallet.db" "/home/wallet.db" sqlx_disk ["accounts"; "outputs"; "inputs"]).
  - exact demo_opens.
  - intros rows [= <-]. reflexivity.
  - split; vm_compute; discriminate.
  - vm_compute. reflexivity.
Defined.

Lemma init_db_idempotent_witness :
  let disk := snd (init_db demo_fs no_faults "wallet.db" sqlx_disk) in
  init_db demo_fs (mkAdoptionFaults true None None None) "wallet.db" disk = (Ok tt, disk).
Proof.
  apply (init_db_idempotent demo_fs _ "wallet.db" "/home/wallet.db" sqlx_disk ["accounts"; "outputs"; "inputs"]).
  - exact demo_opens.
  - intros rows [= <-]. reflexivity.
  - split; vm_compute; discriminate.
  - vm_compute. reflexivity.
Defined.

(** The table could not be dropped: this start succeeds, and no later one does. *)
Definition locked : AdoptionFaults := mkAdoptionFaults false None None (Some ConstraintViolation).
Definition half_adopted : DbFile Tables := mkDbFile 3 (Some 1) ["accounts"; "outputs"; "inputs"].
Definition half_disk : gmap string (DbFile Tables) := {["/home/wallet.db" := half_adopted]}.

Example locked_start : init_db demo_fs locked "wallet.db" sqlx_disk = (Ok tt, half_disk).
Proof. vm_compute. reflexivity. Qed.

Lemma unfinished_adoption_sticks_witness :
  exists disk, init_db demo_fs no_faults "wallet.db" half_disk = (Err migration_failed, disk) /\
    disk = <["/home/wallet.db" := adopted half_adopted]> half_disk /\
    init_db demo_fs no_faults "wallet.db" disk = (Err migration_failed, disk).
Proof.
  apply (unfinished_adoption_sticks demo_fs no_faults "wallet.db" "/home/wallet.db" half_disk half_adopted
    "table outputs already exists").
  - exact demo_opens.
  - reflexivity.
  - reflexivity.
  - intros rows [= <-]. reflexivity.
  - split; vm_compute; discriminate.
  - discriminate.
  - vm_compute. reflexivity.
Defined.

End OpenExamples.
