(* ===== verification/Ledger.v ===== *)
(** * The ledger invariant

    The journal of an account ([balance_changes]) agrees with its outputs and
    inputs: credits minus debits is the value of the active outputs minus the
    value of the outputs that active inputs spend.  Processing a block and rolling
    blocks back keep it, so the total that [get_balance] reports is the value of
    what the chain gives the account. *)
From S2P Require Import Prelude Models DisplayTypes External Schema BalanceDb OutputsDb InputsDb.
From S2P Require Import TipBlocksDb PendingDb AccountsDb EventsDb BurnProofsDb CompletedDb.
From S2P Require Import DisplayedDb PayrefDb Webhooks ScanEvents Subset Processor Scanning BlockProc Reorg.
#[local] Open Scope Z_scope.

(** ** The invariant *)

(** The value of the output with an id (the sum over the rows of a join). *)
Definition out_value (outs : list OutputRow) (id : Z) : Z :=
  zsum o_value (List.filter (fun o => o_id o =? id) outs).

Definition active_output_of (account_id : Z) (o : OutputRow) : bool := (o_account_id o =? account_id) && active o.
Definition active_input_of (account_id : Z) (i : InputRow) : bool := (i_account_id i =? account_id) && input_active i.

Definition active_outputs_value (account_id : Z) (outs : list OutputRow) : Z :=
  zsum o_value (List.filter (active_output_of account_id) outs).

Definition active_inputs_value (account_id : Z) (outs : list OutputRow) (ins : list InputRow) : Z :=
  zsum (fun i => out_value outs (i_output_id i)) (List.filter (active_input_of account_id) ins).

(** What the chain gives an account. *)
Definition chain_balance (account_id : Z) (d : Db) : Z :=
  active_outputs_value account_id (rows (outputs d))
  - active_inputs_value account_id (rows (outputs d)) (rows (inputs d)).

Section Ledger.
Context {X : Ext} {XL : ExtLaws X} {S0 : StdOrder} {SL : StdOrderLaws S0}.

(** Well-formed tables: distinct output ids below the counter, 64-bit values
    that agree with the stored output, inputs that point to stored outputs. *)
Record wf (d : Db) : Prop := {
  wf_ids : NoDup (map o_id (rows (outputs d)));
  wf_seqno : forall o, o ∈ rows (outputs d) -> o_id o <= seqno (outputs d);
  wf_value : forall o, o ∈ rows (outputs d) -> is_i64 (o_value o);
  wf_json : forall o w, o ∈ rows (outputs d) ->
    output_of_json (o_wallet_output_json o) = Some w -> as_i64 (wo_value w) = o_value o;
  wf_inputs : forall i, i ∈ rows (inputs d) -> i_output_id i <= seqno (outputs d);
}.

(** The journal of [acc] misses [delta]; the other accounts agree. *)
Definition off_by (acc delta : Z) (d : Db) : Prop :=
  wf d /\ forall a, journal a d + (if a =? acc then delta else 0) = chain_balance a d.

Definition ledger_ok (d : Db) : Prop := wf d /\ forall a, journal a d = chain_balance a d.

Lemma ledger_ok_off_by acc d : ledger_ok d <-> off_by acc 0 d.
Proof.
  unfold ledger_ok, off_by. split; intros [Hw H]; (split; [done|]); intros a; specialize (H a);
    destruct (a =? acc); lia.
Qed.

(** The tables the invariant reads. *)
Definition core (d : Db) : Table OutputRow * Table InputRow * Table BalanceChangeRow :=
  (outputs d, inputs d, balance_changes d).

Lemma off_by_core acc delta d d' : core d' = core d -> off_by acc delta d -> off_by acc delta d'.
Proof.
  unfold core. intros [= Ho Hi Hb] [[] H]. unfold off_by, journal, chain_balance in *.
  rewrite Ho, Hi, Hb. split; [|done]. constructor; rewrite ?Ho, ?Hi; done.
Qed.

Lemma preserves_off_by_core {E A} acc delta (m : M Db E A) : frames core m -> preserves (off_by acc delta) m.
Proof. intros Hf d Hd. eapply off_by_core; [apply Hf|done]. Qed.

(** ** Updates of output rows *)
Definition output_key (o : OutputRow) : Z * Z * Z * bool * string :=
  (o_id o, o_account_id o, o_value o, active o, o_wallet_output_json o).

Lemma out_value_update p f outs id :
  (forall o, p o = true -> output_key (f o) = output_key o) ->
  out_value (update_rows p f outs) id = out_value outs id.
Proof.
  intros H. unfold out_value, output_key in *. rewrite filter_update_rows, zsum_update_rows; [done| |];
    intros r Hr; specialize (H r Hr); congruence.
Qed.

Lemma active_inputs_value_ext acc outs outs' ins :
  (forall i, i ∈ ins -> out_value outs' (i_output_id i) = out_value outs (i_output_id i)) ->
  active_inputs_value acc outs' ins = active_inputs_value acc outs ins.
Proof.
  intros H. unfold active_inputs_value. apply zsum_ext. intros i [Hi _]%elem_of_filter_bool. auto.
Qed.

Lemma off_by_update_outputs acc delta p f :
  (forall o, p o = true -> output_key (f o) = output_key o) ->
  preserves (off_by acc delta) (update_outputs p f).
Proof.
  intros H d [Hw Hj]. cbn. unfold update_where.
  assert (Hk : forall o', o' ∈ update_rows p f (rows (outputs d)) ->
    exists o, o ∈ rows (outputs d) /\ output_key o' = output_key o).
  { intros o' (o & Ho & ->)%elem_of_update_rows. exists o. split; [done|].
    destruct (p o) eqn:E; [by apply H|done]. }
  unfold output_key in Hk. split.
  - destruct Hw. constructor; cbn.
    + rewrite map_update_rows; [done|]. intros r Hr. specialize (H r Hr). unfold output_key in H. congruence.
    + intros o' (o & Ho & He)%Hk. simplify_eq. replace (o_id o') with (o_id o) by congruence. auto.
    + intros o' (o & Ho & He)%Hk. replace (o_value o') with (o_value o) by congruence. auto.
    + intros o' w (o & Ho & He)%Hk Hjs. replace (o_value o') with (o_value o) by congruence.
      eapply wf_json0; [done|]. congruence.
    + done.
  - intros a. specialize (Hj a). cbn. unfold chain_balance, journal in *. cbn.
    rewrite (active_inputs_value_ext _ (rows (outputs d))) by (intros; by apply out_value_update).
    unfold active_outputs_value in *. rewrite filter_update_rows, zsum_update_rows; [done| |];
      intros r Hr; specialize (H r Hr); unfold output_key in H; [congruence|].
    unfold active_output_of. replace (o_account_id (f r)) with (o_account_id r) by congruence.
    by replace (active (f r)) with (active r) by congruence.
Qed.

(** ** Journal entries *)
Lemma off_by_insert_change acc delta c :
  bc_account_id c = acc ->
  hoare (off_by acc delta) (insert_balance_change c)
    (fun _ => off_by acc (delta - (as_i64 (balance_credit c) - as_i64 (balance_debit c)))).
Proof.
  intros Hacc d id d' [Hw Hj] H. pose proof (fun a => journal_insert a _ _ _ _ H) as Hji.
  apply insert_balance_change_inv in H as [-> ->]. split.
  - destruct Hw. by constructor.
  - intros a. specialize (Hj a). rewrite Hji. unfold change_effect. rewrite Hacc, (Z.eqb_sym acc a).
    unfold chain_balance in *. cbn. destruct (a =? acc); lia.
Qed.

Lemma off_by_mark_reversed acc delta id :
  preserves (off_by acc delta) (mark_balance_change_as_reversed id).
Proof.
  intros d [Hw Hj]. split; [destruct Hw; by constructor|]. intros a. rewrite journal_mark_reversed.
  rewrite Hj. done.
Qed.

(** ** A detected output *)
Lemma insert_output_inv acc vk hash o h bh ts mp mh pr burn d id d' :
  insert_output acc vk hash o h bh ts mp mh pr burn d = (Ok id, d') ->
  id = seqno (outputs d) + 1 /\
  exists row, d' = with_outputs (mkTable (rows (outputs d) ++ [row]) id) d /\
    o_id row = id /\ o_account_id row = acc /\ o_value row = as_i64 (wo_value o) /\ active row = true /\
    o_output_hash row = hash /\ o_status row = UNSPENT /\
    output_to_json o = Some (o_wallet_output_json row).
Proof.
  unfold insert_output. intros H. inv_ok.
  match goal with H : constrained _ _ = _ |- _ => apply constrained_inv in H as [_ ->] end.
  split; [done|]. eexists. split; [done|]. cbn.
  repeat match goal with H : ok_or ?x _ = Ok _ |- _ => destruct x eqn:?; cbn in H; simplify_eq end. done.
Qed.

Lemma out_value_app outs k id : out_value (outs ++ k) id = out_value outs id + out_value k id.
Proof. unfold out_value. by rewrite filter_app_bool, zsum_app. Qed.

Lemma out_value_single o id : out_value [o] id = if o_id o =? id then o_value o else 0.
Proof. unfold out_value. cbn. destruct (o_id o =? id); rewrite ?zsum_cons, ?zsum_nil; lia. Qed.

Lemma off_by_insert_output acc delta vk hash o h bh ts mp mh pr burn :
  hoare (off_by acc delta) (insert_output acc vk hash o h bh ts mp mh pr burn)
    (fun _ => off_by acc (delta + as_i64 (wo_value o))).
Proof.
  intros d id d' [Hw Hj] H.
  apply insert_output_inv in H as (-> & row & -> & Hid & Hacc & Hval & Hact & _ & _ & Hjson). split.
  - destruct Hw. constructor; cbn.
    + rewrite map_app, NoDup_app. split; [done|]. split; [|cbn; apply NoDup_singleton].
      intros x (o' & -> & Ho')%list_elem_of_fmap Hx%list_elem_of_singleton.
      specialize (wf_seqno0 _ Ho'). lia.
    + intros o' [Ho'| ->%list_elem_of_singleton]%elem_of_app; [|lia]. specialize (wf_seqno0 _ Ho'). lia.
    + intros o' [Ho'| ->%list_elem_of_singleton]%elem_of_app; [auto|]. rewrite Hval. apply as_i64_range.
    + intros o' w [Ho'| ->%list_elem_of_singleton]%elem_of_app Hd; [eauto|].
      apply output_json_roundtrip in Hjson. rewrite Hval. congruence.
    + intros i Hi. specialize (wf_inputs0 _ Hi). lia.
  - intros a. specialize (Hj a). unfold chain_balance, journal in *. cbn.
    rewrite (active_inputs_value_ext _ (rows (outputs d))).
    + unfold active_outputs_value in *. rewrite filter_app_bool, zsum_app. cbn.
      unfold active_output_of at 2. rewrite Hacc, Hact, (Z.eqb_sym acc a).
      destruct (a =? acc); cbn; rewrite ?zsum_cons, ?zsum_nil, ?Hval; lia.
    + intros i Hi. rewrite out_value_app, out_value_single.
      pose proof (wf_inputs _ Hw i Hi). rewrite (proj2 (Z.eqb_neq _ _)) by lia. lia.
Qed.

(** ** A spent output *)

(** No active input spends an output of [acc] whose hash is in [l]. *)
Definition unspent_hashes (acc : Z) (l : list string) (d : Db) : Prop :=
  forall o, o ∈ rows (outputs d) -> o_account_id o = acc -> active o = true -> o_output_hash o ∈ l ->
    has_active_input (o_id o) d = false.

Lemma out_value_row d o : wf d -> o ∈ rows (outputs d) -> out_value (rows (outputs d)) (o_id o) = o_value o.
Proof.
  intros Hw Ho. pose proof (wf_ids _ Hw) as Hn. unfold out_value. clear Hw.
  induction (rows (outputs d)) as [|x l IH]; [set_solver|]. cbn in *.
  apply NoDup_cons in Hn as [Hx Hn]. apply elem_of_cons in Ho as [->|Ho].
  - rewrite Z.eqb_refl, zsum_cons. rewrite filter_none; [rewrite zsum_nil; lia|].
    intros y Hy. apply Z.eqb_neq. intros Heq. apply Hx. rewrite <- Heq. by apply list_elem_of_fmap_2.
  - rewrite (proj2 (Z.eqb_neq _ _)); [auto|]. intros Heq. apply Hx. rewrite Heq. by apply list_elem_of_fmap_2.
Qed.

Lemma same_id_same_row d o o' :
  wf d -> o ∈ rows (outputs d) -> o' ∈ rows (outputs d) -> o_id o = o_id o' -> o = o'.
Proof. intros Hw Ho Ho' He. by eapply NoDup_map_eq; [apply wf_ids| | |]. Qed.

Lemma output_info_for_account_inv acc hash d r d' :
  get_output_info_by_hash_for_account acc hash d = (Ok (Some r), d') ->
  d' = d /\ exists o, o ∈ rows (outputs d) /\ o_account_id o = acc /\ active o = true /\
    o_output_hash o = hash /\ r.1.1 = o_id o /\ output_of_json (o_wallet_output_json o) = Some r.2.
Proof.
  unfold get_output_info_by_hash_for_account, output_info. intros H. inv_ok.
  match goal with H : match ?l with _ => _ end _ = _ |- _ => destruct l as [|o rest] eqn:Hsel end; inv_ok.
  split; [done|]. exists o.
  assert (Ho : o ∈ select (fun o => (o_account_id o =? acc) && String.eqb (o_output_hash o) hash && active o)
    (outputs d')) by (rewrite Hsel; left).
  apply elem_of_filter_bool in Ho as [Ho Hp]. rewrite !andb_true_iff, Z.eqb_eq, String.eqb_eq in Hp.
  match goal with H : ok_or ?x _ = Ok _ |- _ => destruct x eqn:?; cbn in H; simplify_eq/= end. naive_solver.
Qed.

Lemma off_by_insert_input acc delta o h bh ts :
  hoare (fun d => off_by acc delta d /\ o ∈ rows (outputs d) /\ o_account_id o = acc /\
      has_active_input (o_id o) d = false)
    (insert_input acc (o_id o) h bh ts)
    (fun _ => off_by acc (delta - o_value o)).
Proof.
  intros d id d' ([Hw Hj] & Ho & Hacc & Hno) H. unfold insert_input in H. inv_ok.
  rewrite Hno in *. cbn in *. inv_ok.
  match goal with H : constrained _ _ = _ |- _ => apply constrained_inv in H as [_ ->] end.
  match goal with H : match ?l with _ => _ end _ = _ |- _ => destruct l; inv_ok end.
  pose proof (out_value_row _ o Hw Ho) as Hv. split.
  - pose proof (wf_seqno _ Hw o Ho). destruct Hw. constructor; cbn; try done.
    intros j [Hi| ->%list_elem_of_singleton]%elem_of_app; [auto|done].
  - intros b. specialize (Hj b). unfold chain_balance, journal in *. cbn.
    unfold active_inputs_value in *. rewrite filter_app_bool, zsum_app. cbn.
    unfold active_input_of at 2. cbn. rewrite (Z.eqb_sym _ b).
    destruct (b =? _); cbn; rewrite ?zsum_cons, ?zsum_nil; cbn; lia.
Qed.

(** ** The invariant of a block's processing

    [delta] is what the journal misses between the two statements that a detected
    output or input takes; [l] are the input hashes still to be processed. *)
Definition Jinv (acc delta : Z) (l : list string) (d : Db) : Prop :=
  off_by acc delta d /\ unspent_hashes acc l d.

Lemma Jinv_core acc delta l d d' : core d' = core d -> Jinv acc delta l d -> Jinv acc delta l d'.
Proof.
  intros Hc [Ho Hu]. split; [by eapply off_by_core|]. unfold core in Hc. injection Hc as Ho' Hi' _.
  unfold unspent_hashes, has_active_input in *. by rewrite Ho', Hi'.
Qed.

Lemma preserves_Jinv_core {E A} acc delta l (m : M Db E A) : frames core m -> preserves (Jinv acc delta l) m.
Proof. intros Hf d Hd. eapply Jinv_core; [apply Hf|done]. Qed.

Lemma Jinv_insert_output acc delta l vk hash o h bh ts mp mh pr burn :
  hoare (Jinv acc delta l) (insert_output acc vk hash o h bh ts mp mh pr burn)
    (fun _ => Jinv acc (delta + as_i64 (wo_value o)) l).
Proof.
  intros d id d' [Ho Hu] H. split; [by eapply off_by_insert_output|].
  apply insert_output_inv in H as (-> & row & -> & Hid & _). destruct Ho as [Hw _].
  intros o' [Ho'| ->%list_elem_of_singleton]%elem_of_app Hacc Hact Hh; [by apply Hu|].
  unfold has_active_input. cbn. apply not_true_iff_false. intros (i & Hi & Hp)%existsb_exists.
  apply list_elem_of_In in Hi. apply (wf_inputs _ Hw) in Hi.
  rewrite andb_true_iff, Z.eqb_eq in Hp. lia.
Qed.

Lemma Jinv_insert_change acc delta l c :
  bc_account_id c = acc ->
  hoare (Jinv acc delta l) (insert_balance_change c)
    (fun _ => Jinv acc (delta - (as_i64 (balance_credit c) - as_i64 (balance_debit c))) l).
Proof.
  intros Hacc d id d' [Ho Hu] H. split; [by eapply off_by_insert_change|].
  by apply insert_balance_change_inv in H as [_ ->].
Qed.

Lemma Jinv_update_outputs acc delta l p f :
  (forall o, p o = true -> output_key (f o) = output_key o /\ o_output_hash (f o) = o_output_hash o) ->
  preserves (Jinv acc delta l) (update_outputs p f).
Proof.
  intros H d [Ho Hu]. split; [apply off_by_update_outputs; [apply H|done]|].
  intros o' (o & Hin & ->)%elem_of_update_rows. cbn in *.
  destruct (p o) eqn:E; [|by apply Hu]. destruct (H o E) as [Hk ->]. unfold output_key in Hk.
  injection Hk as -> -> _ -> _. by apply Hu.
Qed.

Lemma Jinv_insert_input acc delta hash l o h bh ts :
  hash ∉ l ->
  hoare (fun d => Jinv acc delta (hash :: l) d /\ o ∈ rows (outputs d) /\ o_account_id o = acc /\
      active o = true /\ o_output_hash o = hash)
    (insert_input acc (o_id o) h bh ts)
    (fun _ => Jinv acc (delta - o_value o) l).
Proof.
  intros Hnin d id d' ([Ho Hu] & Hin & Hacc & Hact & Hh) H.
  assert (Hno : has_active_input (o_id o) d = false) by (apply Hu; [done..|rewrite Hh; left]).
  split; [eapply off_by_insert_input; by eauto|].
  unfold insert_input in H. inv_ok. rewrite Hno in *. cbn in *. inv_ok.
  match goal with H : constrained _ _ = _ |- _ => apply constrained_inv in H as [_ ->] end.
  match goal with H : match ?l with _ => _ end _ = _ |- _ => destruct l; inv_ok end.
  intros o' Ho' Hacc' Hact' Hh'. unfold has_active_input. cbn. rewrite existsb_app.
  apply orb_false_iff. split.
  - by apply Hu; [..|right].
  - cbn. rewrite orb_false_r. apply Z.eqb_neq. intros He. cbn in Ho'.
    destruct Ho as [Hw _]. apply (same_id_same_row _ _ _ Hw Hin Ho') in He as ->. done.
Qed.

(** ** Processing a block *)
Definition onJ (acc delta : Z) (l : list string) (s : BlockProcessor * Db) : Prop := Jinv acc delta l (snd s).

Lemma onJ_off_by acc delta l p d : onJ acc delta l (p, d) -> off_by acc delta d.
Proof. by intros []. Qed.

Lemma hoare_on_db {A} acc delta l (m : DbM A) (Q : A -> Db -> Prop) :
  hoare (Jinv acc delta l) m Q -> hoare (onJ acc delta l) (on_db m) (fun a s => Q a (snd s)).
Proof.
  intros H [p d] a s' HP Hm. unfold on_db in Hm. destruct (m d) as [[] d'] eqn:E; cbn in Hm; simplify_eq.
  by apply (H d _ d').
Qed.

Lemma hoare_on_db_J {A} acc delta delta' l l' (m : DbM A) :
  hoare (Jinv acc delta l) m (fun _ => Jinv acc delta' l') ->
  hoare (onJ acc delta l) (on_db m) (fun _ => onJ acc delta' l').
Proof. apply hoare_on_db. Qed.

Lemma hoare_on_db_frame {A} acc delta l (m : DbM A) :
  frames core m -> hoare (onJ acc delta l) (on_db m) (fun _ => onJ acc delta l).
Proof. intros H. apply hoare_on_db_J, hoare_preserves. by apply preserves_Jinv_core. Qed.

Lemma hoare_on_self acc delta l f : hoare (onJ acc delta l) (on_self f) (fun _ => onJ acc delta l).
Proof. intros [p d] a s' HP Hm. unfold on_self, modify in Hm. simplify_eq. done. Qed.

Lemma hoare_self {A} acc delta l (f : BlockProcessor -> A) :
  hoare (onJ acc delta l) (self f) (fun _ => onJ acc delta l).
Proof. intros [p d] a s' HP Hm. unfold self, gets in Hm. by simplify_eq. Qed.

Lemma hoare_trigger_webhooks acc delta l a evs :
  hoare (onJ acc delta l) (trigger_webhooks a evs) (fun _ => onJ acc delta l).
Proof.
  unfold trigger_webhooks. eapply hoare_bind; [apply hoare_self|]. intros [config|]; [|by apply hoare_ret].
  apply (hoare_for_each (fun _ => onJ acc delta l)).
  intros [i e] ?. apply hoare_on_db_frame. solve_preserves.
Qed.

Lemma detected_effect now acc id ts h o :
  let c := make_balance_change_for_output now acc id ts h o in
  bc_account_id c = acc /\ as_i64 (balance_credit c) - as_i64 (balance_debit c) = as_i64 (wo_value o).
Proof.
  cbv zeta. unfold make_balance_change_for_output. assert (as_i64 0 = 0) as H0 by done.
  destruct (wo_is_coinbase o); cbn; rewrite H0; split; try done; lia.
Qed.

Lemma hoare_process_output acc l block vk hash o :
  hoare (onJ acc 0 l) (process_output block acc vk hash o) (fun _ => onJ acc 0 l).
Proof.
  unfold process_output. eapply hoare_bind; [apply hoare_on_self|]. intros ?.
  eapply hoare_bind; [apply hoare_on_db_J, Jinv_insert_output|]. intros output_id. cbn beta.
  eapply hoare_bind; [apply hoare_on_db_frame; solve_preserves|]. intros event_id. cbn beta.
  apply (hoare_bind _ (fun _ => onJ acc 0 l));
    [|intros ?; eapply hoare_bind; [apply hoare_on_self|intros ?; by apply hoare_ret]].
  unfold record_output_balance_change.
  eapply hoare_bind; [apply hoare_on_db_frame; solve_preserves|]. intros now. cbn beta.
  apply (hoare_bind _ (fun _ => onJ acc 0 l)); [|intros ?; by apply hoare_ret].
  destruct (detected_effect now acc output_id (mined_timestamp block) (blk_height block) o) as [Ha He].
  pose proof (Jinv_insert_change acc (0 + as_i64 (wo_value o)) l _ Ha) as Hc. rewrite He in Hc.
  replace (0 + as_i64 (wo_value o) - as_i64 (wo_value o)) with 0 in Hc by lia. by apply hoare_on_db_J.
Qed.

Lemma hoare_process_outputs acc l block vk :
  hoare (onJ acc 0 l) (process_outputs block acc vk) (fun _ => onJ acc 0 l).
Proof.
  unfold process_outputs. eapply hoare_bind; [|intros ?; apply hoare_trigger_webhooks].
  apply hoare_fold_m. intros evs [[hash o] idx] _.
  eapply hoare_bind; [apply hoare_self|]. intros [a|]; [|by apply hoare_ret]. cbn beta.
  destruct (negb (a =? acc)); [by apply hoare_ret|].
  eapply hoare_bind; [apply hoare_process_output|]. intros ?. by apply hoare_ret.
Qed.

(** The row a found input refers to. *)
Definition spends (acc : Z) (hash : string) (r : Z * Z * WalletOutput) (d : Db) : Prop :=
  exists o, o ∈ rows (outputs d) /\ o_account_id o = acc /\ active o = true /\ o_output_hash o = hash /\
    r.1.1 = o_id o /\ as_i64 (wo_value r.2) = o_value o.

Lemma Jinv_output_info acc hash l :
  hoare (Jinv acc 0 (hash :: l)) (get_output_info_by_hash_for_account acc hash)
    (fun r d => Jinv acc 0 (hash :: l) d /\ match r with Some r => spends acc hash r d | None => True end).
Proof.
  intros d [r|] d' HJ H.
  - apply output_info_for_account_inv in H as (-> & o & Ho & Hacc & Hact & Hh & Hid & Hj).
    split; [done|]. exists o. repeat (split; [done|]). destruct HJ as [[Hw _] _]. by eapply wf_json.
  - split; [|done]. eapply (preserves_Jinv_core acc 0 (hash :: l)) in HJ; [rewrite H in HJ; exact HJ|].
    unfold get_output_info_by_hash_for_account, output_info. solve_preserves.
Qed.

Lemma Jinv_weaken acc delta h l d : Jinv acc delta (h :: l) d -> Jinv acc delta l d.
Proof. intros [Ho Hu]. split; [done|]. intros o Hin Ha Hact Hh. apply Hu; [done..|]. by right. Qed.

Lemma hoare_process_input acc hash l block :
  hash ∉ l ->
  hoare (onJ acc 0 (hash :: l)) (process_input block acc hash) (fun _ => onJ acc 0 l).
Proof.
  intros Hnin. unfold process_input. eapply hoare_bind; [apply hoare_on_db, Jinv_output_info|].
  intros [[[output_id tx_id] output]|].
  2: { apply hoare_ret. intros s [HJ _]. by eapply Jinv_weaken. }
  intros s a s' [HJ (o & Ho & Hacc & Hact & Hh & Hid & Hv)] H. cbn in Hid. subst output_id.
  apply bind_ok_inv in H as (input_id & s1 & H1 & H).
  assert (onJ acc (0 - o_value o) l s1) as HJ1.
  { destruct s as [p d]. unfold on_db in H1. destruct (insert_input _ _ _ _ _ d) as [[] d1] eqn:E;
      cbn in H1; simplify_eq. eapply (Jinv_insert_input _ 0 _ l o); [done| |exact E]. done. }
  revert HJ1 H. generalize s1 a s'. change (hoare (onJ acc (0 - o_value o) l)
    (let! balance_change := record_input_balance_change acc input_id (wo_value output) block in
     on_db (update_output_status (o_id o) OutputStatus.Spent) ;;;
     update_current (add_debit_change balance_change
       (mkSpentInput (o_id o) (blk_hash block) (blk_height block) output))) (fun _ => onJ acc 0 l)).
  apply (hoare_bind _ (fun _ => onJ acc 0 l)).
  - unfold record_input_balance_change.
    eapply hoare_bind; [apply hoare_on_db_frame; solve_preserves|]. intros now. cbn beta.
    apply (hoare_bind _ (fun _ => onJ acc 0 l)); [|intros ?; by apply hoare_ret]. apply hoare_on_db_J.
    pose proof (Jinv_insert_change acc (0 - o_value o) l
      (input_balance_change now acc input_id (wo_value output) block) eq_refl) as Hc.
    cbn in Hc. cbn in Hv. rewrite Hv in Hc. assert (as_i64 0 = 0) as H0 by done. rewrite H0 in Hc.
    by replace (0 - o_value o - (0 - o_value o)) with 0 in Hc by lia.
  - intros c. eapply hoare_bind; [|intros ?; apply hoare_on_self].
    apply hoare_on_db_J, hoare_preserves, Jinv_update_outputs. intros [] _. done.
Qed.

Lemma hoare_process_inputs acc block :
  NoDup (blk_inputs block) ->
  hoare (onJ acc 0 (blk_inputs block)) (process_inputs block acc) (fun _ => onJ acc 0 []).
Proof.
  unfold process_inputs. induction 1 as [|h l Hh Hl IH]; cbn; [by apply hoare_ret|].
  eapply hoare_bind; [by apply hoare_process_input|]. intros ?. apply IH.
Qed.

Lemma hoare_process_confirmations acc l a block :
  hoare (onJ acc 0 l) (process_confirmations block a) (fun _ => onJ acc 0 l).
Proof.
  unfold process_confirmations. eapply hoare_bind; [apply hoare_self|]. intros required. cbn beta.
  eapply hoare_bind; [apply hoare_on_db_frame; unfold get_unconfirmed_outputs; solve_preserves|].
  intros os. cbn beta. eapply hoare_bind; [|intros ?; apply hoare_trigger_webhooks].
  apply hoare_fold_m. intros evs o _. apply (hoare_bind _ (fun _ => onJ acc 0 l)); [|intros ?; by apply hoare_ret].
  unfold confirm_output. eapply hoare_bind; [apply hoare_on_self|]. intros ?.
  eapply hoare_bind; [apply hoare_on_db_frame; solve_preserves|]. intros event_id. cbn beta.
  apply (hoare_bind _ (fun _ => onJ acc 0 l)).
  { apply hoare_on_db_J, hoare_preserves, Jinv_update_outputs. intros [] _. done. }
  intros ?. apply (hoare_bind _ (fun _ => onJ acc 0 l)); [|intros ?; by apply hoare_ret].
  unfold when. destruct (negb (uo_is_burn o =? 0)); [|by apply hoare_ret].
  eapply hoare_bind; [apply hoare_on_db_frame|intros ?; by apply hoare_ret].
  unfold get_burn_proof_by_output_hash. solve_preserves.
Qed.

(** The processor only reads the database. *)
Lemma preserves_create_for_height (P : Db -> Prop) pr acc :
  preserves P (create_new_updated_display_transactions_for_height pr acc).
Proof.
  unfold create_new_updated_display_transactions_for_height, from_db,
    get_displayed_transactions_from_height, get_displayed_transactions_by_status, query_displayed.
  solve_preserves.
Qed.

Lemma hoare_on_processor_frame {A} acc delta l (m : ProcM A) :
  frames core m -> hoare (onJ acc delta l) (on_processor m) (fun _ => onJ acc delta l).
Proof.
  intros Hf [p d] a s' HJ Hm. unfold on_processor in Hm. specialize (Hf d).
  destruct (m d) as [[] d']; [|discriminate Hm|discriminate Hm]. injection Hm as <- <-.
  exact (Jinv_core _ _ _ _ _ Hf HJ).
Qed.

Lemma hoare_save_and_emit acc l h a vk ba :
  hoare (onJ acc 0 l) (save_and_emit_displayed_transactions h a vk ba) (fun _ => onJ acc 0 l).
Proof.
  unfold save_and_emit_displayed_transactions. destruct (is_empty ba); [by apply hoare_ret|].
  eapply hoare_bind; [apply hoare_self|]. intros tip. cbn beta.
  eapply hoare_bind; [apply hoare_self|]. intros required. cbn beta.
  apply (hoare_bind _ (fun _ => onJ acc 0 l)).
  - apply hoare_on_processor_frame. apply frames_preserves. intros x. apply preserves_create_for_height.
  - intros [updated new]. apply (hoare_bind _ (fun _ => onJ acc 0 l)).
    { apply (hoare_for_each (fun _ => onJ acc 0 l)). intros t ?.
      eapply hoare_bind; [apply hoare_on_db_frame; solve_preserves|]. intros ?. by apply hoare_ret. }
    intros ?. apply (hoare_bind _ (fun _ => onJ acc 0 l)).
    { apply (hoare_for_each (fun _ => onJ acc 0 l)). intros t ?.
      apply hoare_on_db_frame. solve_preserves. }
    intros ?. apply hoare_on_self.
Qed.

Lemma hoare_process_block acc block :
  NoDup (blk_inputs block) ->
  hoare (onJ acc 0 (blk_inputs block)) (process_block block acc) (fun _ => onJ acc 0 []).
Proof.
  intros Hnd. unfold process_block.
  eapply hoare_bind; [apply hoare_self|]. intros keys. cbn beta.
  apply (hoare_bind _ (fun _ => onJ acc 0 (blk_inputs block))).
  { apply hoare_preserves, preserves_lift. }
  intros vk. eapply hoare_bind; [apply hoare_on_self|]. intros ?.
  eapply hoare_bind; [apply hoare_on_self|]. intros ?.
  eapply hoare_bind; [apply hoare_process_outputs|]. intros ?.
  eapply hoare_bind; [by apply hoare_process_inputs|]. intros ?.
  eapply hoare_bind; [apply hoare_on_db_frame|].
  { unfold insert_scanned_tip_block. solve_preserves. }
  intros ?. eapply hoare_bind; [apply hoare_process_confirmations|]. intros ?. cbn beta.
  eapply hoare_bind; [apply hoare_self|]. intros [ba|]; (eapply hoare_bind; [apply hoare_on_self|]); intros ?;
    [|by apply hoare_ret].
  apply (hoare_bind _ (fun _ => onJ acc 0 [])); [|intros ?; apply hoare_on_self].
  unfold when. destruct (negb (is_empty ba)); [apply hoare_save_and_emit|by apply hoare_ret].
Qed.

(** ** Rolling back *)

(** [off_by] is kept by everything that does not touch the three tables. *)
Lemma hoare_any_frame {A} acc delta (m : AnyM A) :
  frames core m -> hoare (off_by acc delta) m (fun _ => off_by acc delta).
Proof. intros H. apply hoare_preserves. by apply preserves_off_by_core. Qed.

(** The journal misses, with the sign [sg], what the reversals still to come of [l] undo. *)
Lemma off_by_reverse_output acc delta h now row orig :
  is_i64 (o_value row) ->
  hoare (off_by acc delta) (insert_balance_change (output_reversal acc h now row orig))
    (fun _ => off_by acc (delta + o_value row)).
Proof.
  intros Hv. pose proof (off_by_insert_change acc delta (output_reversal acc h now row orig) eq_refl) as H.
  cbn in H. rewrite as_i64_as_u64 in H by done. assert (as_i64 0 = 0) as H0 by done. rewrite H0 in H.
  by replace (delta - (0 - o_value row)) with (delta + o_value row) in H by lia.
Qed.

Lemma off_by_reverse_input acc delta h now row orig :
  is_i64 (output_value row) ->
  hoare (off_by acc delta) (insert_balance_change (input_reversal acc h now row orig))
    (fun _ => off_by acc (delta - output_value row)).
Proof.
  intros Hv. pose proof (off_by_insert_change acc delta (input_reversal acc h now row orig) eq_refl) as H.
  cbn in H. rewrite as_i64_as_u64 in H by done. assert (as_i64 0 = 0) as H0 by done. rewrite H0 in H.
  by replace (delta - (output_value row - 0)) with (delta - output_value row) in H by lia.
Qed.

Lemma hoare_reverse_output acc delta h now row :
  is_i64 (o_value row) ->
  hoare (off_by acc delta) (reverse_output acc h now row) (fun _ => off_by acc (delta + o_value row)).
Proof.
  intros Hv. unfold reverse_output.
  eapply hoare_bind; [apply hoare_preserves, preserves_change_id_by_output|]. intros orig. cbn beta.
  apply (hoare_bind _ (fun _ => off_by acc delta)).
  { destruct orig; [apply hoare_preserves, off_by_mark_reversed|by apply hoare_ret]. }
  intros ?. eapply hoare_bind; [by apply off_by_reverse_output|]. intros ?. by apply hoare_ret.
Qed.

Lemma hoare_reverse_input acc delta h now row :
  is_i64 (output_value row) ->
  hoare (off_by acc delta) (reverse_input acc h now row) (fun _ => off_by acc (delta - output_value row)).
Proof.
  intros Hv. unfold reverse_input.
  eapply hoare_bind; [apply hoare_preserves, preserves_change_id_by_input|]. intros orig. cbn beta.
  apply (hoare_bind _ (fun _ => off_by acc delta)).
  { destruct orig; [apply hoare_preserves, off_by_mark_reversed|by apply hoare_ret]. }
  intros ?. eapply hoare_bind; [by apply off_by_reverse_input|]. intros ?. by apply hoare_ret.
Qed.

(** The reversal loops, with the tables of outputs and inputs unchanged. *)
Definition rolling (acc delta : Z) (d0 d : Db) : Prop :=
  off_by acc delta d /\ outputs d = outputs d0 /\ inputs d = inputs d0.

Lemma hoare_reverse_inputs acc d0 h now l :
  (forall r, r ∈ l -> is_i64 (output_value r)) ->
  hoare (rolling acc 0 d0) (for_each (reverse_input acc h now) l)
    (fun _ => rolling acc (- zsum output_value l) d0).
Proof.
  intros Hl. assert (Hgen : forall k delta, (forall r, r ∈ k -> is_i64 (output_value r)) ->
    hoare (rolling acc delta d0) (for_each (reverse_input acc h now) k)
      (fun _ => rolling acc (delta - zsum output_value k) d0)).
  { clear. induction k as [|r k IH]; intros delta Hk; cbn.
    - apply hoare_ret. intros s. rewrite zsum_nil. by replace (delta - 0) with delta by lia.
    - apply (hoare_bind _ (fun _ => rolling acc (delta - output_value r) d0)).
      + intros s u s' (Ho & Ht) Hm. split; [eapply hoare_reverse_input; [apply Hk; left|done|done]|].
        assert (preserves (fun d => outputs d = outputs d0 /\ inputs d = inputs d0) (reverse_input acc h now r)) as Hp
          by (unfold reverse_input; solve_preserves).
        specialize (Hp s Ht). by rewrite Hm in Hp.
      + intros ?. rewrite zsum_cons. replace (delta - (output_value r + _)) with (delta - output_value r - zsum output_value k) by lia.
        apply IH. intros. apply Hk. by right. }
  by apply (Hgen l 0).
Qed.

Lemma hoare_reverse_outputs acc d0 h now l :
  (forall r, r ∈ l -> is_i64 (o_value r)) ->
  hoare (rolling acc 0 d0) (for_each (reverse_output acc h now) l)
    (fun _ => rolling acc (zsum o_value l) d0).
Proof.
  intros Hl. assert (Hgen : forall k delta, (forall r, r ∈ k -> is_i64 (o_value r)) ->
    hoare (rolling acc delta d0) (for_each (reverse_output acc h now) k)
      (fun _ => rolling acc (delta + zsum o_value k) d0)).
  { clear. induction k as [|r k IH]; intros delta Hk; cbn.
    - apply hoare_ret. intros s. rewrite zsum_nil. by replace (delta + 0) with delta by lia.
    - apply (hoare_bind _ (fun _ => rolling acc (delta + o_value r) d0)).
      + intros s u s' (Ho & Ht) Hm. split; [eapply hoare_reverse_output; [apply Hk; left|done|done]|].
        assert (preserves (fun d => outputs d = outputs d0 /\ inputs d = inputs d0) (reverse_output acc h now r)) as Hp
          by (unfold reverse_output; solve_preserves).
        specialize (Hp s Ht). by rewrite Hm in Hp.
      + intros ?. rewrite zsum_cons. replace (delta + (o_value r + _)) with (delta + o_value r + zsum o_value k) by lia.
        apply IH. intros. apply Hk. by right. }
  by apply (Hgen l 0).
Qed.

(** Marking the selected inputs as deleted takes their outputs' value back. *)
Lemma off_by_delete_inputs acc h now d :
  off_by acc (- zsum (fun i => out_value (rows (outputs d)) (i_output_id i))
      (select (input_from_height acc h) (inputs d))) d ->
  off_by acc 0 (with_inputs (update_where (input_from_height acc h) (set_input_deleted now h) (inputs d)) d).
Proof.
  intros [Hw Hj]. split.
  - destruct Hw. constructor; cbn; try done.
    intros i' (i & Hi & ->)%elem_of_update_rows. destruct (input_from_height acc h i); cbn; auto.
  - intros a. specialize (Hj a). unfold chain_balance, journal in *. cbn.
    unfold active_inputs_value in *. rewrite zsum_update_removed; cycle 1.
    { intros r _. unfold active_input_of, input_active. cbn. by rewrite andb_false_r. }
    unfold select in Hj. revert Hj. destruct (Z.eqb_spec a acc) as [->|Hne]; intros Hj.
    + rewrite (filter_ext_elem (fun r => active_input_of acc r && input_from_height acc h r)
        (input_from_height acc h)).
      { lia. }
      intros i _. unfold active_input_of, input_from_height, input_active.
      destruct (i_account_id i =? acc), (is_none (i_deleted_at i)), (i_mined_in_block_height i >=? h); done.
    + rewrite (filter_none (fun r => active_input_of a r && input_from_height acc h r)).
      { rewrite zsum_nil. lia. }
      intros i _. unfold active_input_of, input_from_height.
      destruct (Z.eqb_spec (i_account_id i) acc) as [->|]; [|by rewrite andb_false_r].
      by rewrite (proj2 (Z.eqb_neq acc a)).
Qed.

Lemma out_value_set_deleted p now h outs id :
  out_value (update_rows p (set_deleted now h) outs) id = out_value outs id.
Proof. unfold out_value. by rewrite filter_update_rows, zsum_update_rows. Qed.

Lemma off_by_delete_outputs acc h now d :
  off_by acc (zsum o_value (select (from_height acc h) (outputs d))) d ->
  off_by acc 0 (with_outputs (update_where (from_height acc h) (set_deleted now h) (outputs d)) d).
Proof.
  intros [Hw Hj]. split.
  - assert (Hk : forall o', o' ∈ update_rows (from_height acc h) (set_deleted now h) (rows (outputs d)) ->
      exists o, o ∈ rows (outputs d) /\ o_id o' = o_id o /\ o_value o' = o_value o /\
        o_wallet_output_json o' = o_wallet_output_json o).
    { intros o' (o & Ho & ->)%elem_of_update_rows. exists o. by destruct (from_height acc h o). }
    destruct Hw. constructor; cbn.
    + by rewrite map_update_rows.
    + intros o' (o & Ho & -> & _)%Hk. auto.
    + intros o' (o & Ho & _ & -> & _)%Hk. auto.
    + intros o' w (o & Ho & _ & -> & Hjs)%Hk. rewrite Hjs. eauto.
    + done.
  - intros a. specialize (Hj a). unfold chain_balance, journal in *. cbn.
    rewrite (active_inputs_value_ext _ (rows (outputs d))) by (intros; by apply out_value_set_deleted).
    unfold active_outputs_value in *. rewrite zsum_update_removed; cycle 1.
    { intros r _. unfold active_output_of, active. cbn. by rewrite andb_false_r. }
    unfold select in Hj. revert Hj. destruct (Z.eqb_spec a acc) as [->|Hne]; intros Hj.
    + rewrite (filter_ext_elem (fun r => active_output_of acc r && from_height acc h r) (from_height acc h)).
      { lia. }
      intros o _. unfold active_output_of, from_height.
      destruct (o_account_id o =? acc), (active o), (o_mined_in_block_height o >=? h); done.
    + rewrite (filter_none (fun r => active_output_of a r && from_height acc h r)).
      { rewrite zsum_nil. lia. }
      intros o _. unfold active_output_of, from_height.
      destruct (Z.eqb_spec (o_account_id o) acc) as [->|]; [|by rewrite andb_false_r].
      by rewrite (proj2 (Z.eqb_neq acc a)).
Qed.

Lemma join_value outs i : zsum output_value (join_outputs outs i) = out_value outs (i_output_id i).
Proof. unfold join_outputs, out_value. by rewrite zsum_map. Qed.

Lemma hoare_soft_delete_inputs acc h :
  hoare (off_by acc 0) (soft_delete_inputs_from_height acc h) (fun _ => off_by acc 0).
Proof.
  intros d u d' Hd H. unfold soft_delete_inputs_from_height in H. inv_ok.
  match goal with H : for_each _ ?l _ = _ |- _ => set (js := l) in * end.
  assert (Hr : rolling acc (- zsum output_value js) s0 s1).
  { eapply hoare_reverse_inputs; [|by split|done]. intros r Hr. destruct Hd as [Hw _].
    apply list_elem_of_In, in_flat_map in Hr as (i & _ & Hr). unfold join_outputs in Hr.
    apply in_map_iff in Hr as (o & <- & Ho). apply list_elem_of_In, elem_of_filter_bool in Ho as [Ho _].
    by apply (wf_value _ Hw). }
  destruct Hr as (Ho & Hout & Hin). apply off_by_delete_inputs. rewrite Hout, Hin.
  unfold js in Ho. rewrite zsum_flat_map in Ho.
  rewrite (zsum_ext _ (fun i => out_value (rows (outputs s0)) (i_output_id i))) in Ho by (intros; apply join_value).
  done.
Qed.

Lemma hoare_soft_delete_outputs acc h :
  hoare (off_by acc 0) (soft_delete_outputs_from_height acc h) (fun _ => off_by acc 0).
Proof.
  intros d u d' Hd H. unfold soft_delete_outputs_from_height, update_outputs in H. inv_ok.
  match goal with H : for_each _ ?l _ = _ |- _ => set (os := l) in * end.
  assert (Hr : rolling acc (zsum o_value os) s0 s1).
  { eapply hoare_reverse_outputs; [|by split|done]. intros r Hr. destruct Hd as [Hw _].
    apply elem_of_filter_bool in Hr as [Hr _]. by apply (wf_value _ Hw). }
  destruct Hr as (Ho & Hout & Hin). apply off_by_delete_outputs. by rewrite Hout.
Qed.

Lemma frames_log_event acc g e : frames core (log_event acc g e).
Proof. unfold log_event, any_db. solve_preserves. Qed.

Lemma hoare_rollback acc h config :
  hoare (off_by acc 0) (rollback_from_height acc h config) (fun _ => off_by acc 0).
Proof.
  unfold rollback_from_height. pose proof frames_log_event.
  assert (Hany : forall A (m : DbM A), frames core m -> hoare (off_by acc 0) (any_db m) (fun _ => off_by acc 0)).
  { intros A m Hf. apply hoare_map_err, hoare_preserves. by apply preserves_off_by_core. }
  assert (Hframe : forall A (m : AnyM A), frames core m -> hoare (off_by acc 0) m (fun _ => off_by acc 0)).
  { intros A m Hf. by apply hoare_any_frame. }
  eapply hoare_bind; [apply Hany; unfold get_scanned_tip_blocks_by_account; solve_preserves|]. intros tips. cbn beta.
  eapply hoare_bind; [apply Hframe; solve_preserves|]. intros evs. cbn beta.
  eapply hoare_bind; [apply Hany; unfold get_active_outputs_from_height; solve_preserves|]. intros affected. cbn beta.
  eapply hoare_bind.
  { apply Hframe. unfold log_output_rolled_back. solve_preserves. }
  intros [[evs2 ids] hashes]. cbn beta iota.
  eapply hoare_bind.
  { apply Hframe. unfold cancel_pending, cancel_pending_transactions_by_ids, any_db. solve_preserves. }
  intros evs3. cbn beta.
  eapply hoare_bind; [apply hoare_map_err, hoare_soft_delete_inputs|]. intros ?.
  eapply hoare_bind; [apply hoare_map_err, hoare_soft_delete_outputs|]. intros ?.
  eapply hoare_bind; [apply Hany; unfold delete_scanned_tip_blocks_from_height; solve_preserves|]. intros ?.
  eapply hoare_bind; [apply Hany; solve_preserves|]. intros ?. cbn beta.
  eapply hoare_bind; [apply Hany; solve_preserves|]. intros displayed. cbn beta.
  eapply hoare_bind; [apply Hany; solve_preserves|]. intros ?. cbn beta.
  eapply hoare_bind.
  { apply Hany. unfold reset_mined_completed_transactions_from_height, update_completed. solve_preserves. }
  intros ?. cbn beta. apply (hoare_bind _ (fun _ => off_by acc 0)); [|intros ?; by apply hoare_ret].
  destruct config; [|by apply hoare_ret]. apply Hframe. unfold any_db. solve_preserves.
Qed.

(** ** The balance *)

(** No recorded amount reaches [2^63], where its column would be negative. *)
Definition amounts_nonneg (acc : Z) (d : Db) : Prop :=
  (forall b, b ∈ account_changes acc d -> 0 <= b_balance_credit b /\ 0 <= b_balance_debit b) /\
  (forall o, o ∈ rows (outputs d) -> 0 <= o_value o).

Lemma sql_sum_m_ok f d s d' :
  sql_sum_m f d = (Ok s, d') -> d' = d /\ s = sumZ (f d) /\ is_i64 (sumZ (f d)).
Proof.
  intros H. pose proof (sql_sum_m_inv _ _ _ _ H) as [-> ->]. repeat split; try done;
    unfold sql_sum_m in H; destruct (sql_sum (f d)) eqn:E; try done;
    apply sql_sum_range in E as HE; injection H as <-; apply HE.
Qed.

Lemma sumZ_map_nonneg {A} (f : A -> Z) l : (forall x, x ∈ l -> 0 <= f x) -> 0 <= sumZ (map f l).
Proof. intros H. unfold sumZ. rewrite zsum_map. by apply zsum_nonneg. Qed.

Lemma non_empty_u64 {A} (l : list A) x : is_u64 x -> is_u64 (default 0 (non_empty l x)).
Proof. intros H. destruct l; [|done]. unfold is_u64, two64. cbn. lia. Qed.

(** The aggregates of the journal, as unsigned amounts. *)
Lemma aggregates_spec acc d agg d' :
  amounts_nonneg acc d -> get_balance_aggregates_for_account acc d = (Ok agg, d') ->
  d' = d /\ is_u64 (default 0 (total_credits agg)) /\ is_u64 (default 0 (total_debits agg)) /\
  journal acc d = default 0 (total_credits agg) - default 0 (total_debits agg).
Proof.
  intros [Hn _] H. pose proof (journal_aggregates _ _ _ _ H) as [-> Hj]. split; [done|].
  unfold get_balance_aggregates_for_account in H.
  apply bind_ok_inv in H as (credits & s1 & (-> & -> & Hc)%sql_sum_m_ok & H).
  apply bind_ok_inv in H as (debits & s1 & (-> & -> & Hd)%sql_sum_m_ok & H).
  unfold bind, gets, ret in H. injection H as <-.
  assert (H1 : 0 <= sumZ (map b_balance_credit (account_changes acc d)))
    by (apply sumZ_map_nonneg; intros; by apply Hn).
  assert (H2 : 0 <= sumZ (map b_balance_debit (account_changes acc d)))
    by (apply sumZ_map_nonneg; intros; by apply Hn).
  cbn [total_credits total_debits] in *.
  unfold is_i64, two63 in *. split; [|split; [|exact Hj]]; apply non_empty_u64; unfold is_u64, two64; lia.
Qed.

Lemma value_if_or p q l :
  zsum (value_if p) l + zsum (value_if q) l - zsum (value_if (fun o => p o && q o)) l
  = zsum (value_if (fun o => p o || q o)) l.
Proof.
  induction l as [|o l IH]; [done|]. rewrite !zsum_cons. unfold value_if in *.
  destruct (p o), (q o); cbn; lia.
Qed.

(** What an account cannot spend now: its locked or unconfirmed outputs. *)
Definition unavailable (acc : Z) (d : Db) : Z :=
  zsum (value_if (fun o => is_locked o || is_unconfirmed o)) (select (owned acc) (outputs d)).

Lemma totals_spec acc d a b c d' :
  (forall o, o ∈ rows (outputs d) -> 0 <= o_value o) ->
  get_output_totals_for_account acc d = (Ok (a, b, c), d') ->
  d' = d /\ a + b - c = unavailable acc d /\ 0 <= c <= a /\ 0 <= b < two63 /\ 0 <= a < two63.
Proof.
  intros Hn H. unfold get_output_totals_for_account in H.
  apply bind_ok_inv in H as (x & s1 & (-> & -> & Hx)%sql_sum_m_ok & H).
  apply bind_ok_inv in H as (y & s1 & (-> & -> & Hy)%sql_sum_m_ok & H).
  apply bind_ok_inv in H as (z & s1 & (-> & -> & Hz)%sql_sum_m_ok & H).
  unfold ret in H. injection H as <- <- <- <-. split; [done|]. unfold unavailable.
  set (l := select (owned acc) (outputs d)) in *.
  assert (Hl : forall p o, o ∈ l -> 0 <= value_if p o).
  { intros p o [Ho _]%elem_of_filter_bool. unfold value_if. specialize (Hn o Ho). destruct (p o); lia. }
  assert (Hpos : forall p, 0 <= zsum (value_if p) l) by (intros; apply zsum_nonneg; auto).
  assert (Hs : forall p, sumZ (map (value_if p) l) = zsum (value_if p) l).
  { intros p. unfold sumZ. by rewrite zsum_map. }
  assert (Hle : zsum (value_if (fun o => is_locked o && is_unconfirmed o)) l <= zsum (value_if is_locked) l).
  { clear -Hl. induction l as [|o l IH]; [done|]. rewrite !zsum_cons.
    pose proof (Hl is_locked o ltac:(left)) as Ho.
    assert (zsum (value_if (fun o => is_locked o && is_unconfirmed o)) l <= zsum (value_if is_locked) l)
      by (apply IH; intros; apply Hl; by right).
    unfold value_if in Ho |- * at 1 3. destruct (is_locked o), (is_unconfirmed o); cbn; lia. }
  pose proof (Hpos is_locked). pose proof (Hpos is_unconfirmed).
  pose proof (Hpos (fun o => is_locked o && is_unconfirmed o)).
  rewrite <- value_if_or. rewrite (Hs is_locked) in Hx |- *. rewrite (Hs is_unconfirmed) in Hy |- *.
  rewrite (Hs (fun o => is_locked o && is_unconfirmed o)) in Hz |- *.
  unfold is_i64, two63 in *. rewrite !as_u64_id by (unfold is_u64, two64; lia). lia.
Qed.

Lemma get_balance_ok acc d b d' :
  ledger_ok d -> amounts_nonneg acc d ->
  get_balance acc d = (Ok b, d') ->
  d' = d /\
  total b = Z.max 0 (chain_balance acc d) /\
  available b = Z.max 0 (total b - unavailable acc d).
Proof.
  intros [_ Hl] Hn H. unfold get_balance in H.
  apply bind_ok_inv in H as (agg & s & H1 & H). apply (aggregates_spec _ _ _ _ Hn) in H1 as (-> & Hc & Hd & Hj).
  apply bind_ok_inv in H as ([[a c] e] & s & H2 & H).
  apply (totals_spec _ _ _ _ _ _ (proj2 Hn)) in H2 as (-> & Hu & Hb1 & Hb2 & Hb3). inv_ok.
  split; [done|]. rewrite !as_u64_id by done. unfold two63 in *.
  assert (Ht : mm_saturating_sub (default 0 (total_credits agg)) (default 0 (total_debits agg))
    = Z.max 0 (chain_balance acc d')).
  { rewrite mm_saturating_sub_spec by done. unfold u64_saturating_sub. rewrite <- Hl. by rewrite Hj. }
  split; [exact Ht|]. rewrite mm_saturating_add_spec by (unfold is_u64, two64; lia).
  unfold u64_saturating_add, u64_max, two64. rewrite Z.min_r by lia.
  rewrite (mm_saturating_sub_spec (a + c)) by (unfold is_u64, two64; lia).
  rewrite mm_saturating_sub_spec.
  - unfold u64_saturating_sub. rewrite <- Hu. lia.
  - rewrite Ht. rewrite <- Hl, Hj. unfold is_u64, two64 in *. lia.
  - unfold is_u64, u64_saturating_sub, two64. lia.
Qed.

(** [get_balance] reports what the chain gives the account: the total is the
    value of its active outputs less what its active inputs spent (never below
    zero), and the available part is what remains once each locked or unconfirmed
    output has been subtracted, exactly once. *)
Theorem get_balance_is_chain_balance acc d b d' :
  ledger_ok d -> amounts_nonneg acc d ->
  get_balance acc d = (Ok b, d') ->
  d' = d /\
  total b = Z.max 0 (chain_balance acc d) /\
  available b = Z.max 0 (total b - unavailable acc d).
Proof. apply get_balance_ok. Qed.

(** C6: processing a block keeps the ledger: when the block's input hashes are
    distinct and none of them spends an output that an active input already
    spends, a successful [process_block] leaves, for every account, a journal that
    equals the value of the active outputs less that of the spent ones.  Outputs
    detected in the block may be spent in the same block. *)
Theorem process_block_keeps_ledger p d block acc p' d' :
  ledger_ok d -> NoDup (blk_inputs block) -> unspent_hashes acc (blk_inputs block) d ->
  process_block block acc (p, d) = (Ok tt, (p', d')) ->
  ledger_ok d'.
Proof.
  intros Hl Hnd Hu H. apply (ledger_ok_off_by acc).
  exact (onJ_off_by _ _ _ _ _ (hoare_process_block acc block Hnd (p, d) tt (p', d')
    (conj (proj1 (ledger_ok_off_by acc d) Hl) Hu) H)).
Qed.

(** Rolling an account back keeps the ledger of every account: the reversal
    entries written for the inputs and outputs above the fork are exactly what
    deleting them takes from, and gives back to, the chain balance. *)
Theorem rollback_keeps_ledger d acc h config info d' :
  ledger_ok d -> rollback_from_height acc h config d = (Ok info, d') -> ledger_ok d'.
Proof.
  intros Hl H. apply (ledger_ok_off_by acc). eapply hoare_rollback; [|exact H]. by apply ledger_ok_off_by.
Qed.

End Ledger.

(** ** Examples *)
Module Examples.
Import Demo.

Definition account1 : AccountRow := mkAccountRow 1 "alice" "" "" "" "" 0.
Definition start : Db := with_accounts (mkTable [account1] 1) (empty_db 1000).

Definition o1 : output := mkOutput 700 "h1" false false "" None None.
Definition o2 : output := mkOutput 50 "h2" true false "memo" None None.

(** A block with two outputs of the account, the first spent in the same block. *)
Definition block10 : BlockScanResult :=
  mkBlockScanResult 10 "block10" [("h1", o1, 0%nat); ("h2", o2, 0%nat)] ["h1"; "foreign"] 900.

Definition processor : BlockProcessor := with_event_sender [(1, "viewkey")] false 3.
Definition run10 := process_block block10 1 (processor, start).
Definition after10 : Db := snd (snd run10).

Lemma start_ledger : ledger_ok start.
Proof.
  split; [|done]. constructor; cbn; try set_solver. constructor.
Qed.

Lemma start_unspent l : unspent_hashes 1 l start.
Proof. intros o Ho. cbn in Ho. set_solver. Qed.

Lemma block10_distinct : NoDup (blk_inputs block10).
Proof. apply (bool_decide_unpack _). by vm_compute. Qed.

Definition processor10 : BlockProcessor := fst (snd run10).

Lemma run10_ok : process_block block10 1 (processor, start) = (Ok tt, (processor10, after10)).
Proof.
  assert (is_ok (fst run10) = true) as H by (vm_compute; reflexivity).
  unfold after10, processor10. replace (process_block block10 1 (processor, start)) with run10 by (unfold run10; reflexivity).
  destruct run10 as [[[]| |] []]; [reflexivity|discriminate H..].
Qed.

Lemma after10_ledger : ledger_ok after10.
Proof.
  apply (ledger_ok_off_by 1).
  pose proof (hoare_process_block 1 block10 block10_distinct (processor, start) tt (processor10, after10)
    (conj (proj1 (ledger_ok_off_by 1 start) start_ledger) (start_unspent _)) run10_ok) as H.
  exact (onJ_off_by _ _ _ _ _ H).
Qed.

(** Two outputs detected, the first one spent. *)
Example after10_rows :
  map o_status (rows (outputs after10)) = ["SPENT"; "UNSPENT"] /\ length (rows (inputs after10)) = 1%nat
  /\ journal 1 after10 = 50 /\ chain_balance 1 after10 = 50.
Proof. by vm_compute. Qed.

Lemma process_block_keeps_ledger_witness : ledger_ok after10.
Proof.
  exact (process_block_keeps_ledger processor start block10 1 processor10 after10
    start_ledger block10_distinct (start_unspent _) run10_ok).
Defined.

Definition rollback10 := rollback_from_height 1 10 None after10.

Definition rollback10_info : ReorgInformation :=
  result_or (mkReorgInformation 0 0 [] [] []) (fst rollback10).

Lemma rollback10_ok : rollback_from_height 1 10 None after10 = (Ok rollback10_info, snd rollback10).
Proof. unfold rollback10_info, rollback10. apply run_ok. vm_compute. reflexivity. Qed.

Example rollback10_balance : chain_balance 1 (snd rollback10) = 0 /\ journal 1 (snd rollback10) = 0
  /\ length (rows (balance_changes (snd rollback10))) = 6%nat.
Proof. by vm_compute. Qed.

Lemma rollback_keeps_ledger_witness : ledger_ok (snd rollback10).
Proof. exact (rollback_keeps_ledger after10 1 10 None _ _ after10_ledger rollback10_ok). Defined.

Definition balance10 := get_balance 1 after10.
Definition balance10_value : AccountBalance :=
  result_or (mkAccountBalance 0 0 0 0 None None None None) (fst balance10).

Lemma after10_nonneg : amounts_nonneg 1 after10.
Proof.
  split.
  - intros b Hb. assert (Forall (fun b => 0 <= b_balance_credit b /\ 0 <= b_balance_debit b) (account_changes 1 after10)) as Hf
      by (vm_compute; repeat constructor; discriminate). rewrite Forall_forall in Hf. auto.
  - intros o Ho. assert (Forall (fun o => 0 <= o_value o) (rows (outputs after10))) as Hf
      by (vm_compute; repeat constructor; discriminate). rewrite Forall_forall in Hf. auto.
Qed.

Lemma balance10_ok : get_balance 1 after10 = (Ok balance10_value, snd balance10).
Proof. unfold balance10_value, balance10. apply run_ok. vm_compute. reflexivity. Qed.

Lemma get_balance_is_chain_balance_witness :
  total balance10_value = 50 /\ total balance10_value = Z.max 0 (chain_balance 1 after10).
Proof.
  split; [by vm_compute|].
  exact (proj1 (proj2 (get_balance_is_chain_balance 1 after10 balance10_value (snd balance10)
    after10_ledger after10_nonneg balance10_ok))).
Defined.

End Examples.
