(* ===== verification/ReorgTheory.v ===== *)
(** * What a rollback does

    The effect of [rollback_from_height] on each chain table, and the fork point
    that [handle_reorgs] finds. *)
From S2P Require Import Prelude Models DisplayTypes External Schema BalanceDb OutputsDb InputsDb.
From S2P Require Import TipBlocksDb PendingDb EventsDb CompletedDb DisplayedDb PayrefDb AccountsDb.
From S2P Require Import Webhooks Scanning BlockProc Reorg Ledger.
#[local] Open Scope Z_scope.

(** ** Observations: a table with the clock *)
Definition outputs_of (d : Db) : Z * Table OutputRow := (clock d, outputs d).
Definition inputs_of (d : Db) : Z * Table InputRow := (clock d, inputs d).
Definition tips_of (d : Db) : Table TipRow := scanned_tip_blocks d.
Definition completed_of (d : Db) : Z * Table CompletedRow := (clock d, completed_transactions d).

Section Rollback.
Context {X : Ext} {S0 : StdOrder}.

(** The tables after a rollback. *)
Definition rolled_outputs (acc h : Z) (c : Z * Table OutputRow) : Z * Table OutputRow :=
  (c.1, update_where (from_height acc (as_i64 h)) (set_deleted c.1 (as_i64 h)) c.2).
Definition rolled_inputs (acc h : Z) (c : Z * Table InputRow) : Z * Table InputRow :=
  (c.1, update_where (input_from_height acc (as_i64 h)) (set_input_deleted c.1 (as_i64 h)) c.2).
Definition rolled_tips (acc h : Z) (t : Table TipRow) : Table TipRow :=
  delete_where (tip_from_height acc (as_i64 h)) t.
Definition rolled_completed (acc h : Z) (c : Z * Table CompletedRow) : Z * Table CompletedRow :=
  (c.1, update_where (mined_from_height acc (as_i64 h)) (set_reverted c.1) c.2).

(** Statements that leave the observed table alone. *)
Ltac solve_frames :=
  unfold log_output_rolled_back, cancel_pending, log_event, cancel_pending_transactions_by_ids,
    soft_delete_inputs_from_height, soft_delete_outputs_from_height, reverse_input, reverse_output,
    delete_scanned_tip_blocks_from_height, reset_mined_completed_transactions_from_height,
    get_scanned_tip_blocks_by_account, get_active_outputs_from_height, update_completed, update_outputs,
    any_db; solve_preserves.
Ltac frame_prefix := repeat match goal with
  | |- updates _ _ (match ?x with _ => _ end) => destruct x
  | _ => apply updates_before; [solve [solve_frames]|intros ?]
  end.

Lemma soft_delete_outputs_effect acc h :
  updates outputs_of (rolled_outputs acc h) (soft_delete_outputs_from_height acc h).
Proof.
  intros d a d' H. unfold soft_delete_outputs_from_height in H.
  apply bind_ok_inv in H as (now & s0 & [= <- <-] & H).
  apply bind_ok_inv in H as (rows & s0 & [= <- <-] & H).
  apply bind_ok_inv in H as (u & s1 & H1 & H2).
  apply (frames_ok outputs_of) in H1; [|unfold reverse_output; solve_preserves].
  injection H2 as <- <-. injection H1 as Hc Ho. unfold outputs_of, rolled_outputs. cbn. by rewrite Hc, Ho.
Qed.

Lemma soft_delete_inputs_effect acc h :
  updates inputs_of (rolled_inputs acc h) (soft_delete_inputs_from_height acc h).
Proof.
  intros d a d' H. unfold soft_delete_inputs_from_height in H.
  apply bind_ok_inv in H as (now & s0 & [= <- <-] & H).
  apply bind_ok_inv in H as (rows & s0 & [= <- <-] & H).
  apply bind_ok_inv in H as (u & s1 & H1 & H2).
  apply (frames_ok inputs_of) in H1; [|unfold reverse_input; solve_preserves].
  injection H2 as <- <-. injection H1 as Hc Ho. unfold inputs_of, rolled_inputs. cbn. by rewrite Hc, Ho.
Qed.

Lemma rollback_outputs acc h config :
  updates outputs_of (rolled_outputs acc h) (rollback_from_height acc h config).
Proof.
  unfold rollback_from_height. cbn zeta. frame_prefix.
  apply updates_here; [|intros ?; solve_frames]. apply updates_map_err, soft_delete_outputs_effect.
Qed.

Lemma rollback_inputs acc h config :
  updates inputs_of (rolled_inputs acc h) (rollback_from_height acc h config).
Proof.
  unfold rollback_from_height. cbn zeta. frame_prefix.
  apply updates_here; [|intros ?; solve_frames]. apply updates_map_err, soft_delete_inputs_effect.
Qed.

Lemma rollback_tips acc h config :
  updates tips_of (rolled_tips acc h) (rollback_from_height acc h config).
Proof.
  unfold rollback_from_height. cbn zeta. frame_prefix.
  apply updates_here; [|intros ?; solve_frames]. apply updates_map_err, updates_modify. done.
Qed.

Lemma rollback_completed acc h config :
  updates completed_of (rolled_completed acc h) (rollback_from_height acc h config).
Proof.
  unfold rollback_from_height. cbn zeta. frame_prefix.
  apply updates_here; [|intros ?; solve_frames]. apply updates_map_err.
  unfold reset_mined_completed_transactions_from_height. cbn zeta.
  apply updates_before; [solve_preserves|]. intros ?. apply updates_here; [|intros ?; solve_preserves].
  unfold update_completed. apply updates_modify. done.
Qed.

(** *** Pending transactions *)
Definition locks_from (acc h : Z) (d : Db) : list string :=
  omap o_locked_by_request_id (select (from_height acc (as_i64 h)) (outputs d)).

Lemma elem_of_set_insert x y l : y ∈ set_insert x l <-> y = x \/ y ∈ l.
Proof.
  unfold set_insert. destruct (existsb (String.eqb x) l) eqn:E; [|set_solver].
  apply existsb_exists in E as (z & Hz & ->%String.eqb_eq). rewrite <- list_elem_of_In in Hz. set_solver.
Qed.

Lemma log_outputs_cancelled acc h l : forall g c inv d g' c' inv' d',
  fold_m (log_output_rolled_back acc h) (g, c, inv) l d = (Ok (g', c', inv'), d') ->
  forall id, id ∈ c' <-> id ∈ c \/ id ∈ omap ro_locked_by_request_id l.
Proof.
  induction l as [|r l IH]; intros g c inv d g' c' inv' d' H id; cbn [fold_m] in H.
  { injection H as -> -> -> ->. set_solver. }
  apply bind_ok_inv in H as ([[g1 c1] i1] & d1 & H1 & H). rewrite (IH _ _ _ _ _ _ _ _ H).
  unfold log_output_rolled_back in H1. inv_ok. cbn. destruct (ro_locked_by_request_id r); [|done].
  rewrite elem_of_set_insert. set_solver.
Qed.

Lemma active_locks acc h d :
  omap ro_locked_by_request_id (map (fun o => mkReorgOutputInfo (o_output_hash o) (o_mined_in_block_height o)
    (o_locked_by_request_id o)) (select (from_height acc (as_i64 h)) (outputs d))) = locks_from acc h d.
Proof.
  unfold locks_from. induction (select _ _) as [|o l IH]; [done|]. cbn.
  destruct (o_locked_by_request_id o); by rewrite IH.
Qed.

Definition cancelled_rows (ids : list string) (t : Table PendingRow) : Table PendingRow :=
  update_where (fun p => existsb (String.eqb (p_id p)) ids)
    (set_pending_status (PendingTransactionStatus.to_string PendingTransactionStatus.Cancelled)) t.

Lemma cancelled_rows_nil t : cancelled_rows [] t = t.
Proof. destruct t as [l n]. unfold cancelled_rows, update_where, update_rows. cbn. by rewrite map_id. Qed.

Lemma cancel_pending_effect acc g ids :
  updates pending_transactions (cancelled_rows ids) (cancel_pending acc g ids).
Proof.
  unfold cancel_pending. destruct ids as [|i ids].
  { intros d a d' H. injection H as <- <-. by rewrite cancelled_rows_nil. }
  apply updates_here; [|intros ?; solve_frames]. apply updates_map_err, updates_modify. done.
Qed.

Context {SL : StdOrderLaws S0}.

Lemma rollback_pending acc h config d info d' :
  rollback_from_height acc h config d = (Ok info, d') ->
  pending_transactions d' = cancelled_rows (ri_cancelled_transaction_ids info) (pending_transactions d) /\
  (forall id, id ∈ ri_cancelled_transaction_ids info <-> id ∈ locks_from acc h d).
Proof.
  unfold rollback_from_height. cbn zeta. intros H.
  apply bind_ok_inv in H as (tips & d1 & H1 & H).
  apply (frames_ok (fun d => (pending_transactions d, outputs d))) in H1; [|solve_frames].
  apply bind_ok_inv in H as (evs & d2 & H2 & H).
  apply (frames_ok (fun d => (pending_transactions d, outputs d))) in H2; [|solve_frames].
  apply bind_ok_inv in H as (affected & d3 & H3 & H). injection H3 as <- <-.
  apply bind_ok_inv in H as ([[evs2 ids] inv] & d4 & H4 & H).
  pose proof (log_outputs_cancelled _ _ _ _ _ _ _ _ _ _ _ H4) as Hids.
  apply (frames_ok pending_transactions) in H4; [|solve_frames].
  apply bind_ok_inv in H as (evs3 & d5 & H5 & H). apply cancel_pending_effect in H5.
  assert (pending_transactions d' = pending_transactions d5 /\
    ri_cancelled_transaction_ids info = hash_order ids) as [Hp ->].
  { split; [eapply (frames_ok pending_transactions); [|exact H]; solve_frames|].
    repeat (apply bind_ok_inv in H as (? & ? & _ & H)). by injection H as <- _. }
  rewrite Hp, H5, H4. injection H2 as -> Ho2. injection H1 as -> Ho1. split; [done|].
  intros id. rewrite (hash_order_perm ids), Hids, active_locks. unfold locks_from. rewrite Ho2, Ho1. set_solver.
Qed.

(** C13: a successful [rollback_from_height] deletes softly, in one step and with
    the time and the height of the rollback, exactly the account's active outputs
    and inputs mined at the height or above; removes exactly the tip blocks there;
    returns the mined transactions there to [completed] with every trace of the
    block erased; and cancels exactly the pending transactions that hold a lock on
    one of the outputs.  No other row of these tables changes. *)
Theorem rollback_spec acc h config d info d' :
  rollback_from_height acc h config d = (Ok info, d') ->
  outputs d' = update_where (from_height acc (as_i64 h)) (set_deleted (clock d) (as_i64 h)) (outputs d) /\
  inputs d' = update_where (input_from_height acc (as_i64 h)) (set_input_deleted (clock d) (as_i64 h)) (inputs d) /\
  scanned_tip_blocks d' = delete_where (tip_from_height acc (as_i64 h)) (scanned_tip_blocks d) /\
  completed_transactions d'
    = update_where (mined_from_height acc (as_i64 h)) (set_reverted (clock d)) (completed_transactions d) /\
  pending_transactions d' = cancelled_rows (ri_cancelled_transaction_ids info) (pending_transactions d) /\
  (forall id, id ∈ ri_cancelled_transaction_ids info <->
    exists o, o ∈ rows (outputs d) /\ from_height acc (as_i64 h) o = true /\ o_locked_by_request_id o = Some id).
Proof.
  intros H. pose proof (rollback_outputs _ _ _ _ _ _ H) as [=_ Ho].
  pose proof (rollback_inputs _ _ _ _ _ _ H) as [=_ Hi].
  pose proof (rollback_tips _ _ _ _ _ _ H) as Ht.
  pose proof (rollback_completed _ _ _ _ _ _ H) as [=_ Hc].
  destruct (rollback_pending _ _ _ _ _ _ H) as [Hp Hids]. repeat split; try done.
  - intros (o & Ho1 & Ho2)%Hids%list_elem_of_omap. apply elem_of_filter_bool in Ho1 as []. eauto.
  - intros (o & Ho1 & Ho2 & Ho3). apply Hids, list_elem_of_omap. exists o. unfold select. by rewrite elem_of_filter_bool.
Qed.

(** After a rollback nothing of the account is left at the height or above: no
    active output, no active input, no tip block, no mined transaction. *)
Theorem rollback_leaves_nothing_above acc h config d info d' :
  rollback_from_height acc h config d = (Ok info, d') ->
  (forall o, o ∈ rows (outputs d') -> from_height acc (as_i64 h) o = false) /\
  (forall i, i ∈ rows (inputs d') -> input_from_height acc (as_i64 h) i = false) /\
  (forall t, t ∈ rows (scanned_tip_blocks d') -> tip_from_height acc (as_i64 h) t = false) /\
  (forall c, c ∈ rows (completed_transactions d') -> mined_from_height acc (as_i64 h) c = false).
Proof.
  intros H. pose proof (rollback_outputs _ _ _ _ _ _ H) as [=_ Ho].
  pose proof (rollback_inputs _ _ _ _ _ _ H) as [=_ Hi].
  pose proof (rollback_tips _ _ _ _ _ _ H) as Ht.
  pose proof (rollback_completed _ _ _ _ _ _ H) as [=_ Hc]. unfold tips_of in Ht.
  rewrite Ho, Hi, Ht, Hc. cbn. split; [|split; [|split]].
  - intros o (r & _ & ->)%elem_of_update_rows. destruct (from_height acc (as_i64 h) r) eqn:E; [|done].
    unfold from_height, active. cbn. apply andb_false_r.
  - intros o (r & _ & ->)%elem_of_update_rows. destruct (input_from_height acc (as_i64 h) r) eqn:E; [|done].
    unfold input_from_height, input_active. cbn. apply andb_false_r.
  - intros t [_ Hb]%elem_of_filter_bool. by apply negb_true_iff.
  - intros c (r & _ & ->)%elem_of_update_rows. destruct (mined_from_height acc (as_i64 h) r) eqn:E; [|done].
    unfold mined_from_height. rewrite set_reverted_not_mined. by rewrite andb_false_r.
Qed.

(** A rollback gives the value of a spend it undoes back to the
    balance, but not the output to the wallet.  An output mined below the height
    whose spend is above it keeps its row, with status [SPENT], although no active
    input spends it any more, so no later selection offers it. *)
Theorem rollback_strands_spent_outputs acc h config d info d' o :
  rollback_from_height acc h config d = (Ok info, d') ->
  o ∈ rows (outputs d) -> o_mined_in_block_height o < as_i64 h -> o_status o = SPENT ->
  (forall i, i ∈ rows (inputs d) -> input_active i = true -> i_output_id i = o_id o ->
    input_from_height acc (as_i64 h) i = true) ->
  o ∈ rows (outputs d') /\ has_active_input (o_id o) d' = false /\
  (forall min_height, spendable acc min_height o = false).
Proof.
  intros H Ho Hlow Hs Hi. pose proof (rollback_outputs _ _ _ _ _ _ H) as [=_ Ho'].
  pose proof (rollback_inputs _ _ _ _ _ _ H) as [=_ Hi']. split; [|split].
  - rewrite Ho'. apply elem_of_update_rows. exists o. split; [done|].
    destruct (from_height acc (as_i64 h) o) eqn:E; [|done]. unfold from_height in E. lia.
  - unfold has_active_input. rewrite Hi'. cbn. apply not_true_is_false. intros (i & Hin & Ha)%existsb_exists.
    rewrite <- list_elem_of_In in Hin. apply elem_of_update_rows in Hin as (r & Hr & ->).
    apply andb_true_iff in Ha as [Ha Hid]. destruct (input_from_height acc (as_i64 h) r) eqn:E; [done|].
    apply Z.eqb_eq in Hid. by rewrite (Hi r Hr Ha Hid) in E.
  - intros m. unfold spendable. rewrite Hs. by rewrite andb_false_r.
Qed.

(** ** The fork point *)
Section Fork.
Context (get_header_by_height : Z -> outcome string (option string)).

(** The chain has the block that the tip recorded. *)
Definition on_chain (b : ScannedTipBlock) : Prop :=
  get_header_by_height (stb_height b) = Ok (Some (stb_hash b)).

(** Where scanning resumes when [rest] are the tips from the fork point down. *)
Definition resume_of (rest : list ScannedTipBlock) : Z :=
  match rest with [] => 0 | b :: _ => stb_height b + 1 end.

Lemma find_fork_ok blocks : forall detected h detected',
  find_fork get_header_by_height blocks detected = Ok (h, detected') ->
  exists above rest, blocks = above ++ rest /\ Forall (fun b => ~ on_chain b) above /\
    (forall b, head rest = Some b -> on_chain b) /\ h = resume_of rest /\
    detected' = detected || (match above with [] => false | _ => true end).
Proof.
  induction blocks as [|b blocks IH]; intros detected h detected' H; cbn in H.
  { injection H as <- <-. exists [], []. rewrite orb_false_r. repeat split; try done. }
  assert (Hrec : find_fork get_header_by_height blocks true = Ok (h, detected') -> ~ on_chain b ->
    exists above rest, b :: blocks = above ++ rest /\ Forall (fun b => ~ on_chain b) above /\
    (forall b, head rest = Some b -> on_chain b) /\ h = resume_of rest /\
    detected' = detected || (match above with [] => false | _ => true end)).
  { intros (above & rest & -> & Ha & Hr & -> & ->)%IH Hb. exists (b :: above), rest.
    rewrite orb_true_r. repeat split; try done. by constructor. }
  destruct (get_header_by_height (stb_height b)) as [[hash|]| |] eqn:E; cbn in H; try done.
  - destruct (String.eqb_spec hash (stb_hash b)) as [->|Hne].
    + apply outcome_bind_ok in H as (x & Hx & [= <- <-]). unfold u64_add in Hx. case_match; [|done].
      injection Hx as <-. exists [], (b :: blocks). rewrite orb_false_r. repeat split; try done.
      by intros ? [= <-].
    + apply Hrec; [done|]. unfold on_chain. rewrite E. congruence.
  - apply Hrec; [done|]. unfold on_chain. by rewrite E.
Qed.

(** What [handle_reorgs] does with the recorded tips. *)
Lemma handle_reorgs_split acc config d r d' :
  handle_reorgs get_header_by_height acc config d = (Ok r, d') ->
  exists tips above rest,
    get_scanned_tip_blocks_by_account acc d = (Ok tips, d) /\
    tips = above ++ rest /\
    Forall (fun b => ~ on_chain b) above /\ (forall b, head rest = Some b -> on_chain b) /\
    resume_height r = resume_of rest /\
    match above with
    | [] => d' = d /\ reorg_information r = None
    | _ => exists info, reorg_information r = Some info /\
        rollback_from_height acc (resume_of rest) config d = (Ok info, d')
    end.
Proof.
  unfold handle_reorgs. intros H.
  apply bind_ok_inv in H as (tips & d1 & H1 & H).
  assert (get_scanned_tip_blocks_by_account acc d = (Ok tips, d1) /\ d1 = d) as [Ht ->].
  { unfold any_db, map_err in H1. destruct (get_scanned_tip_blocks_by_account acc d) as [[] s] eqn:E;
      cbn in H1; simplify_eq. split; [done|].
    unfold get_scanned_tip_blocks_by_account in E. by inv_ok. }
  destruct tips as [|first tips].
  { injection H as <- <-. exists [], [], []. repeat split; try done. }
  apply bind_ok_inv in H as ([h detected] & d2 & H2 & H). injection H2 as H2 <-.
  destruct (find_fork_ok (first :: tips) _ _ _ H2) as (above & rest & Hsplit & Ha & Hr & -> & ->).
  exists (first :: tips), above, rest. rewrite orb_false_l in H.
  destruct above as [|b above]; cbn in Hsplit.
  - subst rest. apply bind_ok_inv in H as (h & d3 & H3 & H). injection H3 as H3 <-. injection H as <- <-.
    unfold u64_add in H3. case_match; [|done]. injection H3 as <-. repeat split; try done.
  - apply bind_ok_inv in H as (info & d3 & H3 & H). apply (proj1 (transaction_ok _ _ _ _)) in H3. injection H as <- <-.
    repeat split; try done. by exists info.
Qed.

(** C12: [handle_reorgs] finds the fork point.  The recorded tips, newest first,
    split into those the chain no longer has and the rest, whose first is on the
    chain; scanning resumes right above it (from zero when none is left).  Nothing
    is written when every tip agrees, and otherwise the account is rolled back to
    that height. *)
Theorem handle_reorgs_fork_point acc config d r d' :
  handle_reorgs get_header_by_height acc config d = (Ok r, d') ->
  exists tips above rest,
    get_scanned_tip_blocks_by_account acc d = (Ok tips, d) /\
    tips = above ++ rest /\
    Forall (fun b => ~ on_chain b) above /\ (forall b, head rest = Some b -> on_chain b) /\
    resume_height r = resume_of rest /\
    match above with
    | [] => d' = d /\ reorg_information r = None
    | _ => exists info, reorg_information r = Some info /\
        rollback_from_height acc (resume_of rest) config d = (Ok info, d')
    end.
Proof. apply handle_reorgs_split. Qed.

(** When [handle_reorgs] fails - the node does not answer, a row does not decode,
    a statement of the rollback fails - the database is what it was. *)
Theorem handle_reorgs_error_keeps_db acc config d r d' :
  handle_reorgs get_header_by_height acc config d = (r, d') -> is_ok r = false -> d' = d.
Proof.
  revert d r d'. change (atomic (handle_reorgs get_header_by_height acc config)). unfold handle_reorgs.
  apply atomic_before; [unfold any_db, get_scanned_tip_blocks_by_account; solve_preserves|].
  intros [|first tips]; [apply atomic_frames; solve_preserves|].
  apply atomic_before; [solve_preserves|]. intros [h []].
  - apply (atomic_ret _ (fun info => mkReorgResult h (Some info))). apply atomic_transaction.
  - apply atomic_frames. solve_preserves.
Qed.

End Fork.
End Rollback.

(** ** Examples *)
Module ReorgExamples.
Import Demo Ledger.Examples.

Lemma rollback_spec_witness :
  rolled_back_from_height rollback10_info = 10 /\
  outputs (snd rollback10) = update_where (from_height 1 (as_i64 10)) (set_deleted (clock after10) (as_i64 10)) (outputs after10).
Proof.
  split; [by vm_compute|].
  exact (proj1 (rollback_spec 1 10 None after10 rollback10_info (snd rollback10) rollback10_ok)).
Defined.

Lemma rollback_leaves_nothing_above_witness :
  length (rows (outputs (snd rollback10))) = 2%nat /\
  (forall o, o ∈ rows (outputs (snd rollback10)) -> from_height 1 (as_i64 10) o = false).
Proof.
  split; [by vm_compute|].
  exact (proj1 (rollback_leaves_nothing_above 1 10 None after10 rollback10_info (snd rollback10) rollback10_ok)).
Defined.

(** Block 11 spends the output that block 10 left unspent; then 11 is rolled back. *)
Definition block11 : BlockScanResult := mkBlockScanResult 11 "block11" [] ["h2"] 950.
Definition after11 : Db := snd (snd (process_block block11 1 (processor10, after10))).
Definition rollback11 := rollback_from_height 1 11 None after11.
Definition rollback11_info : ReorgInformation :=
  result_or (mkReorgInformation 0 0 [] [] []) (fst rollback11).

Lemma rollback11_ok : rollback_from_height 1 11 None after11 = (Ok rollback11_info, snd rollback11).
Proof. unfold rollback11_info, rollback11. apply run_ok. vm_compute. reflexivity. Qed.

Definition no_row : OutputRow :=
  mkOutputRow 0 0 0 "" 0 "" 0 0 "" None None None 0 None None "" None None None None.
Definition stranded : OutputRow := nth 1 (rows (outputs after11)) no_row.

(** The balance counts 50, and nothing can be selected. *)
Example stranded_value :
  o_value stranded = 50 /\ chain_balance 1 (snd rollback11) = 50 /\
  (total <$> match fst (get_balance 1 (snd rollback11)) with Ok b => Some b | _ => None end) = Some 50 /\
  (length <$> match fst (fetch_unspent_outputs 1 100 (snd rollback11)) with Ok l => Some l | _ => None end) = Some 0%nat.
Proof. vm_compute. repeat split; reflexivity. Qed.

Lemma rollback_strands_spent_outputs_witness :
  stranded ∈ rows (outputs (snd rollback11)) /\ has_active_input (o_id stranded) (snd rollback11) = false.
Proof.
  assert (H : stranded ∈ rows (outputs (snd rollback11)) /\ has_active_input (o_id stranded) (snd rollback11) = false
    /\ forall m, spendable 1 m stranded = false).
  { refine (rollback_strands_spent_outputs 1 11 None after11 rollback11_info (snd rollback11) stranded
      rollback11_ok _ _ _ _).
    - apply list_elem_of_In, nth_In. apply Nat.ltb_lt. vm_compute. reflexivity.
    - vm_compute. reflexivity.
    - vm_compute. reflexivity.
    - assert (Forall (fun i => input_active i = true -> i_output_id i = o_id stranded ->
        input_from_height 1 (as_i64 11) i = true) (rows (inputs after11))) as Hf.
      { vm_compute. repeat constructor; intros; discriminate. }
      rewrite Forall_forall in Hf. exact Hf. }
  destruct H as (H1 & H2 & _). split; [exact H1|exact H2].
Defined.

Definition other_chain (height : Z) : outcome string (option string) :=
  if height =? 10 then Ok (Some "other") else Ok None.
Definition reorged := handle_reorgs other_chain 1 None after10.
Definition reorged_result : ReorgResult := result_or (mkReorgResult 0 None) (fst reorged).

Lemma reorged_ok : handle_reorgs other_chain 1 None after10 = (Ok reorged_result, snd reorged).
Proof. unfold reorged_result, reorged. apply run_ok. vm_compute. reflexivity. Qed.

Lemma handle_reorgs_fork_point_witness : resume_height reorged_result = 0 /\
  exists tips, get_scanned_tip_blocks_by_account 1 after10 = (Ok tips, after10).
Proof.
  destruct (handle_reorgs_fork_point other_chain 1 None after10 reorged_result (snd reorged) reorged_ok)
    as (tips & above & rest & H & _).
  split; [vm_compute; reflexivity|]. exists tips. exact H.
Defined.

Definition no_node (height : Z) : outcome string (option string) := Err "connection refused".
Definition failed := handle_reorgs no_node 1 None after10.

Lemma failed_run : handle_reorgs no_node 1 None after10 = (fst failed, snd failed).
Proof. unfold failed. apply surjective_pairing. Qed.

Lemma handle_reorgs_error_keeps_db_witness : snd failed = after10.
Proof.
  refine (handle_reorgs_error_keeps_db no_node 1 None after10 (fst failed) (snd failed) failed_run _).
  vm_compute. reflexivity.
Defined.

End ReorgExamples.
