(* ===== verification/Wallet.v ===== *)
(** * The wallet as a state machine

    Every operation of the program is a step on the database; [wallet_ok] is an
    invariant of the states that sequences of steps reach: the life cycle of an
    output and of its lock, the columns each status of a transaction requires,
    the unique indexes, and the retry counters of the webhooks. *)
From S2P Require Import Prelude Models DisplayTypes External Schema BalanceDb OutputsDb InputsDb.
From S2P Require Import TipBlocksDb PendingDb AccountsDb Crypto EventsDb CompletedDb DisplayedDb PayrefDb.
From S2P Require Import BurnProofsDb WebhooksDb Webhooks ScanEvents Subset Builder Processor.
From S2P Require Import Scanning BlockProc Reorg InputSelector FundLocker Monitor Manager Burn ValidatorNode Ledger.
From stdpp Require Import relations.
#[local] Open Scope Z_scope.

(** ** Unique indexes *)

(** The values of the column [g] differ on the rows that satisfy [q]. *)
Definition unique_index {R B} (q : R -> bool) (g : R -> B) (t : Table R) : Prop :=
  NoDup (map g (select q t)).

Section UniqueIndex.
Context {R B : Type} (q : R -> bool) (g : R -> B).

Lemma unique_row (t : Table R) x y :
  unique_index q g t -> x ∈ rows t -> y ∈ rows t -> q x = true -> q y = true -> g x = g y -> x = y.
Proof. intros Hn Hx Hy Hqx Hqy. apply (NoDup_map_eq g (select q t)); [done|..]; by apply elem_of_filter_bool. Qed.

Lemma unique_update p f (t : Table R) :
  (forall r, q (f r) = true -> q r = true /\ g (f r) = g r) ->
  unique_index q g t -> unique_index q g (update_where p f t).
Proof.
  intros Hf. unfold unique_index, select. cbn. intros Hn.
  eapply sublist_NoDup; [exact Hn|]. induction (rows t) as [|r l IH]; [constructor|]. cbn.
  assert (NoDup (map g (List.filter q l))).
  { cbn in Hn. destruct (q r); [by inversion Hn|done]. }
  specialize (IH H). destruct (p r).
  - destruct (q (f r)) eqn:E.
    + destruct (Hf r E) as [-> Hg]. cbn. rewrite Hg. by apply sublist_skip.
    + destruct (q r); cbn; auto using sublist_cons.
  - destruct (q r); cbn; auto using sublist_skip.
Qed.

Lemma unique_delete p (t : Table R) : unique_index q g t -> unique_index q g (delete_where p t).
Proof.
  unfold unique_index, select. cbn. intros Hn. rewrite filter_filter.
  rewrite (filter_ext_elem _ (fun x => q x && negb (p x))) by (intros; apply andb_comm).
  rewrite <- filter_filter. by apply NoDup_map_filter.
Qed.

Lemma unique_app r (t : Table R) n :
  (q r = true -> forall x, x ∈ rows t -> q x = true -> g x <> g r) ->
  unique_index q g t -> unique_index q g (mkTable (rows t ++ [r]) n).
Proof.
  unfold unique_index, select. cbn. intros Hr Hn. rewrite filter_app_bool, map_app. cbn.
  destruct (q r); cbn; [|by rewrite app_nil_r]. apply NoDup_app. split; [done|]. split; [|apply NoDup_singleton].
  intros x Hx ->%list_elem_of_singleton. apply list_elem_of_fmap in Hx as (y & Hy & Hin).
  apply elem_of_filter_bool in Hin as [Hin Hq]. by eapply Hr.
Qed.

End UniqueIndex.

Lemma Forall_update_rows {R} (P : R -> Prop) p f l :
  (forall r, P r -> p r = true -> P (f r)) -> Forall P l -> Forall P (update_rows p f l).
Proof.
  intros Hf. induction 1 as [|r l Hr Hl IH]; cbn; constructor; [|done]. destruct (p r) eqn:E; auto.
Qed.

Lemma Forall_filter_bool {R} (P : R -> Prop) (p : R -> bool) l : Forall P l -> Forall P (List.filter p l).
Proof. induction 1; cbn; [constructor|]. destruct (p x); by try constructor. Qed.

Lemma existsb_none {R} (p : R -> bool) l : existsb p l = false -> forall x, x ∈ l -> p x = false.
Proof.
  intros H x Hx. apply not_true_is_false. intros Hp. rewrite list_elem_of_In in Hx.
  assert (existsb p l = true) by (apply existsb_exists; eauto). congruence.
Qed.

(** ** The invariant, table by table *)

(** An output is unspent without a lock, locked with its request and expiry, or
    spent; a deleted output has lost its payment reference. *)
Record output_ok (o : OutputRow) : Prop := {
  ok_status :
    (o_status o = UNSPENT /\ o_locked_by_request_id o = None /\ o_locked_at o = None)
    \/ (o_status o = LOCKED /\ is_Some (o_locked_by_request_id o) /\ is_Some (o_locked_at o))
    \/ o_status o = SPENT;
  ok_deleted : if active o then o_deleted_in_block_height o = None
    else is_Some (o_deleted_in_block_height o) /\ o_payment_reference o = None;
  ok_confirmed : is_Some (o_confirmed_height o) <-> is_Some (o_confirmed_hash o);
}.

Record outputs_ok (t : Table OutputRow) : Prop := {
  outs_rows : Forall output_ok (rows t);
  outs_bound : Forall (fun o => o_id o <= seqno t) (rows t);
  outs_ids : unique_index (fun _ => true) o_id t;
  outs_hashes : unique_index active o_output_hash t;
  outs_tx_ids : unique_index active o_tx_id t;
}.

(** At most one active input spends an output. *)
Definition inputs_ok (t : Table InputRow) : Prop := unique_index input_active i_output_id t.

(** The columns that the status of a completed transaction requires; it was
    broadcast at most once since it last was [completed]. *)
Definition completed_ok (c : CompletedRow) : Prop :=
  is_i64 (c_id c) /\ 0 <= c_broadcast_attempts c <= 1 /\
  exists s, c_status c = CTS.to_string s /\
  match s with
  | CTS.Completed => c_broadcast_attempts c = 0
  | CTS.MinedUnconfirmed => is_Some (c_mined_height c) /\ is_Some (c_mined_block_hash c)
  | CTS.MinedConfirmed => is_Some (c_confirmation_height c) /\ is_Some (c_sent_payref c)
  | CTS.Rejected => is_Some (c_last_rejected_reason c)
  | CTS.Broadcast | CTS.Canceled => True
  end.

Record completeds_ok (t : Table CompletedRow) : Prop := {
  comp_rows : Forall completed_ok (rows t);
  comp_ids : unique_index (fun _ => true) c_id t;
}.

Record pendings_ok (t : Table PendingRow) : Prop := {
  pend_rows : Forall (fun p => exists s, p_status p = PendingTransactionStatus.to_string s) (rows t);
  pend_ids : unique_index (fun _ => true) p_id t;
  pend_keys : unique_index (fun _ => true) (fun p => (p_account_id p, p_idempotency_key p)) t;
}.

(** A delivery that can still be retried was tried less than [MAX_ATTEMPTS] times. *)
Definition webhook_ok (w : WebhookRow) : Prop :=
  exists s, w_status w = WS.to_string s /\ 0 <= w_attempt_count w /\
  match s with
  | WS.Pending => w_attempt_count w = 0
  | WS.Failed => 1 <= w_attempt_count w < MAX_ATTEMPTS
  | WS.Success | WS.PermanentFailure => 1 <= w_attempt_count w <= MAX_ATTEMPTS
  end.

(** The primary key and the two unique columns of an account. *)
Record accounts_ok (t : Table AccountRow) : Prop := {
  acc_bound : Forall (fun a => a_id a <= seqno t) (rows t);
  acc_ids : unique_index (fun _ => true) a_id t;
  acc_names : unique_index (fun _ => true) a_friendly_name t;
  acc_fingerprints : unique_index (fun _ => true) a_fingerprint t;
}.

Definition wallet_ok (d : Db) : Prop :=
  outputs_ok (outputs d) /\ inputs_ok (inputs d) /\ completeds_ok (completed_transactions d) /\
  pendings_ok (pending_transactions d) /\ Forall webhook_ok (rows (webhook_queue d)) /\ accounts_ok (accounts d).

(** ** Operations on outputs and inputs *)
Section Steps.
Context {X : Ext}.

Lemma wallet_ok_outputs d t : wallet_ok d -> outputs_ok t -> wallet_ok (with_outputs t d).
Proof. unfold wallet_ok. cbn. tauto. Qed.
Lemma wallet_ok_inputs d t : wallet_ok d -> inputs_ok t -> wallet_ok (with_inputs t d).
Proof. unfold wallet_ok. cbn. tauto. Qed.
Lemma wallet_ok_completed d t : wallet_ok d -> completeds_ok t -> wallet_ok (with_completed_transactions t d).
Proof. unfold wallet_ok. cbn. tauto. Qed.
Lemma wallet_ok_pending d t : wallet_ok d -> pendings_ok t -> wallet_ok (with_pending_transactions t d).
Proof. unfold wallet_ok. cbn. tauto. Qed.
Lemma wallet_ok_webhooks d t : wallet_ok d -> Forall webhook_ok (rows t) -> wallet_ok (with_webhook_queue t d).
Proof. unfold wallet_ok. cbn. tauto. Qed.

Lemma wallet_ok_accounts d t : wallet_ok d -> accounts_ok t -> wallet_ok (with_accounts t d).
Proof. unfold wallet_ok. cbn. tauto. Qed.

Definition output_identity (o : OutputRow) : Z * string * Z := (o_id o, o_output_hash o, o_tx_id o).

Lemma outputs_ok_update p f t :
  (forall o, output_ok o -> p o = true -> output_ok (f o)) ->
  (forall o, output_identity (f o) = output_identity o) ->
  (forall o, active (f o) = true -> active o = true) ->
  outputs_ok t -> outputs_ok (update_where p f t).
Proof.
  intros Hf Hi Ha [Hr Hb Hids Hh Htx]. constructor; cbn.
  - by apply Forall_update_rows.
  - apply Forall_update_rows; [|done]. intros o Ho _. specialize (Hi o). injection Hi as -> _ _. done.
  - apply unique_update; [|done]. intros o _. specialize (Hi o). by injection Hi.
  - apply unique_update; [|done]. intros o Hact. split; [auto|]. specialize (Hi o). by injection Hi.
  - apply unique_update; [|done]. intros o Hact. split; [auto|]. specialize (Hi o). by injection Hi.
Qed.

Lemma preserves_update_outputs p f :
  (forall o, output_ok o -> p o = true -> output_ok (f o)) ->
  (forall o, output_identity (f o) = output_identity o) ->
  (forall o, active (f o) = true -> active o = true) ->
  preserves wallet_ok (update_outputs p f).
Proof.
  intros Hf Hi Ha. apply preserves_modify. intros d Hd. apply wallet_ok_outputs; [done|].
  apply outputs_ok_update; try done. apply Hd.
Qed.

(** Each row update that the program applies to an output keeps it well formed. *)
Lemma ok_set_confirmed h hash o : output_ok o -> output_ok (set_confirmed h hash o).
Proof. intros [H1 H2 H3]. constructor; cbn; try done. Qed.
Lemma ok_set_deleted now h o : output_ok o -> output_ok (set_deleted now h o).
Proof. intros [H1 H2 H3]. constructor; cbn; try done. Qed.
Lemma ok_spent o : output_ok o -> output_ok (set_output_status SPENT o).
Proof. intros [H1 H2 H3]. constructor; cbn; try done. by right; right. Qed.
Lemma ok_locked at_ req o : output_ok o -> output_ok (set_lock (Some at_) (Some req) (set_output_status LOCKED o)).
Proof. intros [H1 H2 H3]. constructor; cbn; try done. right; left. eauto. Qed.
Lemma ok_unlocked o : output_ok o -> output_ok (set_lock None None (set_output_status UNSPENT o)).
Proof. intros [H1 H2 H3]. constructor; cbn; try done. by left. Qed.

Lemma step_mark_output_confirmed h a b : preserves wallet_ok (mark_output_confirmed h a b).
Proof. apply preserves_update_outputs; try done. intros. by apply ok_set_confirmed. Qed.
Lemma step_output_spent id : preserves wallet_ok (update_output_status id OutputStatus.Spent).
Proof. apply preserves_update_outputs; try done. intros. by apply ok_spent. Qed.
Lemma step_lock_output id req at_ : preserves wallet_ok (lock_output id req at_).
Proof. apply preserves_update_outputs; try done. intros. by apply ok_locked. Qed.
Lemma step_unlock_outputs req : preserves wallet_ok (unlock_outputs_for_request req).
Proof. apply preserves_update_outputs; try done. intros. by apply ok_unlocked. Qed.
Lemma step_delete_outputs acc h : preserves wallet_ok (soft_delete_outputs_from_height acc h).
Proof.
  assert (forall p now k, preserves wallet_ok (update_outputs p (set_deleted now k))) as Hd.
  { intros. apply preserves_update_outputs; try done. intros. by apply ok_set_deleted. }
  unfold soft_delete_outputs_from_height, reverse_output. solve_preserves; auto.
Qed.

Lemma step_insert_output acc vk hash o h bh ts mp mh pr burn :
  preserves wallet_ok (insert_output acc vk hash o h bh ts mp mh pr burn).
Proof.
  intros d Hd. unfold insert_output, bind, lift.
  destruct (ok_or (output_to_json o) _); [|done..]. destruct (ok_or (datetime_from_timestamp _) _); [|done..].
  unfold constrained. destruct (_ && _) eqn:E; [|done]. cbn. apply wallet_ok_outputs; [done|].
  apply andb_true_iff in E as [_ E]. unfold output_is_unique in E.
  pose proof (existsb_none _ _ (proj1 (negb_true_iff _) E)) as Hnone. destruct Hd as ([Hr Hb Hids Hh Htx] & _).
  assert (Hact : forall x, x ∈ rows (outputs d) -> active x = true -> o_output_hash x <> hash
    /\ o_tx_id x <> as_i64 (tx_id_new_deterministic vk (wo_output_hash o))).
  { intros x Hx Ha. specialize (Hnone x Hx). cbv beta in Hnone. rewrite Ha in Hnone. cbn in Hnone.
    apply orb_false_iff in Hnone as [?%String.eqb_neq ?%Z.eqb_neq]. done. }
  constructor; cbn.
  - apply Forall_app. split; [done|]. constructor; [|constructor]. by constructor; cbn; [left| |].
  - apply Forall_app. split; [|constructor; [cbn; lia|constructor]].
    eapply Forall_impl; [exact Hb|]. cbn. intros; lia.
  - apply unique_app; [|exact Hids]. cbn. intros _ x Hx _. rewrite Forall_forall in Hb. specialize (Hb x Hx). lia.
  - apply unique_app; [|exact Hh]. cbn. intros _ x Hx Ha. by apply Hact.
  - apply unique_app; [|exact Htx]. cbn. intros _ x Hx Ha. by apply Hact.
Qed.

Lemma step_delete_inputs acc h : preserves wallet_ok (soft_delete_inputs_from_height acc h).
Proof.
  assert (forall p now k, preserves (E := WalletDbError) wallet_ok
    (modify (fun d => with_inputs (update_where p (set_input_deleted now k) (inputs d)) d))) as Hd.
  { intros. apply preserves_modify. intros d Hd. apply wallet_ok_inputs; [done|].
    apply unique_update; [done|]. apply Hd. }
  unfold soft_delete_inputs_from_height, reverse_input. solve_preserves; auto.
Qed.

Lemma step_insert_input acc o h bh ts : preserves wallet_ok (insert_input acc o h bh ts).
Proof.
  assert (forall r s s', wallet_ok s -> when (negb (has_active_input o s))
     (constrained (fun d => account_exists acc d && output_exists o d) ;;;
      modify (fun d =>
      let '(_, t) := insert_auto (fun id => mkInputRow id acc o (as_i64 h) bh r None None) (inputs d) in
      with_inputs t d)) s = s' -> wallet_ok (snd s')) as Hw.
  { intros r s s' Hs <-. destruct (has_active_input o s) eqn:E; [done|]. unfold when, negb, bind, constrained.
    destruct (_ && _); [|done]. cbn. apply wallet_ok_inputs; [done|]. destruct Hs as (_ & Hi & _).
    apply unique_app; [|exact Hi]. cbn. intros _ x Hx Ha Ho.
    pose proof (existsb_none _ _ E x Hx) as Hf. cbv beta in Hf. by rewrite Ha, Ho, Z.eqb_refl in Hf. }
  intros d Hd. unfold insert_input. unfold bind at 1, lift. destruct (ok_or _ _) as [ts'| |]; [|done..].
  unfold bind at 1, gets at 1. unfold bind at 1. destruct (when _ _ d) as [r0 s0] eqn:E0.
  pose proof (Hw _ _ _ Hd E0) as Hs0. cbn in Hs0. destruct r0; [|done..]. unfold bind, gets.
  unfold id. by case_match.
Qed.

(** ** Operations on transactions and webhooks *)
Lemma step_create_pending uuid key acc rc tv f1 f2 ex :
  preserves wallet_ok (create_pending_transaction uuid key acc rc tv f1 f2 ex).
Proof.
  intros d Hd. unfold create_pending_transaction. destruct (_ && _) eqn:E; [|done]. cbn.
  apply wallet_ok_pending; [done|]. apply andb_true_iff in E as [_ E]. unfold pending_is_unique in E.
  pose proof (existsb_none _ _ (proj1 (negb_true_iff _) E)) as Hnone. cbv beta in Hnone.
  destruct Hd as (_ & _ & _ & [Hr Hids Hkeys] & _). constructor; cbn.
  - apply Forall_app. split; [done|]. constructor; [by exists PendingTransactionStatus.Pending|constructor].
  - apply unique_app; [|exact Hids]. cbn. intros _ x Hx _. specialize (Hnone x Hx).
    apply orb_false_iff in Hnone as [Hid _]. by apply String.eqb_neq.
  - apply unique_app; [|exact Hkeys]. cbn. intros _ x Hx _ [= H1 H2]. specialize (Hnone x Hx).
    rewrite H1, H2, Z.eqb_refl, String.eqb_refl, orb_true_r in Hnone. done.
Qed.

Lemma preserves_pending_status p s :
  preserves (E := WalletDbError) wallet_ok (modify (fun d => with_pending_transactions
    (update_where p (set_pending_status (PendingTransactionStatus.to_string s)) (pending_transactions d)) d)).
Proof.
  apply preserves_modify. intros d Hd. apply wallet_ok_pending; [done|].
  destruct Hd as (_ & _ & _ & [Hr Hids Hkeys] & _). constructor; cbn.
  - apply Forall_update_rows; [|done]. intros. by exists s.
  - by apply unique_update.
  - by apply unique_update.
Qed.
Lemma step_pending_status id s : preserves wallet_ok (update_pending_transaction_status id s).
Proof. apply preserves_pending_status. Qed.
Lemma step_cancel_pending ids s : preserves wallet_ok (cancel_pending_transactions_by_ids ids s).
Proof. destruct ids; [apply preserves_ret|apply preserves_pending_status]. Qed.

Lemma preserves_update_completed p f :
  (forall now c, completed_ok c -> completed_ok (f now c)) -> (forall now c, c_id (f now c) = c_id c) ->
  preserves wallet_ok (update_completed p f).
Proof.
  intros Hf Hi. apply preserves_modify. intros d Hd. apply wallet_ok_completed; [done|].
  destruct Hd as (_ & _ & [Hr Hids] & _). constructor; cbn.
  - apply Forall_update_rows; [|done]. auto.
  - apply unique_update; [|done]. auto.
Qed.
Lemma step_broadcasted id n : 0 <= n <= 1 -> preserves wallet_ok (mark_completed_transaction_as_broadcasted id n).
Proof.
  intros Hn. apply preserves_update_completed; [|done]. intros now c (Hi & _). split; [done|]. split; [done|].
  by exists CTS.Broadcast.
Qed.
Lemma step_broadcasted_once id : preserves wallet_ok (mark_completed_transaction_as_broadcasted id 1).
Proof. by apply step_broadcasted. Qed.
Lemma step_mined id h b : preserves wallet_ok (mark_completed_transaction_as_mined_unconfirmed id h b).
Proof.
  apply preserves_update_completed; [|done]. intros now c (Hi & Ha & _). split; [done|]. split; [done|].
  exists CTS.MinedUnconfirmed. split; [done|]. cbn. eauto.
Qed.
Lemma step_confirmed id h p : preserves wallet_ok (mark_completed_transaction_as_confirmed id h p).
Proof.
  apply preserves_update_completed; [|done]. intros now c (Hi & Ha & _). split; [done|]. split; [done|].
  exists CTS.MinedConfirmed. split; [done|]. cbn. eauto.
Qed.
Lemma step_rejected id r : preserves wallet_ok (mark_completed_transaction_as_rejected id r).
Proof.
  apply preserves_update_completed; [|done]. intros now c (Hi & Ha & _). split; [done|]. split; [done|].
  exists CTS.Rejected. split; [done|]. cbn. eauto.
Qed.
Lemma step_reset acc h : preserves wallet_ok (reset_mined_completed_transactions_from_height acc h).
Proof.
  assert (forall p, preserves wallet_ok (update_completed p set_reverted)).
  { intros. apply preserves_update_completed; [|done]. intros now c (Hi & _). split; [done|]. split; [cbn; lia|].
    by exists CTS.Completed. }
  unfold reset_mined_completed_transactions_from_height. solve_preserves; auto.
Qed.
Lemma step_create_completed acc p k st so id : preserves wallet_ok (create_completed_transaction acc p k st so id).
Proof.
  intros d Hd. unfold create_completed_transaction, bind, constrained. destruct (_ && _ && _) eqn:E; [|done]. cbn.
  apply wallet_ok_completed; [done|]. apply andb_true_iff in E as [[E _]%andb_true_iff _].
  pose proof (existsb_none _ _ (proj1 (negb_true_iff _) E)) as Hnone. cbv beta in Hnone.
  destruct Hd as (_ & _ & [Hr Hids] & _). constructor; cbn.
  - apply Forall_app. split; [done|]. constructor; [|constructor].
    split; [apply as_i64_range|]. split; [cbn; lia|]. by exists CTS.Completed.
  - apply unique_app; [|exact Hids]. cbn. intros _ x Hx _. specialize (Hnone x Hx). by apply Z.eqb_neq.
Qed.

Lemma step_enqueue e t p u : preserves wallet_ok (enqueue_webhook e t p u).
Proof.
  intros d Hd. unfold enqueue_webhook, bind, constrained. destruct (opt_ref _ _); [|done]. cbn.
  apply wallet_ok_webhooks; [done|]. cbn. apply Forall_app. split; [apply Hd|].
  constructor; [|constructor]. exists WS.Pending. split; [done|]. cbn. lia.
Qed.
Lemma step_trigger acc i e c : preserves wallet_ok (trigger_webhook_with_balance acc i e c).
Proof. pose proof step_enqueue. unfold trigger_webhook_with_balance. solve_preserves; auto. Qed.

(** The result of a delivery of an item that was due. *)
Lemma step_process_item sender draw plus secret item :
  0 <= wq_attempt_count item < MAX_ATTEMPTS -> preserves wallet_ok (process_item sender draw plus secret item).
Proof.
  intros Hc. unfold process_item. apply preserves_bind; [apply preserves_gets|]. intros now.
  intros d Hd. unfold bind at 1, lift. destruct (delivery_update _ _ _ _ _) as [[[st next] msg]| |] eqn:E; [|done..].
  enough (preserves wallet_ok (update_webhook_status (wq_id item) st (wq_attempt_count item + 1) next msg)) as Hp.
  { apply (preserves_bind wallet_ok (attempt _)); [by apply preserves_attempt| |done]. intros ?. apply preserves_ret. }
  apply preserves_modify. intros d0 Hd0. apply wallet_ok_webhooks; [done|]. apply Forall_update_rows; [|apply Hd0].
  intros w _ _. exists st. split; [done|]. split; [cbn; lia|]. cbn [set_webhook w_attempt_count].
  unfold delivery_update in E. destruct (sender _ _ _ _); simplify_eq; [lia| |lia].
  apply outcome_bind_ok in E as ([n stop] & Hb & [= <- <- <-]).
  unfold calculate_backoff in Hb. destruct (MAX_ATTEMPTS <=? wq_attempt_count item + 1) eqn:El.
  - injection Hb as <- <-. lia.
  - apply outcome_bind_ok in Hb as (x & _ & [= <- <-]). lia.
Qed.

Lemma due_items_ok n d items d' :
  wallet_ok d -> fetch_due_webhooks n d = (Ok items, d') ->
  d' = d /\ forall item, item ∈ items -> 0 <= wq_attempt_count item < MAX_ATTEMPTS.
Proof.
  intros Hd [= <- <-]. split; [done|]. intros item (w & -> & Hw)%list_elem_of_fmap.
  unfold limit_offset in Hw. assert (w ∈ select (is_due (clock d)) (webhook_queue d)) as Hin.
  { rewrite <- (elem_of_sort_by (fun a b => w_next_retry_at a <=? w_next_retry_at b)).
    case_match; [|apply subseteq_take in Hw]; by apply subseteq_drop in Hw. }
  apply elem_of_filter_bool in Hin as [Hin Hdue]. destruct Hd as (_ & _ & _ & _ & Hq & _).
  rewrite Forall_forall in Hq. destruct (Hq w Hin) as (s & Hs & H0 & Hst). cbn.
  unfold is_due in Hdue. rewrite Hs in Hdue. destruct s; cbn in *; try done; unfold MAX_ATTEMPTS in *; lia.
Qed.

Lemma step_process_batch sender draw plus secret : preserves wallet_ok (process_batch sender draw plus secret).
Proof.
  intros d Hd. unfold process_batch. unfold bind. destruct (fetch_due_webhooks _ d) as [[items| |] d0] eqn:E; [|done..].
  destruct (due_items_ok _ _ _ _ Hd E) as [-> Hi].
  apply (preserves_for_each wallet_ok); [|done]. intros item Hitem. apply step_process_item. auto.
Qed.

End Steps.

#[export] Hint Resolve step_mark_output_confirmed step_output_spent step_lock_output step_unlock_outputs
  step_delete_outputs step_insert_output step_delete_inputs step_insert_input step_create_pending
  step_pending_status step_cancel_pending step_broadcasted_once step_mined step_confirmed step_rejected step_reset
  step_create_completed step_enqueue step_trigger step_process_batch : dbm.

(** ** A database beside a state of one's own

    The block processor, the monitor and the burn worker run on the database with a state
    of their own, which a property of the database does not read. *)
Definition in_db {A} (P : Db -> Prop) (s : A * Db) : Prop := P (snd s).

Section InDb.
Context {X : Ext} {S0 : StdOrder} {SE : SelectionExt} {C : TxClient}.
Context (P : Db -> Prop).

Lemma preserves_on_db {A} (m : DbM A) : preserves P m -> preserves (in_db P) (on_db m).
Proof. intros H [p d] Hd. specialize (H d Hd). unfold on_db. by destruct (m d). Qed.
Lemma preserves_on_self f : preserves (in_db P) (on_self f).
Proof. apply preserves_modify. by intros []. Qed.
Lemma preserves_self {A} (f : BlockProcessor -> A) : preserves (in_db P) (self f).
Proof. by intros [p d] Hd. Qed.
Lemma preserves_on_processor {A} (m : ProcM A) : preserves P m -> preserves (in_db P) (on_processor m).
Proof. intros H [p d] Hd. specialize (H d Hd). unfold on_processor. by destruct (m d). Qed.
Lemma preserves_mon_db {A} (m : AnyM A) : preserves P m -> preserves (in_db P) (mon_db m).
Proof. intros H [p d] Hd. specialize (H d Hd). unfold mon_db. by destruct (m d). Qed.
Lemma preserves_set_flag b : preserves (in_db P) (set_flag b).
Proof. apply preserves_modify. by intros []. Qed.
Lemma preserves_worker_db {A} (m : DbM A) : preserves P m -> preserves (in_db P) (worker_db m).
Proof. intros H [files d] Hd. specialize (H d Hd). unfold worker_db. cbn. by destruct (m d). Qed.

End InDb.

Ltac lift_step :=
  match goal with
  | |- preserves _ (on_db _) => apply preserves_on_db
  | |- preserves _ (on_self _) => apply preserves_on_self
  | |- preserves _ (self _) => apply preserves_self
  | |- preserves _ (on_processor _) => apply preserves_on_processor
  | |- preserves _ (mon_db _) => apply preserves_mon_db
  | |- preserves _ (set_flag _) => apply preserves_set_flag
  | |- preserves _ (worker_db _) => apply preserves_worker_db
  end.
Ltac solve_step := repeat first [progress lift_step | progress preserves_step | progress cbv beta].

(** ** The entry points *)
Section EntryPoints.
Context {X : Ext} {S0 : StdOrder} {SE : SelectionExt} {C : TxClient}.

Lemma step_for_height p acc : preserves wallet_ok (create_new_updated_display_transactions_for_height p acc).
Proof.
  unfold create_new_updated_display_transactions_for_height, from_db, get_displayed_transactions_from_height,
    get_displayed_transactions_by_status, query_displayed. solve_step.
Qed.

Lemma step_process_block block acc : preserves (in_db wallet_ok) (process_block block acc).
Proof.
  pose proof step_for_height.
  unfold process_block, process_outputs, process_inputs, process_confirmations, record_scanned_block,
    save_and_emit_displayed_transactions, process_output, process_input, confirm_output,
    record_output_balance_change, record_input_balance_change, trigger_webhooks, update_current,
    get_output_info_by_hash_for_account, output_info, get_unconfirmed_outputs, insert_scanned_tip_block,
    get_burn_proof_by_output_hash.
  solve_step; auto.
Qed.

Lemma step_rollback acc h config : preserves wallet_ok (rollback_from_height acc h config).
Proof.
  unfold rollback_from_height, log_output_rolled_back, cancel_pending, log_event, any_db,
    get_scanned_tip_blocks_by_account, get_active_outputs_from_height, delete_scanned_tip_blocks_from_height.
  solve_step.
Qed.

Lemma step_handle_reorgs gh acc config : preserves wallet_ok (handle_reorgs gh acc config).
Proof.
  pose proof step_rollback. unfold handle_reorgs, any_db, get_scanned_tip_blocks_by_account. solve_step; auto.
Qed.

Lemma step_select s a n f e : preserves wallet_ok (select_unspent_outputs s a n f e).
Proof.
  unfold select_unspent_outputs, sel_db, get_latest_scanned_tip_block_by_account,
    get_output_totals_for_account, get_total_unspent_balance, fetch_unspent_outputs. solve_step.
Qed.

Lemma step_lock uuid uk acc a n f e key secs w : preserves wallet_ok (lock uuid uk acc a n f e key secs w).
Proof.
  pose proof step_select.
  unfold lock, lock_db, find_pending_transaction_locked_funds_by_idempotency_key,
    fetch_outputs_by_lock_request_id, lock_selection. solve_step; auto.
Qed.

Lemma step_unlock : preserves wallet_ok unlock_expired_transactions.
Proof. unfold unlock_expired_transactions, find_expired_pending_transactions, unlock_expired. solve_step. Qed.

Lemma step_reject m acc tx reason descr : preserves wallet_ok (reject_transaction m acc tx reason descr).
Proof. unfold reject_transaction, persist_event, any_db. solve_step. Qed.

Lemma step_rebroadcast_one m acc tx : broadcast_attempts tx = 0 -> preserves wallet_ok (rebroadcast_one m acc tx).
Proof.
  pose proof step_reject. intros Ha. unfold rebroadcast_one, persist_event, any_db. rewrite Ha. solve_step; auto.
Qed.

Lemma step_process_pending m acc h by_status :
  (forall tx, tx ∈ completed by_status -> broadcast_attempts tx = 0) ->
  preserves wallet_ok (process_pending_transactions m acc h by_status).
Proof.
  intros Ha. unfold process_pending_transactions. apply preserves_bind.
  - unfold rebroadcast_completed_transactions. apply preserves_fold_m. intros b tx Htx.
    apply preserves_bind; [apply step_rebroadcast_one; auto|]. intros r. solve_step.
  - intros r. unfold check_broadcast_for_mining, check_one_mined, check_confirmation_status, check_one_confirmed,
      persist_event, any_db. solve_step.
Qed.

(** The transactions of a status, as the monitor groups them. *)
Lemma from_transactions_completed l tx :
  tx ∈ completed (from_transactions l) -> tx ∈ l /\ ct_status tx = CTS.Completed.
Proof.
  unfold from_transactions. enough (forall r, tx ∈ completed (foldl push_by_status r l) ->
    tx ∈ completed r \/ (tx ∈ l /\ ct_status tx = CTS.Completed)) as H.
  { intros Htx. destruct (H _ Htx) as [Hx|Hx]; [by apply elem_of_nil in Hx|done]. }
  induction l as [|t l IH]; intros r Htx; [by left|]. destruct (IH _ Htx) as [Hx|[Hx Hs]]; [|right; set_solver].
  unfold push_by_status in Hx. destruct (ct_status t) eqn:E; cbn in Hx; try (by left).
  apply elem_of_app in Hx as [Hx|Hx%list_elem_of_singleton]; [by left|subst t]. right. set_solver.
Qed.

Lemma pending_read acc d l d' :
  wallet_ok d -> get_pending_completed_transactions acc d = (Ok l, d') ->
  forall tx, tx ∈ l -> ct_status tx = CTS.Completed -> broadcast_attempts tx = 0.
Proof.
  intros (_ & _ & [Hr _] & _) H tx Htx Hs. unfold get_pending_completed_transactions in H.
  apply bind_ok_inv in H as (d0 & s0 & H0 & H). injection H0 as <- <-. injection H as H <-. unfold id in H.
  apply map_rows_ok in H. apply list_elem_of_lookup in Htx as (i & Hi).
  destruct (Forall2_lookup_r _ _ _ _ _ H Hi) as (c & Hc & Hm).
  assert (c ∈ rows (completed_transactions d)) as Hin.
  { apply list_elem_of_lookup_2, elem_of_sort_by, elem_of_filter_bool in Hc as []. done. }
  rewrite Forall_forall in Hr. destruct (Hr c Hin) as (_ & _ & s & Hst & Hcase).
  pose proof (map_row_id _ _ Hm) as (_ & _ & Htext). rewrite Hs, Hst in Htext.
  assert (broadcast_attempts tx = c_broadcast_attempts c) as ->.
  { unfold map_row in Hm. destruct (CTS.from_str (c_status c)); cbn in Hm; [|done..]. by injection Hm as <-. }
  by destruct s.
Qed.

Lemma step_monitor m acc h : preserves (in_db wallet_ok) (monitor_if_needed m acc h).
Proof.
  unfold monitor_if_needed. apply preserves_bind.
  { unfold update_displayed_confirmations, get_displayed_transactions_needing_confirmation_update, any_db. solve_step. }
  intros updated. apply preserves_bind; [by intros [b d] Hd|]. intros flag. destruct (negb flag); [solve_step|].
  apply (preserves_bind_read (in_db wallet_ok) (fun l => forall tx, tx ∈ l -> ct_status tx = CTS.Completed -> broadcast_attempts tx = 0)).
  - unfold get_pending_completed_transactions, any_db. solve_step.
  - intros [b d] l [b' d'] Hd H. unfold mon_db, any_db, map_err in H.
    destruct (get_pending_completed_transactions acc d) as [[] d0] eqn:E; cbn in H; simplify_eq.
    by eapply pending_read.
  - intros l Hl. destruct l as [|t l]; [unfold clear_pending_outbound; solve_step|].
    apply preserves_bind.
    + apply preserves_mon_db, step_process_pending. intros tx [Htx Hs]%from_transactions_completed. auto.
    + intros r. unfold clear_pending_outbound. solve_step.
Qed.

Lemma step_fail_and_unlock id : preserves wallet_ok (fail_and_unlock_pending_transaction id).
Proof. unfold fail_and_unlock_pending_transaction, snd_db. solve_step. Qed.

Lemma step_or_unlock {A} p (m : SndM A) : preserves wallet_ok m -> preserves wallet_ok (or_unlock p m).
Proof. pose proof step_fail_and_unlock. intros Hm. unfold or_unlock. solve_step; auto. Qed.

Lemma step_finalize self signed client :
  preserves wallet_ok (finalize_transaction_and_broadcast self signed client).
Proof.
  pose proof step_fail_and_unlock.
  unfold finalize_transaction_and_broadcast, handle_submission.
  repeat first [apply step_or_unlock | progress solve_step]; auto;
  unfold check_if_transaction_expired, snd_db, check_if_transaction_is_expired_by_idempotency_key; solve_step.
Qed.

Lemma step_start {TxBuilder Prepared} addr (b : Z -> list WalletOutput -> outcome SenderError TxBuilder)
    (pr : TxBuilder -> Recipient -> string -> outcome SenderError Prepared) self uuid key to secs :
  preserves wallet_ok (start_new_transaction addr b pr self uuid key to secs).
Proof.
  pose proof step_fail_and_unlock. pose proof step_select.
  unfold start_new_transaction, validate_transaction_creation_request, create_or_find_pending_transaction,
    manager_create_pending_transaction, create_utxo_selection, prepare_locked,
    check_if_transaction_was_already_completed_by_idempotency_key, find_pending_transaction_by_idempotency_key,
    fetch_outputs_by_lock_request_id, snd_db.
  solve_step; auto.
Qed.

Lemma step_burn_create {BX : BurnExt} uuid uuid_key account params :
  preserves wallet_ok (create_burn_tx uuid uuid_key account params).
Proof. pose proof step_lock. unfold create_burn_tx, burn_msg. solve_step; auto. Qed.

Lemma step_burn_persist {BX : BurnExt} result acc key : preserves wallet_ok (persist_burn_records result acc key).
Proof.
  unfold persist_burn_records, complete_pending_burn, burn_msg, find_pending_transaction_by_idempotency_key.
  solve_step; auto.
Qed.

Lemma step_burn_broadcast {BX : BurnExt} result client : preserves wallet_ok (broadcast_burn result client).
Proof. unfold broadcast_burn, burn_msg. solve_step; auto. Qed.

Lemma step_vn_save signed account key : preserves wallet_ok (save_vn_tx signed account key).
Proof. unfold save_vn_tx, vn_db, find_pending_transaction_by_idempotency_key. solve_step; auto. Qed.

Lemma step_burn_worker {W : WorkerExt} dir to_json write torn :
  preserves (in_db wallet_ok) (process_pending_proofs dir to_json write torn).
Proof.
  unfold process_pending_proofs, process_single_proof, write_proof_file.
  solve_step; unfold get_pending_burn_proofs, mark_burn_proof_complete; try solve_step.
  intros [files d] Hd. unfold fs_write. by destruct (write _ _).
Qed.

(** *** Deleting an account *)
Lemma preserves_delete_checked ref del :
  (forall d, wallet_ok d -> wallet_ok (del d)) -> preserves wallet_ok (delete_checked ref del).
Proof. intros H. unfold delete_checked. apply preserves_bind; [solve_step|]. intros _. by apply preserves_modify. Qed.

Lemma step_delete_account name : preserves wallet_ok (delete_account name).
Proof.
  unfold delete_account. apply preserves_bind; [unfold get_account_by_name; solve_step|]. intros a.
  apply preserves_bind; [solve_step|]. intros account.
  repeat match goal with |- preserves _ (bind _ _) => apply preserves_bind; [|intros _] end; try (apply preserves_delete_checked || apply preserves_modify);
    intros d Hd; try exact Hd; pose proof Hd as ([Hr Hb Hi Hh Ht] & Hin & [Hcr Hci] & [Hpr Hpi Hpk] & Hw & [Hab Hai Han Haf]).
  - apply wallet_ok_inputs; [done|]. by apply unique_delete.
  - apply wallet_ok_outputs; [done|]. constructor; cbn; try (by apply Forall_filter_bool); by apply unique_delete.
  - apply wallet_ok_completed; [done|]. constructor; cbn; [by apply Forall_filter_bool|by apply unique_delete].
  - apply wallet_ok_pending; [done|]. constructor; cbn; [by apply Forall_filter_bool|by apply unique_delete..].
  - apply wallet_ok_webhooks; [done|]. apply Forall_update_rows; [|done]. by intros.
  - apply wallet_ok_accounts; [done|]. constructor; cbn; [by apply Forall_filter_bool|by apply unique_delete..].
Qed.

(** *** Creating and renaming an account *)
Lemma accounts_ok_create t name fp wallet n salt birthday :
  (forall a, a ∈ rows t -> a_friendly_name a <> name /\ a_fingerprint a <> fp) -> accounts_ok t ->
  accounts_ok (mkTable (rows t ++ [mkAccountRow (seqno t + 1) name fp wallet n salt birthday]) (seqno t + 1)).
Proof.
  intros Hnew [Hb Hi Hn Hf]. constructor; cbn.
  - apply Forall_app. split; [|by constructor]. eapply Forall_impl; [exact Hb|]. cbn. lia.
  - apply unique_app; [|done]. intros _ a Ha _. rewrite Forall_forall in Hb. specialize (Hb a Ha). cbn. lia.
  - apply unique_app; [|done]. intros _ a Ha _. apply (Hnew a Ha).
  - apply unique_app; [|done]. intros _ a Ha _. apply (Hnew a Ha).
Qed.

Lemma step_create_account {CR : CryptoExt} {WT : WalletExt} salt n name wallet password :
  preserves wallet_ok (create_account salt n name wallet password).
Proof.
  unfold create_account. apply preserves_bind; [solve_step|]. intros json.
  apply preserves_bind; [solve_step|]. intros e.
  intros d Hd. unfold bind, constrained. destruct (account_is_new _ _ d) eqn:Hn; [|exact Hd].
  rewrite account_is_new_spec in Hn. apply wallet_ok_accounts; [done|]. apply accounts_ok_create; [done|]. apply Hd.
Qed.

Lemma accounts_ok_rename t old new :
  (forall a, a ∈ rows t -> a_friendly_name a <> new) -> accounts_ok t ->
  accounts_ok (update_where (name_is old) (set_name new) t).
Proof.
  intros Hnew [Hb Hi Hn Hf]. constructor; cbn.
  - apply Forall_update_rows; [|done]. by intros.
  - apply unique_update; [|done]. by intros.
  - clear Hb Hi Hf. unfold unique_index, select. cbn. revert Hn Hnew. unfold unique_index, select, update_rows.
    rewrite !filter_all by done. induction (rows t) as [|a l IH]; intros Hn Hnew; cbn; [constructor|].
    inversion_clear Hn as [|? ? Ha Hl]. constructor; [|apply IH; [done|]; intros; apply Hnew; by right].
    intros Hin. apply list_elem_of_fmap in Hin as (b & Hb1 & Hb2). apply list_elem_of_fmap in Hb2 as (c & -> & Hc).
    assert (Hca : a_friendly_name c <> a_friendly_name a).
    { intros E. apply Ha. rewrite <- E. by apply list_elem_of_fmap_2. }
    pose proof (Hnew c ltac:(by right)) as Hcn. pose proof (Hnew a ltac:(by left)) as Han.
    unfold name_is in Hb1. destruct (String.eqb_spec (a_friendly_name a) old), (String.eqb_spec (a_friendly_name c) old);
      cbn in Hb1; congruence.
  - apply unique_update; [|done]. by intros.
Qed.

Lemma step_rename old new : preserves wallet_ok (update_account_name old new).
Proof.
  intros d Hd. unfold update_account_name, get_account_by_name, bind at 1, gets at 1.
  destruct (head _) as [a|] eqn:Hh; [done|]. unfold bind at 1, gets. destruct (1 <? _)%nat; [done|].
  unfold bind, modify. set (d1 := with_accounts _ d). assert (wallet_ok d1).
  { apply wallet_ok_accounts; [done|]. apply accounts_ok_rename; [|apply Hd]. intros a Ha E.
    destruct (select _ _) as [|b l] eqn:Es; [|done].
    assert (a ∈ select (fun a => String.eqb (a_friendly_name a) new) (accounts d)) as Hin.
    { apply elem_of_filter_bool. split; [done|]. by rewrite E, String.eqb_refl. }
    rewrite Es in Hin. by apply not_elem_of_nil in Hin. }
  by destruct (_ =? 0)%nat.
Qed.

Lemma step_delete_wallet name : preserves wallet_ok (delete_wallet name).
Proof. apply preserves_transaction, preserves_map_err, step_delete_account. Qed.

(** *** Steps and reachability *)

(** What one call of an entry point, whatever its arguments and its outcome, commits to
    the database; time passes between calls.  A block is processed in the transaction of
    its batch ([Coordinator.process_blocks]), which is committed only when each of its
    blocks succeeds. *)
Inductive wallet_step : Db -> Db -> Prop :=
| ws_process_block p block acc d :
    is_ok (fst (process_block block acc (p, d))) = true ->
    wallet_step d (snd (snd (process_block block acc (p, d))))
| ws_handle_reorgs get_header acc config d :
    wallet_step d (snd (handle_reorgs get_header acc config d))
| ws_rollback acc h config d :
    wallet_step d (snd (rollback_from_height acc h config d))
| ws_monitor m flag acc height d :
    wallet_step d (snd (snd (monitor_if_needed m acc height (flag, d))))
| ws_lock uuid uuid_key acc amount n fee size key secs window d :
    wallet_step d (snd (lock uuid uuid_key acc amount n fee size key secs window d))
| ws_unlock d :
    wallet_step d (snd (unlock_expired_transactions d))
| ws_start {TxBuilder Prepared : Type} addr (builder : Z -> list WalletOutput -> outcome SenderError TxBuilder)
    (prepare : TxBuilder -> Recipient -> string -> outcome SenderError Prepared) sender uuid key to secs d :
    wallet_step d (snd (start_new_transaction addr builder prepare sender uuid key to secs d))
| ws_finalize sender signed client d :
    wallet_step d (snd (finalize_transaction_and_broadcast sender signed client d))
| ws_prune acc height d :
    wallet_step d (snd (prune_scanned_tip_blocks acc height d))
| ws_webhooks send draw plus secret d :
    wallet_step d (snd (process_batch send draw plus secret d))
| ws_burn_create {BX : BurnExt} uuid uuid_key account params d :
    wallet_step d (snd (create_burn_tx uuid uuid_key account params d))
| ws_burn_persist {BX : BurnExt} result acc key d :
    wallet_step d (snd (persist_burn_records result acc key d))
| ws_burn_broadcast {BX : BurnExt} result client d :
    wallet_step d (snd (broadcast_burn result client d))
| ws_burn_marked tx_id d :
    wallet_step d (snd (mark_completed_transaction_as_broadcasted tx_id 1 d))
| ws_burn_worker {W : WorkerExt} dir to_json write torn files d :
    wallet_step d (snd (snd (process_pending_proofs dir to_json write torn (files, d))))
| ws_vn_save signed account key d :
    wallet_step d (snd (save_vn_tx signed account key d))
| ws_create_account {CR : CryptoExt} {WT : WalletExt} salt n name wallet password d :
    wallet_step d (snd (create_account salt n name wallet password d))
| ws_rename old new d :
    wallet_step d (snd (update_account_name old new d))
| ws_delete_wallet name d :
    wallet_step d (snd (delete_wallet name d))
| ws_time now d :
    wallet_step d (with_clock now d).

(** From a database whose only rows are accounts; a new database has none. *)
Definition reachable (d : Db) : Prop :=
  exists now accs, accounts_ok accs /\ rtc wallet_step (with_accounts accs (empty_db now)) d.

Lemma initial_ok now accs : accounts_ok accs -> wallet_ok (with_accounts accs (empty_db now)).
Proof. intros Ha. apply wallet_ok_accounts; [|done]. repeat split; cbn; try constructor; cbn; by constructor. Qed.

Lemma accounts_ok_one a : a_id a <= 1 -> accounts_ok (mkTable [a] 1).
Proof. intros H. constructor; cbn; [by constructor; [|constructor]|apply NoDup_singleton..]. Qed.

Lemma wallet_step_ok d d' : wallet_step d d' -> wallet_ok d -> wallet_ok d'.
Proof.
  intros [] Hd.
  - by apply (step_process_block block acc (p, d0)).
  - by apply step_handle_reorgs.
  - by apply step_rollback.
  - by apply (step_monitor m acc height (flag, d0)).
  - by apply step_lock.
  - by apply step_unlock.
  - by apply step_start.
  - by apply step_finalize.
  - exact Hd.
  - by apply step_process_batch.
  - by apply step_burn_create.
  - by apply step_burn_persist.
  - by apply step_burn_broadcast.
  - revert d0 Hd. change (preserves wallet_ok (mark_completed_transaction_as_broadcasted tx_id 1)). solve_step.
  - by apply (step_burn_worker dir to_json write torn (files, d0)).
  - by apply step_vn_save.
  - by apply step_create_account.
  - by apply step_rename.
  - by apply step_delete_wallet.
  - exact Hd.
Qed.

Lemma steps_ok d d' : rtc wallet_step d d' -> wallet_ok d -> wallet_ok d'.
Proof. induction 1 as [d|d1 d2 d3 Hs _ IH]; [done|]. intros Hok. apply IH. by eapply wallet_step_ok. Qed.

Lemma reachable_ok d : reachable d -> wallet_ok d.
Proof. intros (now & accs & Ha & H). eapply steps_ok; [exact H|]. by apply initial_ok. Qed.

(** C14: every state that the wallet reaches, by any sequence of calls with any
    arguments and outcomes, errors included, is well formed: an output is unspent
    and unlocked, or locked by a request with an expiry, or spent; a soft-deleted
    output lost its payment reference; no two active outputs share a hash or a
    transaction id and no output has two active spends; a mined, confirmed or
    rejected transaction has its block, its payment reference or its reason; an
    account has one pending transaction per idempotency key; a webhook that can
    be retried was tried less than ten times; no two accounts share an id, a name or
    a fingerprint. *)
Theorem reachable_wallet_ok d : reachable d -> wallet_ok d.
Proof. apply reachable_ok. Qed.

(** The limit of ten broadcast attempts is never reached: no sequence of
    calls broadcasts a transaction twice without a reorg that resets the count. *)
Theorem broadcast_limit_never_reached d c :
  reachable d -> c ∈ rows (completed_transactions d) ->
  0 <= c_broadcast_attempts c <= 1 /\ c_broadcast_attempts c < MAX_BROADCAST_ATTEMPTS.
Proof.
  intros (_ & _ & [Hr _] & _)%reachable_ok Hc. rewrite Forall_forall in Hr. destruct (Hr c Hc) as (_ & Ha & _).
  unfold MAX_BROADCAST_ATTEMPTS. lia.
Qed.

(** ** Types of the status columns *)

(** The text of a value of the type, which parses to it. *)
Definition status_typed (A : Type) {T : TextColumn A} (s : string) : Prop :=
  exists a : A, to_text a = s /\ of_text s = Ok a.

Lemma to_text_typed {A} {T : TextColumn A} (a : A) : status_typed A (to_text a).
Proof. exists a. split; [done|]. apply of_to_text. Qed.

Lemma map_rows_typed l : Forall (fun c => status_typed CTS.t (c_status c)) l -> exists ts, map_rows l = Ok ts.
Proof.
  induction 1 as [|c l (st & _ & Hst) _ (ts & IH)]; cbn [map_rows]; [by exists []|].
  unfold map_row. change (CTS.from_str (c_status c) = Ok st) in Hst. rewrite Hst. cbn. rewrite IH. cbn. eauto.
Qed.

(** C24: status columns are typed: in a reachable database the status of every output,
    pending transaction, completed transaction and webhook is the text of a value of its
    type and parses back to it, so the queries that decode completed transactions
    never fail, whatever account, status or id they ask for. *)
Theorem reachable_reads_decode d :
  reachable d ->
  Forall (fun o => status_typed OutputStatus.t (o_status o)) (rows (outputs d)) /\
  Forall (fun p => status_typed PendingTransactionStatus.t (p_status p)) (rows (pending_transactions d)) /\
  Forall (fun c => status_typed CTS.t (c_status c)) (rows (completed_transactions d)) /\
  Forall (fun w => status_typed WS.t (w_status w)) (rows (webhook_queue d)) /\
  (forall acc, exists l, get_pending_completed_transactions acc d = (Ok l, d)) /\
  (forall acc st, exists l, get_completed_transactions_by_status acc st d = (Ok l, d)) /\
  (forall tx_id, exists o, get_completed_transaction_by_id tx_id d = (Ok o, d)).
Proof.
  intros ([Ho _ _ _ _] & _ & [Hc _] & [Hp _ _] & Hw & _)%reachable_ok.
  assert (Hct : Forall (fun c => status_typed CTS.t (c_status c)) (rows (completed_transactions d))).
  { eapply Forall_impl; [exact Hc|]. intros c (_ & _ & st & -> & _). exact (to_text_typed st). }
  split; [|split; [|split; [done|split; [|split; [|split]]]]].
  - eapply Forall_impl; [exact Ho|]. intros o [[[-> _]|[[-> _]| ->]] _ _].
    + exact (to_text_typed OutputStatus.Unspent).
    + exact (to_text_typed OutputStatus.Locked).
    + exact (to_text_typed OutputStatus.Spent).
  - eapply Forall_impl; [exact Hp|]. intros p (st & ->). exact (to_text_typed st).
  - eapply Forall_impl; [exact Hw|]. intros w (st & -> & _). exact (to_text_typed st).
  - intros acc. unfold get_pending_completed_transactions, bind, gets, lift, id.
    destruct (map_rows_typed (sort_by (fun a b => c_created_at a <=? c_created_at b)
      (select (fun c => (c_account_id c =? acc) && negb (is_final (c_status c))) (completed_transactions d)))) as [ts ->]; [|eauto].
    rewrite sort_by_perm. by apply Forall_filter_bool.
  - intros acc st. unfold get_completed_transactions_by_status, bind, gets, lift, id.
    edestruct map_rows_typed as [ts ->]; [by apply Forall_filter_bool|eauto].
  - intros tx_id. unfold get_completed_transaction_by_id, bind, gets, lift, id.
    pose proof (Forall_filter_bool _ (has_tx_id tx_id) _ Hct) as Hf. unfold select.
    destruct (List.filter _ _) as [|c l]; [by exists None|]. apply Forall_cons in Hf as [(st & _ & Hst) _].
    cbn. unfold map_row. change (CTS.from_str (c_status c) = Ok st) in Hst. rewrite Hst. cbn. eauto.
Qed.

End EntryPoints.

(** ** Examples *)
Module WalletExamples.
Import Demo Ledger.Examples.

(** The library's search and the base node, for the examples: one output that
    covers the target, or else all of them; no fee; a node that knows nothing. *)
Definition demo_pick (l : list DbWalletOutput) (target : Z) : outcome string (option BnbSelection) :=
  let total := zsum (fun u => wo_value (dwo_output u)) l in
  if (target <=? total) && (total <? two64) then Ok (Some (mkBnbSelection _ l total false 0)) else Ok None.

#[export] Instance demo_selection : SelectionExt := {
  fee_calculate := fun _ _ _ _ _ => 0;
  default_features_and_scripts_size := Ok 0;
  micro_minotari_text := fun v => pretty v +:+ " uT";
  branch_and_bound := fun uo target _ _ _ =>
    match List.find (fun u => target <=? wo_value (dwo_output u)) uo with
    | Some u => demo_pick [u] target
    | None => demo_pick uo target
    end;
}.

Lemma demo_pick_ok uo target s :
  (match List.find (fun u => target <=? wo_value (dwo_output u)) uo with
    | Some u => demo_pick [u] target
    | None => demo_pick uo target
    end) = Ok (Some s) ->
  selected_utxos s ⊆+ uo /\ current_value s = zsum (fun u => wo_value (dwo_output u)) (selected_utxos s) /\
  target + final_fee s <= current_value s /\ is_u64 (current_value s) /\ is_u64 (final_fee s).
Proof.
  assert (Hz : is_u64 0) by (unfold is_u64, two64; lia).
  assert (Hpick : forall l, l ⊆+ uo -> demo_pick l target = Ok (Some s) ->
    selected_utxos s ⊆+ uo /\ current_value s = zsum (fun u => wo_value (dwo_output u)) (selected_utxos s) /\
    target + final_fee s <= current_value s /\ is_u64 (current_value s) /\ is_u64 (final_fee s)).
  { intros l Hl H. unfold demo_pick in H. destruct (_ && _) eqn:E in H; simplify_eq. cbn in E |- *.
    split; [done|]. split; [done|]. split; [lia|]. split; [|done]. split; [|lia].
    apply zsum_nonneg. intros u _. apply (wo_value_u64 (dwo_output u)). }
  destruct (List.find _ uo) as [u|] eqn:E; apply Hpick; [|done].
  apply find_some in E as [E _]. apply singleton_submseteq_l. by apply list_elem_of_In.
Qed.

#[export] Instance demo_laws : SelectionLaws demo_selection.
Proof.
  constructor; cbn [branch_and_bound demo_selection]; [..|by vm_compute]; intros uo t fi fo fc s H;
    apply demo_pick_ok in H; tauto.
Qed.

#[export] Instance demo_client : TxClient := {
  Transaction := unit;
  transaction_of_json := fun _ => Ok tt;
  transaction_to_json := fun _ => Ok "";
  first_kernel := fun _ => Some ("", "");
  reason_to_string := fun _ => "";
  submit_transaction := fun _ => Ok (mkTxSubmissionResponse true AlreadyMined);
  transaction_query := fun _ _ => Ok (mkTxQueryResponse NotMined None None);
}.

Lemma after10_reachable : reachable after10.
Proof.
  exists 1000, (mkTable [account1] 1). split; [apply accounts_ok_one; done|]. eapply rtc_once.
  apply (ws_process_block processor block10 1 start). vm_compute. reflexivity.
Qed.

Lemma reachable_wallet_ok_witness : wallet_ok after10.
Proof. exact (reachable_wallet_ok after10 after10_reachable). Defined.

Lemma reachable_reads_decode_witness : exists l, get_pending_completed_transactions 1 after10 = (Ok l, after10).
Proof. exact (proj1 (proj2 (proj2 (proj2 (proj2 (reachable_reads_decode after10 after10_reachable))))) 1). Defined.

(** A payment from [after10]: lock, prepare, sign, broadcast. *)
Definition sender : TransactionSender :=
  mkTransactionSender account1 (mkProcessedTransaction None "" (mkRecipient "" 0 None) 0 []) 5 0.
Definition bob : Recipient := mkRecipient "bob" 30 None.
Definition started := start_new_transaction (Ok ("alice_address", true)) (fun _ _ => Ok tt) (fun _ _ _ => Ok tt)
  sender "tx1" "key1" bob 600 after10.
Definition sender1 : TransactionSender := snd (result_or (tt, sender) (fst started)).
Definition signed : SignedOneSidedTransactionResult :=
  mkSignedResult 1 (tt : Transaction) (Some "excess") 77 ["sent_hash"] [] None.
Definition paid : Db := snd (finalize_transaction_and_broadcast sender1 signed (Ok tt) (snd started)).

Lemma paid_reachable : reachable paid.
Proof.
  destruct after10_reachable as (now & accs & Ha & H). exists now, accs. split; [done|]. etransitivity; [exact H|].
  apply rtc_l with (snd started).
  - exact (ws_start (Ok ("alice_address", true)) (fun _ _ => Ok tt) (fun _ _ _ => Ok tt) sender "tx1" "key1" bob 600 after10).
  - apply rtc_once. exact (ws_finalize sender1 signed (Ok tt) (snd started)).
Qed.

Definition no_completed : CompletedRow := mkCompletedRow 0 0 "" "" None "" None None None None None 0 "" 0 0.
Definition paid_row : CompletedRow := nth 0 (rows (completed_transactions paid)) no_completed.

Example paid_state : c_status paid_row = "broadcast" /\ c_broadcast_attempts paid_row = 1 /\
  map o_status (rows (outputs paid)) = ["SPENT"; "LOCKED"] /\ map p_status (rows (pending_transactions paid)) = ["COMPLETED"].
Proof. vm_compute. repeat split; reflexivity. Qed.

Lemma paid_row_in : paid_row ∈ rows (completed_transactions paid).
Proof. apply list_elem_of_In, nth_In. apply Nat.ltb_lt. vm_compute. reflexivity. Qed.

Lemma broadcast_limit_never_reached_witness : c_broadcast_attempts paid_row < MAX_BROADCAST_ATTEMPTS.
Proof. exact (proj2 (broadcast_limit_never_reached paid paid_row paid_reachable paid_row_in)). Defined.

End WalletExamples.
