(* ===== verification/Coins.v ===== *)
(** * The coins of an account

    An account's view of the chain, without the tables: the coins it was paid, where
    each was mined and where it was spent.  Processing a block and rolling back are
    refined to two functions on lists of coins; rolling back undoes the blocks above
    the fork, so the wallet that followed a fork and came back holds the coins of the
    wallet that never saw it, and the balance it reports is the worth of what it has
    not spent. *)
From S2P Require Import Prelude Models DisplayTypes External Schema BalanceDb OutputsDb InputsDb.
From S2P Require Import TipBlocksDb PendingDb AccountsDb EventsDb BurnProofsDb CompletedDb.
From S2P Require Import DisplayedDb PayrefDb Webhooks ScanEvents Subset Processor Scanning BlockProc Reorg.
From S2P Require Import InputSelector FundLocker Monitor Manager Ledger Wallet.
#[local] Open Scope Z_scope.

(** ** Coins *)
Record Coin := mkCoin {
  coin_hash : string;
  coin_value : Z;
  coin_mined : Z;
  coin_spent : option Z;
}.

(** A coin with a hash is spent at a height, once. *)
Definition spend (height : Z) (hash : string) (c : Coin) : Coin :=
  if String.eqb (coin_hash c) hash && is_none (coin_spent c)
  then mkCoin (coin_hash c) (coin_value c) (coin_mined c) (Some height) else c.

Definition spend_all (height : Z) (hashes : list string) (c : Coin) : Coin :=
  fold_left (fun c hash => spend height hash c) hashes c.

(** A reorganisation from a height forgets the spends there and above. *)
Definition unspend (height : Z) (c : Coin) : Coin :=
  match coin_spent c with
  | Some h => if h >=? height then mkCoin (coin_hash c) (coin_value c) (coin_mined c) None else c
  | None => c
  end.

Definition undo (height : Z) (cs : list Coin) : list Coin :=
  map (unspend height) (List.filter (fun c => negb (coin_mined c >=? height)) cs).

(** A coin is spent where it was mined, or above. *)
Definition orderly (c : Coin) : Prop := forall h, coin_spent c = Some h -> coin_mined c <= h.

Lemma unspend_orderly height c : orderly c -> height <= coin_mined (unspend height c) -> coin_spent (unspend height c) = None.
Proof.
  unfold orderly, unspend. destruct c as [a v m [k|]]; cbn; [|done]. intros Ho. specialize (Ho k eq_refl).
  destruct (Z.geb_spec k height); cbn; [done|]. lia.
Qed.

(** What a coin adds to the balance. *)
Definition worth (c : Coin) : Z := if is_none (coin_spent c) then coin_value c else 0.

Section Chain.
Context {X : Ext}.

(** The coins that the outputs found in a block pay to [acc]; an output carries the
    index of the wallet that recognised it, and [ids] are the accounts of the wallets. *)
Definition paid (ids : list Z) (acc height : Z) (found : list (string * WalletOutput * nat)) : list Coin :=
  flat_map (fun '(hash, output, wallet_idx) =>
    match ids !! wallet_idx with
    | Some a => if a =? acc then [mkCoin hash (as_i64 (wo_value output)) height None] else []
    | None => []
    end) found.

(** A block pays the account, then spends from it. *)
Definition scan_block (ids : list Z) (acc : Z) (block : BlockScanResult) (cs : list Coin) : list Coin :=
  let height := as_i64 (blk_height block) in
  map (spend_all height (blk_inputs block)) (cs ++ paid ids acc height (wallet_outputs block)).

Definition scan_chain (ids : list Z) (acc : Z) (blocks : list BlockScanResult) (cs : list Coin) : list Coin :=
  fold_left (fun cs block => scan_block ids acc block cs) blocks cs.

(** Nothing happened at [height] or above. *)
Definition before (height : Z) (c : Coin) : Prop :=
  coin_mined c < height /\ (forall h, coin_spent c = Some h -> h < height).

Lemma spend_all_mined h l c : coin_mined (spend_all h l c) = coin_mined c.
Proof.
  unfold spend_all. revert c. induction l as [|x l IH]; intros c; cbn; [done|]. rewrite IH.
  unfold spend. by case_match.
Qed.

Lemma unspend_spend height h x c : height <= h -> unspend height (spend h x c) = unspend height c.
Proof.
  intros Hh. unfold spend. destruct (_ && _) eqn:E; [|done]. apply andb_true_iff in E as [_ E].
  unfold unspend. cbn. destruct c as [a v m [k|]]; [discriminate E|]. cbn.
  by rewrite (proj2 (Z.geb_le h height)) by lia.
Qed.

Lemma unspend_spend_all height h l c : height <= h -> unspend height (spend_all h l c) = unspend height c.
Proof.
  intros Hh. unfold spend_all. revert c. induction l as [|x l IH]; intros c; cbn; [done|].
  rewrite IH. by apply unspend_spend.
Qed.

Lemma undo_before height cs : Forall (before height) cs -> undo height cs = cs.
Proof.
  induction 1 as [|c cs [Hm Hs] _ IH]; [done|]. unfold undo in *. cbn.
  destruct (Z.geb_spec (coin_mined c) height); [lia|]. cbn. rewrite IH. f_equal.
  unfold unspend. destruct (coin_spent c) as [k|]; [|done]. specialize (Hs k eq_refl).
  destruct (Z.geb_spec k height); [lia|done].
Qed.

Lemma undo_app height cs ds : undo height (cs ++ ds) = undo height cs ++ undo height ds.
Proof. unfold undo. by rewrite filter_app_bool, map_app. Qed.

Lemma undo_paid ids acc height h found : height <= h -> undo height (paid ids acc h found) = [].
Proof.
  intros Hh. unfold undo. rewrite filter_none; [done|]. intros c Hc.
  apply list_elem_of_In, in_flat_map in Hc as ([[hash o] i] & _ & Hc).
  destruct (ids !! i) as [a|]; [|done]. destruct (a =? acc); [|done]. destruct Hc as [<-|[]]. cbn.
  by rewrite (proj2 (Z.geb_le h height)) by lia.
Qed.

(** Rolling back undoes a block from the fork up. *)
Lemma undo_scan_block ids acc height block cs :
  height <= as_i64 (blk_height block) -> undo height (scan_block ids acc block cs) = undo height cs.
Proof.
  intros Hh. unfold scan_block. rewrite <- (app_nil_r (undo height cs)).
  rewrite <- (undo_paid ids acc height _ (wallet_outputs block) Hh), <- undo_app.
  generalize (cs ++ paid ids acc (as_i64 (blk_height block)) (wallet_outputs block)). clear cs. intros cs.
  unfold undo. induction cs as [|c cs IH]; [done|]. cbn. rewrite spend_all_mined.
  destruct (negb _); cbn; [|done]. rewrite IH. f_equal. by apply unspend_spend_all.
Qed.

Lemma undo_scan_chain ids acc height blocks cs :
  Forall (fun b => height <= as_i64 (blk_height b)) blocks ->
  undo height (scan_chain ids acc blocks cs) = undo height cs.
Proof.
  intros Hb. unfold scan_chain. revert cs. induction Hb as [|b bs Hh _ IH]; intros cs; [done|].
  etransitivity; [apply IH|]. by apply undo_scan_block.
Qed.

Lemma scan_chain_app ids acc b1 b2 cs :
  scan_chain ids acc (b1 ++ b2) cs = scan_chain ids acc b2 (scan_chain ids acc b1 cs).
Proof. apply fold_left_app. Qed.

(** *** Valid blocks

    A valid block spends no hash twice, spends a coin of the account only when it is
    unspent and was mined in the block or below, and pays amounts that the database can
    hold. *)
Record valid_block (block : BlockScanResult) (cs : list Coin) : Prop := {
  vb_inputs : NoDup (blk_inputs block);
  vb_unspent : Forall (fun c => coin_hash c ∈ blk_inputs block ->
    coin_spent c = None /\ coin_mined c <= as_i64 (blk_height block)) cs;
  vb_values : Forall (fun '(hash, output, wallet_idx) => 0 <= as_i64 (wo_value output)) (wallet_outputs block);
}.

Lemma spend_all_orderly h l c :
  (coin_hash c ∈ l -> coin_mined c <= h) -> orderly c -> orderly (spend_all h l c).
Proof.
  unfold spend_all. revert c. induction l as [|x l IH]; intros c Hm Ho; [done|]. cbn. apply IH.
  - unfold spend. case_match; cbn; intros Hin; apply Hm; by right.
  - unfold spend. destruct (String.eqb_spec (coin_hash c) x) as [He|]; cbn; [|done]. case_match; [|done].
    unfold orderly. cbn. intros k [= <-]. apply Hm. rewrite He. left.
Qed.

Lemma scan_block_orderly ids acc block cs :
  valid_block block cs -> Forall orderly cs -> Forall orderly (scan_block ids acc block cs).
Proof.
  intros [_ Hu _] Ho. unfold scan_block. rewrite Forall_forall in Hu, Ho. apply Forall_map, Forall_app.
  split; apply Forall_forall; intros c Hc; apply spend_all_orderly.
  - intros Hin. by apply Hu.
  - by apply Ho.
  - intros _. apply list_elem_of_In, in_flat_map in Hc as ([[hash o] i] & _ & Hc).
    destruct (ids !! i) as [a|]; [|done]. destruct (a =? acc); [|done]. by destruct Hc as [<-|[]].
  - apply list_elem_of_In, in_flat_map in Hc as ([[hash o] i] & _ & Hc).
    destruct (ids !! i) as [a|]; [|done]. destruct (a =? acc); [|done]. by destruct Hc as [<-|[]].
Qed.

(** A chain that spends a coin once: the hashes a block spends are distinct, and no
    coin that an earlier block spent is among them. *)
Fixpoint spends_once (ids : list Z) (acc : Z) (blocks : list BlockScanResult) (cs : list Coin) : Prop :=
  match blocks with
  | [] => True
  | block :: blocks =>
      NoDup (blk_inputs block)
      /\ Forall (fun c => is_Some (coin_spent c) -> coin_hash c ∉ blk_inputs block) cs
      /\ spends_once ids acc blocks (scan_block ids acc block cs)
  end.

End Chain.

(** ** The coins in the tables *)
Definition spent_at (ins : list InputRow) (output_id : Z) : option Z :=
  i_mined_in_block_height <$> List.find (fun i => input_active i && (i_output_id i =? output_id)) ins.

Definition coin_of (ins : list InputRow) (o : OutputRow) : Coin :=
  mkCoin (o_output_hash o) (o_value o) (o_mined_in_block_height o) (spent_at ins (o_id o)).

Definition coins (acc : Z) (d : Db) : list Coin :=
  map (coin_of (rows (inputs d))) (List.filter (active_output_of acc) (rows (outputs d))).

(** [f] applied to the coins of one account. *)
Definition at_account (acc : Z) (f : list Coin -> list Coin) (cf : Z -> list Coin) : Z -> list Coin :=
  fun a => if a =? acc then f (cf a) else cf a.

Section Tables.
Context {X : Ext} {S0 : StdOrder}.
Context (strict : bool).

(** An input spends an output of its account; when [strict], only a deleted input spends
    a deleted output. *)
Definition linked (d : Db) : Prop :=
  forall i, i ∈ rows (inputs d) -> exists o, o ∈ rows (outputs d) /\ o_id o = i_output_id i
    /\ o_account_id o = i_account_id i /\ (strict = true -> input_active i = true -> active o = true).

(** The coins of every account, in a database whose tables are well formed. *)
Definition holds (cf : Z -> list Coin) (d : Db) : Prop :=
  wallet_ok d /\ linked d /\ forall a, coins a d = cf a.

(** The row of a hash is the only active one, in every account. *)
Lemma same_hash_same_row d o o' :
  wallet_ok d -> o ∈ rows (outputs d) -> o' ∈ rows (outputs d) -> active o = true -> active o' = true ->
  o_output_hash o = o_output_hash o' -> o = o'.
Proof. intros [Hw _] Ho Ho' Ha Ha' He. by apply (unique_row active o_output_hash (outputs d) o o' (outs_hashes _ Hw)). Qed.

Lemma same_id_same_output d o o' :
  wallet_ok d -> o ∈ rows (outputs d) -> o' ∈ rows (outputs d) -> o_id o = o_id o' -> o = o'.
Proof. intros [Hw _] Ho Ho' He. by apply (unique_row (fun _ => true) o_id (outputs d) o o' (outs_ids _ Hw)). Qed.

Lemma linked_bound d i : wallet_ok d -> linked d -> i ∈ rows (inputs d) -> i_output_id i <= seqno (outputs d).
Proof.
  intros Hw Hl Hin. destruct (Hl i Hin) as (o & Ho & <- & _). pose proof (outs_bound _ (proj1 Hw)) as Hb. rewrite Forall_forall in Hb. by apply Hb.
Qed.

Lemma linked_row d i o :
  wallet_ok d -> linked d -> i ∈ rows (inputs d) -> o ∈ rows (outputs d) -> i_output_id i = o_id o ->
  i_account_id i = o_account_id o /\ (strict = true -> input_active i = true -> active o = true).
Proof.
  intros Hw Hl Hin Ho Hid. destruct (Hl i Hin) as (o' & Ho' & He & Hacc & Ha). rewrite Hid in He.
  by apply (same_id_same_output d o' o Hw Ho' Ho) in He as <-.
Qed.

Lemma holds_core cf d d' : core d' = core d -> wallet_ok d' -> holds cf d -> holds cf d'.
Proof.
  unfold core. intros [= Ho Hi _] Hw (_ & Hl & Hc). unfold holds, linked, coins in *. by rewrite Ho, Hi.
Qed.

Lemma holds_ext cf cf' d : (forall a, cf a = cf' a) -> holds cf d -> holds cf' d.
Proof. intros H (Hw & Hl & Hc). split; [done|]. split; [done|]. intros a. by rewrite <- H. Qed.

Lemma hoare_holds_ext {E A} cf cf' (m : M Db E A) Q :
  (forall a, cf a = cf' a) -> hoare (holds cf') m Q -> hoare (holds cf) m Q.
Proof. intros H Hm d a d' Hd. apply Hm. by apply (holds_ext cf). Qed.

Lemma hoare_holds_frame {E A} cf (m : M Db E A) :
  frames core m -> preserves wallet_ok m -> hoare (holds cf) m (fun _ => holds cf).
Proof.
  intros Hf Hp d a d' Hd H. specialize (Hf d). specialize (Hp d (proj1 Hd)). rewrite H in Hf, Hp.
  exact (holds_core cf d d' Hf Hp Hd).
Qed.

(** *** Updates that keep the coins *)
Definition coin_key (o : OutputRow) : Z * Z * string * Z * Z * bool * string :=
  (o_id o, o_account_id o, o_output_hash o, o_value o, o_mined_in_block_height o, active o, o_wallet_output_json o).

Lemma hoare_holds_update cf p f :
  (forall o, p o = true -> coin_key (f o) = coin_key o) -> preserves wallet_ok (update_outputs p f) ->
  hoare (holds cf) (update_outputs p f) (fun _ => holds cf).
Proof.
  intros Hk Hp d u d' (Hw & Hl & Hc) H. specialize (Hp d Hw). rewrite H in Hp. split; [done|].
  unfold update_outputs, modify in H. simplify_eq. unfold linked, coins. cbn. unfold coin_key in Hk. split.
  - intros i (o & Ho & Hid)%Hl. exists (if p o then f o else o). split; [by apply elem_of_update_rows; exists o|].
    specialize (Hk o). destruct (p o); [|done]. by injection (Hk eq_refl) as -> -> _ _ _ -> _.
  - intros a. rewrite <- Hc. rewrite filter_update_rows, map_update_rows; [done| |].
    + intros o Ho. specialize (Hk o Ho). unfold coin_of. congruence.
    + intros o Ho. specialize (Hk o Ho). unfold active_output_of. congruence.
Qed.

(** *** A detected output *)
Lemma insert_output_row acc vk hash o h bh ts mp mh pr burn d id d' :
  insert_output acc vk hash o h bh ts mp mh pr burn d = (Ok id, d') ->
  exists row, outputs d' = mkTable (rows (outputs d) ++ [row]) id /\ inputs d' = inputs d /\
    id = seqno (outputs d) + 1 /\
    output_to_json o = Some (o_wallet_output_json row) /\
    coin_key row = (id, acc, hash, as_i64 (wo_value o), as_i64 h, true, o_wallet_output_json row).
Proof.
  unfold insert_output. intros H. inv_ok.
  match goal with H : constrained _ _ = _ |- _ => apply constrained_inv in H as [_ ->] end.
  repeat match goal with H : ok_or ?x _ = Ok _ |- _ => destruct x eqn:?; cbn in H; simplify_eq end.
  by eexists.
Qed.

Lemma spent_at_fresh (t : Table InputRow) n id :
  (forall i, i ∈ rows t -> i_output_id i <= n) -> n < id -> spent_at (rows t) id = None.
Proof.
  intros Hn Hid. unfold spent_at. destruct (List.find _ _) as [i|] eqn:E; [|done].
  apply find_some in E as [Hi E]. apply list_elem_of_In, Hn in Hi. rewrite andb_true_iff, Z.eqb_eq in E. lia.
Qed.

Lemma hoare_holds_output cf acc vk hash o h bh ts mp mh pr burn :
  hoare (holds cf) (insert_output acc vk hash o h bh ts mp mh pr burn)
    (fun _ => holds (at_account acc (fun cs => cs ++ [mkCoin hash (as_i64 (wo_value o)) (as_i64 h) None]) cf)).
Proof.
  intros d id d' (Hw & Hl & Hc) H.
  pose proof (step_insert_output acc vk hash o h bh ts mp mh pr burn d Hw) as Hw'. rewrite H in Hw'.
  apply insert_output_row in H as (row & Ho & Hi & -> & _ & [= Hid Hacc Hh Hv Hm Hact]).
  split; [done|]. unfold linked, coins. rewrite Ho, Hi. cbn. split.
  - intros i (o' & Ho' & Hx)%Hl. exists o'. split; [|done]. by apply elem_of_app; left.
  - intros a. unfold at_account. rewrite filter_app_bool, map_app, <- Hc. cbn.
    unfold active_output_of at 2. rewrite Hacc, Hact, andb_true_r, (Z.eqb_sym acc).
    destruct (a =? acc); cbn; [|by rewrite app_nil_r]. unfold coins, coin_of at 2.
    rewrite Hid, Hh, Hv, Hm, (spent_at_fresh _ (seqno (outputs d))); [done| |lia].
    intros i Hin. by apply linked_bound.
Qed.

(** *** A spent output *)
Lemma spent_at_app ins i id :
  input_active i = true ->
  spent_at (ins ++ [i]) id
  = match spent_at ins id with
    | Some h => Some h
    | None => if i_output_id i =? id then Some (i_mined_in_block_height i) else None
    end.
Proof.
  intros Hi. unfold spent_at. induction ins as [|x ins IH]; cbn.
  - rewrite Hi. by destruct (i_output_id i =? id).
  - by destruct (_ && _).
Qed.

Lemma spent_at_none ins id :
  existsb (fun i => input_active i && (i_output_id i =? id)) ins = false <-> spent_at ins id = None.
Proof.
  unfold spent_at. induction ins as [|x ins IH]; cbn; [done|]. by destruct (_ && _).
Qed.

(** Spending the output of a hash spends its coin. *)
Lemma coins_spent d ins' acc h o :
  wallet_ok d -> o ∈ rows (outputs d) -> active_output_of acc o = true ->
  (forall id, spent_at ins' id = match spent_at (rows (inputs d)) id with
     | Some k => Some k
     | None => if o_id o =? id then Some h else None end) ->
  forall a, map (coin_of ins') (List.filter (active_output_of a) (rows (outputs d)))
    = at_account acc (map (spend h (o_output_hash o))) (fun a => coins a d) a.
Proof.
  intros Hw Ho Hact Hs a. unfold at_account, coins, active_output_of in *.
  apply andb_true_iff in Hact as [Hacc Hact]. apply Z.eqb_eq in Hacc.
  assert (Hx : forall x, x ∈ List.filter (fun o => (o_account_id o =? a) && active o) (rows (outputs d)) ->
    coin_of ins' x = (if a =? acc then spend h (o_output_hash o) (coin_of (rows (inputs d)) x)
                      else coin_of (rows (inputs d)) x)).
  { intros x [Hx Hp]%elem_of_filter_bool. apply andb_true_iff in Hp as [Ha Hax]. apply Z.eqb_eq in Ha.
    unfold coin_of, spend. cbn. rewrite Hs. destruct (String.eqb_spec (o_output_hash x) (o_output_hash o)) as [He|Hne].
    - apply (same_hash_same_row _ _ _ Hw Hx Ho Hax Hact) in He as ->.
      rewrite Z.eqb_refl, Hacc in *. subst a. rewrite Z.eqb_refl. cbn.
      by destruct (spent_at (rows (inputs d)) (o_id o)).
    - destruct (Z.eqb_spec (o_id o) (o_id x)) as [He|_].
      { by apply (same_id_same_output _ _ _ Hw Ho Hx) in He as ->. }
      cbn. by destruct (a =? acc), (spent_at (rows (inputs d)) (o_id x)). }
  destruct (a =? acc); rewrite ?map_map; apply map_ext_in; intros x Hin; apply Hx; by apply list_elem_of_In.
Qed.

Lemma hoare_holds_input cf acc o h bh ts :
  hoare (fun d => holds cf d /\ o ∈ rows (outputs d) /\ active_output_of acc o = true)
    (insert_input acc (o_id o) h bh ts)
    (fun _ => holds (at_account acc (map (spend (as_i64 h) (o_output_hash o))) cf)).
Proof.
  intros d id d' ((Hw & Hl & Hc) & Ho & Hact) H.
  pose proof (step_insert_input acc (o_id o) h bh ts d Hw) as Hw'. rewrite H in Hw'. split; [done|]. cbn in Hw'.
  assert (Hgoal : forall ins, inputs d' = ins -> outputs d' = outputs d ->
    (forall id, spent_at (rows ins) id = match spent_at (rows (inputs d)) id with
       | Some k => Some k | None => if o_id o =? id then Some (as_i64 h) else None end) ->
    (forall i, i ∈ rows ins -> i ∈ rows (inputs d) \/ (i_output_id i = o_id o /\ i_account_id i = acc)) ->
    linked d' /\ forall a, coins a d' = at_account acc (map (spend (as_i64 h) (o_output_hash o))) cf a).
  { intros ins Hi Hout Hs Hin. unfold linked, coins. rewrite Hi, Hout. split.
    - intros i [Hx|[-> ->]]%Hin; [by apply Hl|]. exists o. apply andb_true_iff in Hact as [Ha Hac].
      rewrite Z.eqb_eq in Ha. done.
    - intros a. rewrite (coins_spent d (rows ins) acc _ o Hw Ho Hact Hs). unfold at_account. by rewrite Hc. }
  unfold insert_input in H. inv_ok. destruct (has_active_input (o_id o) _) eqn:E; cbn in *; inv_ok.
  - match goal with H : match ?l with _ => _ end _ = _ |- _ => destruct l; inv_ok end.
    eapply Hgoal; [done..| |by left]. intros k. destruct (spent_at _ k) eqn:Ek; [done|].
    destruct (Z.eqb_spec (o_id o) k) as [<-|]; [|done]. apply spent_at_none in Ek.
    unfold has_active_input in E. congruence.
  - match goal with H : constrained _ _ = _ |- _ => apply constrained_inv in H as [_ ->] end.
    match goal with H : match ?l with _ => _ end _ = _ |- _ => destruct l; inv_ok end.
    eapply Hgoal; [done..| |].
    + intros k. etransitivity; [by apply spent_at_app|]. done.
    + cbn. intros j [Hx| ->%list_elem_of_singleton]%elem_of_app; [by left|by right].
Qed.

(** A hash without an active row of the account has no coin. *)
Lemma spend_unknown acc hash h d :
  (forall o, o ∈ rows (outputs d) -> active_output_of acc o = true -> o_output_hash o ≠ hash) ->
  map (spend h hash) (coins acc d) = coins acc d.
Proof.
  intros Hn. rewrite <- (map_id (coins acc d)) at 2. apply map_ext_in. intros c Hc.
  unfold coins in Hc. apply in_map_iff in Hc as (o & <- & Ho).
  apply list_elem_of_In, elem_of_filter_bool in Ho as [Ho Ha]. unfold spend. cbn.
  destruct (String.eqb_spec (o_output_hash o) hash) as [He|]; [|done]. by destruct (Hn o Ho Ha).
Qed.

Lemma output_info_none acc hash d d' :
  get_output_info_by_hash_for_account acc hash d = (Ok None, d') ->
  d' = d /\ forall o, o ∈ rows (outputs d) -> active_output_of acc o = true -> o_output_hash o ≠ hash.
Proof.
  unfold get_output_info_by_hash_for_account, output_info. intros H. inv_ok.
  match goal with H : match ?l with _ => _ end _ = _ |- _ => destruct l as [|o rest] eqn:Hsel end; inv_ok.
  split; [done|]. intros o Ho Ha He.
  enough (o ∈ @nil OutputRow) by set_solver. rewrite <- Hsel. apply elem_of_filter_bool. split; [exact Ho|].
  unfold active_output_of in Ha. apply andb_true_iff in Ha as [-> ->]. by rewrite He, String.eqb_refl.
Qed.

(** *** A reorganisation *)
Lemma spent_at_deleted (t : Table InputRow) acc h now o d :
  wallet_ok d -> linked d -> o ∈ rows (outputs d) -> rows t = rows (inputs d) ->
  spent_at (rows (update_where (input_from_height acc h) (set_input_deleted now h) t)) (o_id o)
  = match spent_at (rows (inputs d)) (o_id o) with
    | Some k => if (o_account_id o =? acc) && (k >=? h) then None else Some k
    | None => None
    end.
Proof.
  intros Hw Hl Ho Ht. pose proof (proj1 (proj2 Hw)) as Hu. unfold inputs_ok, unique_index, select in Hu.
  assert (Hl' : forall i, i ∈ rows (inputs d) -> i_output_id i = o_id o -> i_account_id i = o_account_id o)
    by (intros; by apply (linked_row d)).
  cbn. rewrite Ht. clear Hw Hl Ht Ho. unfold spent_at. induction (rows (inputs d)) as [|i ins IH]; [done|].
  assert (IH' : NoDup (map i_output_id (List.filter input_active ins))).
  { cbn in Hu. destruct (input_active i); [by apply NoDup_cons in Hu as []|done]. }
  specialize (IH IH' ltac:(intros; apply Hl'; [by right|done])). unfold update_rows in *. cbn.
  destruct (input_active i && (i_output_id i =? o_id o)) eqn:E.
  - apply andb_true_iff in E as [Ea Eid]. cbn. cbn in Hu. rewrite Ea in Hu. apply NoDup_cons in Hu as [Hi _].
    pose proof (Hl' i ltac:(left) ltac:(by apply Z.eqb_eq)) as Hacc.
    assert (input_from_height acc h i = (o_account_id o =? acc) && (i_mined_in_block_height i >=? h)) as Hf
      by (unfold input_from_height; by rewrite Ea, Hacc, andb_true_r).
    rewrite Hf. destruct (_ && _) eqn:Eh; [|by rewrite Ea, Eid].
    cbn. rewrite IH. destruct (List.find _ ins) as [j|] eqn:Ef; [|done].
    exfalso. apply Hi. apply find_some in Ef as [Hj Ef]. apply andb_true_iff in Ef as [Eja Ejid].
    rewrite Z.eqb_eq in Eid, Ejid. rewrite Eid, <- Ejid. apply list_elem_of_fmap_2.
    apply elem_of_filter_bool. split; [by apply list_elem_of_In|done].
  - rewrite <- IH. destruct (input_from_height acc h i) eqn:Eh; cbn; [done|]. by rewrite E.
Qed.

Lemma hoare_holds_delete_inputs cf acc h :
  hoare (holds cf) (soft_delete_inputs_from_height acc h)
    (fun _ => holds (at_account acc (map (unspend (as_i64 h))) cf)).
Proof.
  intros d u d' (Hw & Hl & Hc) H.
  pose proof (step_delete_inputs acc h d Hw) as Hw'. rewrite H in Hw'. split; [done|]. clear Hw'.
  unfold soft_delete_inputs_from_height in H. inv_ok.
  match goal with H : for_each ?f ?l ?s = _ |- _ => rename H into Hr;
    assert (frames (fun d => (outputs d, inputs d)) (for_each f l)) as Hf by (unfold reverse_input; solve_preserves);
    specialize (Hf s); rewrite Hr in Hf; cbn in Hf; injection Hf as Ho Hi end.
  unfold linked, coins. cbn. rewrite Ho, Hi. split.
  - intros i' (i & Hin & ->)%elem_of_update_rows. destruct (Hl i Hin) as (o & Hino & Hid & Hacc & Ha).
    exists o. by destruct (input_from_height _ _ i).
  - intros a. unfold at_account. rewrite <- Hc. unfold coins.
    assert (Hx : forall o, o ∈ List.filter (active_output_of a) (rows (outputs s0)) ->
      coin_of (rows (update_where (input_from_height acc (as_i64 h)) (set_input_deleted (clock s0) (as_i64 h)) (inputs s0))) o
      = if a =? acc then unspend (as_i64 h) (coin_of (rows (inputs s0)) o) else coin_of (rows (inputs s0)) o).
    { intros o [Hin Ha]%elem_of_filter_bool. apply andb_true_iff in Ha as [Ha _]. apply Z.eqb_eq in Ha.
      unfold coin_of. rewrite (spent_at_deleted (inputs s0) acc (as_i64 h) (clock s0) o s0 Hw Hl Hin eq_refl), Ha.
      unfold unspend. cbn [coin_spent coin_hash coin_value coin_mined].
      by destruct (spent_at _ _), (a =? acc); cbn; try case_match. }
    destruct (a =? acc); rewrite ?map_map; apply map_ext_in; intros o Hin; apply Hx; by apply list_elem_of_In.
Qed.

(** The coins to go must not be spent by what stays. *)
Lemma hoare_holds_delete_outputs cf acc h :
  (strict = true -> Forall (fun c => as_i64 h <= coin_mined c -> coin_spent c = None) (cf acc)) ->
  hoare (holds cf) (soft_delete_outputs_from_height acc h)
    (fun _ => holds (at_account acc (List.filter (fun c => negb (coin_mined c >=? as_i64 h))) cf)).
Proof.
  intros Hcf d u d' (Hw & Hl & Hc) H.
  pose proof (step_delete_outputs acc h d Hw) as Hw'. rewrite H in Hw'. split; [done|]. clear Hw'.
  unfold soft_delete_outputs_from_height, update_outputs in H. inv_ok.
  match goal with H : for_each ?f ?l ?s = _ |- _ => rename H into Hr;
    assert (frames (fun d => (outputs d, inputs d)) (for_each f l)) as Hf by (unfold reverse_output; solve_preserves);
    specialize (Hf s); rewrite Hr in Hf; cbn in Hf; injection Hf as Ho Hi end.
  unfold linked, coins. cbn. rewrite Ho, Hi. split.
  - intros i Hin. destruct (Hl i Hin) as (o & Hino & Hid & Hacc & Ha).
    exists (if from_height acc (as_i64 h) o then set_deleted (clock s0) (as_i64 h) o else o).
    split; [by apply elem_of_update_rows; exists o|]. destruct (from_height _ _ o) eqn:Ef; [|done].
    repeat (split; [done|]). intros Hst Hact. specialize (Hcf Hst). exfalso. unfold from_height in Ef.
    rewrite !andb_true_iff, Z.eqb_eq, Z.geb_le in Ef. destruct Ef as [[Hoacc Hmin] Hoact].
    rewrite <- (Hc acc), Forall_forall in Hcf. assert (spent_at (rows (inputs s0)) (o_id o) = None) as Hn.
    { apply (Hcf (coin_of (rows (inputs s0)) o)); [|done]. apply list_elem_of_In, in_map, list_elem_of_In.
      apply elem_of_filter_bool. unfold active_output_of. by rewrite Hoacc, Z.eqb_refl, Hoact. }
    apply spent_at_none in Hn. pose proof (existsb_none _ _ Hn i Hin) as Hf. cbv beta in Hf.
    rewrite Hact, Hid, Z.eqb_refl in Hf. done.
  - intros a. unfold at_account. rewrite <- Hc. unfold coins.
    rewrite filter_update_removed by (intros; unfold active_output_of; cbn; by rewrite andb_false_r).
    destruct (Z.eqb_spec a acc) as [->|Hne].
    + rewrite <- (filter_filter (fun r => negb (from_height acc (as_i64 h) r))).
      induction (rows (outputs s0)) as [|o os IH]; [done|]. cbn.
      destruct (active_output_of acc o) eqn:E; [|done]. cbn.
      assert (from_height acc (as_i64 h) o = (o_mined_in_block_height o >=? as_i64 h)) as ->.
      { unfold active_output_of in E. apply andb_true_iff in E as [Ea Eo]. unfold from_height.
        by rewrite Ea, Eo, andb_true_r. }
      destruct (negb _); cbn; by rewrite IH.
    + f_equal. apply filter_ext_elem. intros o _. unfold active_output_of, from_height.
      destruct (Z.eqb_spec (o_account_id o) a) as [->|]; [|done].
      rewrite (proj2 (Z.eqb_neq a acc)) by done. by rewrite andb_true_r.
Qed.

Lemma filter_unspend h k cs :
  List.filter (fun c => negb (coin_mined c >=? k)) (map (unspend h) cs)
  = map (unspend h) (List.filter (fun c => negb (coin_mined c >=? k)) cs).
Proof.
  induction cs as [|c cs IH]; [done|]. cbn. assert (coin_mined (unspend h c) = coin_mined c) as ->
    by (unfold unspend; by repeat case_match). destruct (negb _); cbn; by rewrite IH.
Qed.

Lemma hoare_holds_rollback cf acc h config :
  (strict = true -> Forall orderly (cf acc)) ->
  hoare (holds cf) (rollback_from_height acc h config) (fun _ => holds (at_account acc (undo (as_i64 h)) cf)).
Proof.
  intros Hord. assert (Hany : forall cf A (m : DbM A), frames core m -> preserves wallet_ok m ->
    hoare (holds cf) (any_db m) (fun _ => holds cf)).
  { intros. by apply hoare_map_err, hoare_holds_frame. }
  assert (Hlog : forall acc g e, preserves wallet_ok (log_event acc g e)) by (intros; unfold log_event, any_db; solve_preserves).
  pose proof frames_log_event. unfold rollback_from_height.
  eapply hoare_bind; [apply Hany; unfold get_scanned_tip_blocks_by_account; solve_preserves|]. intros tips. cbn beta.
  eapply hoare_bind; [apply hoare_holds_frame; solve_preserves; auto|]. intros evs. cbn beta.
  eapply hoare_bind; [apply Hany; unfold get_active_outputs_from_height; solve_preserves|]. intros affected. cbn beta.
  eapply hoare_bind.
  { apply hoare_holds_frame; unfold log_output_rolled_back; solve_preserves; auto. }
  intros [[evs2 ids] hashes]. cbn beta iota.
  eapply hoare_bind.
  { apply hoare_holds_frame; unfold cancel_pending; [unfold cancel_pending_transactions_by_ids|];
      unfold any_db; solve_preserves; auto. }
  intros evs3. cbn beta.
  eapply hoare_bind; [apply hoare_map_err, hoare_holds_delete_inputs|]. intros ?.
  eapply hoare_bind.
  { apply hoare_map_err, hoare_holds_delete_outputs. intros Hst. unfold at_account. rewrite Z.eqb_refl.
    apply Forall_map. eapply Forall_impl; [by apply Hord|]. intros c Hc. cbn. by apply unspend_orderly. }
  intros ?.
  cbn beta. apply (hoare_holds_ext _ (at_account acc (undo (as_i64 h)) cf)).
  { intros b. unfold at_account, undo. destruct (b =? acc); [apply filter_unspend|done]. }
  eapply hoare_bind; [apply Hany; unfold delete_scanned_tip_blocks_from_height; solve_preserves|]. intros ?.
  eapply hoare_bind; [apply Hany; solve_preserves|]. intros ?. cbn beta.
  eapply hoare_bind; [apply Hany; solve_preserves|]. intros displayed. cbn beta.
  eapply hoare_bind; [apply Hany; solve_preserves|]. intros ?. cbn beta.
  eapply hoare_bind.
  { apply Hany; [unfold reset_mined_completed_transactions_from_height, update_completed; solve_preserves|apply step_reset]. }
  intros ?. cbn beta. apply (hoare_bind _ (fun _ => holds (at_account acc (undo (as_i64 h)) cf))); [|intros ?; by apply hoare_ret].
  destruct config; [|by apply hoare_ret]. apply hoare_holds_frame; unfold any_db; solve_preserves.
Qed.

(** ** A block

    The processor's mapping from wallets to accounts does not change. *)
Definition onC (ids : list Z) (cf : Z -> list Coin) (s : BlockProcessor * Db) : Prop :=
  wallet_index_to_account_id (fst s) = ids /\ holds cf (snd s).

Lemma onC_ext {A} ids cf cf' (m : BpM A) Q :
  (forall a, cf a = cf' a) -> hoare (onC ids cf') m Q -> hoare (onC ids cf) m Q.
Proof. intros H Hm s a s' [Hi Hd]. apply Hm. split; [done|]. by apply (holds_ext cf). Qed.

Lemma onC_db {A} ids cf cf' (m : DbM A) :
  hoare (holds cf) m (fun _ => holds cf') -> hoare (onC ids cf) (on_db m) (fun _ => onC ids cf').
Proof.
  intros H [p d] a s' [Hi HP] Hm. unfold on_db in Hm. destruct (m d) as [[] d'] eqn:E; cbn in Hm; simplify_eq.
  split; [done|]. by eapply H.
Qed.

Lemma onC_frame {A} ids cf (m : DbM A) :
  frames core m -> preserves wallet_ok m -> hoare (onC ids cf) (on_db m) (fun _ => onC ids cf).
Proof. intros. by apply onC_db, hoare_holds_frame. Qed.

Lemma onC_self {A} ids cf (f : BlockProcessor -> A) : hoare (onC ids cf) (self f) (fun _ => onC ids cf).
Proof. intros [p d] a s' HP Hm. unfold self, gets in Hm. by simplify_eq. Qed.

Lemma onC_on_self ids cf f :
  (forall p, wallet_index_to_account_id (f p) = wallet_index_to_account_id p) ->
  hoare (onC ids cf) (on_self f) (fun _ => onC ids cf).
Proof. intros H [p d] a s' [Hi HP] Hm. unfold on_self, modify in Hm. simplify_eq. split; [apply H|done]. Qed.

Lemma onC_ret {A} ids cf (a : A) : hoare (E := BlockProcessorError) (onC ids cf) (ret a) (fun _ => onC ids cf).
Proof. by apply hoare_ret. Qed.

Lemma onC_processor {A} ids cf (m : ProcM A) :
  frames core m -> preserves wallet_ok m -> hoare (onC ids cf) (on_processor m) (fun _ => onC ids cf).
Proof.
  intros Hf Hp [p d] a s' [Hi HP] Hm. unfold on_processor in Hm.
  destruct (m d) as [[] d'] eqn:E; [|discriminate Hm|discriminate Hm]. injection Hm as <- <-.
  split; [done|]. by eapply (hoare_holds_frame cf m Hf Hp).
Qed.

Lemma onC_for_each {A} ids cf (f : A -> BpM unit) l :
  (forall x, hoare (onC ids cf) (f x) (fun _ => onC ids cf)) ->
  hoare (onC ids cf) (for_each f l) (fun _ => onC ids cf).
Proof. intros H. apply (hoare_for_each (fun _ => onC ids cf)). intros x ?. apply H. Qed.

Lemma onC_webhooks ids cf a evs : hoare (onC ids cf) (trigger_webhooks a evs) (fun _ => onC ids cf).
Proof.
  unfold trigger_webhooks. eapply hoare_bind; [apply onC_self|]. intros [config|]; [|apply onC_ret].
  apply onC_for_each. intros [i e]. apply onC_frame; solve_preserves.
Qed.

Lemma onC_change ids cf (c : Z -> BalanceChange) :
  hoare (onC ids cf) (let! now := on_db (gets clock) in on_db (insert_balance_change (c now)) ;;; ret (c now))
    (fun _ => onC ids cf).
Proof.
  eapply hoare_bind; [apply onC_frame; solve_preserves|]. intros now. cbn beta.
  eapply hoare_bind; [|intros ?; apply onC_ret]. apply onC_db. intros d a d' Hd H.
  apply insert_balance_change_inv in H as [_ ->]. destruct Hd as (Hw & Hl & Hc). by split.
Qed.

Lemma onC_output ids cf block acc vk hash o :
  hoare (onC ids cf) (process_output block acc vk hash o)
    (fun _ => onC ids (at_account acc (fun cs => cs ++
       [mkCoin hash (as_i64 (wo_value o)) (as_i64 (blk_height block)) None]) cf)).
Proof.
  unfold process_output. eapply hoare_bind; [by apply onC_on_self|]. intros ?.
  eapply hoare_bind; [apply onC_db, hoare_holds_output|]. intros output_id. cbn beta.
  eapply hoare_bind; [apply onC_frame; solve_preserves|]. intros event_id. cbn beta.
  eapply hoare_bind; [apply onC_change|]. intros c. cbn beta.
  eapply hoare_bind; [by apply onC_on_self|]. intros ?. apply onC_ret.
Qed.

Lemma hoare_pure {St E A} (phi : Prop) (P : St -> Prop) (m : M St E A) (Q : A -> St -> Prop) :
  (phi -> hoare P m Q) -> hoare (fun s => phi /\ P s) m Q.
Proof. intros H s a s' [Hphi HP]. by apply H. Qed.

Lemma onC_mapped ids cf wallet_idx :
  hoare (onC ids cf) (self (fun p => wallet_index_to_account_id p !! wallet_idx))
    (fun r s => r = ids !! wallet_idx /\ onC ids cf s).
Proof. intros [p d] a s' HP Hm. unfold self, gets in Hm. simplify_eq. by destruct HP as [<- ?]. Qed.

Lemma onC_outputs ids cf block acc vk :
  hoare (onC ids cf) (process_outputs block acc vk)
    (fun _ => onC ids (at_account acc (fun cs => cs ++ paid ids acc (as_i64 (blk_height block)) (wallet_outputs block)) cf)).
Proof.
  unfold process_outputs. eapply hoare_bind; [|intros ?; apply onC_webhooks].
  match goal with |- hoare _ (fold_m ?f _ _) _ => set (body := f) end. generalize (@nil (Z * WalletEvent)).
  generalize (wallet_outputs block) as l. intros l. revert cf. induction l as [|[[hash o] idx] l IH]; intros cf evs.
  - apply (onC_ext _ _ (at_account acc (fun cs => cs ++ []) cf)); [|apply onC_ret].
    intros a. unfold at_account. rewrite app_nil_r. by destruct (a =? acc).
  - cbn [fold_m]. eapply (hoare_bind _ (fun _ => onC ids (at_account acc
      (fun cs => cs ++ paid ids acc (as_i64 (blk_height block)) [(hash, o, idx)]) cf))).
    + unfold body. eapply hoare_bind; [apply onC_mapped|]. intros mapped. apply hoare_pure. intros ->.
      unfold paid. cbn [flat_map]. rewrite app_nil_r.
      assert (Hskip : forall r, hoare (E := BlockProcessorError) (A := list (Z * WalletEvent)) (onC ids cf) (ret r)
        (fun _ => onC ids (at_account acc (fun cs => cs ++ []) cf))).
      { intros r. apply (onC_ext _ _ (at_account acc (fun cs => cs ++ []) cf)); [|apply onC_ret].
        intros a. unfold at_account. rewrite app_nil_r. by destruct (a =? acc). }
      destruct (ids !! idx) as [a|]; [|apply Hskip]. destruct (a =? acc); [|apply Hskip]. cbn [negb].
      eapply hoare_bind; [apply onC_output|]. intros e. apply onC_ret.
    + intros evs'. eapply hoare_conseq; [apply IH|done|]. intros ? s [Hi Hd]. split; [done|].
      eapply holds_ext; [|exact Hd]. intros b. unfold at_account. destruct (b =? acc); [|done].
      unfold paid. cbn [flat_map]. by rewrite app_nil_r, <- app_assoc.
Qed.

Lemma onC_output_info ids cf acc hash :
  hoare (onC ids cf) (on_db (get_output_info_by_hash_for_account acc hash))
    (fun r s => onC ids cf s /\ match r with
     | Some r => exists o, o ∈ rows (outputs (snd s)) /\ active_output_of acc o = true
         /\ o_output_hash o = hash /\ r.1.1 = o_id o
     | None => forall h, map (spend h hash) (cf acc) = cf acc
     end).
Proof.
  intros [p d] [r|] [p' d'] [Hi Hd] H; unfold on_db in H;
    destruct (get_output_info_by_hash_for_account acc hash d) as [[] d2] eqn:E; cbn in H; simplify_eq.
  - apply output_info_for_account_inv in E as (-> & o & Ho & Hacc & Hact & Hh & Hid & _).
    split; [done|]. exists o. unfold active_output_of. by rewrite Hacc, Z.eqb_refl, Hact.
  - apply output_info_none in E as [-> Hn]. split; [done|]. destruct Hd as (_ & _ & Hc). intros h. rewrite <- Hc.
    by apply spend_unknown.
Qed.

Lemma onC_input ids cf block acc hash :
  hoare (onC ids cf) (process_input block acc hash)
    (fun _ => onC ids (at_account acc (map (spend (as_i64 (blk_height block)) hash)) cf)).
Proof.
  unfold process_input. eapply hoare_bind; [apply onC_output_info|].
  intros [[[output_id tx_id] output]|]; cbn beta iota.
  - intros s a s' [HC (o & Ho & Ha & <- & Hid)] H. cbn in Hid. subst output_id.
    apply bind_ok_inv in H as (input_id & s1 & H1 & H).
    assert (onC ids (at_account acc (map (spend (as_i64 (blk_height block)) (o_output_hash o))) cf) s1) as HC1.
    { destruct s as [p d], HC as [Hi Hd]. unfold on_db in H1.
      destruct (insert_input _ _ _ _ _ d) as [[] d1] eqn:E; cbn in H1; simplify_eq.
      split; [done|]. by apply (hoare_holds_input cf acc o _ _ _ d _ _ (conj Hd (conj Ho Ha)) E). }
    clear H1. revert HC1 H. generalize (at_account acc (map (spend (as_i64 (blk_height block)) (o_output_hash o))) cf) as cf'.
    intros cf'. revert s1 a s'. apply (hoare_bind _ (fun _ => onC ids cf')); [apply onC_change|]. intros c.
    eapply hoare_bind; [|intros ?; by apply onC_on_self].
    apply onC_db, hoare_holds_update; [done|apply step_output_spent].
  - intros s a s' [HC Hn] H. unfold ret in H. simplify_eq. destruct HC as [Hi Hd]. split; [done|].
    eapply holds_ext; [|exact Hd]. intros b. unfold at_account.
    destruct (Z.eqb_spec b acc) as [->|]; [|done]. by rewrite Hn.
Qed.

Lemma onC_inputs ids cf block acc :
  hoare (onC ids cf) (process_inputs block acc)
    (fun _ => onC ids (at_account acc (map (spend_all (as_i64 (blk_height block)) (blk_inputs block))) cf)).
Proof.
  unfold process_inputs. revert cf. induction (blk_inputs block) as [|hash l IH]; intros cf; cbn [for_each].
  - eapply onC_ext; [|apply onC_ret]. intros a. unfold at_account, spend_all. cbn.
    rewrite map_id. by destruct (a =? acc).
  - eapply hoare_bind; [apply onC_input|]. intros u. eapply hoare_conseq; [apply IH|done|].
    intros ? s [Hi Hd]. split; [done|]. eapply holds_ext; [|exact Hd]. intros b. unfold at_account.
    destruct (b =? acc); [|done]. rewrite map_map. done.
Qed.

Lemma onC_confirmations ids cf a block :
  hoare (onC ids cf) (process_confirmations block a) (fun _ => onC ids cf).
Proof.
  unfold process_confirmations. eapply hoare_bind; [apply onC_self|]. intros required. cbn beta.
  eapply hoare_bind; [apply onC_frame; unfold get_unconfirmed_outputs; solve_preserves|].
  intros os. cbn beta. eapply hoare_bind; [|intros ?; apply onC_webhooks].
  apply hoare_fold_m. intros evs o _. eapply (hoare_bind _ (fun _ => onC ids cf)); [|intros ?; apply onC_ret].
  unfold confirm_output. eapply hoare_bind; [by apply onC_on_self|]. intros ?.
  eapply hoare_bind; [apply onC_frame; solve_preserves|]. intros event_id. cbn beta.
  eapply hoare_bind; [apply onC_db, hoare_holds_update; [done|apply step_mark_output_confirmed]|]. intros ?.
  eapply (hoare_bind _ (fun _ => onC ids cf)); [|intros ?; apply onC_ret]. unfold when.
  destruct (negb _); [|apply onC_ret]. eapply hoare_bind; [|intros ?; apply onC_ret].
  apply onC_frame; unfold get_burn_proof_by_output_hash; solve_preserves.
Qed.

Lemma onC_save_and_emit ids cf h a vk ba :
  hoare (onC ids cf) (save_and_emit_displayed_transactions h a vk ba) (fun _ => onC ids cf).
Proof.
  unfold save_and_emit_displayed_transactions. destruct (is_empty ba); [apply onC_ret|].
  eapply hoare_bind; [apply onC_self|]. intros tip. cbn beta.
  eapply hoare_bind; [apply onC_self|]. intros required. cbn beta.
  eapply (hoare_bind _ (fun _ => onC ids cf)).
  - apply onC_processor; [apply frames_preserves; intros x|]; apply preserves_create_for_height.
  - intros [updated new]. eapply (hoare_bind _ (fun _ => onC ids cf)).
    { apply onC_for_each. intros t. eapply hoare_bind; [apply onC_frame; solve_preserves|]. intros ?. apply onC_ret. }
    intros ?. eapply (hoare_bind _ (fun _ => onC ids cf)).
    { apply onC_for_each. intros t. apply onC_frame; solve_preserves. }
    intros ?. by apply onC_on_self.
Qed.

Lemma hoare_scan_block ids cf block acc :
  hoare (onC ids cf) (process_block block acc) (fun _ => onC ids (at_account acc (scan_block ids acc block) cf)).
Proof.
  unfold process_block. eapply hoare_bind; [apply onC_self|]. intros keys. cbn beta.
  eapply (hoare_bind _ (fun _ => onC ids cf)).
  { apply hoare_preserves, preserves_lift. }
  intros vk. eapply hoare_bind; [by apply onC_on_self|]. intros ?.
  eapply hoare_bind; [by apply onC_on_self|]. intros ?.
  eapply hoare_bind; [apply onC_outputs|]. intros ?.
  eapply hoare_bind; [apply onC_inputs|]. intros ?. cbn beta.
  eapply (onC_ext _ _ (at_account acc (scan_block ids acc block) cf)).
  { intros b. unfold at_account. by destruct (b =? acc). }
  eapply hoare_bind; [apply onC_frame; unfold insert_scanned_tip_block; solve_preserves|]. intros ?.
  eapply hoare_bind; [apply onC_confirmations|]. intros ?. cbn beta.
  eapply hoare_bind; [apply onC_self|]. intros [ba|]; (eapply hoare_bind; [by apply onC_on_self|]); intros ?;
    [|apply onC_ret].
  eapply (hoare_bind _ (fun _ => onC ids (at_account acc (scan_block ids acc block) cf)));
    [|intros ?; by apply onC_on_self].
  unfold when. destruct (negb (is_empty ba)); [apply onC_save_and_emit|apply onC_ret].
Qed.

End Tables.

Lemma linked_weaken strict d : linked strict d -> linked false d.
Proof. intros Hl i (o & Ho & Hid & Hacc & _)%Hl. by exists o. Qed.

(** ** The balance *)
Section Balance.
Context {X : Ext} {S0 : StdOrder}.

(** The value that inputs spend, output by output. *)
Lemma spent_value_by_output outs ins :
  zsum (fun i => out_value outs (i_output_id i)) ins
  = zsum (fun o => o_value o * Z.of_nat (length (List.filter (fun i => o_id o =? i_output_id i) ins))) outs.
Proof.
  induction ins as [|i ins IH]; cbn.
  - rewrite zsum_nil. symmetry. rewrite (zsum_ext _ (fun _ => 0)) by (intros; lia).
    induction outs as [|o outs IH]; [done|]. by rewrite zsum_cons, IH.
  - rewrite zsum_cons, IH. unfold out_value. rewrite zsum_filter. clear IH.
    induction outs as [|o outs IH]; [done|]. rewrite !zsum_cons, <- IH.
    destruct (o_id o =? i_output_id i); cbn [length]; lia.
Qed.

(** The active inputs of an account that spend a row: one when its coin is spent. *)
Lemma inputs_of_row acc d o :
  wallet_ok d -> linked true d -> o ∈ rows (outputs d) ->
  Z.of_nat (length (List.filter (fun i => o_id o =? i_output_id i)
    (List.filter (active_input_of acc) (rows (inputs d)))))
  = if active_output_of acc o && negb (is_none (spent_at (rows (inputs d)) (o_id o))) then 1 else 0.
Proof.
  intros Hw Hl Ho. set (L := List.filter _ _).
  assert (HL : forall i, i ∈ L -> i ∈ rows (inputs d) /\ active_input_of acc i = true /\ i_output_id i = o_id o).
  { intros i [[Hi Ha]%elem_of_filter_bool He]%elem_of_filter_bool. split; [done|]. split; [done|].
    symmetry. by apply Z.eqb_eq. }
  assert (Hle : (length L <= 1)%nat).
  { apply (NoDup_map_const i_output_id L (o_id o)); [|intros i Hi; by apply HL].
    apply NoDup_map_filter. pose proof (proj1 (proj2 Hw)) as Hu. unfold inputs_ok, unique_index, select in Hu.
    rewrite (filter_ext_elem (active_input_of acc) (fun i => input_active i && (i_account_id i =? acc))), <- filter_filter.
    - by apply NoDup_map_filter.
    - intros i _. unfold active_input_of. apply andb_comm. }
  destruct (_ && _) eqn:E.
  - apply andb_true_iff in E as [Ea Es]. destruct (spent_at (rows (inputs d)) (o_id o)) eqn:Ef; [|discriminate Es].
    unfold spent_at in Ef. destruct (List.find _ _) as [i|] eqn:Efi; [|discriminate Ef].
    apply find_some in Efi as [Hi Hp]. apply list_elem_of_In in Hi. apply andb_true_iff in Hp as [Hia Hid].
    apply Z.eqb_eq in Hid. destruct (linked_row true d i o Hw Hl Hi Ho Hid) as [Hacc _].
    assert (i ∈ L) as HiL.
    { apply elem_of_filter_bool. rewrite elem_of_filter_bool, Hid, Z.eqb_refl. split; [split; [done|]|done].
      unfold active_input_of, active_output_of in *. apply andb_true_iff in Ea as [Ea _]. by rewrite Hacc, Ea, Hia. }
    destruct L as [|x [|y L]]; [set_solver|done|cbn in Hle; lia].
  - destruct L as [|i L']; [done|]. exfalso. destruct (HL i ltac:(left)) as (Hi & Hai & Hid).
    destruct (linked_row true d i o Hw Hl Hi Ho Hid) as [Hacc Hact]. unfold active_input_of in Hai.
    apply andb_true_iff in Hai as [Hai Hia]. apply not_true_iff_false in E. apply E.
    unfold active_output_of. rewrite <- Hacc, Hai, (Hact eq_refl Hia). cbn.
    destruct (spent_at _ _) eqn:Ef; [done|]. apply spent_at_none in Ef.
    pose proof (existsb_none _ _ Ef i Hi) as Hf. cbv beta in Hf. by rewrite Hia, Hid, Z.eqb_refl in Hf.
Qed.

(** What the chain gives an account is the worth of its coins. *)
Lemma chain_balance_worth acc d : wallet_ok d -> linked true d -> chain_balance acc d = zsum worth (coins acc d).
Proof.
  intros Hw Hl. unfold chain_balance, active_outputs_value, active_inputs_value, coins.
  rewrite spent_value_by_output, zsum_map, !zsum_filter.
  rewrite (zsum_ext (fun o => o_value o * _) (fun o => o_value o *
    (if active_output_of acc o && negb (is_none (spent_at (rows (inputs d)) (o_id o))) then 1 else 0))).
  2: { intros o Ho. by rewrite inputs_of_row. }
  induction (rows (outputs d)) as [|o os IH]; [done|]. rewrite !zsum_cons, <- IH. unfold worth, coin_of. cbn.
  destruct (active_output_of acc o), (spent_at (rows (inputs d)) (o_id o)); cbn; lia.
Qed.

End Balance.
