(* ===== verification/OffChain.v ===== *)
(** * Only the chain moves coins

    Locking, sending, monitoring, burning, delivering webhooks, creating and renaming
    accounts: no call of the wallet but the processing of a block, a reorganisation and
    the deletion of an account changes what an account holds, nor its journal. *)
From S2P Require Import Prelude Models DisplayTypes External Schema BalanceDb OutputsDb InputsDb.
From S2P Require Import TipBlocksDb PendingDb AccountsDb Crypto EventsDb BurnProofsDb CompletedDb.
From S2P Require Import DisplayedDb PayrefDb WebhooksDb Webhooks ScanEvents Subset Processor Scanning BlockProc Reorg.
From S2P Require Import InputSelector FundLocker Monitor Manager Burn ValidatorNode Ledger Wallet Coins.
#[local] Open Scope Z_scope.

(** What the coins and the journal are read from. *)
Definition chain_view (d : Db) :
    Z * list (Z * Z * string * Z * Z * bool * string) * list InputRow * list BalanceChangeRow :=
  (seqno (outputs d), map coin_key (rows (outputs d)), rows (inputs d), rows (balance_changes d)).

(** *** Calls that keep what the blocks, spends and journal determine

    [P] holds or not by the outputs, inputs and journal alone, and locking and releasing
    outputs keep it. *)
Section OffChain.
Context {X : Ext} {S0 : StdOrder} {SE : SelectionExt} {C : TxClient}.
Context (P : Db -> Prop).
Hypothesis P_core : forall d d', core d' = core d -> P d -> P d'.
Hypothesis P_lock_output : forall id req at_, preserves P (lock_output id req at_).
Hypothesis P_unlock_outputs : forall req, preserves P (unlock_outputs_for_request req).

Lemma P_frames {E A} (m : M Db E A) : frames core m -> preserves P m.
Proof. intros Hf d Hd. specialize (Hf d). by eapply P_core. Qed.

#[local] Hint Resolve P_lock_output P_unlock_outputs : dbm.
#[local] Hint Extern 4 (preserves _ (modify _)) =>
  (apply preserves_modify; intros ? ?; eapply P_core; [|eassumption]; reflexivity) : dbm.
#[local] Hint Extern 8 (preserves _ _) => (apply P_frames; solve [solve_preserves]) : dbm.

(** The statements on the other tables. *)
Ltac off_chain :=
  unfold update_pending_transaction_status, cancel_pending_transactions_by_ids, mark_completed_transaction_as_broadcasted,
    mark_completed_transaction_as_mined_unconfirmed, mark_completed_transaction_as_confirmed,
    mark_completed_transaction_as_rejected, revert_completed_transaction_to_completed, update_completed,
    update_webhook_status, mark_burn_proof_complete, any_db, snd_db;
  solve_preserves.

Lemma off_create_pending uuid key acc rc tv f1 f2 ex :
  preserves P (create_pending_transaction uuid key acc rc tv f1 f2 ex).
Proof. intros d Hd. unfold create_pending_transaction. case_match; [|done]. by eapply P_core; [|exact Hd]. Qed.
Lemma off_create_completed acc p k st so id :
  preserves P (create_completed_transaction acc p k st so id).
Proof. unfold create_completed_transaction. solve_preserves. Qed.
#[local] Hint Resolve off_create_pending off_create_completed : dbm.

Lemma off_select s a n f e : preserves P (select_unspent_outputs s a n f e).
Proof.
  unfold select_unspent_outputs, sel_db, get_latest_scanned_tip_block_by_account,
    get_output_totals_for_account, get_total_unspent_balance, fetch_unspent_outputs. off_chain.
Qed.
#[local] Hint Resolve off_select : dbm.

Lemma off_lock uuid uk acc a n f e key secs w : preserves P (lock uuid uk acc a n f e key secs w).
Proof.
  unfold lock, lock_db, find_pending_transaction_locked_funds_by_idempotency_key,
    fetch_outputs_by_lock_request_id, lock_selection. off_chain.
Qed.
#[local] Hint Resolve off_lock : dbm.
Lemma off_unlock : preserves P unlock_expired_transactions.
Proof. unfold unlock_expired_transactions, find_expired_pending_transactions, unlock_expired. off_chain. Qed.
#[local] Hint Resolve off_unlock : dbm.

Lemma off_reject m acc tx reason descr : preserves P (reject_transaction m acc tx reason descr).
Proof.
  unfold reject_transaction, persist_event, any_db. off_chain.
Qed.
#[local] Hint Resolve off_reject : dbm.

Lemma off_pending m acc h by_status : preserves P (process_pending_transactions m acc h by_status).
Proof.
  unfold process_pending_transactions, rebroadcast_completed_transactions, rebroadcast_one, check_broadcast_for_mining,
    check_one_mined, check_confirmation_status, check_one_confirmed, persist_event, any_db.
  off_chain.
Qed.
#[local] Hint Resolve off_pending : dbm.

Lemma off_monitor m acc h : preserves (in_db P) (monitor_if_needed m acc h).
Proof.
  unfold monitor_if_needed, clear_pending_outbound, set_flag, update_displayed_confirmations, get_displayed_transactions_needing_confirmation_update, any_db, get_pending_completed_transactions.
  repeat first [apply preserves_mon_db | progress off_chain | progress cbv beta].
  all: apply preserves_modify; by intros [].
Qed.

Lemma off_fail_and_unlock id : preserves P (fail_and_unlock_pending_transaction id).
Proof. unfold fail_and_unlock_pending_transaction, snd_db. off_chain. Qed.
#[local] Hint Resolve off_fail_and_unlock : dbm.

Lemma off_finalize self signed client :
  preserves P (finalize_transaction_and_broadcast self signed client).
Proof.
  unfold finalize_transaction_and_broadcast, handle_submission, or_unlock, check_if_transaction_expired, snd_db, check_if_transaction_is_expired_by_idempotency_key.
  off_chain.
Qed.

Lemma off_start {TxBuilder Prepared} addr (b : Z -> list WalletOutput -> outcome SenderError TxBuilder)
    (pr : TxBuilder -> Recipient -> string -> outcome SenderError Prepared) self uuid key to secs :
  preserves P (start_new_transaction addr b pr self uuid key to secs).
Proof.
  unfold start_new_transaction, validate_transaction_creation_request, create_or_find_pending_transaction,
    manager_create_pending_transaction, create_utxo_selection, prepare_locked, or_unlock,
    check_if_transaction_was_already_completed_by_idempotency_key, find_pending_transaction_by_idempotency_key,
    fetch_outputs_by_lock_request_id, snd_db.
  off_chain.
Qed.

Lemma off_burn_create {BX : BurnExt} uuid uuid_key account params :
  preserves P (create_burn_tx uuid uuid_key account params).
Proof. unfold create_burn_tx, burn_msg. off_chain. Qed.

Lemma off_burn_persist {BX : BurnExt} result acc key : preserves P (persist_burn_records result acc key).
Proof.
  unfold persist_burn_records, complete_pending_burn, burn_msg, find_pending_transaction_by_idempotency_key.
  off_chain.
Qed.

Lemma off_burn_broadcast {BX : BurnExt} result client : preserves P (broadcast_burn result client).
Proof. unfold broadcast_burn, burn_msg. off_chain. Qed.

Lemma off_vn_save signed account key : preserves P (save_vn_tx signed account key).
Proof. unfold save_vn_tx, vn_db, find_pending_transaction_by_idempotency_key. off_chain. Qed.

Lemma off_burn_worker {W : WorkerExt} dir to_json write torn :
  preserves (in_db P) (process_pending_proofs dir to_json write torn).
Proof.
  unfold process_pending_proofs, process_single_proof, write_proof_file.
  repeat first [apply preserves_worker_db | progress off_chain]; unfold get_pending_burn_proofs,
    mark_burn_proof_complete; try off_chain.
  intros [files d] Hd. unfold fs_write. by destruct (write _ _).
Qed.

Lemma off_webhooks send draw plus secret : preserves P (process_batch send draw plus secret).
Proof.
  unfold process_batch, process_item, fetch_due_webhooks.
  off_chain.
Qed.

Lemma off_create_account {CR : CryptoExt} {WT : WalletExt} salt n name wallet password :
  preserves P (create_account salt n name wallet password).
Proof. unfold create_account. off_chain. Qed.

Lemma off_rename old new : preserves P (update_account_name old new).
Proof. unfold update_account_name, get_account_by_name. off_chain. Qed.

End OffChain.

(** *** The chain's calls *)
Section Steps.
Context {X : Ext} {S0 : StdOrder} {SE : SelectionExt} {C : TxClient}.

Inductive chain_step : Db -> Db -> Prop :=
| cs_process_block p block acc d :
    is_ok (fst (process_block block acc (p, d))) = true -> chain_step d (snd (snd (process_block block acc (p, d))))
| cs_handle_reorgs get_header acc config d : chain_step d (snd (handle_reorgs get_header acc config d))
| cs_rollback acc h config d : chain_step d (snd (rollback_from_height acc h config d))
| cs_delete_wallet name d : chain_step d (snd (delete_wallet name d)).

Lemma coins_of_view acc d d' : chain_view d' = chain_view d -> coins acc d' = coins acc d.
Proof.
  unfold chain_view, coins. intros [= _ Hk Hi _]. rewrite Hi. clear Hi. revert Hk. generalize (rows (outputs d)) as l.
  induction (rows (outputs d')) as [|o' l' IH]; intros [|o l] Hk; try done. cbn in Hk.
  injection Hk as H1 H2 H3 H4 H5 H6 H7 Hk. cbn.
  assert (active_output_of acc o' = active_output_of acc o) as -> by (unfold active_output_of; by rewrite H2, H6).
  destruct (active_output_of acc o); cbn; rewrite (IH l Hk); [|done]. f_equal. unfold coin_of. congruence.
Qed.

Lemma journal_of_view acc d d' : chain_view d' = chain_view d -> journal acc d' = journal acc d.
Proof. unfold chain_view, journal. intros [= _ _ _ Hb]. by rewrite Hb. Qed.

(** Every other call of the wallet. *)
Inductive off_chain_step : Db -> Db -> Prop :=
| oc_monitor m flag acc height d :
    off_chain_step d (snd (snd (monitor_if_needed m acc height (flag, d))))
| oc_lock uuid uuid_key acc amount n fee size key secs window d :
    off_chain_step d (snd (lock uuid uuid_key acc amount n fee size key secs window d))
| oc_unlock d :
    off_chain_step d (snd (unlock_expired_transactions d))
| oc_start {TxBuilder Prepared : Type} addr (builder : Z -> list WalletOutput -> outcome SenderError TxBuilder)
    (prepare : TxBuilder -> Recipient -> string -> outcome SenderError Prepared) sender uuid key to secs d :
    off_chain_step d (snd (start_new_transaction addr builder prepare sender uuid key to secs d))
| oc_finalize sender signed client d :
    off_chain_step d (snd (finalize_transaction_and_broadcast sender signed client d))
| oc_prune acc height d :
    off_chain_step d (snd (prune_scanned_tip_blocks acc height d))
| oc_webhooks send draw plus secret d :
    off_chain_step d (snd (process_batch send draw plus secret d))
| oc_burn_create {BX : BurnExt} uuid uuid_key account params d :
    off_chain_step d (snd (create_burn_tx uuid uuid_key account params d))
| oc_burn_persist {BX : BurnExt} result acc key d :
    off_chain_step d (snd (persist_burn_records result acc key d))
| oc_burn_broadcast {BX : BurnExt} result client d :
    off_chain_step d (snd (broadcast_burn result client d))
| oc_burn_marked tx_id d :
    off_chain_step d (snd (mark_completed_transaction_as_broadcasted tx_id 1 d))
| oc_burn_worker {W : WorkerExt} dir to_json write torn files d :
    off_chain_step d (snd (snd (process_pending_proofs dir to_json write torn (files, d))))
| oc_vn_save signed account key d :
    off_chain_step d (snd (save_vn_tx signed account key d))
| oc_create_account {CR : CryptoExt} {WT : WalletExt} salt n name wallet password d :
    off_chain_step d (snd (create_account salt n name wallet password d))
| oc_rename old new d :
    off_chain_step d (snd (update_account_name old new d))
| oc_time now d :
    off_chain_step d (with_clock now d).

Lemma step_cases d d' : wallet_step d d' -> chain_step d d' \/ off_chain_step d d'.
Proof. intros []; try (left; by constructor); right; by constructor. Qed.

Lemma off_chain_wallet_step d d' : off_chain_step d d' -> wallet_step d d'.
Proof. intros []; by constructor. Qed.

(** A call that is not the chain's keeps such a property. *)
Lemma off_chain_keeps (P : Db -> Prop) d d' :
  (forall d d', core d' = core d -> P d -> P d') ->
  (forall id req at_, preserves P (lock_output id req at_)) ->
  (forall req, preserves P (unlock_outputs_for_request req)) ->
  off_chain_step d d' -> P d -> P d'.
Proof.
  intros HP Hl Hu [] Hd; try (by eapply HP; [|exact Hd]).
  - assert (preserves (in_db P) (monitor_if_needed m acc height)) as Hm
      by (apply off_monitor; auto).
    exact (Hm (flag, d0) Hd).
  - apply off_lock; auto.
  - apply off_unlock; auto.
  - apply off_start; auto.
  - apply off_finalize; auto.
  - apply off_webhooks; auto.
  - apply off_burn_create; auto.
  - apply off_burn_persist; auto.
  - apply off_burn_broadcast; auto.
  - assert (preserves (in_db P) (process_pending_proofs dir to_json write torn)) as Hm
      by (apply off_burn_worker; auto).
    exact (Hm (files, d0) Hd).
  - apply off_vn_save; auto.
  - apply off_create_account; auto.
  - apply off_rename; auto.
Qed.

Lemma step_off_chain (P : Db -> Prop) d d' :
  (forall d d', core d' = core d -> P d -> P d') ->
  (forall id req at_, preserves P (lock_output id req at_)) ->
  (forall req, preserves P (unlock_outputs_for_request req)) ->
  wallet_step d d' -> chain_step d d' \/ (P d -> P d').
Proof. intros HP Hl Hu [H|H]%step_cases; [by left|right]. by apply off_chain_keeps. Qed.

Lemma frames_update_outputs p f :
  (forall o, p o = true -> coin_key (f o) = coin_key o) -> frames chain_view (update_outputs p f).
Proof. intros H d. unfold update_outputs, chain_view. cbn. by rewrite map_update_rows. Qed.

Lemma off_chain_view d d' : off_chain_step d d' -> chain_view d' = chain_view d.
Proof.
  intros H. apply (off_chain_keeps (fun d1 => chain_view d1 = chain_view d) d d'); [| | |exact H|done].
  - unfold core, chain_view. intros d1 d2 [= Ho Hi Hb] Hd. by rewrite Ho, Hi, Hb.
  - intros. by apply preserves_frames, frames_update_outputs.
  - intros. by apply preserves_frames, frames_update_outputs.
Qed.

Lemma step_view d d' : wallet_step d d' -> chain_step d d' \/ chain_view d' = chain_view d.
Proof. intros [H|H]%step_cases; [by left|right]. by apply off_chain_view. Qed.

(** C11: only the chain moves coins: a call that is no block, no reorganisation and no
    deletion of an account, whatever its arguments and its outcome, leaves the coins and
    the journal of every account as they are; a payment shows in them only once its
    block is scanned. *)
Theorem only_chain_moves_coins d d' :
  wallet_step d d' ->
  chain_step d d' \/ (forall acc, coins acc d' = coins acc d /\ journal acc d' = journal acc d).
Proof.
  intros [H|H]%step_view; [by left|]. right. intros acc. split; [by apply coins_of_view|by apply journal_of_view].
Qed.

End Steps.

(** ** Examples *)
Module OffChainExamples.
Import Demo Ledger.Examples WalletExamples.

(** Alice's payment of 30 to bob locks her coin; she holds it as before. *)
Lemma only_chain_moves_coins_witness :
  coins 1 (snd started) = [mkCoin "h1" 700 10 (Some 10); mkCoin "h2" 50 10 None]
  /\ (chain_step after10 (snd started)
      \/ (forall acc, coins acc (snd started) = coins acc after10 /\ journal acc (snd started) = journal acc after10)).
Proof.
  split; [vm_compute; reflexivity|].
  apply (only_chain_moves_coins after10 (snd started)). apply ws_start.
Defined.

Example payment_locks : map o_status (rows (outputs (snd started))) = ["SPENT"; "LOCKED"].
Proof. vm_compute. reflexivity. Qed.

End OffChainExamples.
