(* ===== verification/Linked.v ===== *)
(** * The inputs are linked to the outputs

    In every reachable state, reorganisations, failures and deletions of accounts
    included, an input spends a stored output of its own account.  The theorems on coins
    take reachable states, where this and the tables' invariant hold together. *)
From S2P Require Import Prelude Models DisplayTypes External Schema BalanceDb OutputsDb InputsDb.
From S2P Require Import TipBlocksDb PendingDb AccountsDb Crypto EventsDb BurnProofsDb CompletedDb.
From S2P Require Import DisplayedDb PayrefDb WebhooksDb Webhooks ScanEvents Subset Processor Scanning BlockProc Reorg.
From S2P Require Import InputSelector FundLocker Monitor Manager Burn ValidatorNode Ledger Wallet Coins OffChain.
From stdpp Require Import relations.
#[local] Open Scope Z_scope.

(** *** Reorganisations and the outputs and inputs

    [P] is determined by the outputs and the inputs, and marking rows as deleted keeps
    it; then a reorganisation does, wherever it fails. *)
Definition chain_tables (d : Db) : Table OutputRow * Table InputRow := (outputs d, inputs d).

Section ChainCalls.
Context {X : Ext} {S0 : StdOrder}.
Context (P : Db -> Prop).
Hypothesis P_tables : forall d d', chain_tables d' = chain_tables d -> P d -> P d'.
Hypothesis P_drop_inputs : forall p now k,
  preserves (E := WalletDbError) P (modify (fun d => with_inputs (update_where p (set_input_deleted now k) (inputs d)) d)).
Hypothesis P_drop_outputs : forall p now k, preserves P (update_outputs p (set_deleted now k)).

Lemma chain_frames {E A} (m : M Db E A) : frames chain_tables m -> preserves P m.
Proof. intros Hf d Hd. specialize (Hf d). by eapply P_tables. Qed.

Lemma chain_delete_inputs acc h : preserves P (soft_delete_inputs_from_height acc h).
Proof.
  unfold soft_delete_inputs_from_height. apply preserves_bind; [solve_preserves|]. intros now.
  apply preserves_bind; [solve_preserves|]. intros l. apply preserves_bind; [|intros ?; apply P_drop_inputs].
  apply chain_frames. unfold reverse_input. solve_preserves.
Qed.

Lemma chain_delete_outputs acc h : preserves P (soft_delete_outputs_from_height acc h).
Proof.
  unfold soft_delete_outputs_from_height. apply preserves_bind; [solve_preserves|]. intros now.
  apply preserves_bind; [solve_preserves|]. intros l. apply preserves_bind; [|intros ?; apply P_drop_outputs].
  apply chain_frames. unfold reverse_output. solve_preserves.
Qed.

#[local] Hint Resolve chain_delete_inputs chain_delete_outputs : dbm.
#[local] Hint Extern 8 (preserves _ _) => (apply chain_frames; solve [solve_preserves]) : dbm.

Lemma chain_rollback acc h config : preserves P (rollback_from_height acc h config).
Proof.
  unfold rollback_from_height, log_output_rolled_back, cancel_pending, cancel_pending_transactions_by_ids, log_event, any_db,
    get_scanned_tip_blocks_by_account, get_active_outputs_from_height, delete_scanned_tip_blocks_from_height,
    reset_mined_completed_transactions_from_height, update_completed.
  solve_preserves.
Qed.

Lemma chain_handle_reorgs gh acc config : preserves P (handle_reorgs gh acc config).
Proof.
  pose proof chain_rollback. unfold handle_reorgs, any_db, get_scanned_tip_blocks_by_account. solve_preserves; auto.
Qed.

End ChainCalls.

(** *** Linked tables *)
Section LinkedTables.
Context {X : Ext} {S0 : StdOrder} {SE : SelectionExt} {C : TxClient}.

Lemma linked_tables d d' : chain_tables d' = chain_tables d -> linked false d -> linked false d'.
Proof. unfold chain_tables, linked. intros [= Ho Hi]. by rewrite Ho, Hi. Qed.

Lemma linked_core d d' : core d' = core d -> linked false d -> linked false d'.
Proof. unfold core. intros [= Ho Hi _]. apply linked_tables. unfold chain_tables. by rewrite Ho, Hi. Qed.

Lemma linked_update_outputs p f :
  (forall o, o_id (f o) = o_id o /\ o_account_id (f o) = o_account_id o) ->
  preserves (linked false) (update_outputs p f).
Proof.
  intros Hf d Hl i Hi. destruct (Hl i Hi) as (o & Ho & Hid & Hacc & _). cbn.
  exists (if p o then f o else o). split; [by apply elem_of_update_rows; exists o|]. split; [|split; [|done]];
    destruct (p o); rewrite ?(proj1 (Hf o)), ?(proj2 (Hf o)); done.
Qed.

Lemma linked_drop_inputs p now k :
  preserves (E := WalletDbError) (linked false)
    (modify (fun d => with_inputs (update_where p (set_input_deleted now k) (inputs d)) d)).
Proof.
  apply preserves_modify. intros d Hl i' (i & Hi & ->)%elem_of_update_rows.
  destruct (Hl i Hi) as (o & Ho & Hid & Hacc & _). exists o. by destruct (p i).
Qed.

Lemma linked_drop_outputs p now k : preserves (linked false) (update_outputs p (set_deleted now k)).
Proof. by apply linked_update_outputs. Qed.

(** Deleting an account deletes its inputs with the outputs they spend. *)
Lemma delete_account_tables name d u d' :
  delete_account name d = (Ok u, d') ->
  exists row, get_account_by_name name d = (Ok (Some row), d)
    /\ outputs d' = delete_where (of_account o_account_id (a_id row)) (outputs d)
    /\ inputs d' = delete_where (of_account i_account_id (a_id row)) (inputs d)
    /\ balance_changes d' = delete_where (of_account b_account_id (a_id row)) (balance_changes d).
Proof.
  unfold delete_account. intros H. apply bind_ok_inv in H as (found & d1 & Hf & H). pose proof Hf as [= _ <-].
  apply bind_ok_inv in H as (row & d1 & Hr & H). unfold lift in Hr. destruct found as [row'|]; cbn in Hr; [|done].
  injection Hr as -> <-. exists row. split; [exact Hf|]. clear Hf. inv_ok.
  unfold delete_balance_changes, delete_inputs, delete_outputs, delete_completed_transactions,
    delete_pending_transactions, delete_scanned_tip_blocks, delete_events, delete_displayed_transactions,
    delete_account_row, delete_checked in *. inv_ok.
  repeat match goal with H : constrained _ _ = _ |- _ => apply constrained_inv in H as [_ ->] end. done.
Qed.

Lemma linked_delete_wallet name : preserves (linked false) (delete_wallet name).
Proof.
  intros d Hl. unfold delete_wallet, transaction, any_db, map_err.
  destruct (delete_account name d) as [[u|e|m] d'] eqn:E; cbn; [|done..].
  apply delete_account_tables in E as (a & _ & Ho & Hi & _). unfold linked. rewrite Ho, Hi.
  intros i [Hin Ha]%elem_of_filter_bool. destruct (Hl i Hin) as (o & Hino & Hid & Hacc & _).
  exists o. split; [|done]. apply elem_of_filter_bool. split; [done|]. unfold of_account in *. by rewrite Hacc.
Qed.

Lemma linked_step d d' : wallet_step d d' -> wallet_ok d -> linked false d -> linked false d'.
Proof.
  intros Hs Hw Hd. destruct (step_off_chain (linked false) d d' linked_core) as [Hc|Hk]; [| |done| |by apply Hk].
  - intros. by apply linked_update_outputs.
  - intros. by apply linked_update_outputs.
  - clear Hs. pose proof linked_tables. pose proof linked_drop_inputs. pose proof linked_drop_outputs.
    destruct Hc as [p block acc d Hok|gh acc config d|acc h config d|name d].
    + destruct (process_block block acc (p, d)) as [[u| |] [p' d']] eqn:E; [|discriminate Hok..].
      by apply (hoare_scan_block false (wallet_index_to_account_id p) (fun a => coins a d) block acc (p, d) u (p', d')).
    + by apply chain_handle_reorgs.
    + by apply chain_rollback.
    + by apply linked_delete_wallet.
Qed.

Lemma reachable_start now accs : accounts_ok accs -> reachable (with_accounts accs (empty_db now)).
Proof. intros Ha. exists now, accs. split; [done|apply rtc_refl]. Qed.

Lemma reachable_step d d' : wallet_step d d' -> reachable d -> reachable d'.
Proof. intros Hs (now & accs & Ha & H). exists now, accs. split; [done|]. by eapply rtc_r. Qed.

Lemma reachable_linked d : reachable d -> linked false d.
Proof.
  intros (now & accs & Ha & H).
  assert (wallet_ok (with_accounts accs (empty_db now))) as Hw by (by apply initial_ok).
  assert (linked false (with_accounts accs (empty_db now))) as Hl by (intros i Hi; by apply elem_of_nil in Hi).
  clear Ha. induction H as [d|d1 d2 d3 Hs _ IH]; [done|]. apply IH; [by eapply wallet_step_ok|by eapply linked_step].
Qed.

(** What the coins of a reachable state are. *)
Lemma reachable_holds d : reachable d -> holds false (fun a => coins a d) d.
Proof. intros Hd. split; [by apply reachable_ok|]. split; [by apply reachable_linked|done]. Qed.

End LinkedTables.
