(* ===== verification/CoinsTheory.v ===== *)
(** * What a scan does to the coins

    The theorems on the coins of an account: a batch of blocks of the scan coordinator
    and a reorganisation are the functions of [Coins], a reorganised wallet converges to
    the wallet of the winning chain, and the balance that is reported is the worth of
    the coins that the chain left unspent. *)
From S2P Require Import Prelude Models DisplayTypes External Schema BalanceDb AccountsDb TipBlocksDb Webhooks ScanEvents.
From S2P Require Import Subset Processor Scanning BlockProc Reorg InputSelector FundLocker Monitor Manager Burn ValidatorNode Coordinator.
From S2P Require Import Ledger Wallet ReorgTheory Coins OffChain Linked.
#[local] Open Scope Z_scope.

Section Scan.
Context {X : Ext} {XL : ExtLaws X} {S0 : StdOrder} {SL : StdOrderLaws S0} {SE : SelectionExt} {C : TxClient}.
Context (self : Config).

(** The blocks of a batch that the account has not scanned. *)
Definition new_blocks (next_block : Z) (blocks : list BlockScanResult) : list BlockScanResult :=
  List.filter (fun b => negb (blk_height b <? next_block)) blocks.

Lemma hoare_new_blocks strict ids cf blocks acc next :
  hoare (onC strict ids cf) (process_new_blocks blocks acc next)
    (fun _ => onC strict ids (at_account acc (scan_chain ids acc (new_blocks next blocks)) cf)).
Proof.
  unfold process_new_blocks, new_blocks. revert cf. induction blocks as [|block blocks IH]; intros cf; cbn [for_each List.filter].
  - eapply onC_ext; [|apply onC_ret]. intros a. unfold at_account. by destruct (a =? acc).
  - destruct (blk_height block <? next); cbn [negb].
    + eapply hoare_bind; [apply onC_ret|]. intros ?. apply IH.
    + eapply hoare_bind; [apply hoare_scan_block|]. intros ?. eapply hoare_conseq; [apply IH|done|].
      intros ? s [Hi Hd]. split; [done|]. eapply holds_ext; [|exact Hd]. intros b. unfold at_account.
      by destruct (b =? acc).
Qed.

(** A batch that succeeds ran the block processor on the database. *)
Lemma process_blocks_run blocks acc pending next s p events s' :
  handler s = Some p -> process_blocks self blocks acc pending next s = (Ok events, s') ->
  exists p0 p1 p', wallet_index_to_account_id p0 = wallet_index_to_account_id p
    /\ process_new_blocks blocks acc next (p0, db s) = (Ok tt, (p1, db s'))
    /\ handler s' = Some p' /\ wallet_index_to_account_id p' = wallet_index_to_account_id p1.
Proof.
  unfold process_blocks. intros Hh H. destruct blocks as [|b bs].
  { injection H as <- <-. exists p, p, p. done. }
  rewrite Hh in H. destruct (process_new_blocks _ _ _ _) as [[[]|e|m] [p1 d1]] eqn:E; [|done..].
  unfold take_wallet_events in H. injection H as <- <-. eexists _, p1, _. split; [|split; [exact E|by split]]. done.
Qed.

Lemma process_blocks_holds strict cf blocks acc pending next s p events s' :
  holds strict cf (db s) -> handler s = Some p -> process_blocks self blocks acc pending next s = (Ok events, s') ->
  let ids := wallet_index_to_account_id p in
  holds strict (at_account acc (scan_chain ids acc (new_blocks next blocks)) cf) (db s')
  /\ exists p', handler s' = Some p' /\ wallet_index_to_account_id p' = ids.
Proof.
  cbv zeta. intros Hd Hh H. destruct (process_blocks_run _ _ _ _ _ _ _ _ Hh H) as (p0 & p1 & p' & Hi & Hr & Hh' & Hi').
  destruct (hoare_new_blocks strict (wallet_index_to_account_id p) cf blocks acc next (p0, db s) tt (p1, db s') (conj Hi Hd) Hr) as [Hp1 Hd1].
  cbn in Hp1. split; [exact Hd1|]. exists p'. by rewrite Hi', Hp1.
Qed.

(** The batch is a sequence of blocks that succeed. *)
Lemma batch_reachable blocks acc pending next s p events s' :
  handler s = Some p -> process_blocks self blocks acc pending next s = (Ok events, s') ->
  reachable (db s) -> reachable (db s').
Proof.
  intros Hh H Hd. destruct (process_blocks_run _ _ _ _ _ _ _ _ Hh H) as (p0 & p1 & p' & _ & Hr & _).
  assert (hoare (fun s => reachable (snd s)) (process_new_blocks blocks acc next) (fun _ s => reachable (snd s))) as Hb.
  { apply (hoare_for_each (fun _ s => reachable (snd s))). intros x l. destruct (_ <? _); [by apply hoare_ret|].
    intros [q d] a s2 Hs Hx. eapply reachable_step; [|exact Hs].
    pose proof (ws_process_block q x acc d) as Hw. rewrite Hx in Hw. by apply Hw. }
  exact (Hb (p0, db s) tt (p1, db s') Hd Hr).
Qed.

(** What [handle_reorgs] does to the coins. *)
Definition reorganised (r : ReorgResult) (cs : list Coin) : list Coin :=
  match reorg_information r with Some _ => undo (as_i64 (resume_height r)) cs | None => cs end.

Lemma handle_reorgs_holds strict gh cf acc config :
  (strict = true -> Forall orderly (cf acc)) ->
  hoare (holds strict cf) (handle_reorgs gh acc config)
    (fun r => holds strict (at_account acc (reorganised r) cf)).
Proof.
  intros Ho. assert (Hsame : forall r, reorg_information r = None -> hoare (E := AnyError) (holds strict cf) (ret r)
    (fun r => holds strict (at_account acc (reorganised r) cf))).
  { intros r Hr d a d' Hd Hm. unfold ret in Hm. simplify_eq. eapply holds_ext; [|exact Hd]. intros b.
    unfold at_account, reorganised. rewrite Hr. by destruct (b =? acc). }
  unfold handle_reorgs. eapply hoare_bind; [apply hoare_map_err, hoare_holds_frame; unfold get_scanned_tip_blocks_by_account; solve_preserves|].
  intros [|first tips]; [by apply Hsame|]. cbn beta iota.
  eapply hoare_bind; [apply hoare_preserves, preserves_lift|]. intros [h [|]]; cbn beta iota.
  - eapply hoare_bind; [by apply hoare_transaction, hoare_holds_rollback|]. intros info. by apply hoare_ret.
  - eapply hoare_bind; [apply hoare_preserves, preserves_lift|]. intros k. by apply Hsame.
Qed.

(** *** The ledger along a batch *)
Lemma unspent_of_coins acc l d :
  Forall (fun c => is_Some (coin_spent c) -> coin_hash c ∉ l) (coins acc d) -> unspent_hashes acc l d.
Proof.
  rewrite Forall_forall. intros Hc o Ho Hacc Hact Hl. apply spent_at_none.
  destruct (spent_at (rows (inputs d)) (o_id o)) eqn:E; [exfalso|done].
  apply (Hc (coin_of (rows (inputs d)) o)); [|by eexists|done].
  apply list_elem_of_In, in_map, list_elem_of_In, elem_of_filter_bool. split; [done|].
  unfold active_output_of. by rewrite Hacc, Z.eqb_refl, Hact.
Qed.

Lemma new_blocks_ledger ids acc next blocks : forall cf s u s',
  onC false ids cf s -> ledger_ok (snd s) -> spends_once ids acc (new_blocks next blocks) (cf acc) ->
  process_new_blocks blocks acc next s = (Ok u, s') -> ledger_ok (snd s').
Proof.
  unfold process_new_blocks, new_blocks.
  induction blocks as [|b bs IH]; intros cf s u s' HC Hl Hv H; cbn [for_each List.filter] in *.
  { unfold ret in H. by simplify_eq. }
  apply bind_ok_inv in H as (u1 & s1 & H1 & H). destruct (blk_height b <? next); cbn [negb] in *.
  { unfold ret in H1. simplify_eq. by eapply IH. }
  destruct Hv as (Hnd & Hun & Hv). pose proof (hoare_scan_block false ids cf b acc _ _ _ HC H1) as HC1.
  eapply IH; [exact HC1| | |exact H].
  - destruct s as [p d], s1 as [p1 d1]. apply (ledger_ok_off_by acc).
    eapply onJ_off_by, (hoare_process_block acc b Hnd _ _ _ _ H1). Unshelve.
    split; [by apply ledger_ok_off_by|]. apply unspent_of_coins. destruct HC as (_ & _ & _ & Hc). cbn in Hc. by rewrite Hc.
  - unfold at_account. by rewrite Z.eqb_refl.
Qed.

(** ** The theorems *)

(** A batch of blocks refines the chain: in a reachable state, when the
    coordinator's [process_blocks] succeeds, the account's coins are those it had, paid
    and spent block by block by the blocks it had not scanned yet; no other account's
    coins change, and the state is reachable. *)
Theorem process_blocks_coins blocks acc pending next s p events s' :
  reachable (db s) -> handler s = Some p ->
  process_blocks self blocks acc pending next s = (Ok events, s') ->
  reachable (db s') /\
  coins acc (db s')
    = scan_chain (wallet_index_to_account_id p) acc (new_blocks next blocks) (coins acc (db s)) /\
  (forall a, a <> acc -> coins a (db s') = coins a (db s)).
Proof.
  intros Hd Hh H. split; [by eapply batch_reachable|].
  destruct (process_blocks_holds _ _ _ _ _ _ _ _ _ _ (reachable_holds _ Hd) Hh H) as [(_ & _ & Hc) _].
  unfold at_account in Hc. split; [by rewrite Hc, Z.eqb_refl|].
  intros a Ha. by rewrite Hc, (proj2 (Z.eqb_neq a acc)).
Qed.

(** C9: a reorganisation takes back exactly the chain above the fork: in every reachable
    state, after [handle_reorgs] the account keeps the coins mined below the height where
    the scan resumes, and a coin spent there or above is unspent again; without a fork
    nothing changes, nor do the coins of another account. *)
Theorem handle_reorgs_coins gh acc config d r d' :
  reachable d -> handle_reorgs gh acc config d = (Ok r, d') ->
  reachable d' /\ coins acc d' = reorganised r (coins acc d) /\
  (forall a, a <> acc -> coins a d' = coins a d).
Proof.
  intros Hd H. split.
  { eapply reachable_step; [|exact Hd]. pose proof (ws_handle_reorgs gh acc config d) as Hs. by rewrite H in Hs. }
  destruct (handle_reorgs_holds false gh _ acc config ltac:(done) d r d' (reachable_holds _ Hd) H) as (_ & _ & Hc).
  unfold at_account in Hc. split; [by rewrite Hc, Z.eqb_refl|].
  intros a Ha. by rewrite Hc, (proj2 (Z.eqb_neq a acc)).
Qed.

(** C8: a wallet that followed a fork converges: from a reachable state [s] whose coins
    lie below the height where the scan resumes, scanning the blocks of a branch from
    there up, finding the reorganisation and scanning the winning branch gives every
    account the same coins as scanning the winning branch at once. *)
Theorem reorg_converges gh acc s p branch pending1 next1 events1 s1 r d2 info winning pending2 events2 s3
    pending3 events3 e :
  reachable (db s) -> handler s = Some p ->
  process_blocks self branch acc pending1 next1 s = (Ok events1, s1) ->
  handle_reorgs gh acc (cf_webhook_config self) (db s1) = (Ok r, d2) -> reorg_information r = Some info ->
  process_blocks self winning acc pending2 (resume_height r) (set_db d2 s1) = (Ok events2, s3) ->
  process_blocks self winning acc pending3 (resume_height r) s = (Ok events3, e) ->
  let fork := as_i64 (resume_height r) in
  Forall (before fork) (coins acc (db s)) ->
  Forall (fun b => fork <= as_i64 (blk_height b)) (new_blocks next1 branch) ->
  forall a, coins a (db s3) = coins a (db e).
Proof.
  intros Hd Hh H1 H2 Hr H3 He fork Hb Hasc a. pose proof (reachable_holds _ Hd) as H0.
  destruct (process_blocks_holds _ _ _ _ _ _ _ _ _ _ H0 Hh H1) as [Hd1 (p1 & Hh1 & Hi1)].
  pose proof (handle_reorgs_holds false gh _ acc (cf_webhook_config self) ltac:(done) _ _ _ Hd1 H2) as Hd2.
  destruct (process_blocks_holds _ _ _ _ _ _ (set_db d2 s1) p1 _ _ Hd2 Hh1 H3) as [(_ & _ & Hc3) _].
  destruct (process_blocks_holds _ _ _ _ _ _ _ _ _ _ H0 Hh He) as [(_ & _ & Hce) _].
  rewrite Hc3, Hce, Hi1. unfold at_account. destruct (Z.eqb_spec a acc) as [->|]; [|done]. f_equal.
  unfold reorganised. rewrite Hr. fold fork. rewrite undo_scan_chain by done. by apply undo_before.
Qed.

(** The balance that is reported is the worth of the chain: when the blocks that
    the account had not scanned spend no coin twice, the total of [get_balance] after the
    batch is the sum of the coins that the chain, in the abstract, leaves unspent. *)
Theorem scanned_total blocks acc pending next s p events s' b d' :
  ledger_ok (db s) -> wallet_ok (db s) -> linked true (db s) -> handler s = Some p ->
  let ids := wallet_index_to_account_id p in
  spends_once ids acc (new_blocks next blocks) (coins acc (db s)) ->
  process_blocks self blocks acc pending next s = (Ok events, s') ->
  amounts_nonneg acc (db s') ->
  get_balance acc (db s') = (Ok b, d') ->
  total b = zsum worth (scan_chain ids acc (new_blocks next blocks) (coins acc (db s))).
Proof.
  intros Hled Hw Hl Hh ids Hv H Hn Hb. assert (H0 : holds true (fun a => coins a (db s)) (db s)) by (by split).
  destruct (process_blocks_run _ _ _ _ _ _ _ _ Hh H) as (p0 & p1 & p' & Hi & Hr & _).
  destruct (hoare_new_blocks true ids _ blocks acc next (p0, db s) tt (p1, db s') (conj Hi H0) Hr) as [_ (Hw' & Hl' & Hc)].
  assert (HC : onC false ids (fun a => coins a (db s)) (p0, db s)) by (split; [done|]; split; [done|]; split; [by apply (linked_weaken true)|done]).
  pose proof (new_blocks_ledger ids acc next blocks _ (p0, db s) tt (p1, db s') HC Hled Hv Hr) as Hled'.
  cbn in Hw', Hl', Hc, Hled'. destruct (get_balance_ok acc (db s') b d' Hled' Hn Hb) as (_ & -> & _).
  rewrite (chain_balance_worth acc _ Hw' Hl'), Z.max_r.
  - rewrite Hc. unfold at_account. by rewrite Z.eqb_refl.
  - apply zsum_nonneg. intros c Hin. unfold coins in Hin. apply list_elem_of_In, in_map_iff in Hin as (o & <- & Ho).
    apply list_elem_of_In, elem_of_filter_bool in Ho as [Ho _]. apply (proj2 Hn) in Ho. unfold worth, coin_of. cbn.
    by case_match.
Qed.

End Scan.

(** ** Examples *)
Module CoinsExamples.
Import Demo Ledger.Examples WalletExamples.

Definition config : Config := mkConfig 3 None 100 10.
Definition alice : AccountSyncTarget := mkTarget 1 "viewkey" 0 false.
Definition fresh : LoopState := initial_state config start [alice].

(** Block 9 pays 700, which a block 10 that does not last spends; the block 10 of the
    winning chain pays 30 instead, and its block 11 spends the 700. *)
Definition o3 : output := mkOutput 30 "h3" false false "" None None.
Definition block9 : BlockScanResult := mkBlockScanResult 9 "block9" [("h1", o1, 0%nat)] [] 800.
Definition fork10 : BlockScanResult := mkBlockScanResult 10 "fork10" [("h2", o2, 0%nat)] ["h1"] 900.
Definition win10 : BlockScanResult := mkBlockScanResult 10 "win10" [("h3", o3, 0%nat)] ["foreign"] 900.
Definition win11 : BlockScanResult := mkBlockScanResult 11 "win11" [] ["h1"] 950.
Definition winning_chain (h : Z) : outcome string (option string) :=
  Ok (if h =? 9 then Some "block9" else if h =? 10 then Some "win10" else None).

Definition run (blocks : list BlockScanResult) (next : Z) (s : LoopState) := process_blocks config blocks 1 false next s.
Definition run_state (blocks : list BlockScanResult) (next : Z) (s : LoopState) : LoopState := snd (run blocks next s).
Definition run_events (blocks : list BlockScanResult) (next : Z) (s : LoopState) : list WalletEvent :=
  result_or [] (fst (run blocks next s)).

Lemma run_is (blocks : list BlockScanResult) next s :
  is_ok (fst (run blocks next s)) = true ->
  process_blocks config blocks 1 false next s = (Ok (run_events blocks next s), run_state blocks next s).
Proof. intros H. unfold run_events, run_state, run in *. by apply run_ok. Qed.

Definition scanned9 : LoopState := run_state [block9] 0 fresh.
Definition forked : LoopState := run_state [fork10] 10 scanned9.
Definition reorg := handle_reorgs winning_chain 1 None (db forked).
Definition reorg_result : ReorgResult := result_or (mkReorgResult 0 None) (fst reorg).
Definition no_info : ReorgInformation := mkReorgInformation 0 0 [] [] [].
Definition reorg_info : ReorgInformation := default no_info (reorg_information reorg_result).
Definition resumed : LoopState := set_db (snd reorg) forked.
Definition converged : LoopState := run_state [win10; win11] 10 resumed.
Definition direct : LoopState := run_state [win10; win11] 10 scanned9.

Lemma scanned9_ok : process_blocks config [block9] 1 false 0 fresh = (Ok (run_events [block9] 0 fresh), scanned9).
Proof. apply run_is. vm_compute. reflexivity. Qed.
Lemma forked_ok : process_blocks config [fork10] 1 false 10 scanned9 = (Ok (run_events [fork10] 10 scanned9), forked).
Proof. apply run_is. vm_compute. reflexivity. Qed.
Lemma reorg_ok : handle_reorgs winning_chain 1 None (db forked) = (Ok reorg_result, snd reorg).
Proof. unfold reorg_result, reorg. apply run_ok. vm_compute. reflexivity. Qed.
Lemma reorg_found : reorg_information reorg_result = Some reorg_info.
Proof.
  assert (is_none (reorg_information reorg_result) = false) as H by (vm_compute; reflexivity).
  unfold reorg_info. destruct (reorg_information reorg_result) as [i|]; [reflexivity|discriminate H].
Qed.
Lemma resume_at_10 : resume_height reorg_result = 10.
Proof. vm_compute. reflexivity. Qed.
Lemma converged_ok : process_blocks config [win10; win11] 1 false (resume_height reorg_result) (set_db (snd reorg) forked)
  = (Ok (run_events [win10; win11] 10 resumed), converged).
Proof. rewrite resume_at_10. apply run_is. vm_compute. reflexivity. Qed.
Lemma direct_ok : process_blocks config [win10; win11] 1 false (resume_height reorg_result) scanned9
  = (Ok (run_events [win10; win11] 10 scanned9), direct).
Proof. rewrite resume_at_10. apply run_is. vm_compute. reflexivity. Qed.

(** The coins at each stage. *)
Example coins_along :
  coins 1 (db scanned9) = [mkCoin "h1" 700 9 None]
  /\ coins 1 (db forked) = [mkCoin "h1" 700 9 (Some 10); mkCoin "h2" 50 10 None]
  /\ coins 1 (db resumed) = [mkCoin "h1" 700 9 None]
  /\ coins 1 (db converged) = [mkCoin "h1" 700 9 (Some 11); mkCoin "h3" 30 10 None].
Proof. vm_compute. repeat split; reflexivity. Qed.

Lemma fresh_holds : wallet_ok (db fresh) /\ linked true (db fresh).
Proof.
  split.
  - apply initial_ok, accounts_ok_one. cbn. lia.
  - intros i Hi. cbn in Hi. set_solver.
Qed.

Lemma fresh_reachable : reachable (db fresh).
Proof. by apply (reachable_start 1000 (mkTable [account1] 1)), accounts_ok_one. Qed.

Definition fresh_handler : BlockProcessor := with_event_sender [(1, "viewkey")] false 3.
Lemma fresh_has_handler : handler fresh = Some fresh_handler.
Proof. reflexivity. Qed.

Lemma scanned9_reachable : reachable (db scanned9).
Proof. exact (batch_reachable config _ _ _ _ _ _ _ _ fresh_has_handler scanned9_ok fresh_reachable). Qed.

Definition scanned9_handler : BlockProcessor := default fresh_handler (handler scanned9).
Lemma scanned9_has_handler : handler scanned9 = Some scanned9_handler.
Proof.
  assert (is_none (handler scanned9) = false) as H by (vm_compute; reflexivity).
  unfold scanned9_handler. destruct (handler scanned9) as [p|]; [reflexivity|discriminate H].
Qed.

Lemma forked_reachable : reachable (db forked).
Proof. exact (batch_reachable config _ _ _ _ _ _ _ _ scanned9_has_handler forked_ok scanned9_reachable). Qed.

Lemma process_blocks_coins_witness :
  coins 1 (db forked) = [mkCoin "h1" 700 9 (Some 10); mkCoin "h2" 50 10 None].
Proof.
  rewrite (proj1 (proj2 (process_blocks_coins config [fork10] 1 false 10 scanned9 scanned9_handler _ forked
    scanned9_reachable scanned9_has_handler forked_ok))). vm_compute. reflexivity.
Defined.

Lemma handle_reorgs_coins_witness : coins 1 (snd reorg) = [mkCoin "h1" 700 9 None].
Proof.
  rewrite (proj1 (proj2 (handle_reorgs_coins winning_chain 1 None (db forked) reorg_result (snd reorg)
    forked_reachable reorg_ok))). vm_compute. reflexivity.
Defined.

Lemma reorg_converges_witness : coins 1 (db converged) = coins 1 (db direct) /\ resume_height reorg_result = 10.
Proof.
  split; [|exact resume_at_10].
  refine (reorg_converges config winning_chain 1 scanned9 scanned9_handler [fork10] false 10 _ forked reorg_result (snd reorg)
    reorg_info [win10; win11] false _ converged false _ direct scanned9_reachable
    scanned9_has_handler forked_ok reorg_ok reorg_found converged_ok direct_ok _ _ 1).
  - rewrite (proj1 coins_along), resume_at_10. repeat constructor. intros k. by cbn.
  - rewrite resume_at_10. repeat constructor. vm_compute. discriminate.
Defined.

(** Alice scans both blocks at once: 700 spent, 50 left. *)
Definition both9 : LoopState := run_state [block9; fork10] 0 fresh.
Definition balance9 := get_balance 1 (db both9).
Definition balance9_value : AccountBalance := result_or (mkAccountBalance 0 0 0 0 None None None None) (fst balance9).

Lemma both9_ok : process_blocks config [block9; fork10] 1 false 0 fresh = (Ok (run_events [block9; fork10] 0 fresh), both9).
Proof. apply run_is. vm_compute. reflexivity. Qed.

Lemma balance9_ok : get_balance 1 (db both9) = (Ok balance9_value, snd balance9).
Proof. unfold balance9_value, balance9. apply run_ok. vm_compute. reflexivity. Qed.

Lemma both9_nonneg : amounts_nonneg 1 (db both9).
Proof.
  split.
  - intros b Hb. assert (Forall (fun b => 0 <= b_balance_credit b /\ 0 <= b_balance_debit b) (account_changes 1 (db both9))) as Hf
      by (vm_compute; repeat constructor; discriminate). rewrite Forall_forall in Hf. auto.
  - intros o Ho. assert (Forall (fun o => 0 <= o_value o) (rows (outputs (db both9)))) as Hf
      by (vm_compute; repeat constructor; discriminate). rewrite Forall_forall in Hf. auto.
Qed.

Lemma both9_once : spends_once [1] 1 [block9; fork10] [].
Proof.
  cbn. repeat split; try apply NoDup_nil_2; try apply NoDup_singleton; try constructor; cbn.
  - intros [? [=]].
  - constructor.
Qed.

Lemma scanned_total_witness : total balance9_value = 50.
Proof.
  rewrite (scanned_total config [block9; fork10] 1 false 0 fresh fresh_handler _ both9 balance9_value (snd balance9)
    start_ledger (proj1 fresh_holds) (proj2 fresh_holds) fresh_has_handler both9_once both9_ok both9_nonneg balance9_ok).
  vm_compute. reflexivity.
Defined.

End CoinsExamples.
