(* ===== verification/Spendable.v ===== *)
(** * What selection offers is unspent

    The status column, which input selection reads, against the chain, which the inputs
    table records: in every reachable state an output that is not marked as spent has not
    been spent. *)
From S2P Require Import Prelude Models DisplayTypes External Schema BalanceDb OutputsDb InputsDb.
From S2P Require Import TipBlocksDb PendingDb AccountsDb Crypto EventsDb BurnProofsDb CompletedDb.
From S2P Require Import DisplayedDb PayrefDb WebhooksDb Webhooks ScanEvents Subset Processor Scanning BlockProc Reorg.
From S2P Require Import InputSelector FundLocker Monitor Manager Burn ValidatorNode Coordinator Ledger Wallet ReorgTheory Coins OffChain Linked CoinsTheory.
From stdpp Require Import relations.
#[local] Open Scope Z_scope.

(** An input refers to an output that was stored, and an output with an active input is
    marked as spent, but for the one that is being spent. *)
Definition marked (e : option Z) (d : Db) : Prop :=
  ((forall o, o ∈ rows (outputs d) -> o_id o <= seqno (outputs d))
   /\ (forall i, i ∈ rows (inputs d) -> i_output_id i <= seqno (outputs d)))
  /\ (forall o, o ∈ rows (outputs d) -> e <> Some (o_id o) -> has_active_input (o_id o) d = true -> o_status o = SPENT).

Section Marked.
Context {X : Ext} {S0 : StdOrder}.

Lemma marked_tables e d d' : chain_tables d' = chain_tables d -> marked e d -> marked e d'.
Proof. unfold chain_tables, marked, has_active_input. intros [= Ho Hi]. by rewrite Ho, Hi. Qed.

Lemma marked_core e d d' : core d' = core d -> marked e d -> marked e d'.
Proof. unfold core. intros [= Ho Hi _]. apply marked_tables. unfold chain_tables. by rewrite Ho, Hi. Qed.

Lemma marked_frames {E A} e (m : M Db E A) : frames chain_tables m -> preserves (marked e) m.
Proof. intros Hf d Hd. specialize (Hf d). by eapply marked_tables. Qed.

(** An update that keeps the ids, and the status of what is spent. *)
Lemma marked_update e p f :
  (forall o, p o = true -> o_id (f o) = o_id o /\ (o_status o = SPENT -> o_status (f o) = SPENT)) ->
  preserves (marked e) (update_outputs p f).
Proof.
  intros Hf d [[Ho Hb] Hm]. split; cbn; [split; [|done]|].
  { intros o' (o & Hin & ->)%elem_of_update_rows. specialize (Ho o Hin). destruct (p o) eqn:E; [|done].
    by destruct (Hf o E) as [-> _]. }
  clear Ho. intros o' (o & Ho & ->)%elem_of_update_rows He Ha.
  destruct (p o) eqn:E; [|by apply Hm]. destruct (Hf o E) as [Hid Hs]. rewrite Hid in He, Ha. apply Hs. by apply Hm.
Qed.

Lemma marked_lock e id req at_ : preserves (marked e) (lock_output id req at_).
Proof.
  apply marked_update. intros o [_ Hu]%andb_true_iff. split; [done|]. intros Hs. rewrite Hs in Hu. discriminate Hu.
Qed.

Lemma marked_unlock e req : preserves (marked e) (unlock_outputs_for_request req).
Proof.
  apply marked_update. intros o [_ Hu]%andb_true_iff. split; [done|]. intros Hs. rewrite Hs in Hu. discriminate Hu.
Qed.

Lemma marked_confirmed e hash h bh : preserves (marked e) (mark_output_confirmed hash h bh).
Proof. by apply marked_update. Qed.

Lemma insert_output_not_ok acc vk hash o h bh ts mp mh pr burn d r d' :
  insert_output acc vk hash o h bh ts mp mh pr burn d = (r, d') -> is_ok r = false -> d' = d.
Proof.
  unfold insert_output, bind, lift, constrained, gets, modify, ret. intros E Hr.
  repeat case_match; simplify_eq/=; done.
Qed.

Lemma marked_insert_output e acc vk hash o h bh ts mp mh pr burn :
  preserves (marked e) (insert_output acc vk hash o h bh ts mp mh pr burn).
Proof.
  intros d [[Hs Hb] Hm]. destruct (insert_output _ _ _ _ _ _ _ _ _ _ _ d) as [[id|er|msg] d'] eqn:E; cbn.
  - apply insert_output_row in E as (row & Ho & Hi & -> & _ & [= Hid _ _ _ _ _]).
    unfold marked, has_active_input. rewrite Ho, Hi. cbn. split; [split|].
    + intros o' [Hin| ->%list_elem_of_singleton]%elem_of_app; [specialize (Hs o' Hin)|]; lia.
    + intros i Hin. specialize (Hb i Hin). lia.
    + intros o' [Hin| ->%list_elem_of_singleton]%elem_of_app He Ha; [by apply Hm|].
      exfalso. apply existsb_exists in Ha as (i & Hin & Ha). apply list_elem_of_In, Hb in Hin.
      rewrite andb_true_iff, Z.eqb_eq in Ha. lia.
  - apply insert_output_not_ok in E as ->; [by split|done].
  - apply insert_output_not_ok in E as ->; [by split|done].
Qed.

(** Spending: the row whose input is new waits for its status. *)
Lemma marked_insert_input acc id h bh ts :
  hoare (fun d => marked None d /\ id <= seqno (outputs d)) (insert_input acc id h bh ts) (fun _ => marked (Some id)).
Proof.
  intros d r d' [[[Hs Hb] Hm] Hid] H. unfold insert_input in H. inv_ok.
  destruct (has_active_input id _) eqn:E; cbn in *; inv_ok.
  - match goal with H : match ?l with _ => _ end _ = _ |- _ => destruct l; inv_ok end.
    split; [done|]. intros o Ho _ Ha. by apply Hm.
  - match goal with H : constrained _ _ = _ |- _ => apply constrained_inv in H as [_ ->] end.
    match goal with H : match ?l with _ => _ end _ = _ |- _ => destruct l; inv_ok end.
    unfold marked, has_active_input. cbn. split; [split; [done|]|].
    + intros j [Hj| ->%list_elem_of_singleton]%elem_of_app; [by apply Hb|done].
    + intros o Ho He Ha. rewrite existsb_app in Ha. cbn in Ha. apply orb_true_iff in Ha as [Ha|Ha].
      * by apply Hm.
      * rewrite orb_false_r, Z.eqb_eq in Ha. by subst id.
Qed.

Lemma marked_output_spent id : hoare (marked (Some id)) (update_output_status id OutputStatus.Spent) (fun _ => marked None).
Proof.
  intros d u d' [[Hs Hb] Hm] H. unfold update_output_status, update_outputs, modify in H. simplify_eq. split; cbn; [split; [|done]|].
  { intros o' (o & Ho & ->)%elem_of_update_rows. specialize (Hs o Ho). by destruct (o_id o =? id). }
  intros o' (o & Ho & ->)%elem_of_update_rows _ Ha. destruct (Z.eqb_spec (o_id o) id) as [Hid|Hne]; [done|].
  apply Hm; [done| |done]. by intros [= ->].
Qed.

Lemma marked_drop_inputs e p now k :
  preserves (E := WalletDbError) (marked e)
    (modify (fun d => with_inputs (update_where p (set_input_deleted now k) (inputs d)) d)).
Proof.
  apply preserves_modify. intros d [[Hs Hb] Hm]. unfold marked, has_active_input. cbn. split; [split; [done|]|].
  - intros i' (i & Hi & ->)%elem_of_update_rows. destruct (p i); cbn; by apply Hb.
  - intros o Ho He Ha. apply Hm; [done..|]. apply existsb_exists in Ha as (i' & Hi' & Ha).
    apply list_elem_of_In, elem_of_update_rows in Hi' as (i & Hi & ->).
    destruct (p i); [discriminate Ha|]. apply existsb_exists. exists i. by rewrite <- list_elem_of_In.
Qed.

Lemma marked_drop_outputs e p now k : preserves (marked e) (update_outputs p (set_deleted now k)).
Proof. by apply marked_update. Qed.

#[local] Hint Resolve marked_lock marked_unlock marked_confirmed marked_insert_output : dbm.
#[local] Hint Extern 8 (preserves (marked _) _) => (apply marked_frames; solve [solve_preserves]) : dbm.

(** *** Deleting an account *)
Lemma marked_delete_in e p d : marked e d -> marked e (with_inputs (delete_where p (inputs d)) d).
Proof.
  intros [[Hs Hb] Hm]. unfold marked, has_active_input. cbn. split; [split; [done|]|].
  - intros i [Hi _]%elem_of_filter_bool. by apply Hb.
  - intros o Ho He Ha. apply Hm; [done..|]. apply existsb_exists in Ha as (i & Hi & Ha).
    apply list_elem_of_In, elem_of_filter_bool in Hi as [Hi _]. apply existsb_exists. exists i.
    by rewrite <- list_elem_of_In.
Qed.

Lemma marked_delete_out e p d : marked e d -> marked e (with_outputs (delete_where p (outputs d)) d).
Proof.
  intros [[Hs Hb] Hm]. split; [split; [|done]|]; cbn.
  - intros o [Ho _]%elem_of_filter_bool. by apply Hs.
  - intros o [Ho _]%elem_of_filter_bool He Ha. by apply Hm.
Qed.

Lemma marked_delete_wallet e name : preserves (marked e) (delete_wallet name).
Proof.
  apply preserves_transaction, preserves_map_err. unfold delete_account.
  apply preserves_bind; [unfold get_account_by_name; solve_preserves|]. intros a.
  apply preserves_bind; [solve_preserves|]. intros account.
  repeat match goal with |- preserves _ (bind _ _) => apply preserves_bind; [|intros _] end; unfold delete_checked;
    try (apply preserves_bind; [solve_preserves|intros _]); try (apply marked_frames; solve_preserves; fail);
    apply preserves_modify; intros d Hd;
    first [by eapply marked_tables; [|exact Hd]|by apply marked_delete_in|by apply marked_delete_out].
Qed.

(** *** A block *)
Lemma marked_process_outputs block acc vk : preserves (in_db (marked None)) (process_outputs block acc vk).
Proof.
  unfold process_outputs, process_output, record_output_balance_change, trigger_webhooks, update_current. solve_step.
Qed.

Lemma marked_process_confirmations block acc : preserves (in_db (marked None)) (process_confirmations block acc).
Proof.
  unfold process_confirmations, confirm_output, trigger_webhooks, get_unconfirmed_outputs, get_burn_proof_by_output_hash.
  solve_step.
Qed.

Lemma marked_save_and_emit h a vk ba : preserves (in_db (marked None)) (save_and_emit_displayed_transactions h a vk ba).
Proof.
  unfold save_and_emit_displayed_transactions. solve_step. apply preserves_create_for_height.
Qed.

Lemma marked_process_input block acc hash :
  hoare (in_db (marked None)) (process_input block acc hash) (fun _ => in_db (marked None)).
Proof.
  unfold process_input. apply (hoare_bind _ (fun r s => in_db (marked None) s /\
    match r with Some r => r.1.1 <= seqno (outputs (snd s)) | None => True end)).
  - intros [p d] r [p' d'] Hd H. unfold on_db in H.
    destruct (get_output_info_by_hash_for_account acc hash d) as [[r0|er|msg] d2] eqn:E; cbn in H; simplify_eq.
    destruct r as [r|].
    + apply output_info_for_account_inv in E as (-> & o & Ho & _ & _ & _ & Hid & _). split; [done|]. cbn.
      rewrite Hid. by apply Hd.
    + by apply output_info_none in E as [-> _].
  - intros [[[id tx_id] output]|]; [|apply hoare_ret; by intros s [Hs _]].
    apply (hoare_bind _ (fun _ => in_db (marked (Some id)))).
    { intros [p d] i [p' d'] [Hd Hid] H. unfold on_db in H.
      destruct (insert_input _ _ _ _ _ d) as [[] d2] eqn:E; cbn in H; simplify_eq.
      by apply (marked_insert_input acc id _ _ _ d _ _ (conj Hd Hid) E). }
    intros input_id. apply (hoare_bind _ (fun _ => in_db (marked (Some id)))).
    { apply hoare_preserves. unfold record_input_balance_change. solve_step. }
    intros c. apply (hoare_bind _ (fun _ => in_db (marked None))).
    { intros [p d] u [p' d'] Hd H. unfold on_db in H.
      destruct (update_output_status id _ d) as [[] d2] eqn:E; cbn in H; simplify_eq.
      by apply (marked_output_spent id d _ _ Hd E). }
    intros u. apply hoare_preserves. unfold update_current. solve_step.
Qed.

Lemma marked_process_block block acc : hoare (in_db (marked None)) (process_block block acc) (fun _ => in_db (marked None)).
Proof.
  pose proof marked_process_outputs. pose proof marked_process_confirmations. pose proof marked_save_and_emit.
  unfold process_block. do 5 (apply (hoare_bind _ (fun _ => in_db (marked None))); [apply hoare_preserves; solve_step; auto|intros ?]).
  apply (hoare_bind _ (fun _ => in_db (marked None))).
  - unfold process_inputs. apply (hoare_for_each (fun _ => in_db (marked None))). intros hash ?. apply marked_process_input.
  - intros ?. apply hoare_preserves. unfold record_scanned_block, insert_scanned_tip_block. solve_step; auto.
Qed.

End Marked.

(** ** Reachable states *)
Section Reachable.
Context {X : Ext} {S0 : StdOrder} {SE : SelectionExt} {C : TxClient}.

Lemma marked_step d d' : wallet_step d d' -> marked None d -> marked None d'.
Proof.
  intros Hs Hd. destruct (step_off_chain (marked None) d d' (marked_core None)) as [Hc|Hk]; [| |done| |by apply Hk].
  - intros. apply marked_lock.
  - intros. apply marked_unlock.
  - clear Hs. destruct Hc as [p block acc d Hok|gh acc config d|acc h config d|name d].
    + destruct (process_block block acc (p, d)) as [[u| |] [p' d']] eqn:E; [|discriminate Hok..].
      by apply (marked_process_block block acc (p, d) u (p', d')).
    + by apply chain_handle_reorgs; [apply marked_tables|apply marked_drop_inputs|apply marked_drop_outputs|].
    + by apply chain_rollback; [apply marked_tables|apply marked_drop_inputs|apply marked_drop_outputs|].
    + by apply marked_delete_wallet.
Qed.

Lemma reachable_marked d : reachable d -> marked None d.
Proof.
  intros (now & accs & _ & H).
  assert (marked None (with_accounts accs (empty_db now))) as H0.
  { split; [split|]; cbn; intros x Hx; by apply elem_of_nil in Hx. }
  induction H as [d|d1 d2 d3 Hs _ IH]; [done|]. apply IH. by eapply marked_step.
Qed.

(** C7: nothing that the chain has spent is offered or locked for a payment: in every
    reachable state, with reorganisations, restarts and failures in between, an active
    output that is not marked as spent is a coin of its account that no block the wallet
    holds has spent. *)
Theorem spent_coins_never_offered d o :
  reachable d -> o ∈ rows (outputs d) -> active o = true -> o_status o <> SPENT ->
  mkCoin (o_output_hash o) (o_value o) (o_mined_in_block_height o) None ∈ coins (o_account_id o) d.
Proof.
  intros Hd Ho Ha Hs. apply reachable_marked in Hd as [_ Hm].
  assert (spent_at (rows (inputs d)) (o_id o) = None) as Hn.
  { apply spent_at_none. apply not_true_is_false. intros Hi. by apply Hs, Hm. }
  apply list_elem_of_In, in_map_iff. exists o. unfold coin_of. rewrite Hn. split; [done|].
  apply list_elem_of_In, elem_of_filter_bool. split; [done|]. unfold active_output_of. by rewrite Z.eqb_refl, Ha.
Qed.

End Reachable.

(** ** Examples *)
Module SpendableExamples.
Import Demo Ledger.Examples WalletExamples CoinsExamples.

(** Alice scans two blocks, which leave her one coin, and pays bob with it. *)
Definition paying := start_new_transaction (Ok ("alice_address", true)) (fun _ _ => Ok tt) (fun _ _ _ => Ok tt)
  sender "tx1" "key1" bob 600 (db both9).

Lemma scanned_reachable : reachable (db both9).
Proof. exact (batch_reachable config _ _ _ _ _ _ _ _ fresh_has_handler both9_ok fresh_reachable). Qed.

Lemma paying_reachable : reachable (snd paying).
Proof.
  eapply reachable_step; [|exact scanned_reachable].
  apply (ws_start (Ok ("alice_address", true)) (fun _ _ => Ok tt) (fun _ _ _ => Ok tt) sender "tx1" "key1" bob 600).
Qed.

Definition locked_row : OutputRow := nth 1 (rows (outputs (snd paying))) ReorgExamples.no_row.

Lemma locked_row_in : locked_row ∈ rows (outputs (snd paying)).
Proof. apply list_elem_of_In, nth_In. apply Nat.ltb_lt. vm_compute. reflexivity. Qed.

Lemma spent_coins_never_offered_witness :
  o_status locked_row = LOCKED /\ mkCoin "h2" 50 10 None ∈ coins 1 (snd paying).
Proof.
  split; [vm_compute; reflexivity|].
  apply (spent_coins_never_offered (snd paying) locked_row paying_reachable locked_row_in); vm_compute; [reflexivity|discriminate].
Defined.

End SpendableExamples.
