(* ===== verification/Books.v ===== *)
(** * The books balance

    The ledger, the coins and the reported balance together, over whole runs: as long as
    the blocks that the wallet processes are valid and a rollback that was begun is
    finished, every state it reaches keeps its journal equal to the worth of the coins
    that the chain left unspent, whatever else the wallet does in between; and
    [get_balance] reports exactly that. *)
From S2P Require Import Prelude Models DisplayTypes External Schema BalanceDb OutputsDb InputsDb.
From S2P Require Import TipBlocksDb PendingDb AccountsDb Crypto EventsDb BurnProofsDb CompletedDb.
From S2P Require Import DisplayedDb PayrefDb WebhooksDb Webhooks ScanEvents Subset Processor Scanning BlockProc Reorg.
From S2P Require Import InputSelector FundLocker Monitor Manager Burn ValidatorNode Coordinator Ledger Wallet ReorgTheory Coins OffChain Linked CoinsTheory Spendable.
From stdpp Require relations.
#[local] Open Scope Z_scope.

(** ** Amounts

    No recorded amount reaches [2^63], where its column would be negative. *)
Section Amounts.
Context {X : Ext} {XL : ExtLaws X} {S0 : StdOrder}.

Definition change_nonneg (b : BalanceChangeRow) : Prop := 0 <= b_balance_credit b /\ 0 <= b_balance_debit b.

Definition output_nonneg (o : OutputRow) : Prop :=
  0 <= o_value o < two63
  /\ forall w, output_of_json (o_wallet_output_json o) = Some w -> 0 <= as_i64 (wo_value w).

Definition amounts (d : Db) : Prop :=
  Forall output_nonneg (rows (outputs d)) /\ Forall change_nonneg (rows (balance_changes d)).

Definition amount_tables (d : Db) : Table OutputRow * Table BalanceChangeRow := (outputs d, balance_changes d).

Lemma amounts_tables d d' : amount_tables d' = amount_tables d -> amounts d -> amounts d'.
Proof. unfold amount_tables, amounts. by intros [= -> ->]. Qed.

Lemma amounts_frames {E A} (m : M Db E A) : frames amount_tables m -> preserves amounts m.
Proof. intros Hf d Hd. specialize (Hf d). by eapply amounts_tables. Qed.

Lemma amounts_update_outputs p f :
  (forall o, o_value (f o) = o_value o /\ o_wallet_output_json (f o) = o_wallet_output_json o) ->
  preserves amounts (update_outputs p f).
Proof.
  intros Hf d [Ho Hc]. split; [|done]. cbn. apply Forall_update_rows; [|done].
  intros o. unfold output_nonneg. by destruct (Hf o) as [-> ->].
Qed.

Lemma insert_balance_change_atomic c : atomic (insert_balance_change c).
Proof.
  intros d r d' H Hr. unfold insert_balance_change, bind, constrained, gets, modify, ret in H.
  repeat case_match; by simplify_eq/=.
Qed.

Lemma amounts_insert_change c :
  0 <= as_i64 (balance_credit c) -> 0 <= as_i64 (balance_debit c) -> preserves amounts (insert_balance_change c).
Proof.
  intros H1 H2 d Hd. destruct (insert_balance_change c d) as [r d'] eqn:E. destruct (is_ok r) eqn:Hr.
  - destruct r as [id| |]; [|done..]. apply insert_balance_change_inv in E as [_ ->]. destruct Hd as [Ho Hc].
    split; [done|]. cbn. apply Forall_app. by repeat constructor.
  - by apply insert_balance_change_atomic in E as ->.
Qed.

Lemma amounts_mark_reversed id : preserves amounts (mark_balance_change_as_reversed id).
Proof.
  unfold mark_balance_change_as_reversed. apply preserves_modify. intros d [Ho Hc]. split; [done|]. cbn.
  by apply Forall_update_rows.
Qed.

Lemma amounts_insert_output acc vk hash o h bh ts mp mh pr burn :
  0 <= as_i64 (wo_value o) -> preserves amounts (insert_output acc vk hash o h bh ts mp mh pr burn).
Proof.
  intros Hv d Hd. destruct (insert_output _ _ _ _ _ _ _ _ _ _ _ d) as [r d'] eqn:E. destruct (is_ok r) eqn:Hr.
  - destruct r as [id| |]; [|done..]. pose proof (insert_output_inv _ _ _ _ _ _ _ _ _ _ _ _ _ _ E)
      as (_ & row & -> & _ & _ & Hval & _ & _ & _ & Hjson).
    destruct Hd as [Ho Hc]. split; [|done]. cbn. apply Forall_app. split; [done|]. constructor; [|done].
    pose proof (as_i64_range (wo_value o)) as Hr'. unfold output_nonneg, is_i64 in *. rewrite Hval. split; [lia|].
    intros w Hw. apply output_json_roundtrip in Hjson. congruence.
  - by rewrite (insert_output_not_ok _ _ _ _ _ _ _ _ _ _ _ _ _ _ E Hr).
Qed.

#[local] Hint Resolve amounts_mark_reversed : dbm.
#[local] Hint Extern 8 (preserves amounts _) => (apply amounts_frames; solve [solve_preserves]) : dbm.

(** *** A reorganisation *)
Lemma amounts_delete_outputs acc h : preserves amounts (soft_delete_outputs_from_height acc h).
Proof.
  unfold soft_delete_outputs_from_height. apply preserves_bind; [solve_preserves|]. intros now.
  apply (preserves_bind_read amounts (Forall output_nonneg)); [solve_preserves| |].
  { intros d l d' [Ho _] H. unfold gets in H. simplify_eq. by apply Forall_filter_bool. }
  intros l Hl. apply preserves_bind; [|intros ?; by apply amounts_update_outputs].
  apply preserves_for_each. intros o Ho. rewrite Forall_forall in Hl. destruct (Hl o Ho) as [Hv _].
  unfold reverse_output. apply preserves_bind; [solve_preserves|]. intros orig.
  apply preserves_bind; [solve_preserves|]. intros ?. apply preserves_bind; [|intros ?; solve_preserves].
  apply amounts_insert_change; cbn; [done|]. rewrite as_i64_as_u64; unfold is_i64, two63 in *; lia.
Qed.

Lemma amounts_delete_inputs acc h : preserves amounts (soft_delete_inputs_from_height acc h).
Proof.
  unfold soft_delete_inputs_from_height. apply preserves_bind; [solve_preserves|]. intros now.
  apply (preserves_bind_read amounts (Forall (fun r => 0 <= output_value r < two63))); [solve_preserves| |].
  { intros d l d' [Ho _] H. unfold gets in H. simplify_eq. apply Forall_forall. intros r Hr.
    apply list_elem_of_In, in_flat_map in Hr as (i & _ & Hr). unfold join_outputs in Hr.
    apply in_map_iff in Hr as (o & <- & Hin). apply list_elem_of_In, elem_of_filter_bool in Hin as [Hin _].
    rewrite Forall_forall in Ho. by apply Ho. }
  intros l Hl. apply preserves_bind; [|intros ?; solve_preserves].
  apply preserves_for_each. intros r Hr. rewrite Forall_forall in Hl. specialize (Hl r Hr).
  unfold reverse_input. apply preserves_bind; [solve_preserves|]. intros orig.
  apply preserves_bind; [solve_preserves|]. intros ?. apply preserves_bind; [|intros ?; solve_preserves].
  apply amounts_insert_change; cbn; [|done]. rewrite as_i64_as_u64; unfold is_i64, two63 in *; lia.
Qed.

#[local] Hint Resolve amounts_delete_outputs amounts_delete_inputs : dbm.

Lemma amounts_rollback acc h config : preserves amounts (rollback_from_height acc h config).
Proof.
  unfold rollback_from_height, log_output_rolled_back, cancel_pending, cancel_pending_transactions_by_ids, log_event, any_db,
    get_scanned_tip_blocks_by_account, get_active_outputs_from_height, delete_scanned_tip_blocks_from_height,
    reset_mined_completed_transactions_from_height, update_completed.
  solve_preserves.
Qed.

(** *** A block *)
Lemma amounts_process_output block acc vk hash o :
  0 <= as_i64 (wo_value o) -> preserves (in_db amounts) (process_output block acc vk hash o).
Proof.
  intros Hv. unfold process_output, record_output_balance_change, update_current.
  solve_step; [by apply amounts_insert_output|].
  apply amounts_insert_change; unfold make_balance_change_for_output; by destruct (wo_is_coinbase o).
Qed.

Lemma amounts_process_outputs block acc vk :
  Forall (fun '(hash, output, wallet_idx) => 0 <= as_i64 (wo_value output)) (wallet_outputs block) ->
  preserves (in_db amounts) (process_outputs block acc vk).
Proof.
  rewrite Forall_forall. intros Hv. unfold process_outputs, trigger_webhooks.
  apply preserves_bind; [|intros ?; solve_step]. apply preserves_fold_m. intros evs [[hash o] idx] Ho.
  specialize (Hv _ Ho). cbn in Hv. pose proof amounts_process_output. solve_step; auto.
Qed.

Lemma amounts_process_input block acc hash : preserves (in_db amounts) (process_input block acc hash).
Proof.
  unfold process_input, record_input_balance_change, update_current.
  apply (preserves_bind_read (in_db amounts) (fun r => forall r', r = Some r' -> 0 <= as_i64 (wo_value r'.2))).
  { unfold get_output_info_by_hash_for_account, output_info. solve_step. }
  { intros [p d] r [p' d'] [Ho _] H [[id tx] o] ->. unfold on_db in H.
    destruct (get_output_info_by_hash_for_account acc hash d) as [[r0|er|msg] d2] eqn:E; cbn in H; simplify_eq.
    apply output_info_for_account_inv in E as (-> & row & Hrow & _ & _ & _ & _ & Hjson).
    rewrite Forall_forall in Ho. by apply (Ho row Hrow). }
  intros [[[id tx] o]|] Hr; [|solve_step]. specialize (Hr _ eq_refl). cbn in Hr.
  solve_step; [unfold insert_input; solve_step|by apply amounts_insert_change|by apply amounts_update_outputs].
Qed.

Lemma amounts_process_block block acc :
  Forall (fun '(hash, output, wallet_idx) => 0 <= as_i64 (wo_value output)) (wallet_outputs block) ->
  preserves (in_db amounts) (process_block block acc).
Proof.
  intros Hv. pose proof (fun acc vk => amounts_process_outputs block acc vk Hv). pose proof amounts_process_input.
  assert (forall hash h bh, preserves amounts (mark_output_confirmed hash h bh)) by (intros; by apply amounts_update_outputs).
  assert (forall p ba, preserves amounts (create_new_updated_display_transactions_for_height p ba))
    by (intros; apply preserves_create_for_height).
  unfold process_block, process_inputs, process_confirmations, record_scanned_block,
    save_and_emit_displayed_transactions, confirm_output, trigger_webhooks, get_unconfirmed_outputs,
    insert_scanned_tip_block, get_burn_proof_by_output_hash.
  solve_step; auto.
Qed.

(** *** Deleting an account *)
Lemma amounts_delete_wallet name : preserves amounts (delete_wallet name).
Proof.
  intros d Hd. unfold delete_wallet, transaction, any_db, map_err.
  destruct (delete_account name d) as [[u|e|m] d'] eqn:E; cbn; [|done..].
  apply delete_account_tables in E as (a & _ & Ho & _ & Hc). unfold amounts. rewrite Ho, Hc.
  destruct Hd. split; by apply Forall_filter_bool.
Qed.

End Amounts.

(** ** What the chain's tables determine *)
Section View.
Context {X : Ext} {XL : ExtLaws X} {S0 : StdOrder} {SL : StdOrderLaws S0}.

Lemma view_output d d' o :
  chain_view d' = chain_view d -> o ∈ rows (outputs d') -> exists o0, o0 ∈ rows (outputs d) /\ coin_key o = coin_key o0.
Proof.
  unfold chain_view. intros [= _ Hk _ _] Ho.
  assert (coin_key o ∈ map coin_key (rows (outputs d))) as Hin by (rewrite <- Hk; by apply list_elem_of_fmap_2).
  apply list_elem_of_fmap in Hin as (o0 & He & Hin). by exists o0.
Qed.

Lemma linked_view strict d d' : chain_view d' = chain_view d -> linked strict d -> linked strict d'.
Proof.
  intros Hv Hl i Hi. assert (i ∈ rows (inputs d)) as Hi' by (unfold chain_view in Hv; injection Hv as _ _ <- _; done).
  destruct (Hl i Hi') as (o & Ho & Hid & Hacc & Hs).
  destruct (view_output d' d o (eq_sym Hv) Ho) as (o' & Ho' & [= H1 H2 _ _ _ H3 _]). exists o'.
  rewrite <- H1, <- H2. split; [done|]. split; [done|]. split; [done|]. intros Hst Ha. rewrite <- H3. by apply Hs.
Qed.

Lemma amounts_view d d' : chain_view d' = chain_view d -> amounts d -> amounts d'.
Proof.
  intros Hv [Ho Hc]. split.
  - rewrite Forall_forall in *. intros o (o0 & Hin & [= _ _ _ Hval _ _ Hj])%(view_output d d' o Hv).
    specialize (Ho o0 Hin). unfold output_nonneg. by rewrite Hval, Hj.
  - unfold chain_view in Hv. by injection Hv as _ _ _ ->.
Qed.

Lemma wf_view d d' : chain_view d' = chain_view d -> wf d -> wf d'.
Proof.
  intros Hv [Hids Hs Hval Hjson Hin]. pose proof Hv as [= Hseq Hk Hi Hb].
  constructor; rewrite ?Hseq, ?Hi; try done.
  - assert (forall l, map o_id l = map (fun k => k.1.1.1.1.1.1) (map coin_key l)) as Hm by (intros; by rewrite map_map).
    by rewrite Hm, Hk, <- Hm.
  - intros o (o0 & Ho & [= -> _ _ _ _ _ _])%(view_output d d' o Hv). by apply Hs.
  - intros o (o0 & Ho & [= _ _ _ -> _ _ _])%(view_output d d' o Hv). by apply Hval.
  - intros o w (o0 & Ho & [= _ _ _ -> _ _ Hj])%(view_output d d' o Hv) Hw. rewrite Hj in Hw. by eapply Hjson.
Qed.

(** *** The invariant *)
Record sound (d : Db) : Prop := {
  sd_ok : wallet_ok d;
  sd_linked : linked true d;
  sd_wf : wf d;
  sd_journal : forall a, journal a d = zsum worth (coins a d);
  sd_orderly : forall a, Forall orderly (coins a d);
  sd_amounts : amounts d;
}.

Lemma sound_ledger d : sound d -> ledger_ok d.
Proof. intros [Hw Hl Hwf Hj _ _]. split; [done|]. intros a. by rewrite Hj, chain_balance_worth. Qed.

Lemma ledger_journal d a : ledger_ok d -> wallet_ok d -> linked true d -> journal a d = zsum worth (coins a d).
Proof. intros [_ Hj] Hw Hl. by rewrite Hj, chain_balance_worth. Qed.

Lemma sound_view d d' : chain_view d' = chain_view d -> wallet_ok d' -> sound d -> sound d'.
Proof.
  intros Hv Hw [_ Hl Hwf Hj Ho Ha].
  constructor; [done|by eapply linked_view|by eapply wf_view| | |by eapply amounts_view];
    intros a; rewrite ?(journal_of_view a d d' Hv), (coins_of_view a d d' Hv); done.
Qed.

Lemma sound_holds d : sound d -> holds true (fun a => coins a d) d.
Proof. intros []. by split. Qed.

Lemma sound_amounts acc d : sound d -> amounts_nonneg acc d.
Proof.
  intros [_ _ _ _ _ [Ho Hc]]. rewrite Forall_forall in Ho. rewrite Forall_forall in Hc. split.
  - intros b [Hb _]%elem_of_filter_bool. by apply Hc.
  - intros o Hin. by apply Ho.
Qed.

Lemma at_account_forall (P : Coin -> Prop) acc f cf :
  (forall a, Forall P (cf a)) -> Forall P (f (cf acc)) -> forall a, Forall P (at_account acc f cf a).
Proof. intros H Hf a. unfold at_account. by destruct (Z.eqb_spec a acc) as [->|]. Qed.

(** *** A block *)
Lemma valid_unspent acc block d : valid_block block (coins acc d) -> unspent_hashes acc (blk_inputs block) d.
Proof.
  intros [_ Hu _]. apply unspent_of_coins. eapply Forall_impl; [exact Hu|]. cbn. intros c Hc [h Hs] Hin.
  destruct (Hc Hin) as [Hn _]. congruence.
Qed.

Lemma sound_process_block block acc p d u p' d' :
  sound d -> valid_block block (coins acc d) -> process_block block acc (p, d) = (Ok u, (p', d')) ->
  sound d' /\ wallet_index_to_account_id p' = wallet_index_to_account_id p
  /\ forall a, coins a d' = at_account acc (scan_block (wallet_index_to_account_id p) acc block) (fun a => coins a d) a.
Proof.
  intros Hd Hv H. pose proof (sound_ledger d Hd) as Hled.
  destruct (hoare_scan_block true (wallet_index_to_account_id p) _ block acc (p, d) u (p', d')
    (conj eq_refl (sound_holds d Hd)) H) as [Hi (Hw' & Hl' & Hc)]. cbn in Hi, Hw', Hl', Hc.
  assert (ledger_ok d') as Hled'.
  { apply (ledger_ok_off_by acc), (onJ_off_by acc 0 [] p' d').
    eapply (hoare_process_block acc block (vb_inputs _ _ Hv) (p, d)); [|exact H].
    split; [by apply ledger_ok_off_by|by apply valid_unspent]. }
  split; [|split; [done|exact Hc]]. constructor; [done|done|apply Hled'| | |].
  - intros a. by apply ledger_journal.
  - intros a. rewrite Hc. apply at_account_forall; [apply Hd|]. apply scan_block_orderly; [done|apply Hd].
  - pose proof (amounts_process_block block acc (vb_values _ _ Hv) (p, d) (sd_amounts d Hd)) as Ha. by rewrite H in Ha.
Qed.

(** *** A reorganisation *)
Lemma orderly_undo h cs : Forall orderly cs -> Forall orderly (undo h cs).
Proof.
  rewrite !Forall_forall. unfold undo. intros Ho c (c0 & <- & Hc)%list_elem_of_In%in_map_iff.
  apply list_elem_of_In, elem_of_filter_bool in Hc as [Hc _]. specialize (Ho c0 Hc). unfold unspend.
  destruct (coin_spent c0) as [k|] eqn:E; [|done]. by destruct (k >=? h).
Qed.

Lemma sound_rollback acc h config d info d' :
  sound d -> rollback_from_height acc h config d = (Ok info, d') ->
  sound d' /\ forall a, coins a d' = at_account acc (undo (as_i64 h)) (fun a => coins a d) a.
Proof.
  intros Hd H.
  destruct (hoare_holds_rollback true _ acc h config (fun _ => sd_orderly d Hd acc) d info d' (sound_holds d Hd) H)
    as (Hw' & Hl' & Hc).
  assert (ledger_ok d') as Hled'.
  { apply (ledger_ok_off_by acc). eapply hoare_rollback; [|exact H]. by apply ledger_ok_off_by, sound_ledger. }
  split; [|exact Hc]. constructor; [done|done|apply Hled'| | |].
  - intros a. by apply ledger_journal.
  - intros a. rewrite Hc. apply at_account_forall; [apply Hd|]. apply orderly_undo, Hd.
  - pose proof (amounts_rollback acc h config d (sd_amounts d Hd)) as Ha. by rewrite H in Ha.
Qed.

Lemma hoare_read {S E A} (P : S -> Prop) (m : M S E A) : frames id m -> hoare P m (fun _ => P).
Proof. intros Hf s a s' Hs H. specialize (Hf s). rewrite H in Hf. cbn in Hf. unfold id in Hf. by subst s'. Qed.

Lemma hoare_handle_reorgs (P : Db -> Prop) gh acc config :
  (forall h, hoare P (rollback_from_height acc h config) (fun _ => P)) ->
  hoare P (handle_reorgs gh acc config) (fun _ => P).
Proof.
  intros Hr. unfold handle_reorgs.
  eapply hoare_bind; [apply hoare_read; unfold any_db, get_scanned_tip_blocks_by_account; solve_preserves|].
  intros [|first tips]; [by apply hoare_ret|]. eapply hoare_bind; [apply hoare_read; solve_preserves|].
  intros [h []]; cbn beta iota.
  - eapply hoare_bind; [by apply hoare_transaction, Hr|]. intros info. by apply hoare_ret.
  - eapply hoare_bind; [apply hoare_read; solve_preserves|]. intros k. by apply hoare_ret.
Qed.

Lemma sound_handle_reorgs gh acc config d r d' :
  sound d -> handle_reorgs gh acc config d = (Ok r, d') ->
  sound d' /\ forall a, coins a d' = at_account acc (reorganised r) (fun a => coins a d) a.
Proof.
  intros Hd H. split.
  - eapply (hoare_handle_reorgs sound); [|exact Hd|exact H]. intros h d0 info d1 Hd0 H0.
    by apply (sound_rollback acc h config d0 info d1).
  - by apply (handle_reorgs_holds true gh _ acc config (fun _ => sd_orderly d Hd acc) d r d' (sound_holds d Hd) H).
Qed.

(** *** Deleting an account *)
Lemma spent_at_filter p ins id :
  (forall i, i ∈ ins -> i_output_id i = id -> p i = true) -> spent_at (List.filter p ins) id = spent_at ins id.
Proof.
  unfold spent_at. induction ins as [|i ins IH]; intros Hp; [done|]. cbn [List.filter List.find].
  specialize (IH ltac:(intros; apply Hp; [by right|done])).
  destruct (Z.eqb_spec (i_output_id i) id) as [He|].
  - rewrite (Hp i ltac:(left) He). cbn [List.find]. rewrite He, Z.eqb_refl. by destruct (_ && _).
  - rewrite andb_false_r. destruct (p i); cbn [List.find]; [|done].
    by rewrite (proj2 (Z.eqb_neq (i_output_id i) id)), andb_false_r.
Qed.

Lemma coins_deleted acc d d' a :
  wallet_ok d -> linked true d ->
  outputs d' = delete_where (of_account o_account_id acc) (outputs d) ->
  inputs d' = delete_where (of_account i_account_id acc) (inputs d) ->
  coins a d' = at_account acc (fun _ => []) (fun a => coins a d) a.
Proof.
  intros Hw Hl Ho Hi. unfold coins, at_account. rewrite Ho, Hi. cbn. rewrite filter_filter.
  destruct (Z.eqb_spec a acc) as [->|Hne].
  - rewrite (filter_none (fun o => negb (of_account o_account_id acc o) && active_output_of acc o)); [done|].
    intros o _. unfold active_output_of, of_account. by destruct (o_account_id o =? acc).
  - rewrite (filter_ext_elem (fun o => negb (of_account o_account_id acc o) && active_output_of a o) (active_output_of a)).
    + apply map_ext_in. intros o Hin. apply list_elem_of_In, elem_of_filter_bool in Hin as [Hin Ha].
      unfold active_output_of in Ha. apply andb_true_iff in Ha as [Ha _]. apply Z.eqb_eq in Ha.
      unfold coin_of. f_equal. apply spent_at_filter. intros i Hi' He.
      destruct (linked_row true d i o Hw Hl Hi' Hin He) as [Hacc _]. unfold of_account.
      by rewrite Hacc, Ha, (proj2 (Z.eqb_neq a acc)).
    + intros o _. unfold active_output_of, of_account. destruct (Z.eqb_spec (o_account_id o) a) as [->|]; [|apply andb_false_r].
      by rewrite (proj2 (Z.eqb_neq a acc)).
Qed.

Lemma journal_deleted acc d d' a :
  balance_changes d' = delete_where (of_account b_account_id acc) (balance_changes d) ->
  journal a d' = if a =? acc then 0 else journal a d.
Proof.
  intros Hb. unfold journal, journal_rows. rewrite Hb. cbn. rewrite filter_filter.
  destruct (Z.eqb_spec a acc) as [->|Hne].
  - rewrite (filter_none (fun b => negb (of_account b_account_id acc b) && (b_account_id b =? acc))); [done|].
    intros b _. unfold of_account. by destruct (b_account_id b =? acc).
  - f_equal. apply filter_ext_elem. intros b _. unfold of_account.
    destruct (Z.eqb_spec (b_account_id b) a) as [->|]; [|apply andb_false_r]. by rewrite (proj2 (Z.eqb_neq a acc)).
Qed.

Lemma wf_deleted acc d d' :
  outputs d' = delete_where (of_account o_account_id acc) (outputs d) ->
  inputs d' = delete_where (of_account i_account_id acc) (inputs d) -> wf d -> wf d'.
Proof.
  intros Ho Hi [Hids Hs Hval Hjson Hin]. constructor; rewrite ?Ho, ?Hi; cbn.
  - by apply NoDup_map_filter.
  - intros o [Hino _]%elem_of_filter_bool. by apply Hs.
  - intros o [Hino _]%elem_of_filter_bool. by apply Hval.
  - intros o w [Hino _]%elem_of_filter_bool. by apply Hjson.
  - intros i [Hini _]%elem_of_filter_bool. by apply Hin.
Qed.

Lemma linked_deleted acc d d' :
  outputs d' = delete_where (of_account o_account_id acc) (outputs d) ->
  inputs d' = delete_where (of_account i_account_id acc) (inputs d) -> linked true d -> linked true d'.
Proof.
  intros Ho Hi Hl. unfold linked. rewrite Ho, Hi. intros i [Hin Ha]%elem_of_filter_bool.
  destruct (Hl i Hin) as (o & Hino & Hid & Hacc & Hs). exists o. split; [|done].
  apply elem_of_filter_bool. split; [done|]. unfold of_account in *. by rewrite Hacc.
Qed.

Lemma sound_delete_wallet name d r d' :
  sound d -> delete_wallet name d = (r, d') ->
  sound d' /\ match r with
    | Ok _ => exists row, get_account_by_name name d = (Ok (Some row), d)
        /\ forall a, coins a d' = at_account (a_id row) (fun _ => []) (fun a => coins a d) a
    | _ => d' = d
    end.
Proof.
  intros Hd H. pose proof (step_delete_wallet name d (sd_ok d Hd)) as Hw'.
  pose proof (amounts_delete_wallet name d (sd_amounts d Hd)) as Ha'. rewrite H in Hw', Ha'.
  revert H Hw' Ha'. unfold delete_wallet, transaction, any_db, map_err.
  destruct (delete_account name d) as [[u|e|m] d1] eqn:E; cbn; intros [= <- <-] Hw' Ha'; [|done..].
  apply delete_account_tables in E as (row & Hn & Ho & Hi & Hb). destruct Hd as [Hw Hl Hwf Hj Hord Ha].
  assert (Hc : forall a, coins a d1 = at_account (a_id row) (fun _ => []) (fun a => coins a d) a)
    by (intros; by apply coins_deleted).
  split; [|by exists row].
  constructor; [done|by eapply linked_deleted|by eapply wf_deleted| | |done].
  - intros a. rewrite Hc, (journal_deleted (a_id row) d d1 a Hb). unfold at_account. by destruct (a =? a_id row).
  - intros a. rewrite Hc. by apply at_account_forall.
Qed.

End View.

(** ** Honest runs

    The abstract wallet is the coins of every account.  A valid block pays and spends, a
    reorganisation undoes the blocks from a height on, an account is forgotten; nothing
    else happens to coins. *)
Section Honest.
Context {X : Ext} {XL : ExtLaws X} {S0 : StdOrder} {SL : StdOrderLaws S0} {SE : SelectionExt} {C : TxClient}.

Inductive chain_event :=
| ChainBlock (ids : list Z) (acc : Z) (block : BlockScanResult)
| ChainUndo (acc height : Z)
| ChainForget (acc : Z)
| ChainIdle.

Definition abstract_step (ev : chain_event) (cf : Z -> list Coin) : Z -> list Coin :=
  match ev with
  | ChainBlock ids acc block => at_account acc (scan_block ids acc block) cf
  | ChainUndo acc height => at_account acc (undo height) cf
  | ChainForget acc => at_account acc (fun _ => []) cf
  | ChainIdle => cf
  end.

(** What each call of the wallet is to the chain: the block it processed for the account,
    with the indices of its processor; the account and the height from which it rolled
    back; the account of the name it deleted.  A reorg check that finds nothing or fails,
    a deletion that fails and every other call, whatever its outcome, are nothing. *)
Inductive honest_event : chain_event -> Db -> Db -> Prop :=
| he_block p block acc d u p' d' :
    valid_block block (coins acc d) -> process_block block acc (p, d) = (Ok u, (p', d')) ->
    honest_event (ChainBlock (wallet_index_to_account_id p) acc block) d d'
| he_reorg get_header acc config d res info d' :
    handle_reorgs get_header acc config d = (Ok res, d') -> reorg_information res = Some info ->
    honest_event (ChainUndo acc (as_i64 (resume_height res))) d d'
| he_no_reorg get_header acc config d r d' :
    handle_reorgs get_header acc config d = (r, d') -> (forall res, r = Ok res -> reorg_information res = None) ->
    honest_event ChainIdle d d'
| he_rollback acc h config d info d' :
    rollback_from_height acc h config d = (Ok info, d') -> honest_event (ChainUndo acc (as_i64 h)) d d'
| he_delete name row d u d' :
    get_account_by_name name d = (Ok (Some row), d) -> delete_wallet name d = (Ok u, d') ->
    honest_event (ChainForget (a_id row)) d d'
| he_delete_fails name d r d' :
    delete_wallet name d = (r, d') -> is_ok r = false -> honest_event ChainIdle d d'
| he_other d d' : off_chain_step d d' -> honest_event ChainIdle d d'.

Inductive honest_run : list chain_event -> Db -> Db -> Prop :=
| hr_nil d : honest_run [] d d
| hr_cons ev evs d d1 d' : honest_event ev d d1 -> honest_run evs d1 d' -> honest_run (ev :: evs) d d'.

Definition abstract_run (evs : list chain_event) (cf : Z -> list Coin) : Z -> list Coin :=
  foldl (fun cf ev => abstract_step ev cf) cf evs.

(** The steps of the wallet, with the blocks that are processed valid and the rollbacks
    complete.  A rollback runs in a transaction, but for that of a rescan. *)
Inductive honest_step : Db -> Db -> Prop :=
| hs_process_block p block acc d :
    valid_block block (coins acc d) -> is_ok (fst (process_block block acc (p, d))) = true ->
    honest_step d (snd (snd (process_block block acc (p, d))))
| hs_handle_reorgs get_header acc config d : honest_step d (snd (handle_reorgs get_header acc config d))
| hs_rollback acc h config d :
    is_ok (fst (rollback_from_height acc h config d)) = true -> honest_step d (snd (rollback_from_height acc h config d))
| hs_delete_wallet name d : honest_step d (snd (delete_wallet name d))
| hs_off_chain d d' : wallet_step d d' -> chain_view d' = chain_view d -> honest_step d d'.

Definition honest (d : Db) : Prop :=
  exists now accs, accounts_ok accs /\ relations.rtc honest_step (with_accounts accs (empty_db now)) d.

Lemma honest_start now accs : accounts_ok accs -> honest (with_accounts accs (empty_db now)).
Proof. intros Ha. exists now, accs. split; [done|apply relations.rtc_refl]. Qed.

Lemma honest_next d d' : honest_step d d' -> honest d -> honest d'.
Proof. intros Hs (now & accs & Ha & H). exists now, accs. split; [done|]. by eapply relations.rtc_r. Qed.

Lemma honest_wallet_step d d' : honest_step d d' -> wallet_step d d'.
Proof. intros []; [by apply ws_process_block|apply ws_handle_reorgs|apply ws_rollback|apply ws_delete_wallet|done]. Qed.

(** Every step that is no block and no rollback on its own is honest. *)
Lemma wallet_step_honest d d' :
  wallet_step d d' ->
  honest_step d d'
  \/ (exists p block acc, d' = snd (snd (process_block block acc (p, d))))
  \/ (exists acc h config, d' = snd (rollback_from_height acc h config d)).
Proof.
  intros Hs. destruct (step_view d d' Hs) as [[]|Hv]; [right; left; by eexists _, _, _|left; constructor| |left; constructor|left; by apply hs_off_chain].
  right; right. by eexists _, _, _.
Qed.

Lemma event_wallet_step ev d d' : honest_event ev d d' -> wallet_step d d'.
Proof.
  intros [p block acc d0 u p' d1 _ H|gh acc config d0 res info d1 H _|gh acc config d0 r d1 H _|acc h config d0 info d1 H
    |name row d0 u d1 _ H|name d0 r d1 H _|d0 d1 H].
  - pose proof (ws_process_block p block acc d0) as Hs. rewrite H in Hs. by apply Hs.
  - pose proof (ws_handle_reorgs gh acc config d0) as Hs. by rewrite H in Hs.
  - pose proof (ws_handle_reorgs gh acc config d0) as Hs. by rewrite H in Hs.
  - pose proof (ws_rollback acc h config d0) as Hs. by rewrite H in Hs.
  - pose proof (ws_delete_wallet name d0) as Hs. by rewrite H in Hs.
  - pose proof (ws_delete_wallet name d0) as Hs. by rewrite H in Hs.
  - by apply off_chain_wallet_step.
Qed.

Lemma event_sound ev d d' :
  honest_event ev d d' -> sound d -> sound d' /\ forall a, coins a d' = abstract_step ev (fun a => coins a d) a.
Proof.
  intros Hev Hd. pose proof (wallet_step_ok d d' (event_wallet_step ev d d' Hev) (sd_ok d Hd)) as Hw'.
  destruct Hev as [p block acc d u p' d' Hv H|gh acc config d res info d' H Hi|gh acc config d r d' H Hn|acc h config d info d' H
    |name row d u d' Hrow H|name d r d' H Hr|d d' H]; cbn [abstract_step].
  - by destruct (sound_process_block block acc p d u p' d' Hd Hv H) as (Hd' & _ & Hc).
  - destruct (sound_handle_reorgs gh acc config d res d' Hd H) as [Hd' Hc]. split; [exact Hd'|].
    intros a. rewrite Hc. unfold reorganised. by rewrite Hi.
  - destruct r as [res| |]; [|apply handle_reorgs_error_keeps_db in H as ->; done..].
    destruct (sound_handle_reorgs gh acc config d res d' Hd H) as [Hd' Hc]. split; [exact Hd'|].
    intros a. rewrite Hc. unfold at_account, reorganised. rewrite (Hn res eq_refl). by destruct (a =? acc).
  - by apply (sound_rollback acc h config d info d').
  - destruct (sound_delete_wallet name d _ d' Hd H) as (Hd' & row' & Hrow' & Hc). split; [exact Hd'|].
    rewrite Hrow in Hrow'. by injection Hrow' as ->.
  - destruct (sound_delete_wallet name d _ d' Hd H) as [Hd' Hc]. destruct r; [done|by rewrite Hc..].
  - apply off_chain_view in H. split; [by eapply sound_view|]. intros a. by apply coins_of_view.
Qed.

Lemma step_event d d' :
  honest_step d d' -> (exists ev, honest_event ev d d') \/ (wallet_step d d' /\ chain_view d' = chain_view d).
Proof.
  intros [p block acc d0 Hv Hok|gh acc config d0|acc h config d0 Hok|name d0|d0 d1 Hs Hv]; [left..|by right].
  - destruct (process_block block acc (p, d0)) as [[u| |] [p' d1]] eqn:E; [|discriminate Hok..].
    eexists. by eapply he_block.
  - destruct (handle_reorgs gh acc config d0) as [r d1] eqn:E. destruct r as [res| |].
    + destruct (reorg_information res) as [info|] eqn:Er; eexists; [by eapply he_reorg|].
      eapply he_no_reorg; [exact E|]. by intros ? [= <-].
    + eexists. by eapply he_no_reorg.
    + eexists. by eapply he_no_reorg.
  - destruct (rollback_from_height acc h config d0) as [[info| |] d1] eqn:E; [|discriminate Hok..].
    eexists. by eapply he_rollback.
  - destruct (delete_wallet name d0) as [r d1] eqn:E. destruct (is_ok r) eqn:Hr; [|eexists; by eapply he_delete_fails].
    destruct r as [u| |]; [|done..]. pose proof E as E'. unfold delete_wallet, transaction, any_db, map_err in E'.
    destruct (delete_account name d0) as [[v| |] d2] eqn:Ed; cbn in E'; [|done..].
    apply delete_account_tables in Ed as (row & Hrow & _). eexists. by eapply he_delete.
Qed.

Lemma honest_step_sound d d' : honest_step d d' -> sound d -> sound d'.
Proof.
  intros [[ev Hev]|[Hs Hv]]%step_event Hd; [by apply (event_sound ev d d')|].
  eapply sound_view; [exact Hv| |exact Hd]. eapply wallet_step_ok; [exact Hs|apply Hd].
Qed.

(** The other way: an event of an honest run is a step of one. *)
Lemma event_honest_step ev d d' : honest_event ev d d' -> honest_step d d'.
Proof.
  intros Hev. pose proof (event_wallet_step ev d d' Hev) as Hs.
  destruct Hev as [p block acc d u p' d' Hv H|gh acc config d res info d' H Hi|gh acc config d r d' H Hn|acc h config d info d' H
    |name row d u d' Hrow H|name d r d' H Hr|d d' H].
  - pose proof (hs_process_block p block acc d Hv) as Hp. rewrite H in Hp. by apply Hp.
  - pose proof (hs_handle_reorgs gh acc config d) as Hp. by rewrite H in Hp.
  - pose proof (hs_handle_reorgs gh acc config d) as Hp. by rewrite H in Hp.
  - pose proof (hs_rollback acc h config d) as Hp. rewrite H in Hp. by apply Hp.
  - pose proof (hs_delete_wallet name d) as Hp. by rewrite H in Hp.
  - pose proof (hs_delete_wallet name d) as Hp. by rewrite H in Hp.
  - apply hs_off_chain; [exact Hs|by apply off_chain_view].
Qed.

Lemma sound_start now accs : accounts_ok accs -> sound (with_accounts accs (empty_db now)).
Proof.
  intros Ha. constructor; cbn; [by apply initial_ok|..]; try done.
  - intros i Hi. by apply elem_of_nil in Hi.
  - constructor; cbn; try (intros; set_solver). constructor.
Qed.

Lemma honest_sound d : honest d -> sound d.
Proof.
  intros (now & accs & Ha & H). apply sound_start with (now := now) in Ha.
  induction H as [d|d1 d2 d3 Hs _ IH]; [done|]. apply IH. by eapply honest_step_sound.
Qed.

(** Honest states are reachable. *)
Lemma honest_reachable d : honest d -> reachable d.
Proof.
  intros (now & accs & Ha & H). exists now, accs. split; [done|].
  induction H as [d|d1 d2 d3 Hs _ IH]; [constructor|]. eapply relations.rtc_l; [by apply honest_wallet_step|done].
Qed.

Lemma abstract_run_ext evs : forall cf cf', (forall a, cf a = cf' a) -> forall a, abstract_run evs cf a = abstract_run evs cf' a.
Proof.
  induction evs as [|ev evs IH]; intros cf cf' He; [exact He|]. cbn. apply IH. intros a.
  destruct ev; cbn; unfold at_account; by rewrite ?He.
Qed.

(** C5: the wallet refines the chain: along every run of its calls, with any calls between
    them that are not the chain's and whatever their outcome, the coins of every account are
    what the abstract wallet makes of the run's events: a valid block that was processed for
    an account pays and spends its coins, a reorganisation or a rollback undoes the blocks
    of its account from its height on, deleting the account of a name forgets the coins of
    that account, and every other call leaves all coins as they are. *)
Theorem wallet_refines_chain evs d d' :
  honest d -> honest_run evs d d' ->
  honest d' /\ forall a, coins a d' = abstract_run evs (fun a => coins a d) a.
Proof.
  intros Hd Hr. induction Hr as [d|ev evs d d1 d' Hev _ IH]; [done|].
  destruct (IH (honest_next d d1 (event_honest_step ev d d1 Hev) Hd)) as [Hd' Hc]. split; [exact Hd'|].
  intros a. rewrite Hc. cbn. apply abstract_run_ext. by apply (event_sound ev d d1 Hev), honest_sound.
Qed.

Lemma honest_balance d acc b d' :
  honest d -> get_balance acc d = (Ok b, d') ->
  d' = d /\ total b = zsum worth (coins acc d) /\ available b = Z.max 0 (total b - unavailable acc d).
Proof.
  intros Hd%honest_sound H.
  destruct (get_balance_ok acc d b d' (sound_ledger d Hd) (sound_amounts acc d Hd) H) as (-> & -> & ->).
  split; [done|]. split; [|done]. rewrite chain_balance_worth by apply Hd. apply Z.max_r, zsum_nonneg.
  intros c Hc. apply list_elem_of_In, in_map_iff in Hc as (o & <- & Ho).
  apply list_elem_of_In, elem_of_filter_bool in Ho as [Ho _]. unfold worth, coin_of. cbn.
  pose proof (proj2 (sound_amounts acc d Hd) o Ho). by case_match.
Qed.

(** C2: the reported balance is right: in every state of an honest run, with locks,
    payments, reorganisations, deletions and failures in between, the total of
    [get_balance] is the sum of the coins of the account that the chain has not spent,
    and the available part is what its locked and its unconfirmed outputs leave of it. *)
Theorem balance_is_unspent_coins d acc b d' :
  honest d -> get_balance acc d = (Ok b, d') ->
  d' = d /\ total b = zsum worth (coins acc d) /\ available b = Z.max 0 (total b - unavailable acc d).
Proof. apply honest_balance. Qed.

(** *** Batches *)
Fixpoint valid_chain (ids : list Z) (acc : Z) (blocks : list BlockScanResult) (cs : list Coin) : Prop :=
  match blocks with
  | [] => True
  | block :: blocks => valid_block block cs /\ valid_chain ids acc blocks (scan_block ids acc block cs)
  end.

Lemma new_blocks_honest ids acc next blocks : forall s u s',
  wallet_index_to_account_id (fst s) = ids -> honest (snd s) ->
  valid_chain ids acc (new_blocks next blocks) (coins acc (snd s)) ->
  process_new_blocks blocks acc next s = (Ok u, s') -> honest (snd s').
Proof.
  unfold process_new_blocks, new_blocks.
  induction blocks as [|b bs IH]; intros [p d] u s' Hi Hd Hv H; cbn [for_each List.filter] in *.
  { unfold ret in H. by simplify_eq. }
  apply bind_ok_inv in H as (u1 & [p1 d1] & H1 & H). destruct (blk_height b <? next); cbn [negb] in *.
  { unfold ret in H1. simplify_eq. by eapply IH. }
  destruct Hv as [Hb Hv]. cbn in Hi, Hb, Hv.
  destruct (sound_process_block b acc p d u1 p1 d1 (honest_sound d Hd) Hb H1) as (_ & Hi1 & Hc1).
  eapply (IH (p1, d1)); [cbn; by rewrite Hi1| | |exact H]; cbn.
  - eapply honest_next; [|exact Hd]. pose proof (hs_process_block p b acc d Hb) as Hs. rewrite H1 in Hs. by apply Hs.
  - rewrite Hc1. unfold at_account. by rewrite Z.eqb_refl, Hi.
Qed.

Lemma batch_honest cfg blocks acc pending next s p events s' :
  handler s = Some p -> process_blocks cfg blocks acc pending next s = (Ok events, s') ->
  honest (db s) -> valid_chain (wallet_index_to_account_id p) acc (new_blocks next blocks) (coins acc (db s)) ->
  honest (db s').
Proof.
  intros Hh H Hd Hv. destruct (process_blocks_run cfg _ _ _ _ _ _ _ _ Hh H) as (p0 & p1 & p' & Hi & Hr & _).
  exact (new_blocks_honest _ acc next blocks (p0, db s) tt (p1, db s') Hi Hd Hv Hr).
Qed.

(** *** A spend that is processed twice *)
Lemma insert_input_again acc o h bh ts d id d' :
  insert_input acc o h bh ts d = (Ok id, d') -> has_active_input o d = true -> d' = d.
Proof.
  unfold insert_input. intros H Ha. inv_ok. rewrite Ha in *. cbn in *. inv_ok.
  by match goal with H : match ?l with _ => _ end _ = _ |- _ => destruct l; inv_ok end.
Qed.

Lemma on_db_ok {A} (m : DbM A) p d a s' :
  on_db m (p, d) = (Ok a, s') -> exists d', s' = (p, d') /\ m d = (Ok a, d').
Proof. unfold on_db. destruct (m d) as [[] d'] eqn:E; cbn; intros H; simplify_eq. by exists d'. Qed.

Lemma hoare_journal_spent acc block input_id value x :
  hoare (fun s => journal acc (snd s) = x) (record_input_balance_change acc input_id value block)
    (fun _ s => journal acc (snd s) = x - as_i64 value).
Proof.
  intros [p d] c s' Hx H. unfold record_input_balance_change in H.
  apply bind_ok_inv in H as (now & s1 & (d1 & -> & H1)%on_db_ok & H). unfold gets in H1. simplify_eq.
  apply bind_ok_inv in H as (id & s2 & (d2 & -> & H2)%on_db_ok & H). unfold ret in H. simplify_eq. cbn.
  rewrite (journal_insert acc _ _ _ _ H2). unfold change_effect. cbn. rewrite Z.eqb_refl.
  assert (as_i64 0 = 0) as -> by done. lia.
Qed.

Lemma process_input_again block acc hash p d p' d' o :
  process_input block acc hash (p, d) = (Ok tt, (p', d')) -> wallet_ok d -> wf d ->
  o ∈ rows (outputs d) -> active_output_of acc o = true -> o_output_hash o = hash ->
  has_active_input (o_id o) d = true -> journal acc d' = journal acc d - o_value o.
Proof.
  intros H Hw Hwf Ho Hacc Hhash Ha. unfold process_input in H.
  apply bind_ok_inv in H as (info & s1 & (d1 & -> & H1)%on_db_ok & H). destruct info as [[[id tx] w]|].
  2: { apply output_info_none in H1 as [_ Hn]. by destruct (Hn o Ho Hacc). }
  apply output_info_for_account_inv in H1 as (-> & o' & Ho' & Hacc' & Hact' & Hh' & Hid & Hjson). cbn in Hid, Hjson.
  assert (o' = o) as ->.
  { unfold active_output_of in Hacc. apply andb_true_iff in Hacc as [_ Hact]. by eapply same_hash_same_row; [|exact Ho'|exact Ho|..]; try congruence. }
  subst id. rewrite <- (wf_json d Hwf o w Ho Hjson).
  apply bind_ok_inv in H as (iid & s2 & (d2 & -> & H2)%on_db_ok & H).
  apply insert_input_again in H2 as ->; [|done].
  revert H. generalize (p, d) (eq_refl : journal acc (snd (p, d)) = journal acc d). intros s Hs H.
  assert (hoare (fun s => journal acc (snd s) = journal acc d - as_i64 (wo_value w))
    (on_db (update_output_status (o_id o) OutputStatus.Spent)) (fun _ s => journal acc (snd s) = journal acc d - as_i64 (wo_value w))) as Hup.
  { intros [q e] u s3 He (e' & -> & H3)%on_db_ok. unfold update_output_status, update_outputs, modify in H3. by simplify_eq. }
  apply bind_ok_inv in H as (c & s3 & H3 & H). apply (hoare_journal_spent acc block _ _ _ s c s3 Hs) in H3.
  apply bind_ok_inv in H as (u & s4 & H4 & H). apply (Hup s3 u s4 H3) in H4.
  destruct s4 as [q e]. unfold update_current, on_self, modify in H. simplify_eq. exact H4.
Qed.

Lemma spend_spent_again acc d o h :
  wallet_ok d -> o ∈ rows (outputs d) -> active_output_of acc o = true -> has_active_input (o_id o) d = true ->
  map (spend h (o_output_hash o)) (coins acc d) = coins acc d.
Proof.
  intros Hw Ho Hacc Ha. rewrite <- (map_id (coins acc d)) at 2. apply map_ext_in. intros c (x & <- & Hx)%in_map_iff.
  apply list_elem_of_In, elem_of_filter_bool in Hx as [Hx Hx']. unfold spend. cbn.
  destruct (String.eqb_spec (o_output_hash x) (o_output_hash o)) as [He|]; [|done]. cbn.
  unfold active_output_of in *. apply andb_true_iff in Hacc as [_ Hact]. apply andb_true_iff in Hx' as [_ Hact'].
  assert (x = o) as -> by (by eapply same_hash_same_row).
  destruct (spent_at (rows (inputs d)) (o_id o)) eqn:E; [done|]. apply spent_at_none in E. unfold has_active_input in Ha. congruence.
Qed.

(** C10: a spend that is processed twice is debited twice: when a block spends a coin
    that is already spent - a block that is processed again, as a continuous scan does at
    each poll - the coins stay what they are, and the journal, from which the balance is
    reported, falls below their worth by the value of the coin. *)
Theorem respent_debited_again d p acc block c p' d' :
  honest d -> c ∈ coins acc d -> is_Some (coin_spent c) ->
  process_input block acc (coin_hash c) (p, d) = (Ok tt, (p', d')) ->
  coins acc d' = coins acc d /\ journal acc d' = zsum worth (coins acc d) - coin_value c.
Proof.
  intros Hd%honest_sound Hc Hs H. apply list_elem_of_In, in_map_iff in Hc as (o & <- & Ho).
  apply list_elem_of_In, elem_of_filter_bool in Ho as [Ho Hacc]. cbn in Hs, H |- *.
  assert (has_active_input (o_id o) d = true) as Ha.
  { apply not_false_is_true. intros Hn. apply spent_at_none in Hn. rewrite Hn in Hs. by destruct Hs. }
  split.
  - destruct (onC_input true (wallet_index_to_account_id p) _ block acc (o_output_hash o) (p, d) tt (p', d')
      (conj eq_refl (sound_holds d Hd)) H) as (_ & _ & _ & Hc). cbn in Hc. rewrite Hc. unfold at_account.
    rewrite Z.eqb_refl. apply spend_spent_again; [apply Hd|done..].
  - rewrite <- (sd_journal d Hd acc).
    by apply (process_input_again block acc (o_output_hash o) p d p' d' o H (sd_ok d Hd) (sd_wf d Hd) Ho Hacc eq_refl).
Qed.

End Honest.

(** ** Examples *)
Module BooksExamples.
Import Demo Ledger.Examples WalletExamples CoinsExamples.

Lemma block9_valid : valid_block block9 [].
Proof. constructor; cbn; repeat constructor; try by apply NoDup_nil_2. vm_compute. discriminate. Qed.

Lemma fork10_valid : valid_block fork10 [mkCoin "h1" 700 9 None].
Proof.
  constructor; cbn.
  - apply NoDup_singleton.
  - repeat constructor; vm_compute; congruence.
  - repeat constructor. vm_compute. discriminate.
Qed.

Lemma both9_honest : honest (db both9).
Proof.
  apply (batch_honest config [block9; fork10] 1 false 0 fresh fresh_handler _ both9 fresh_has_handler both9_ok).
  - by apply (honest_start 1000 (mkTable [account1] 1)), accounts_ok_one.
  - split; [apply block9_valid|]. split; [apply fork10_valid|done].
Qed.

Lemma balance_is_unspent_coins_witness : total balance9_value = 50 /\ available balance9_value = 0.
Proof.
  pose proof (balance_is_unspent_coins (db both9) 1 balance9_value (snd balance9) both9_honest balance9_ok) as (_ & Ht & Ha).
  rewrite Ha, Ht. split; vm_compute; reflexivity.
Defined.

Lemma start_honest : honest start.
Proof. by apply (honest_start 1000 (mkTable [account1] 1)), accounts_ok_one. Qed.

Lemma block10_valid : valid_block block10 (coins 1 start).
Proof. constructor; [exact block10_distinct|constructor|]. repeat constructor; vm_compute; discriminate. Qed.

Lemma unit_run_ok {E P D} (r : outcome E unit * (P * D)) :
  is_ok (fst r) = true -> r = (Ok tt, (fst (snd r), snd (snd r))).
Proof. destruct r as [[[]| |] [p d]]; [reflexivity|discriminate..]. Qed.

(** Block 10 pays alice 700, and then time passes. *)
Lemma wallet_refines_chain_witness :
  coins 1 (with_clock 2000 after10) = abstract_run [ChainBlock [1] 1 block10; ChainIdle] (fun a => coins a start) 1
  /\ map coin_value (coins 1 (with_clock 2000 after10)) = [700; 50].
Proof.
  split; [|vm_compute; reflexivity].
  refine (proj2 (wallet_refines_chain [ChainBlock [1] 1 block10; ChainIdle] start (with_clock 2000 after10) start_honest _) 1).
  apply (hr_cons _ _ start after10); [exact (he_block processor block10 1 start tt _ after10 block10_valid run10_ok)|].
  apply (hr_cons _ _ after10 (with_clock 2000 after10)); [apply he_other, oc_time|apply hr_nil].
Defined.

(** An output that is spent before it is confirmed is subtracted twice: alice holds 700,
    confirmed; block 13 pays her 50 more and spends them at once.  The spent 50 are
    still unconfirmed, so 650 are reported as available, while 700 can be selected. *)
Definition block13 : BlockScanResult := mkBlockScanResult 13 "block13" [("h2", o2, 0%nat)] ["h2"] 950.
Definition double : LoopState := run_state [block9; block13] 0 fresh.
Definition spendable (d : Db) : Z :=
  zsum o_value (select (fun o => owned 1 o && String.eqb (o_status o) UNSPENT && negb (is_unconfirmed o)) (outputs d)).

Example spent_unconfirmed_subtracted_twice :
  coins 1 (db double) = [mkCoin "h1" 700 9 None; mkCoin "h2" 50 13 (Some 13)] /\ spendable (db double) = 700
  /\ match fst (get_balance 1 (db double)) with Ok b => total b = 700 /\ available b = 650 | _ => False end.
Proof. vm_compute. repeat split; reflexivity. Qed.

(** The spend of block 10, processed again. *)
Definition spent_coin : Coin := mkCoin "h1" 700 9 (Some 10).
Definition respend (q : BlockProcessor) (d : Db) := process_input fork10 1 (coin_hash spent_coin) (q, d).

Lemma respend_ok q d : is_ok (fst (respend q d)) = true ->
  process_input fork10 1 (coin_hash spent_coin) (q, d) = (Ok tt, (fst (snd (respend q d)), snd (snd (respend q d)))).
Proof. exact (unit_run_ok (respend q d)). Qed.

Lemma respent_ok : is_ok (fst (respend fresh_handler (db both9))) = true.
Proof. vm_compute. reflexivity. Qed.

Lemma both9_coins : coins 1 (db both9) = [spent_coin; mkCoin "h2" 50 10 None].
Proof. vm_compute. reflexivity. Qed.

Lemma spent_coin_in : spent_coin ∈ coins 1 (db both9).
Proof. rewrite both9_coins. left. Qed.

Lemma respent_debited_again_witness : journal 1 (snd (snd (respend fresh_handler (db both9)))) = -650.
Proof.
  refine (eq_trans (proj2 (respent_debited_again (db both9) fresh_handler 1 fork10 spent_coin _ _
    both9_honest spent_coin_in (ex_intro _ 10 eq_refl) (respend_ok _ _ respent_ok))) _).
  rewrite both9_coins. reflexivity.
Defined.

End BooksExamples.
