(* ===== verification/Locks.v ===== *)
(** * Locking funds and releasing them

    What [lock] takes, that two locks never share an output, that the idempotency
    key gives the same funds again, and what the unlocker releases. *)
From S2P Require Import Prelude Models DisplayTypes External Schema BalanceDb OutputsDb TipBlocksDb.
From S2P Require Import PendingDb InputsDb CompletedDb Scanning BlockProc Reorg InputSelector FundLocker.
From S2P Require Import Monitor Manager Ledger ReorgTheory Wallet.
From stdpp Require Import relations.
#[local] Open Scope Z_scope.

(** ** The selection *)
Section Selection.
Context {X : Ext} {XL : ExtLaws X} {SE : SelectionExt} {SEL : SelectionLaws SE}.

(** [u] is the decoded row [o]. *)
Definition decodes (o : OutputRow) (u : DbWalletOutput) : Prop := to_db_wallet_output o = Some u.

Lemma decodes_id o u : decodes o u -> dwo_id u = o_id o.
Proof. unfold decodes, to_db_wallet_output. destruct (output_of_json _); cbn; [|done]. by intros [= <-]. Qed.

Lemma fetch_unspent_ok acc m d l d' :
  fetch_unspent_outputs acc m d = (Ok l, d') ->
  d' = d /\ exists sorted, Permutation sorted (select (spendable acc (as_i64 m)) (outputs d)) /\
    Forall2 decodes sorted l.
Proof.
  unfold fetch_unspent_outputs. intros H. apply bind_ok_inv in H as (d0 & s0 & H1 & H). injection H1 as <- <-.
  injection H as H <-. split; [done|].
  exists (sort_by (fun a b => o_value b <=? o_value a) (select (spendable acc (as_i64 m)) (outputs d))).
  split; [apply sort_by_perm|]. unfold id in H. destruct (mapM _ _) as [l'|] eqn:E; [|done]. cbn in H. injection H as <-.
  by apply mapM_Some in E.
Qed.

Lemma fetch_locked_ok req d l d' :
  fetch_outputs_by_lock_request_id req d = (Ok l, d') ->
  d' = d /\ Forall2 decodes (select (fun o => opt_eqb (o_locked_by_request_id o) req) (outputs d)) l.
Proof.
  unfold fetch_outputs_by_lock_request_id. intros H. apply bind_ok_inv in H as (d0 & s0 & H1 & H). injection H1 as <- <-.
  injection H as H <-. split; [done|]. unfold id in H. destruct (mapM _ _) as [l'|] eqn:E; [|done]. cbn in H. injection H as <-.
  by apply mapM_Some in E.
Qed.

(** The highest block that an output may be mined in to have the confirmations that [s] asks for. *)
Definition min_height (s : InputSelector) (d : Db) : Z :=
  as_i64 (min_selectable_height s (result_or None (fst (get_latest_scanned_tip_block_by_account (is_account_id s) d)))).

(** The rows that a selector may take. *)
Definition offered (sel : InputSelector) (d : Db) : OutputRow -> bool := spendable (is_account_id sel) (min_height sel d).

(** What a successful selection promises. *)
Record selected (sel : InputSelector) (amount : Z) (d : Db) (s : UtxoSelection) : Prop := {
  sel_rows : exists rows', Permutation rows' (select (offered sel d) (outputs d)) /\
    exists uo, Forall2 decodes rows' uo /\ us_utxos s ⊆+ uo;
  sel_value : us_total_value s = zsum (fun u => wo_value (dwo_output u)) (us_utxos s);
  sel_covers : amount + selection_fee s <= us_total_value s;
  sel_u64 : is_u64 (us_total_value s) /\ is_u64 (us_fee_without_change s) /\ is_u64 (us_fee_with_change s);
}.

Lemma make_selection_ok b kernel out_fee s :
  is_u64 (final_fee b) -> is_u64 kernel -> is_u64 out_fee -> make_selection b kernel out_fee = Ok s ->
  us_utxos s = selected_utxos b /\ us_total_value s = current_value b /\
  selection_fee s = final_fee b + kernel /\ is_u64 (us_fee_without_change s) /\ is_u64 (us_fee_with_change s).
Proof.
  intros Hf Hk Hd H. unfold make_selection in H. apply outcome_bind_ok in H as (fee & Hfee & H).
  apply mm_plus_ok in Hfee as [-> Hu]; [|done..].
  apply outcome_bind_ok in H as ([w wo] & Hw & [= <-]). unfold selection_fee. cbn.
  destruct (has_change b); cbn in *.
  - injection Hw as <- <-. repeat split; try apply Hu; rewrite mm_saturating_sub_spec by done;
      unfold is_u64, u64_saturating_sub, two64 in *; lia.
  - apply outcome_bind_ok in Hw as (x & Hx & [= <- <-]). apply mm_plus_ok in Hx as [-> Hx]; [|done..]. done.
Qed.

Lemma select_ok s amount n fee size d sel d' :
  is_u64 amount -> select_unspent_outputs s amount n fee size d = (Ok sel, d') ->
  d' = d /\ selected s amount d sel.
Proof.
  intros Hamount H. assert (d' = d) as ->.
  { apply (frames_ok id) in H; [done|].
    unfold select_unspent_outputs, sel_db, get_latest_scanned_tip_block_by_account,
      get_output_totals_for_account, get_total_unspent_balance, fetch_unspent_outputs. solve_preserves. }
  split; [done|]. unfold select_unspent_outputs in H.
  assert (Hdb : forall A (m : DbM A) a d1 d2, frames id m -> sel_db m d1 = (Ok a, d2) -> m d1 = (Ok a, d1) /\ d2 = d1).
  { intros A m a d1 d2 Hf Hm. unfold sel_db, map_err in Hm. destruct (m d1) as [[] d3] eqn:E; cbn in Hm; simplify_eq.
    apply (frames_ok id) in E as E'; [|done]. unfold id in E'. by subst. }
  apply bind_ok_inv in H as (tip & d1 & [Htip ->]%Hdb & H);
    [|unfold get_latest_scanned_tip_block_by_account; solve_preserves].
  apply bind_ok_inv in H as ([[locked unc] both] & d2 & [_ ->]%Hdb & H);
    [|unfold get_output_totals_for_account; solve_preserves].
  apply bind_ok_inv in H as (total & d3 & [_ ->]%Hdb & H);
    [|unfold get_total_unspent_balance; solve_preserves].
  apply bind_ok_inv in H as (total' & d4 & [= _ <-] & H).
  destruct ((total <=? amount) && (total' >=? amount)); [done|].
  apply bind_ok_inv in H as (uo & d5 & [Huo ->]%Hdb & H); [|unfold fetch_unspent_outputs; solve_preserves].
  apply fetch_unspent_ok in Huo as (_ & sorted & Hp & Hd).
  apply bind_ok_inv in H as (sz & d6 & [= _ <-] & H).
  apply bind_ok_inv in H as (target & d7 & [= Ht <-] & H).
  apply mm_plus_ok in Ht as [-> _]; [|done|apply fee_calculate_u64].
  apply bind_ok_inv in H as (res & d8 & [= Hb <-] & H).
  destruct res as [b|]; [|by inv_ok]. injection H as H.
  destruct (branch_and_bound _ _ _ _ _) eqn:Eb; cbn in Hb; [|done..]. injection Hb as ->.
  apply make_selection_ok in H as (Hu & Hv & Hfee & Hf1 & Hf2); [|by eapply bnb_fee_u64|apply fee_calculate_u64..].
  constructor.
  - exists sorted. split; [unfold offered, min_height; by rewrite Htip|]. exists uo. split; [done|]. rewrite Hu. by eapply bnb_subset.
  - rewrite Hu, Hv. by eapply bnb_value.
  - rewrite Hv, Hfee. pose proof (bnb_covers _ _ _ _ _ _ Eb). lia.
  - rewrite Hv. split; [by eapply bnb_value_u64|done].
Qed.

End Selection.

(** ** Taking and releasing locks on rows *)

(** The row after [lock_output]. *)
Definition lock_row (req : string) (at_ : Z) (o : OutputRow) : OutputRow :=
  set_lock (Some at_) (Some req) (set_output_status LOCKED o).

Definition in_selection {X : Ext} (l : list DbWalletOutput) (o : OutputRow) : bool :=
  existsb (fun u => dwo_id u =? o_id o) l.

Section Locking.
Context {X : Ext} {XL : ExtLaws X} {SE : SelectionExt} {SEL : SelectionLaws SE}.

Lemma with_outputs_twice t t' d : with_outputs t (with_outputs t' d) = with_outputs t d.
Proof. done. Qed.

(** A loop of [lock_output] is one update of the rows that are unspent. *)
Lemma lock_outputs_effect req at_ (l : list DbWalletOutput) d :
  for_each (fun u => lock_output (dwo_id u) req at_) l d =
  (Ok tt, with_outputs (update_where (fun o => in_selection l o && String.eqb (o_status o) UNSPENT)
    (lock_row req at_) (outputs d)) d).
Proof.
  revert d. induction l as [|u l IH]; intros d.
  { cbn. unfold update_where, update_rows. cbn. rewrite map_id. by destruct d as [? ? [] ]. }
  cbn [for_each]. unfold bind, lock_output, update_outputs, modify. rewrite IH, with_outputs_twice. do 2 f_equal.
  transitivity (update_where (fun o => in_selection l o && String.eqb (o_status o) UNSPENT) (lock_row req at_)
    (update_where (fun o => (o_id o =? dwo_id u) && String.eqb (o_status o) UNSPENT) (lock_row req at_) (outputs d)));
    [done|]. rewrite update_where_twice; [|intros o _; by rewrite andb_false_r].
  unfold update_where, update_rows. f_equal. apply map_ext. intros o. unfold in_selection. cbn [existsb].
  by rewrite (Z.eqb_sym (dwo_id u)), andb_orb_distrib_l.
Qed.

(** The selected rows are the spendable rows of the account with the selected ids. *)
Lemma selected_row sel amount d s o :
  outputs_ok (outputs d) -> selected sel amount d s -> o ∈ rows (outputs d) ->
  in_selection (us_utxos s) o = true -> offered sel d o = true.
Proof.
  intros Ho [(rows' & Hp & uo & Hd & Hsub) _ _ _] Hin Hs.
  apply existsb_exists in Hs as (u & Hu & Hid%Z.eqb_eq). rewrite <- list_elem_of_In in Hu.
  assert (u ∈ uo) as Hu' by (by eapply elem_of_submseteq).
  apply list_elem_of_lookup in Hu' as (i & Hi).
  destruct (Forall2_lookup_r _ _ _ _ _ Hd Hi) as (o' & Hi' & Hdec).
  apply decodes_id in Hdec. rewrite Hid in Hdec.
  assert (o' ∈ select (offered sel d) (outputs d)) as Ho'.
  { rewrite <- Hp. by eapply list_elem_of_lookup_2. }
  apply elem_of_filter_bool in Ho' as [Ho' Hsp].
  rewrite (unique_row _ _ _ o o' (outs_ids _ Ho) Hin Ho'); done.
Qed.

(** The pending transaction that a lock creates. *)
Definition pending_row (uuid key : string) (acc expires : Z) (s : UtxoSelection) (d : Db) : PendingRow :=
  mkPendingRow uuid acc key PENDING (us_requires_change_output s) (as_i64 (us_total_value s))
    (as_i64 (us_fee_without_change s)) (as_i64 (us_fee_with_change s)) expires (clock d).

(** The database after locking a selection. *)
Definition locked_db (uuid key : string) (acc expires : Z) (s : UtxoSelection) (d : Db) : Db :=
  with_outputs (update_where (fun o => in_selection (us_utxos s) o && String.eqb (o_status o) UNSPENT)
    (lock_row uuid expires) (outputs d))
  (with_pending_transactions (insert_row (pending_row uuid key acc expires s d) (pending_transactions d)) d).

Lemma lock_selection_ok uuid key acc expires s d d' :
  lock_selection uuid key acc expires s d = (Ok tt, d') ->
  pending_is_unique uuid acc key d = true /\ d' = locked_db uuid key acc expires s d.
Proof.
  unfold lock_selection. intros H. apply bind_ok_inv in H as (p & d1 & H1 & H).
  unfold create_pending_transaction in H1. destruct (_ && _) eqn:E; [|done]. injection H1 as <- <-.
  rewrite lock_outputs_effect in H. injection H as <-. split; [|done]. by apply andb_true_iff in E as [].
Qed.

(** Either the key's pending transaction is found, or a selection is locked. *)
Lemma lock_ok uuid uk acc amount n fee size key secs window d r d' :
  is_u64 amount -> lock uuid uk acc amount n fee size key secs window d = (Ok r, d') ->
  (exists k, key = Some k /\ d' = d /\
     find_pending_transaction_locked_funds_by_idempotency_key k acc d = (Ok (Some r), d)) \/
  (exists s, selected (mkInputSelector acc window) amount d s /\ r = lock_result s /\
     (forall k, key = Some k -> find_pending_transaction_locked_funds_by_idempotency_key k acc d = (Ok None, d)) /\
     pending_is_unique uuid acc (default uk key) d = true /\
     d' = locked_db uuid (default uk key) acc (clock d + as_i64 secs) s d).
Proof.
  intros Hamount H. unfold lock in H. apply bind_ok_inv in H as (existing & d1 & H1 & H).
  assert (d1 = d /\ (forall k, key = Some k ->
    find_pending_transaction_locked_funds_by_idempotency_key k acc d = (Ok existing, d)) /\
    (key = None -> existing = None)) as (-> & Hfound & Hnone).
  { destruct key as [k|]; [|injection H1 as <- <-; split; [done|split; [done|done]]].
    unfold lock_db, map_err in H1.
    destruct (find_pending_transaction_locked_funds_by_idempotency_key k acc d) as [[] d2] eqn:E; cbn in H1; simplify_eq.
    assert (d1 = d) as ->.
    { apply (frames_ok id) in E; [done|]. unfold find_pending_transaction_locked_funds_by_idempotency_key,
        fetch_outputs_by_lock_request_id. solve_preserves. }
    split; [done|]. split; [|done]. intros ? [= <-]. done. }
  destruct existing as [response|].
  { injection H as <- <-. left. destruct key as [k|]; [|by specialize (Hnone eq_refl)]. exists k. auto. }
  right. apply bind_ok_inv in H as (s & d2 & H2 & H).
  assert (d2 = d /\ selected (mkInputSelector acc window) amount d s) as [-> Hs].
  { unfold map_err in H2. destruct (select_unspent_outputs _ _ _ _ _ d) as [[] d3] eqn:E; cbn in H2; simplify_eq.
    by apply select_ok in E. }
  apply bind_ok_inv in H as (now & d3 & H3 & H). injection H3 as <- <-.
  apply bind_ok_inv in H as (at_ & d3 & H3 & H). injection H3 as H3 <-. apply datetime_plus_ok in H3 as ->.
  apply bind_ok_inv in H as (u & d4 & H4 & H). injection H as <- <-.
  unfold lock_db, map_err in H4. destruct (transaction _ d) as [[] d5] eqn:E; cbn in H4; simplify_eq.
  apply (proj1 (transaction_ok _ _ _ _)) in E. destruct u. apply lock_selection_ok in E as [Hu ->].
  exists s. auto.
Qed.

(** On a well-formed table, locking a selection locks exactly the selected rows. *)
Lemma locked_rows uuid key acc sel amount expires s d :
  outputs_ok (outputs d) -> selected sel amount d s ->
  outputs (locked_db uuid key acc expires s d)
  = update_where (in_selection (us_utxos s)) (lock_row uuid expires) (outputs d).
Proof.
  intros Ho Hs. unfold locked_db, update_where, update_rows. cbn. f_equal. apply map_ext_in.
  intros o Hin. rewrite <- list_elem_of_In in Hin.
  destruct (in_selection (us_utxos s) o) eqn:E; [|done].
  pose proof (selected_row _ _ _ _ _ Ho Hs Hin E) as Hsp. unfold offered, spendable in Hsp.
  change "UNSPENT" with UNSPENT. destruct (String.eqb (o_status o) UNSPENT); [done|].
  by rewrite andb_false_r in Hsp.
Qed.

Definition result_fee (r : LockFundsResult) : Z :=
  if lf_requires_change_output r then lf_fee_with_change r else lf_fee_without_change r.

(** *** The rows of a selection *)
Lemma selected_spendable sel amount d s u :
  selected sel amount d s -> u ∈ us_utxos s ->
  exists o, o ∈ rows (outputs d) /\ offered sel d o = true /\ decodes o u.
Proof.
  intros [(rows' & Hp & uo & Hd & Hsub) _ _ _] Hu.
  assert (u ∈ uo) as (i & Hi)%list_elem_of_lookup by (by eapply elem_of_submseteq).
  destruct (Forall2_lookup_r _ _ _ _ _ Hd Hi) as (o & Hi' & Hdec).
  assert (o ∈ select (offered sel d) (outputs d)) as Ho by (rewrite <- Hp; by eapply list_elem_of_lookup_2).
  apply elem_of_filter_bool in Ho as [Ho Hsp]. eauto.
Qed.

Lemma decodes_ids l us : Forall2 decodes l us -> map dwo_id us = map o_id l.
Proof. induction 1 as [|o u l us Ho _ IH]; [done|]. cbn. by rewrite IH, (decodes_id _ _ Ho). Qed.

Lemma row_ids_distinct t : outputs_ok t -> NoDup (map o_id (rows t)).
Proof. intros Ho. pose proof (outs_ids _ Ho) as H. unfold unique_index, select in H. by rewrite filter_all in H. Qed.

Lemma selected_ids sel amount d s :
  outputs_ok (outputs d) -> selected sel amount d s -> NoDup (map dwo_id (us_utxos s)).
Proof.
  intros Ho [(rows' & Hp & uo & Hd & Hsub) _ _ _]. apply submseteq_Permutation in Hsub as [k Hk].
  enough (NoDup (map dwo_id uo)) as Hn by (rewrite Hk, map_app in Hn; by apply NoDup_app in Hn as [Hn _]).
  rewrite (decodes_ids _ _ Hd), Hp. by apply NoDup_map_filter, row_ids_distinct.
Qed.

Lemma selected_NoDup sel amount d s :
  outputs_ok (outputs d) -> selected sel amount d s -> NoDup (us_utxos s).
Proof. intros Ho Hs. by eapply (NoDup_fmap_1 dwo_id), selected_ids. Qed.

(** [l] are the rows, each once, of the outputs [utxos] that a selector was offered. *)
Definition in_rows (l : list OutputRow) (o : OutputRow) : bool := existsb (fun x => o_id x =? o_id o) l.
Lemma elem_in_rows l a o : a ∈ l -> o_id a = o_id o -> in_rows l o = true.
Proof. intros Ha He. apply existsb_exists. exists a. rewrite <- list_elem_of_In. split; [done|]. by apply Z.eqb_eq. Qed.

Definition describes (o : OutputRow) (w : WalletOutput) : Prop := dwo_output <$> to_db_wallet_output o = Some w.
Record taken (sel : InputSelector) (d : Db) (l : list OutputRow) (utxos : list WalletOutput) : Prop := {
  tk_rows : forall o, o ∈ l -> o ∈ rows (outputs d) /\ offered sel d o = true;
  tk_ids : NoDup (map o_id l);
  tk_utxos : Forall2 describes l utxos;
}.

Lemma decoded_describes l us : Forall2 decodes l us -> Forall2 describes l (map dwo_output us).
Proof. intros H. apply Forall2_fmap_r. eapply Forall2_impl; [exact H|]. unfold describes. by intros o u ->. Qed.

Lemma Forall2_from_elem {A B} (R : A -> B -> Prop) us :
  (forall u, u ∈ us -> exists o, R o u) -> exists l, Forall2 R l us.
Proof.
  induction us as [|u us IH]; intros H; [by exists []|].
  destruct (H u ltac:(left)) as [o Ho]. destruct IH as [l Hl]; [intros; apply H; by right|]. exists (o :: l). by constructor.
Qed.

Lemma selected_taken sel amount d s :
  outputs_ok (outputs d) -> selected sel amount d s ->
  exists l, taken sel d l (map dwo_output (us_utxos s)) /\ forall o, in_selection (us_utxos s) o = in_rows l o.
Proof.
  intros Ho Hs.
  destruct (Forall2_from_elem (fun o u => (o ∈ rows (outputs d) /\ offered sel d o = true) /\ decodes o u) (us_utxos s)) as [l Hl].
  { intros u Hu. destruct (selected_spendable _ _ _ _ _ Hs Hu) as (o & H1 & H2 & H3). by exists o. }
  assert (Forall2 decodes l (us_utxos s)) as Hd by (eapply Forall2_impl; [exact Hl|]; by intros ?? []).
  pose proof (decodes_ids _ _ Hd) as Hids. exists l. split; [constructor|].
  - intros o [i Hi]%list_elem_of_lookup. destruct (Forall2_lookup_l _ _ _ _ _ Hl Hi) as (u & _ & H & _). exact H.
  - rewrite <- Hids. by eapply selected_ids.
  - by apply decoded_describes.
  - intros o. unfold in_selection, in_rows. clear -Hd. induction Hd as [|x u l us Hx _ IH]; [done|]. cbn. by rewrite IH, (decodes_id _ _ Hx).
Qed.

Lemma locked_taken uuid key acc sel amount expires s d :
  outputs_ok (outputs d) -> selected sel amount d s ->
  exists l, taken sel d l (lf_utxos (lock_result s)) /\
    outputs (locked_db uuid key acc expires s d) = update_where (in_rows l) (lock_row uuid expires) (outputs d).
Proof.
  intros Ho Hs. destruct (selected_taken _ _ _ _ Ho Hs) as (l & Hl & He). exists l. split; [exact Hl|].
  rewrite (locked_rows _ _ _ _ _ _ _ _ Ho Hs). unfold update_where, update_rows. f_equal. apply map_ext. intros o. by rewrite He.
Qed.

(** C15: a [lock] that succeeds either answers from the pending transaction that
    holds the caller's idempotency key, with the outputs that are locked for it, and
    changes nothing; or it creates a pending transaction that expires after the
    requested time and locks for it exactly the outputs it returns: they are rows of the
    table, no row twice, each unspent, active, not a burn, of the account and mined at
    the required depth below the account's last scanned block; these rows, and no
    others, become locked until that time; together they are worth the amount and the
    fee. *)
Theorem lock_spec uuid uk acc amount n fee size key secs window d r d' :
  wallet_ok d -> is_u64 amount ->
  lock uuid uk acc amount n fee size key secs window d = (Ok r, d') ->
  (d' = d /\ exists k p, key = Some k /\ p ∈ rows (pending_transactions d) /\ by_key k acc PENDING p = true /\
    Forall2 describes (select (fun o => opt_eqb (o_locked_by_request_id o) (p_id p)) (outputs d)) (lf_utxos r)) \/
  (exists l p,
    taken (mkInputSelector acc window) d l (lf_utxos r) /\
    outputs d' = update_where (in_rows l) (lock_row uuid (clock d + as_i64 secs)) (outputs d) /\
    pending_transactions d' = insert_row p (pending_transactions d) /\
    p_id p = uuid /\ by_key (default uk key) acc PENDING p = true /\ p_expires_at p = clock d + as_i64 secs /\
    lf_total_value r = zsum wo_value (lf_utxos r) /\ amount + result_fee r <= lf_total_value r).
Proof.
  intros [Ho _] Hamount H. destruct (lock_ok _ _ _ _ _ _ _ _ _ _ _ _ _ Hamount H)
    as [(k & -> & -> & Hf)|(s & Hs & -> & _ & _ & ->)].
  - left. split; [done|]. unfold find_pending_transaction_locked_funds_by_idempotency_key in Hf.
    apply bind_ok_inv in Hf as (row & d1 & Hrow & Hf). injection Hrow as Hrow <-.
    destruct (select (by_key k acc PENDING) (pending_transactions d)) as [|p l] eqn:E; cbn in Hrow; subst row; [done|].
    assert (p ∈ select (by_key k acc PENDING) (pending_transactions d)) as Hp by (rewrite E; left).
    apply elem_of_filter_bool in Hp as [Hp Hk]. exists k, p. split; [done|]. split; [done|]. split; [done|].
    apply bind_ok_inv in Hf as (utxos & d2 & Hu & Hf). injection Hf as <- _.
    apply fetch_locked_ok in Hu as [_ Hu]. by apply decoded_describes.
  - right. destruct (locked_taken uuid (default uk key) acc _ _ (clock d + as_i64 secs) _ _ Ho Hs) as (l & Hl & E).
    exists l, (pending_row uuid (default uk key) acc (clock d + as_i64 secs) s d).
    split; [exact Hl|]. split; [exact E|]. split; [done|]. split; [done|].
    split; [unfold by_key; cbn; by rewrite String.eqb_refl, Z.eqb_refl|]. split; [done|].
    destruct Hs as [_ Hv Hc _]. cbn. split; [by rewrite Hv, zsum_map|exact Hc].
Qed.

Lemma lock_atomic uuid uk acc amount n fee size key secs window :
  atomic (lock uuid uk acc amount n fee size key secs window).
Proof.
  unfold lock. apply atomic_before.
  { unfold lock_db, find_pending_transaction_locked_funds_by_idempotency_key,
      fetch_outputs_by_lock_request_id. solve_preserves. }
  intros [resp|]; [apply atomic_frames; solve_preserves|].
  apply atomic_before.
  { unfold select_unspent_outputs, sel_db, get_latest_scanned_tip_block_by_account,
      get_output_totals_for_account, get_total_unspent_balance, fetch_unspent_outputs. solve_preserves. }
  intros s. apply atomic_before; [solve_preserves|]. intros now. apply atomic_before; [done|]. intros at_.
  apply (atomic_ret _ (fun _ => _)). apply atomic_map_err, atomic_transaction.
Qed.

(** A [lock] that fails leaves the database as it was. *)
Theorem lock_error_keeps_db uuid uk acc amount n fee size key secs window d r d' :
  lock uuid uk acc amount n fee size key secs window d = (r, d') -> is_ok r = false -> d' = d.
Proof. apply lock_atomic. Qed.

(** *** Two locks *)
Lemma offered_unspent sel d o : offered sel d o = true -> o_status o = UNSPENT.
Proof.
  unfold offered, spendable. intros H. apply String.eqb_eq. destruct (String.eqb (o_status o) UNSPENT); [done|].
  by rewrite andb_false_r in H.
Qed.

Lemma lock_preserves_ok uuid uk acc amount n fee size key secs window d r d' :
  wallet_ok d -> lock uuid uk acc amount n fee size key secs window d = (r, d') -> wallet_ok d'.
Proof. intros Hd H. pose proof (step_lock uuid uk acc amount n fee size key secs window d Hd) as Hs. by rewrite H in Hs. Qed.

(** C16: two locks, one after the other, for the same or different accounts, never
    take the same output: when both create a pending transaction, each locks the rows of
    the outputs that it returns, and the second returns no row that the first did. *)
Theorem locks_disjoint uuid1 uk1 acc1 amount1 n1 fee1 size1 key1 secs1 window1
    uuid2 uk2 acc2 amount2 n2 fee2 size2 key2 secs2 window2 d r1 d1 r2 d2 :
  wallet_ok d -> is_u64 amount1 -> is_u64 amount2 ->
  lock uuid1 uk1 acc1 amount1 n1 fee1 size1 key1 secs1 window1 d = (Ok r1, d1) -> d1 <> d ->
  lock uuid2 uk2 acc2 amount2 n2 fee2 size2 key2 secs2 window2 d1 = (Ok r2, d2) -> d2 <> d1 ->
  exists l1 l2,
    taken (mkInputSelector acc1 window1) d l1 (lf_utxos r1) /\ taken (mkInputSelector acc2 window2) d1 l2 (lf_utxos r2) /\
    outputs d1 = update_where (in_rows l1) (lock_row uuid1 (clock d + as_i64 secs1)) (outputs d) /\
    outputs d2 = update_where (in_rows l2) (lock_row uuid2 (clock d1 + as_i64 secs2)) (outputs d1) /\
    (forall a b, a ∈ l1 -> b ∈ l2 -> o_id a <> o_id b).
Proof.
  intros Hok Hu1 Hu2 H1 Hne1 H2 Hne2. pose proof (lock_preserves_ok _ _ _ _ _ _ _ _ _ _ _ _ _ Hok H1) as Hok1.
  destruct (lock_ok _ _ _ _ _ _ _ _ _ _ _ _ _ Hu1 H1) as [(k & _ & -> & _)|(s1 & Hs1 & -> & _ & _ & ->)]; [done|].
  destruct (lock_ok _ _ _ _ _ _ _ _ _ _ _ _ _ Hu2 H2) as [(k & _ & -> & _)|(s2 & Hs2 & -> & _ & _ & ->)]; [done|].
  destruct Hok as [Ho _], Hok1 as [Ho1 _].
  destruct (locked_taken uuid1 (default uk1 key1) acc1 _ _ (clock d + as_i64 secs1) _ _ Ho Hs1) as (l1 & Ht1 & E1).
  destruct (locked_taken uuid2 (default uk2 key2) acc2 _ _
    (clock (locked_db uuid1 (default uk1 key1) acc1 (clock d + as_i64 secs1) s1 d) + as_i64 secs2) _ _ Ho1 Hs2) as (l2 & Ht2 & E2).
  exists l1, l2. split; [exact Ht1|]. split; [exact Ht2|]. split; [exact E1|]. split; [exact E2|].
  intros a b Ha Hb He. destruct (tk_rows _ _ _ _ Ht2 b Hb) as [Hin Hsp%offered_unspent]. rewrite E1 in Hin.
  apply elem_of_update_rows in Hin as (x & Hx & ->).
  assert (in_rows l1 x = true) as Hsel.
  { apply (elem_in_rows l1 a); [done|]. rewrite He. by destruct (in_rows l1 x). }
  rewrite Hsel in Hsp. discriminate Hsp.
Qed.

(** *** The idempotency key *)
Lemma decodes_lock_row req at_ o u : decodes (lock_row req at_ o) u <-> decodes o u.
Proof. done. Qed.

Lemma decodes_NoDup l us :
  NoDup (map o_id l) -> Forall2 decodes l us -> NoDup us.
Proof.
  intros Hn Hd. apply (NoDup_fmap_1 dwo_id). replace (dwo_id <$> us) with (o_id <$> l); [exact Hn|].
  induction Hd as [|o u l us Ho Hd IH]; [done|]. cbn. inversion Hn. apply decodes_id in Ho. rewrite Ho. f_equal. auto.
Qed.

(** The rows that a fresh request has locked. *)
Lemma rows_locked_by uuid expires l t o :
  (forall o, o ∈ rows t -> o_locked_by_request_id o <> Some uuid) ->
  o ∈ select (fun o => opt_eqb (o_locked_by_request_id o) uuid)
    (update_where (in_selection l) (lock_row uuid expires) t) <->
  exists x, x ∈ rows t /\ in_selection l x = true /\ o = lock_row uuid expires x.
Proof.
  intros Hfresh. unfold select. rewrite elem_of_filter_bool. cbn [update_where rows]. rewrite elem_of_update_rows. split.
  - intros [(x & Hx & ->) Hreq]. exists x. destruct (in_selection l x); [done|].
    exfalso. apply (Hfresh x Hx). unfold opt_eqb in Hreq. destruct (o_locked_by_request_id x); [|done].
    by apply String.eqb_eq in Hreq as ->.
  - intros (x & Hx & Hsel & ->). split; [exists x; by rewrite Hsel|]. cbn. by rewrite String.eqb_refl.
Qed.

Lemma elem_in_selection l u o : u ∈ l -> dwo_id u = o_id o -> in_selection l o = true.
Proof. intros Hu He. apply existsb_exists. exists u. rewrite <- list_elem_of_In. split; [done|]. by apply Z.eqb_eq. Qed.

(** Reading the locked rows back gives the selection, in some order. *)
Lemma locked_selection uuid key acc sel amount expires s d utxos d' :
  outputs_ok (outputs d) -> selected sel amount d s ->
  (forall o, o ∈ rows (outputs d) -> o_locked_by_request_id o <> Some uuid) ->
  fetch_outputs_by_lock_request_id uuid (locked_db uuid key acc expires s d) = (Ok utxos, d') ->
  Permutation utxos (us_utxos s).
Proof.
  intros Ho Hs Hfresh H. apply fetch_locked_ok in H as [_ H].
  rewrite (locked_rows _ _ _ _ _ _ _ _ Ho Hs) in H. apply NoDup_Permutation.
  - eapply decodes_NoDup; [|exact H]. apply NoDup_map_filter. cbn.
    rewrite map_update_rows by done. by apply row_ids_distinct.
  - by eapply selected_NoDup.
  - intros u. split.
    + intros (i & Hi)%list_elem_of_lookup. destruct (Forall2_lookup_r _ _ _ _ _ H Hi) as (o & Hi' & Hdec).
      apply list_elem_of_lookup_2, rows_locked_by in Hi' as (x & Hx & Hsel & ->); [|done].
      apply existsb_exists in Hsel as (v & Hv & Hid%Z.eqb_eq). rewrite <- list_elem_of_In in Hv.
      destruct (selected_spendable _ _ _ _ _ Hs Hv) as (y & Hy & _ & Hdecy).
      pose proof (decodes_id _ _ Hdecy) as Hidy. rewrite Hid in Hidy.
      assert (x = y) as -> by (by apply (unique_row _ _ _ x y (outs_ids _ Ho))).
      apply decodes_lock_row in Hdec. unfold decodes in *. congruence.
    + intros Hu. destruct (selected_spendable _ _ _ _ _ Hs Hu) as (o & Hx & _ & Hdec).
      assert (lock_row uuid expires o ∈ select (fun o => opt_eqb (o_locked_by_request_id o) uuid)
        (update_where (in_selection (us_utxos s)) (lock_row uuid expires) (outputs d))) as Hl.
      { apply rows_locked_by; [done|]. exists o. split; [done|]. split; [|done].
        eapply elem_in_selection; [done|]. by apply decodes_id. }
      apply list_elem_of_lookup in Hl as (i & Hi). destruct (Forall2_lookup_l _ _ _ _ _ H Hi) as (v & Hv & Hdecv).
      apply decodes_lock_row in Hdecv. unfold decodes in *. assert (u = v) as -> by congruence.
      by eapply list_elem_of_lookup_2.
Qed.

Lemma find_locked_none k acc d :
  find_pending_transaction_locked_funds_by_idempotency_key k acc d = (Ok None, d) ->
  select (by_key k acc PENDING) (pending_transactions d) = [].
Proof.
  unfold find_pending_transaction_locked_funds_by_idempotency_key. intros H.
  apply bind_ok_inv in H as (row & d1 & Hrow & H). injection Hrow as Hrow <-.
  destruct (select (by_key k acc PENDING) (pending_transactions d)); [done|]. cbn in Hrow. subst row.
  apply bind_ok_inv in H as (? & ? & _ & H). discriminate H.
Qed.

Lemma by_key_pending_row uuid k acc expires s d : by_key k acc PENDING (pending_row uuid k acc expires s d) = true.
Proof. unfold by_key, pending_row. cbn [p_idempotency_key p_account_id p_status]. by rewrite !String.eqb_refl, Z.eqb_refl. Qed.

(** The key's pending transaction is the one that the lock created. *)
Lemma locked_by_key uuid k acc expires s d :
  find_pending_transaction_locked_funds_by_idempotency_key k acc d = (Ok None, d) ->
  head (select (by_key k acc PENDING) (pending_transactions (locked_db uuid k acc expires s d)))
  = Some (pending_row uuid k acc expires s d).
Proof.
  intros H%find_locked_none. unfold select in *. cbn [locked_db with_outputs with_pending_transactions
    pending_transactions insert_row rows]. rewrite filter_app_bool, H. cbn [List.filter].
  by rewrite by_key_pending_row.
Qed.

Lemma find_locked_some k acc d p res d' :
  head (select (by_key k acc PENDING) (pending_transactions d)) = Some p ->
  find_pending_transaction_locked_funds_by_idempotency_key k acc d = (Ok res, d') ->
  exists utxos d2, fetch_outputs_by_lock_request_id (p_id p) d = (Ok utxos, d2) /\
    res = Some (mkLockFundsResult (map dwo_output utxos) (p_requires_change_output p) (as_u64 (p_total_value p))
      (as_u64 (p_fee_without_change p)) (as_u64 (p_fee_with_change p))).
Proof.
  intros Hp H. unfold find_pending_transaction_locked_funds_by_idempotency_key in H.
  unfold bind at 1, gets in H. rewrite Hp in H. apply bind_ok_inv in H as (utxos & d2 & Hu & H).
  injection H as <- _. eauto.
Qed.


End Locking.

(** ** The unlocker *)
Definition unlock_row (o : OutputRow) : OutputRow := set_lock None None (set_output_status UNSPENT o).
Definition expire_row (p : PendingRow) : PendingRow :=
  set_pending_status (PendingTransactionStatus.to_string PendingTransactionStatus.Expired) p.

(** The database after releasing the requests [ids]. *)
Definition released_db (ids : list string) (d : Db) : Db :=
  with_outputs (update_where (fun o => existsb (fun i => locked_by i o) ids) unlock_row (outputs d))
  (with_pending_transactions
    (update_where (fun p => existsb (String.eqb (p_id p)) ids) expire_row (pending_transactions d)) d).

Lemma locked_by_unlocked i o : locked_by i (unlock_row o) = false.
Proof. done. Qed.

Lemma unlock_all ids d : for_each unlock_expired ids d = (Ok tt, released_db ids d).
Proof.
  revert d. induction ids as [|i ids IH]; intros d.
  { cbn. unfold ret, released_db, update_where, update_rows. cbn. rewrite !map_id. by destruct d as [? ? [] ? ? [] ]. }
  cbn [for_each]. unfold bind at 1. unfold unlock_expired, transaction, bind, update_pending_transaction_status,
    unlock_outputs_for_request, update_outputs, modify. rewrite IH. f_equal.
  transitivity (with_outputs (update_where (fun o => existsb (fun i => locked_by i o) ids) unlock_row
      (update_where (locked_by i) unlock_row (outputs d)))
    (with_pending_transactions (update_where (fun p => existsb (String.eqb (p_id p)) ids) expire_row
      (update_where (fun p => String.eqb (p_id p) i) expire_row (pending_transactions d))) d)); [done|].
  rewrite !update_where_twice; [done|..].
  - intros p _. by case_match.
  - intros o _. rewrite (not_true_is_false (existsb _ ids)); [done|].
    intros (x & _ & Hx)%existsb_exists. by rewrite locked_by_unlocked in Hx.
Qed.

Lemma unlock_effect d :
  unlock_expired_transactions d
  = (Ok tt, released_db (map p_id (select (expired (clock d)) (pending_transactions d))) d).
Proof. unfold unlock_expired_transactions, bind, find_expired_pending_transactions, gets. apply unlock_all. Qed.

(** Some expired pending transaction holds the lock of the output. *)
Definition lock_expired (d : Db) (o : OutputRow) : bool :=
  is_locked o && existsb (fun p => expired (clock d) p && opt_eqb (o_locked_by_request_id o) (p_id p))
    (rows (pending_transactions d)).

Lemma released_iff d o :
  existsb (fun i => locked_by i o) (map p_id (select (expired (clock d)) (pending_transactions d))) = lock_expired d o.
Proof.
  apply eq_true_iff_eq. unfold lock_expired. rewrite andb_true_iff, !existsb_exists. split.
  - intros (i & Hi & Hl). apply in_map_iff in Hi as (p & <- & Hp). apply filter_In in Hp as [Hp He].
    unfold locked_by in Hl. apply andb_true_iff in Hl as [Hl Hs]. split; [exact Hs|]. exists p.
    by rewrite He, Hl.
  - intros [Hs (p & Hp & [He Hl]%andb_true_iff)]. exists (p_id p).
    split; [apply in_map; by apply filter_In|]. unfold locked_by. rewrite Hl. exact Hs.
Qed.

Lemma expired_iff d p :
  unique_index (fun _ => true) p_id (pending_transactions d) -> p ∈ rows (pending_transactions d) ->
  existsb (String.eqb (p_id p)) (map p_id (select (expired (clock d)) (pending_transactions d))) = expired (clock d) p.
Proof.
  intros Hn Hp. apply eq_true_iff_eq. rewrite existsb_exists. split.
  - intros (i & Hi & He0%String.eqb_eq). apply in_map_iff in Hi as (q & Hq & [Hin He]%filter_In).
    rewrite <- list_elem_of_In in Hin. rewrite (unique_row _ _ _ p q Hn Hp Hin); [done..|]. congruence.
  - intros He. exists (p_id p). rewrite String.eqb_refl. split; [|done]. apply in_map. apply filter_In.
    by rewrite <- list_elem_of_In.
Qed.

(** The unlocker always succeeds; it marks as expired exactly the pending
    transactions whose time is over, releases exactly the outputs that they lock,
    and changes nothing else. *)
Theorem unlock_spec d :
  wallet_ok d ->
  unlock_expired_transactions d = (Ok tt,
    with_outputs (update_where (lock_expired d) unlock_row (outputs d))
    (with_pending_transactions (update_where (expired (clock d)) expire_row (pending_transactions d)) d)).
Proof.
  intros (_ & _ & _ & Hp & _). rewrite unlock_effect. f_equal. unfold released_db, update_where, update_rows.
  f_equal; f_equal; [|f_equal]; apply map_ext_in.
  - intros o _. by rewrite released_iff.
  - intros p Hin. rewrite <- list_elem_of_In in Hin. by rewrite (expired_iff d p (pend_ids _ Hp) Hin).
Qed.

Section Unlocking.
Context {X : Ext} {XL : ExtLaws X} {SE : SelectionExt} {SEL : SelectionLaws SE} {S0 : StdOrder} {SL : StdOrderLaws S0}.

Lemma unlock_lock_row req at_ o :
  output_ok o -> o_status o = UNSPENT -> unlock_row (lock_row req at_ o) = o.
Proof.
  intros [[(Hs & Hl & Ha)|[(Hs & _)|Hs]] _ _] Hu; [|rewrite Hs in Hu; discriminate Hu..]. destruct o. cbn in *. by subst.
Qed.

Lemma unlocks_new_lock uuid key acc expires s d now x :
  outputs_ok (outputs d) -> x ∈ rows (outputs d) -> o_status x = UNSPENT -> expires < now ->
  let d1 := with_clock now (locked_db uuid key acc expires s d) in
  unlock_row (lock_row uuid expires x) = x /\ lock_expired d1 (lock_row uuid expires x) = true.
Proof.
  intros Ho Hx Hu Hnow d1. pose proof (outs_rows _ Ho) as Hrows. rewrite Forall_forall in Hrows.
  split; [by apply unlock_lock_row; auto|]. unfold lock_expired.
  cbn [d1 with_clock pending_transactions clock locked_db with_outputs with_pending_transactions insert_row rows].
  apply andb_true_iff. split; [done|]. apply existsb_exists. exists (pending_row uuid key acc expires s d).
  split; [apply in_app_iff; right; by left|]. unfold expired. cbn.
  rewrite String.eqb_refl. by rewrite (proj2 (Z.ltb_lt _ _) Hnow).
Qed.

(** C18: a lock lasts no longer than it was asked for.  When the time of a new lock
    is over and nothing happened in between, one run of the unlocker finds every row that
    the lock took, which are those of the outputs it returned, locked, and puts it back
    exactly as it was. *)
Theorem lock_expires uuid uk acc amount n fee size key secs window d r d1 now :
  wallet_ok d -> is_u64 amount ->
  lock uuid uk acc amount n fee size key secs window d = (Ok r, d1) -> d1 <> d ->
  clock d + as_i64 secs < now ->
  exists l d2, taken (mkInputSelector acc window) d l (lf_utxos r) /\
    unlock_expired_transactions (with_clock now d1) = (Ok tt, d2) /\
    forall o, o ∈ l -> lock_row uuid (clock d + as_i64 secs) o ∈ rows (outputs d1) /\ o ∈ rows (outputs d2).
Proof.
  intros Hok Hamount H Hne Hnow.
  destruct (lock_ok _ _ _ _ _ _ _ _ _ _ _ _ _ Hamount H) as [(k & _ & -> & _)|(s & Hs & -> & _ & _ & ->)]; [done|].
  destruct Hok as (Ho & _).
  destruct (locked_taken uuid (default uk key) acc _ _ (clock d + as_i64 secs) _ _ Ho Hs) as (l & Hl & E).
  exists l. eexists. split; [exact Hl|]. split; [apply unlock_effect|].
  intros o Hin. destruct (tk_rows _ _ _ _ Hl o Hin) as [Hrow Hsp%offered_unspent].
  assert (lock_row uuid (clock d + as_i64 secs) o ∈ rows (outputs (locked_db uuid (default uk key) acc (clock d + as_i64 secs) s d))) as Hlk.
  { rewrite E. apply elem_of_update_rows. exists o. split; [done|]. by rewrite (elem_in_rows l o o). }
  split; [exact Hlk|].
  destruct (unlocks_new_lock uuid (default uk key) acc _ s d now o Ho Hrow Hsp Hnow) as [Hback Hexp].
  apply elem_of_update_rows. exists (lock_row uuid (clock d + as_i64 secs) o). split; [exact Hlk|].
  by rewrite released_iff, Hexp.
Qed.

(** A rollback cancels the pending transactions that hold a lock on
    an output mined at the height or above, but does not release the locks that
    those transactions hold on outputs below: such an output stays locked, and no
    later run of the unlocker, which only looks at [PENDING] transactions, frees
    it. *)
Theorem rollback_strands_locks acc h config d info d' o req now :
  wallet_ok d -> rollback_from_height acc h config d = (Ok info, d') ->
  o ∈ rows (outputs d) -> o_mined_in_block_height o < as_i64 h ->
  o_status o = LOCKED -> o_locked_by_request_id o = Some req -> req ∈ ri_cancelled_transaction_ids info ->
  o ∈ rows (outputs (snd (unlock_expired_transactions (with_clock now d')))).
Proof.
  intros Hok H Ho Hlow Hs Hreq Hc. pose proof (rollback_outputs _ _ _ _ _ _ H) as [=_ Ho'].
  destruct (rollback_pending _ _ _ _ _ _ H) as [Hp _]. rewrite unlock_effect. cbn [snd].
  assert (o ∈ rows (outputs d')) as Hin.
  { rewrite Ho'. apply elem_of_update_rows. exists o. split; [done|].
    destruct (from_height acc (as_i64 h) o) eqn:E; [|done]. unfold from_height in E. lia. }
  apply elem_of_update_rows. exists o. split; [done|]. rewrite released_iff.
  assert (lock_expired (with_clock now d') o = false) as ->; [|done].
  unfold lock_expired. apply andb_false_iff. right. apply not_true_is_false. intros (p & Hin' & He)%existsb_exists.
  rewrite <- list_elem_of_In in Hin'. cbn [with_clock pending_transactions] in Hin'. rewrite Hp in Hin'.
  apply elem_of_update_rows in Hin' as (q & _ & ->). rewrite Hreq in He. cbn in He.
  apply andb_true_iff in He as [He Hid%String.eqb_eq].
  destruct (existsb (String.eqb (p_id q)) (ri_cancelled_transaction_ids info)) eqn:E; [discriminate He|].
  cbn in Hid. subst req. rewrite list_elem_of_In in Hc.
  assert (existsb (String.eqb (p_id q)) (ri_cancelled_transaction_ids info) = true); [|congruence].
  apply existsb_exists. exists (p_id q). by rewrite String.eqb_refl.
Qed.

End Unlocking.

(** ** Examples *)
Module LockExamples.
Import Demo Ledger.Examples Wallet.WalletExamples.

(** Three outputs of the account at heights 10 and 11. *)
Definition block_a : BlockScanResult :=
  mkBlockScanResult 10 "block_a" [("a1", mkOutput 70 "a1" false false "" None None, 0%nat);
    ("a2", mkOutput 50 "a2" false false "" None None, 0%nat)] [] 900.
Definition block_b : BlockScanResult :=
  mkBlockScanResult 11 "block_b" [("b1", mkOutput 40 "b1" false false "" None None, 0%nat)] [] 950.
Definition after_a := snd (process_block block_a 1 (processor, start)).
Definition db_a : Db := snd after_a.
Definition funded : Db := snd (snd (process_block block_b 1 (fst after_a, db_a))).

Lemma funded_reachable : reachable funded.
Proof.
  exists 1000, (mkTable [account1] 1). split; [by apply accounts_ok_one|]. apply rtc_l with db_a.
  - refine (ws_process_block processor block_a 1 start _). vm_compute. reflexivity.
  - apply rtc_once. refine (ws_process_block (fst after_a) block_b 1 db_a _). vm_compute. reflexivity.
Qed.

Lemma funded_ok : wallet_ok funded.
Proof. exact (reachable_ok funded funded_reachable). Qed.

Definition no_funds : LockFundsResult := mkLockFundsResult [] false 0 0 0.
Definition lock1 := lock "r1" "k" 1 60 1 5 None (Some "key") 3600 0 funded.
Definition locked1 : Db := snd lock1.
Definition result1 : LockFundsResult := result_or no_funds (fst lock1).
Definition lock2 := lock "r2" "k2" 1 30 1 5 None None 3600 0 locked1.
Definition locked2 : Db := snd lock2.
Definition result2 : LockFundsResult := result_or no_funds (fst lock2).

Lemma lock1_ok : lock "r1" "k" 1 60 1 5 None (Some "key") 3600 0 funded = (Ok result1, locked1).
Proof. unfold result1, locked1, lock1. apply run_ok. vm_compute. reflexivity. Qed.
Lemma lock2_ok : lock "r2" "k2" 1 30 1 5 None None 3600 0 locked1 = (Ok result2, locked2).
Proof. unfold result2, locked2, lock2. apply run_ok. vm_compute. reflexivity. Qed.

(** The first lock takes the output of 70, the second the one of 50. *)
Example locks_taken : lf_total_value result1 = 70 /\ lf_total_value result2 = 50 /\
  map o_status (rows (outputs locked2)) = [LOCKED; LOCKED; UNSPENT].
Proof. vm_compute. repeat split; reflexivity. Qed.

Lemma pending_differ (d d' : Db) :
  length (rows (pending_transactions d)) <> length (rows (pending_transactions d')) -> d <> d'.
Proof. intros H ->. by apply H. Qed.

Lemma locked1_differs : locked1 <> funded.
Proof. apply pending_differ. vm_compute. discriminate. Qed.
Lemma locked2_differs : locked2 <> locked1.
Proof. apply pending_differ. vm_compute. discriminate. Qed.

Lemma amount_u64 z : (0 <=? z) && (z <? two64) = true -> is_u64 z.
Proof. unfold is_u64. lia. Qed.

Lemma lock_spec_witness : exists l,
  taken (mkInputSelector 1 0) funded l (lf_utxos result1) /\ length l = 1%nat /\
  outputs locked1 = update_where (in_rows l) (lock_row "r1" (clock funded + as_i64 3600)) (outputs funded) /\
  60 + result_fee result1 <= lf_total_value result1.
Proof.
  destruct (lock_spec "r1" "k" 1 60 1 5 None (Some "key") 3600 0 funded result1 locked1
    funded_ok (amount_u64 60 eq_refl) lock1_ok) as [[H _]|(l & p & Ht & Ho & _ & _ & _ & _ & _ & Hv)];
    [by destruct (locked1_differs H)|].
  exists l. split; [exact Ht|]. split; [|split; [exact Ho|exact Hv]].
  rewrite (Forall2_length _ _ _ (tk_utxos _ _ _ _ Ht)). vm_compute. reflexivity.
Defined.

Definition lock_too_much := lock "r3" "k3" 1 1000 1 5 None None 3600 0 funded.
Lemma lock_too_much_run : lock "r3" "k3" 1 1000 1 5 None None 3600 0 funded = (fst lock_too_much, snd lock_too_much).
Proof. unfold lock_too_much. apply surjective_pairing. Qed.

Lemma lock_error_keeps_db_witness : snd lock_too_much = funded.
Proof.
  refine (lock_error_keeps_db "r3" "k3" 1 1000 1 5 None None 3600 0 funded (fst lock_too_much) (snd lock_too_much)
    lock_too_much_run _).
  vm_compute. reflexivity.
Defined.

Lemma locked1_ok : wallet_ok locked1.
Proof. exact (lock_preserves_ok _ _ _ _ _ _ _ _ _ _ _ _ _ funded_ok lock1_ok). Qed.

Lemma locks_disjoint_witness : exists l1 l2,
  taken (mkInputSelector 1 0) funded l1 (lf_utxos result1) /\ taken (mkInputSelector 1 0) locked1 l2 (lf_utxos result2) /\
  (forall a b, a ∈ l1 -> b ∈ l2 -> o_id a <> o_id b) /\ length (lf_utxos result1) = 1%nat /\ length (lf_utxos result2) = 1%nat.
Proof.
  destruct (locks_disjoint "r1" "k" 1 60 1 5 None (Some "key") 3600 0 "r2" "k2" 1 30 1 5 None None 3600 0
    funded result1 locked1 result2 locked2 funded_ok (amount_u64 60 eq_refl) (amount_u64 30 eq_refl)
    lock1_ok locked1_differs lock2_ok locked2_differs) as (l1 & l2 & H1 & H2 & _ & _ & H3).
  exists l1, l2. split; [exact H1|]. split; [exact H2|]. split; [exact H3|]. vm_compute. split; reflexivity.
Defined.

Definition again := lock "r4" "k4" 1 999 1 5 None (Some "key") 7 0 locked1.
Lemma again_ok : lock "r4" "k4" 1 999 1 5 None (Some "key") 7 0 locked1 = (Ok (result_or no_funds (fst again)), snd again).
Proof. unfold again. apply run_ok. vm_compute. reflexivity. Qed.

Lemma funded_fresh o : o ∈ rows (outputs funded) -> o_locked_by_request_id o <> Some "r1".
Proof.
  assert (Forall (fun o => o_locked_by_request_id o <> Some "r1") (rows (outputs funded))) as H
    by (vm_compute; repeat constructor; discriminate).
  rewrite Forall_forall in H. apply H.
Qed.


Lemma unlock_spec_witness : exists d', unlock_expired_transactions locked1 = (Ok tt, d').
Proof. eexists. exact (unlock_spec locked1 locked1_ok). Defined.

Lemma lock_expires_witness : exists l d2,
  unlock_expired_transactions (with_clock 4601 locked1) = (Ok tt, d2) /\ length l = 1%nat /\
  forall o, o ∈ l -> lock_row "r1" 4600 o ∈ rows (outputs locked1) /\ o ∈ rows (outputs d2).
Proof.
  destruct (lock_expires "r1" "k" 1 60 1 5 None (Some "key") 3600 0 funded result1 locked1 4601
    funded_ok (amount_u64 60 eq_refl) lock1_ok locked1_differs ltac:(vm_compute; reflexivity)) as (l & d2 & Ht & H & Hl).
  exists l, d2. split; [exact H|]. split; [|exact Hl].
  rewrite (Forall2_length _ _ _ (tk_utxos _ _ _ _ Ht)). vm_compute. reflexivity.
Defined.

(** One lock takes all three outputs; then height 11 is rolled back. *)
Definition lock_all := lock "r5" "k5" 1 150 1 5 None None 3600 0 funded.
Definition reorg_all := rollback_from_height 1 11 None (snd lock_all).
Definition reorg_info : ReorgInformation := result_or (mkReorgInformation 0 0 [] [] []) (fst reorg_all).
Lemma reorg_all_ok : rollback_from_height 1 11 None (snd lock_all) = (Ok reorg_info, snd reorg_all).
Proof. unfold reorg_info, reorg_all. apply run_ok. vm_compute. reflexivity. Qed.

Lemma lock_all_ok : wallet_ok (snd lock_all).
Proof. exact (step_lock "r5" "k5" 1 150 1 5 None None 3600 0 funded funded_ok). Qed.

Definition stuck : OutputRow := nth 0 (rows (outputs (snd lock_all))) ReorgTheory.ReorgExamples.no_row.

Lemma rollback_strands_locks_witness :
  stuck ∈ rows (outputs (snd (unlock_expired_transactions (with_clock 1000000 (snd reorg_all))))).
Proof.
  refine (rollback_strands_locks 1 11 None (snd lock_all) reorg_info (snd reorg_all) stuck "r5" 1000000
    lock_all_ok reorg_all_ok _ _ _ _ _); try (vm_compute; reflexivity).
  - apply list_elem_of_In, nth_In. apply Nat.ltb_lt. vm_compute. reflexivity.
  - apply (bool_decide_unpack _). vm_compute. reflexivity.
Defined.

End LockExamples.
