(* ===== verification/AccountTheory.v ===== *)
(** * Properties of accounts

    A wallet that was stored is read back with its password, and is stored once only. *)
From S2P Require Import Prelude Models DisplayTypes External Schema AccountsDb Crypto.
#[local] Open Scope Z_scope.

Section Accounts.
Context {C : CryptoExt} {CL : CryptoLaws C} {W : WalletExt} {WL : WalletLaws W}.

Lemma get_account_created name d a t n :
  (forall x, x ∈ rows (accounts d) -> a_friendly_name x <> name) -> a_friendly_name a = name ->
  t = mkTable (rows (accounts d) ++ [a]) n ->
  get_account_by_name name (with_accounts t d) = (Ok (Some a), with_accounts t d).
Proof.
  intros Hnew Ha ->. unfold get_account_by_name, gets, select. cbn. rewrite filter_app_bool. cbn.
  rewrite Ha, String.eqb_refl. rewrite filter_none; [done|]. intros x Hx. apply String.eqb_neq. auto.
Qed.

Lemma get_account_other name other d a n :
  a_friendly_name a = name -> other <> name ->
  fst (get_account_by_name other (with_accounts (mkTable (rows (accounts d) ++ [a]) n) d))
  = fst (get_account_by_name other d).
Proof.
  intros Ha Ho. unfold get_account_by_name, gets, select. cbn. rewrite filter_app_bool. cbn.
  rewrite (proj2 (String.eqb_neq (a_friendly_name a) other)) by congruence. by rewrite app_nil_r.
Qed.

(** C25: a wallet that was stored under a name is found under it, with its birthday, and the
    password gives exactly the same wallet back; every other account is as before. *)
Theorem account_roundtrip salt nonce name wallet password d d' :
  create_account salt nonce name wallet password d = (Ok tt, d') -> String.length nonce = NONCE_BYTES ->
  (exists row, get_account_by_name name d' = (Ok (Some row), d') /\
    decrypt_wallet_type row password = Ok wallet /\ a_birthday row = default 0 (get_birthday wallet) /\
    a_fingerprint row = calculate_fingerprint wallet) /\
  (forall other, other <> name -> fst (get_account_by_name other d') = fst (get_account_by_name other d)).
Proof.
  intros H Hn. apply create_account_ok in H as (e & json & Hj & He & Hnew & ->).
  rewrite account_is_new_spec in Hnew. split.
  - exists (mkAccountRow (seqno (accounts d) + 1) name (calculate_fingerprint wallet) (ciphertext e)
      (Crypto.nonce e) (salt_bytes e) (default 0 (get_birthday wallet))). split.
    + eapply get_account_created; [|done|reflexivity]. intros x Hx. apply (Hnew x Hx).
    + split; [|by split]. unfold decrypt_wallet_type. cbn. rewrite (decrypt_encrypt salt nonce json password).
      * cbn. by rewrite (wallet_json_roundtrip _ _ Hj).
      * done.
      * rewrite He. by destruct e.
  - intros other Ho. by eapply get_account_other.
Qed.

Lemma create_account_refused salt nonce name wallet password d a :
  a ∈ rows (accounts d) -> a_fingerprint a = calculate_fingerprint wallet ->
  exists r, create_account salt nonce name wallet password d = (r, d) /\ is_ok r = false.
Proof.
  intros Ha Hf. destruct (create_account salt nonce name wallet password d) as [r d'] eqn:E.
  unfold create_account, bind, lift in E.
  destruct (wallet_to_json wallet) as [json|e|m]; cbn [outcome_map_err] in E; [|injection E as <- <-; by eexists..].
  destruct (encrypt_data _ _ _ _) as [enc|e|m]; cbn [outcome_map_err] in E; [|injection E as <- <-; by eexists..].
  unfold constrained in E. destruct (account_is_new _ _ d) eqn:Hn; [|injection E as <- <-; by eexists].
  rewrite account_is_new_spec in Hn. by destruct (Hn a Ha).
Qed.

(** The keys that make a wallet: its public spend and view keys and, for a Ledger, which of
    its accounts it is; the birthday is not one of them, nor is the kind of the wallet. *)
Definition same_keys (w w' : WalletType) : Prop :=
  get_public_spend_key w = get_public_spend_key w' /\ get_public_view_key w = get_public_view_key w' /\
  default 0 (ledger_account w) = default 0 (ledger_account w').

Lemma same_keys_fingerprint w w' : same_keys w w' -> calculate_fingerprint w = calculate_fingerprint w'.
Proof. intros (H1 & H2 & H3). unfold calculate_fingerprint. by rewrite H1, H2, H3. Qed.

(** C26: the same wallet is stored only once: when a wallet was stored, under whatever name
    and password, then as long as its row is in the table, whatever else has changed, a
    wallet with the same public keys (and the same account of a Ledger), whatever its
    birthday, cannot be stored: creating it, under whatever name and password, fails and
    changes nothing. *)
Theorem duplicate_wallet_refused salt0 nonce0 name0 wallet0 password0 d0 d1 :
  create_account salt0 nonce0 name0 wallet0 password0 d0 = (Ok tt, d1) ->
  exists a, a ∈ rows (accounts d1) /\ a_friendly_name a = name0 /\
    forall d salt nonce name wallet password,
      a ∈ rows (accounts d) -> same_keys wallet0 wallet ->
      exists r, create_account salt nonce name wallet password d = (r, d) /\ is_ok r = false.
Proof.
  intros H. apply create_account_ok in H as (e & json & _ & _ & _ & ->). eexists. split; [|split].
  - cbn. apply elem_of_app. right. by apply list_elem_of_singleton.
  - done.
  - intros d salt nonce name wallet password Ha Hk. eapply create_account_refused; [exact Ha|].
    by apply same_keys_fingerprint.
Qed.

End Accounts.

(** ** A concrete cipher and wallet *)
Module AccountExamples.
Import Demo.

(** The cipher text is a code of key, nonce and plain text. *)
#[export] Instance demo_crypto : CryptoExt := {
  Key := string;
  hash_password_into := fun password salt => Ok (password +:+ salt);
  cipher_encrypt := fun k n m => ok_or (to_json (k, n, m)) "cipher";
  cipher_decrypt := fun k n c =>
    match of_json c with
    | Some (k', n', m) => if String.eqb k k' && String.eqb n n' then Ok m else Err "tag mismatch"
    | None => Err "tag mismatch"
    end;
}.

#[export] Instance demo_crypto_laws : CryptoLaws demo_crypto.
Proof.
  constructor. cbn [cipher_encrypt cipher_decrypt demo_crypto]. intros k n m c H. change (@Key demo_crypto) with string in k.
  destruct (to_json (k, n, m)) as [j|] eqn:E; [|done]. injection H as <-. apply of_to_json in E. rewrite E. by rewrite !String.eqb_refl.
Qed.

(** A wallet is its view key, its spend key and its birthday. *)
#[export] Instance demo_wallets : WalletExt := {
  WalletType := string * string * option Z;
  wallet_to_json := fun w => ok_or (to_json w) "json";
  wallet_of_json := fun s => ok_or (of_json s) "json";
  get_birthday := snd;
  get_public_spend_key := fun w => snd (fst w);
  get_public_view_key := fun w => fst (fst w);
  view_key_hex := fun w => fst (fst w);
  ledger_account := fun _ => None;
  fingerprint_hash := fun l => String.concat "" l;
  TariAddress := string;
  new_dual_address := fun view spend id => Ok (view +:+ spend +:+ default "" id);
  to_base58 := id;
  to_emoji_string := id;
  AccountKeys := string * string * option Z;
  key_manager_new := Ok;
  get_private_view_key := fun w => fst (fst w);
  CipherSeed := unit;
  cipher_seed := fun w => if String.eqb (fst (fst w)) "seed" then Some tt else None;
  to_mnemonic := fun _ => Ok "";
  seed_wallet := fun _ => Err "seed";
  ViewKey := string;
  SpendKey := string;
  private_key_from_hex := Some;
  public_key_from_hex := Some;
  view_wallet := fun s v b => (v, s, b);
}.

#[export] Instance demo_wallet_laws : WalletLaws demo_wallets.
Proof.
  constructor. cbn [wallet_to_json wallet_of_json demo_wallets]. intros w j H. change (@WalletType demo_wallets) with (string * string * option Z)%type in w.
  destruct (to_json w) as [s|] eqn:E; [|done]. injection H as <-. apply of_to_json in E. by rewrite E.
Qed.

Definition nonce24 : string := "0123456789abcdef01234567".
Definition view_only : WalletType := ("view", "spend", Some 49).
Definition created := create_account "salt" nonce24 "carol" view_only "secret" (empty_db 1000).

Lemma created_ok : create_account "salt" nonce24 "carol" view_only "secret" (empty_db 1000) = (Ok tt, snd created).
Proof. unfold created. apply run_done. vm_compute. reflexivity. Qed.

Lemma account_roundtrip_witness :
  exists row, get_account_by_name "carol" (snd created) = (Ok (Some row), snd created) /\
    decrypt_wallet_type row "secret" = Ok view_only /\ a_birthday row = 49.
Proof.
  destruct (account_roundtrip "salt" nonce24 "carol" view_only "secret" (empty_db 1000) (snd created)
    created_ok eq_refl) as [(row & H1 & H2 & H3 & _) _].
  exists row. split; [exact H1|]. split; [exact H2|exact H3].
Defined.

(** Another password does not open it. *)
Example wrong_password :
  match rows (accounts (snd created)) with
  | [row] => decrypt_wallet_type row "guess" = Err (DecryptionFailed "Failed to decrypt wallet data")
  | _ => False
  end.
Proof. vm_compute. reflexivity. Qed.

Definition carol : AccountRow := hd (mkAccountRow 0 "" "" "" "" "" 0) (rows (accounts (snd created))).

(** The same keys with another birthday. *)
Definition older_view_only : WalletType := ("view", "spend", Some 7).

Lemma duplicate_wallet_refused_witness :
  exists r, create_account "pepper" nonce24 "dave" older_view_only "other" (snd created) = (r, snd created) /\ is_ok r = false.
Proof.
  destruct (duplicate_wallet_refused "salt" nonce24 "carol" view_only "secret" (empty_db 1000) (snd created) created_ok)
    as (a & Ha & _ & H).
  apply (H (snd created) "pepper" nonce24 "dave" older_view_only "other" Ha). by split_and!.
Defined.

End AccountExamples.
