(* ===== verification/ValidatorTheory.v ===== *)
(** * Validator node commands

    Which commands may lock funds, the steps a command takes, and what a command that
    succeeds has recorded. *)
From S2P Require Import Prelude Models DisplayTypes External Schema AccountsDb Crypto OutputsDb PendingDb CompletedDb.
From S2P Require Import InputSelector FundLocker Monitor ValidatorNode Ledger Wallet Locks AccountTheory.
From stdpp Require Import relations.
#[local] Open Scope Z_scope.

Section Commands.
Context {X : Ext} {XL : ExtLaws X} {S0 : StdOrder} {SE : SelectionExt} {SEL : SelectionLaws SE} {C : TxClient}.
Context {CE : CryptoExt} {W : WalletExt} {V : VnExt}.

(** The three commands. *)
Inductive Command :=
| Register (vn_public_key vn_sig_nonce vn_sig claim_public_key : string) (max_epoch : Z)
| Exit (vn_public_key vn_sig_nonce vn_sig : string) (max_epoch : Z)
| Evict (path : string) (file : outcome string string).

Definition run_command (u0 u1 : string) (cmd : Command) (fee : Z) (memo sidechain : option string) (c : VnCommand) :
    VnM unit :=
  match cmd with
  | Register pk nonce sig claim epoch => handle_register_validator_node u0 u1 pk nonce sig claim epoch fee memo sidechain c
  | Exit pk nonce sig epoch => handle_submit_validator_node_exit u0 u1 pk nonce sig epoch fee memo sidechain c
  | Evict path file => handle_submit_validator_eviction_proof u0 u1 path file fee memo sidechain c
  end.

(** ** Steps *)
Lemma preserves_build (P : Db -> Prop) u0 u1 account pw features fee memo key secs window :
  (forall a b, wallet_step a b -> P a -> P b) ->
  preserves P (build_vn_pay_to_self_tx u0 u1 account pw features fee memo key secs window).
Proof.
  intros HP. unfold build_vn_pay_to_self_tx, vn_account.
  apply preserves_bind; [apply preserves_lift|]. intros sender. apply preserves_bind; [|intros; apply preserves_lift].
  apply preserves_map_err. intros d. apply HP. constructor.
Qed.

Lemma preserves_run (P : Db -> Prop) c kind create :
  (forall a b, wallet_step a b -> P a -> P b) ->
  (forall account pw key secs window, preserves P (create account pw key secs window)) ->
  preserves P (run_vn_command c kind create).
Proof.
  intros HP Hc. unfold run_vn_command, sign_save_and_broadcast, broadcast_vn_tx, vn_db, vn_account, get_account_by_name.
  assert (forall signed account key, preserves P (save_vn_tx signed account key)) by (intros ** d; apply HP; constructor).
  assert (forall tx_id, preserves P (mark_completed_transaction_as_broadcasted tx_id 1)) by (intros ** d; apply HP; constructor).
  solve_preserves; auto.
Qed.

Lemma preserves_command u0 u1 cmd fee memo sidechain c d :
  preserves (rtc wallet_step d) (run_command u0 u1 cmd fee memo sidechain c).
Proof.
  assert (HP : forall a b, wallet_step a b -> rtc wallet_step d a -> rtc wallet_step d b) by (intros; by eapply rtc_r).
  destruct cmd; cbn [run_command]; unfold handle_register_validator_node, handle_submit_validator_node_exit,
    handle_submit_validator_eviction_proof;
    repeat first [apply preserves_run; [done|] | apply preserves_bind; [apply preserves_lift|intros ?] | progress case_match];
    intros ? ? ? ? ?; unfold create_validator_node_registration_tx, create_validator_node_exit_tx,
      create_validator_node_eviction_tx, require_seed_words, vn_account;
    repeat first [by apply preserves_build | progress preserves_step].
Qed.

(** A validator node command, whatever its arguments, the answer of the node and its
    outcome, takes the database along the steps of the wallet's state machine. *)
Theorem vn_command_steps u0 u1 cmd fee memo sidechain c d :
  rtc wallet_step d (snd (run_command u0 u1 cmd fee memo sidechain c d)).
Proof. apply preserves_command, rtc_refl. Qed.

(** ** Who may lock funds *)

(** The computation fails and leaves the database as it was. *)
Definition refused {A} (m : VnM A) (d : Db) : Prop := exists r, m d = (r, d) /\ is_ok r = false.

Lemma refused_bind {A B} (m : VnM A) (k : A -> VnM B) d : refused m d -> refused (bind m k) d.
Proof. intros ([a|e|p] & H & Hr); [done|..]; unfold refused, bind; rewrite H; eauto. Qed.
Lemma refused_next {A B} (m : VnM A) (k : A -> VnM B) a d : m d = (Ok a, d) -> refused (k a) d -> refused (bind m k) d.
Proof. intros H Hk. unfold refused, bind. by rewrite H. Qed.

(** A pure step ends the computation or gives its value. *)
Lemma refused_lift {A B} (r : outcome string A) (k : A -> VnM B) d :
  refused (bind (lift r) k) d \/ exists a, r = Ok a /\ bind (lift r) k d = k a d.
Proof. unfold refused, bind, lift. destruct r as [a|e|p]; [right|left..]; eauto. Qed.

(** The account of the command. *)
Definition account_of (c : VnCommand) (d : Db) (account : AccountRow) : Prop :=
  get_account_by_name (vc_account_name c) d = (Ok (Some account), d).

Lemma run_vn_refused (Q : AccountRow -> Prop) c kind create d :
  (forall account key, refused (create account (vc_password c) key (vc_seconds_to_lock c) (vc_confirmation_window c)) d
    \/ Q account) ->
  refused (run_vn_command c kind create) d \/ exists account, account_of c d account /\ Q account.
Proof.
  intros Hc. unfold run_vn_command. set (key := default _ _). cbn zeta.
  destruct (vc_db c) as [u|e|p] eqn:Edb; [|left; apply refused_bind; by eexists..].
  destruct (get_account_by_name (vc_account_name c) d) as [r0 d0] eqn:Eg.
  assert (r0 = Ok (head (select (fun a => String.eqb (a_friendly_name a) (vc_account_name c)) (accounts d))) /\ d0 = d)
    as [-> ->] by (unfold get_account_by_name, gets in Eg; by injection Eg).
  assert (Hg : vn_db (get_account_by_name (vc_account_name c)) d
    = (Ok (head (select (fun a => String.eqb (a_friendly_name a) (vc_account_name c)) (accounts d))), d)) by done.
  destruct (head _) as [account|] eqn:Eh.
  - destruct (Hc account (Some key)) as [Hr|Hq]; [left|right; by exists account].
    eapply refused_next; [done|]. eapply refused_next; [exact Hg|]. eapply refused_next; [done|]. by apply refused_bind.
  - left. eapply refused_next; [done|]. eapply refused_next; [exact Hg|]. apply refused_bind. by eexists.
Qed.

(** The password opens a wallet with seed words. *)
Definition holds_seed (password : string) (account : AccountRow) : Prop :=
  exists wallet, decrypt_wallet_type account password = Ok wallet /\ is_seed_words wallet = true.

Lemma seed_refused {A} account password operation (k : VnM A) d :
  refused (require_seed_words account password operation ;;; k) d \/
  (holds_seed password account /\ (require_seed_words account password operation ;;; k) d = k d).
Proof.
  unfold require_seed_words, vn_account, holds_seed.
  destruct (decrypt_wallet_type account password) as [w|e|p] eqn:E; [|left; apply refused_bind; by eexists..].
  unfold refused, bind, lift. cbn. destruct (is_seed_words w) eqn:Es; [right|left]; eauto.
Qed.

(** What the command proves of its origin. *)
Definition proof_of (cmd : Command) (sidechain : option string) : Prop :=
  match cmd with
  | Register pk nonce sig claim epoch => exists k s ck sc,
      parse_vn_signature pk nonce sig = Ok (k, s) /\ parse_compressed_public_key claim "claim-public-key" = Ok ck /\
      parse_sidechain_deployment_key sidechain = Ok sc /\
      is_valid_registration_signature_for k s (vn_public_key_of <$> sc) ck epoch = true
  | Exit pk nonce sig epoch => exists k s sc,
      parse_vn_signature pk nonce sig = Ok (k, s) /\ parse_sidechain_deployment_key sidechain = Ok sc /\
      is_valid_exit_signature_for k s (vn_public_key_of <$> sc) epoch = true
  | Evict _ file => exists json proof sc, file = Ok json /\ eviction_of_json json = Ok proof /\
      parse_sidechain_deployment_key sidechain = Ok sc
  end.

(** A parse that fails ends the command. *)
Lemma refused_parse {A B} (Q : Prop) (r : outcome string A) (k : A -> VnM B) d :
  (forall a, r = Ok a -> refused (k a) d \/ Q) -> refused (bind (lift r) k) d \/ Q.
Proof.
  intros H. destruct (refused_lift r k d) as [|(a & Hr & E)]; [by left|].
  destruct (H a Hr) as [Hk|]; [|by right]. left. unfold refused in *. by rewrite E.
Qed.

(** A seed check, then a check that throws. *)
Lemma seed_then_refused {A} (Q : Prop) account password operation (k : VnM A) d :
  (refused k d \/ Q) ->
  refused (require_seed_words account password operation ;;; k) d \/ (holds_seed password account /\ Q).
Proof.
  intros Hk. destruct (seed_refused account password operation k d) as [|[Hs E]]; [by left|].
  destruct Hk as [Hk|]; [left|by right]. unfold refused in *. by rewrite E.
Qed.

Lemma if_refused {A} (b : bool) (e : string) (k : VnM A) d : refused (if negb b then throw e else k) d \/ b = true.
Proof. destruct b; [by right|left; by eexists]. Qed.

(** C23: only authorised commands touch the wallet: unless the account exists, the password
    opens its wallet, the wallet has seed words, and the registration or exit carries a
    signature of the validator node that is valid for its side chain, claim key and epoch
    (an eviction, a proof that parses), the command fails and the database is
    what it was; in particular nothing is locked. *)
Theorem vn_command_authorised u0 u1 cmd fee memo sidechain c d :
  refused (run_command u0 u1 cmd fee memo sidechain c) d \/
  (proof_of cmd sidechain /\ exists account, account_of c d account /\ holds_seed (vc_password c) account).
Proof.
  destruct cmd as [pk nonce sig claim epoch|pk nonce sig epoch|path file]; cbn [run_command proof_of].
  - apply refused_parse. intros [k s] Hs. apply refused_parse. intros ck Hck. apply refused_parse. intros sc Hsc.
    edestruct (run_vn_refused (fun a => holds_seed (vc_password c) a /\
      is_valid_registration_signature_for k s (vn_public_key_of <$> sc) ck epoch = true)) as [|(a & Ha & Hw & Hv)];
      [|by left|right; split; [by exists k, s, ck, sc|by exists a]].
    intros a key. apply seed_then_refused, if_refused.
  - apply refused_parse. intros [k s] Hs. apply refused_parse. intros sc Hsc.
    edestruct (run_vn_refused (fun a => holds_seed (vc_password c) a /\
      is_valid_exit_signature_for k s (vn_public_key_of <$> sc) epoch = true)) as [|(a & Ha & Hw & Hv)];
      [|by left|right; split; [by exists k, s, sc|by exists a]].
    intros a key. apply seed_then_refused, if_refused.
  - apply refused_parse. intros json Hj. apply refused_parse. intros proof Hp. apply refused_parse. intros sc Hsc.
    assert (Hf : file = Ok json) by (by destruct file; simplify_eq/=).
    assert (He : eviction_of_json json = Ok proof) by (by destruct (eviction_of_json json); simplify_eq/=).
    edestruct (run_vn_refused (fun a => holds_seed (vc_password c) a /\ True)) as [|(a & Ha & Hw & _)];
      [|by left|right; split; [by exists json, proof, sc|by exists a]].
    intros a key. apply seed_then_refused. by right.
Qed.

(** ** What a command records *)

(** A pending transaction of the account under the key. *)
Definition pending_under (key : string) (account_id : Z) (d : Db) : Prop :=
  exists p, p ∈ rows (pending_transactions d) /\ by_key key account_id PENDING p = true.

Lemma first_by_key key acc d p : head (select (by_key key acc PENDING) (pending_transactions d)) = Some p ->
  p ∈ rows (pending_transactions d) /\ by_key key acc PENDING p = true.
Proof. intros H%head_Some_elem_of. by apply elem_of_filter_bool in H. Qed.

Lemma lock_leaves_pending uuid uk acc amount n fee size key secs window d r d' :
  is_u64 amount -> lock uuid uk acc amount n fee size (Some key) secs window d = (Ok r, d') -> pending_under key acc d'.
Proof.
  intros Ha H. destruct (lock_ok _ _ _ _ _ _ _ _ _ _ _ _ _ Ha H) as [(k & [= <-] & -> & Hf)|(s & _ & _ & _ & _ & ->)].
  - unfold find_pending_transaction_locked_funds_by_idempotency_key in Hf.
    apply bind_ok_inv in Hf as (row & d1 & [= Hrow <-] & Hf). destruct row as [p|]; [|done].
    exists p. by apply first_by_key.
  - exists (pending_row uuid key acc (clock d + as_i64 secs) s d). split; [|apply by_key_pending_row].
    cbn. apply elem_of_app. right. apply list_elem_of_here.
Qed.

Lemma no_row_no_pending key acc d : head (select (by_key key acc PENDING) (pending_transactions d)) = None ->
  ~ pending_under key acc d.
Proof.
  intros H (p & Hp & Hk). assert (p ∈ select (by_key key acc PENDING) (pending_transactions d)) as Hin
    by (by apply elem_of_filter_bool). destruct (select _ _); [by apply not_elem_of_nil in Hin|done].
Qed.

(** What a recorded transaction is. *)
Definition recorded_as (tx_id : Z) (status : CTS.t) (key : string) (account_id attempts : Z) (d : Db) : Prop :=
  exists c p, c ∈ rows (completed_transactions d) /\ has_tx_id tx_id c = true /\ c_account_id c = account_id /\
    c_status c = CTS.to_string status /\ c_broadcast_attempts c = attempts /\
    p ∈ rows (pending_transactions d) /\ p_id p = c_pending_tx_id c /\ by_key key account_id COMPLETED p = true.

Lemma save_records signed account key d d' :
  pending_under key (a_id account) d -> save_vn_tx signed account key d = (Ok tt, d') ->
  recorded_as (vs_tx_id signed) CTS.Completed key (a_id account) 0 d'.
Proof.
  intros (p & Hp & Hk) H. unfold save_vn_tx in H.
  apply bind_ok_inv in H as (json & d1 & [_ ->]%lift_ok_inv & H).
  apply bind_ok_inv in H as (found & d1 & Hf%map_err_ok_inv & H).
  apply bind_ok_inv in Hf as (row & d2 & [= Hrow <-] & Hf).
  destruct row as [q|]; [|exfalso; by eapply no_row_no_pending; [done|exists p]].
  apply first_by_key in Hrow as [Hq Hqk].
  apply bind_ok_inv in Hf as (status & d2 & [_ ->]%lift_ok_inv & [= <- <-]). cbn in H.
  apply map_err_ok_inv in H.
  unfold create_completed_transaction in H. apply bind_ok_inv in H as (u' & d2 & Hc & [= <-]).
  unfold constrained in Hc. destruct (_ && _); [injection Hc as <- <-|done].
  eexists _, (set_pending_status COMPLETED q). split; [cbn; apply elem_of_app; right; apply list_elem_of_here|].
  split; [apply Z.eqb_refl|]. repeat (split; [done|]). split; [|split; [done|]].
  - cbn. apply elem_of_update_rows. exists q. by rewrite String.eqb_refl.
  - unfold by_key in *. cbn. by rewrite andb_true_r; apply andb_true_iff in Hqk as [].
Qed.

Lemma broadcast_records signed client key acc d d' :
  recorded_as (vs_tx_id signed) CTS.Completed key acc 0 d -> broadcast_vn_tx signed client d = (Ok tt, d') ->
  recorded_as (vs_tx_id signed) CTS.Broadcast key acc 1 d'.
Proof.
  intros (c & p & Hc & Hid & Hacc & Hs & Hn & Hp & Hpid & Hk) H. unfold broadcast_vn_tx in H.
  apply bind_ok_inv in H as (u & d1 & [_ ->]%lift_ok_inv & H).
  apply bind_ok_inv in H as (r & d1 & [_ ->]%lift_ok_inv & H).
  destruct (accepted r); [|done]. apply map_err_ok_inv in H as [= <-].
  exists (set_broadcast 1 (clock d) c), p. split; [cbn; apply elem_of_update_rows; exists c; by rewrite Hid|].
  by repeat (split; [done|]).
Qed.

Lemma run_records c kind create d d' :
  (forall account pw key secs window d u d', create account pw (Some key) secs window d = (Ok u, d') ->
    pending_under key (a_id account) d') ->
  run_vn_command c kind create d = (Ok tt, d') ->
  exists account tx_id, account_of c d account /\
    recorded_as tx_id CTS.Broadcast (default (vc_new_key c) (vc_idempotency_key c)) (a_id account) 1 d'.
Proof.
  intros Hc H. unfold run_vn_command in H. cbn zeta in H.
  apply bind_ok_inv in H as (u & d1 & [_ ->]%lift_ok_inv & H).
  apply bind_ok_inv in H as (found & d1 & Hg%map_err_ok_inv & H).
  assert (d1 = d) as -> by (by injection Hg).
  apply bind_ok_inv in H as (account & d1 & [Ha ->]%lift_ok_inv & H). destruct found as [a|]; [|done].
  injection Ha as ->. apply bind_ok_inv in H as (unsigned & d1 & Hp%Hc & H).
  unfold sign_save_and_broadcast in H. apply bind_ok_inv in H as (km & d2 & [_ ->]%lift_ok_inv & H).
  apply bind_ok_inv in H as (signed & d2 & [_ ->]%lift_ok_inv & H).
  apply bind_ok_inv in H as ([] & d2 & Hs & H).
  exists account, (vs_tx_id signed). split; [exact Hg|]. eapply broadcast_records; [|done]. by eapply save_records.
Qed.

Lemma build_leaves_pending u0 u1 account pw features fee memo key secs window d r d' :
  is_u64 validator_node_registration_min_deposit_amount ->
  build_vn_pay_to_self_tx u0 u1 account pw features fee memo (Some key) secs window d = (Ok r, d') ->
  pending_under key (a_id account) d'.
Proof.
  intros Ha H. unfold build_vn_pay_to_self_tx in H. apply bind_ok_inv in H as (sender & d1 & [_ ->]%lift_ok_inv & H).
  apply bind_ok_inv in H as (locked & d1 & Hl%map_err_ok_inv & H). apply lift_ok_inv in H as [_ ->].
  by eapply lock_leaves_pending.
Qed.

(** A creation is a seed check, a signature check and the building. *)
Ltac solve_created :=
  match goal with
  | H : ?create _ _ _ _ _ _ = (Ok _, _) |- _ =>
      apply bind_ok_inv in H as (? & ? & _ & H); cbn zeta in H; repeat case_match; [done..|];
      by eapply build_leaves_pending
  end.

(** A command that succeeds leaves the transaction on record as broadcast once: there is
    a completed transaction of the command's account with status [broadcast] and one attempt,
    made from the pending transaction of the command's idempotency key, which is completed. *)
Theorem vn_success_recorded u0 u1 cmd fee memo sidechain c d d' :
  is_u64 validator_node_registration_min_deposit_amount ->
  run_command u0 u1 cmd fee memo sidechain c d = (Ok tt, d') ->
  exists account tx_id, account_of c d account /\
    recorded_as tx_id CTS.Broadcast (default (vc_new_key c) (vc_idempotency_key c)) (a_id account) 1 d'.
Proof.
  intros Ha H.
  assert (Hend : exists kind create, run_vn_command c kind create d = (Ok tt, d') /\
    forall account pw key secs window d u d', create account pw (Some key) secs window d = (Ok u, d') ->
      pending_under key (a_id account) d').
  { destruct cmd; cbn [run_command] in H.
    - apply bind_ok_inv in H as ([pk s] & ? & [_ ->]%lift_ok_inv & H).
      apply bind_ok_inv in H as (claim & ? & [_ ->]%lift_ok_inv & H).
      apply bind_ok_inv in H as (sc & ? & [_ ->]%lift_ok_inv & H). eexists _, _. split; [exact H|].
      intros ** ; solve_created.
    - apply bind_ok_inv in H as ([pk s] & ? & [_ ->]%lift_ok_inv & H).
      apply bind_ok_inv in H as (sc & ? & [_ ->]%lift_ok_inv & H). eexists _, _. split; [exact H|].
      intros ** ; solve_created.
    - apply bind_ok_inv in H as (json & ? & [_ ->]%lift_ok_inv & H).
      apply bind_ok_inv in H as (proof & ? & [_ ->]%lift_ok_inv & H).
      apply bind_ok_inv in H as (sc & ? & [_ ->]%lift_ok_inv & H). eexists _, _. split; [exact H|].
      intros ** ; solve_created. }
  destruct Hend as (kind & create & Hrun & Hcreate). by eapply run_records.
Qed.

End Commands.

(** ** Examples *)
Module ValidatorExamples.
Import Demo AccountExamples Ledger.Examples Wallet.WalletExamples LockExamples.

(** Keys are texts; a signature is valid when its scalar is ["good"]. *)
Definition demo_vn {C : TxClient} (tx : Transaction) : VnExt := {|
  VnPublicKey := string;
  VnPrivateKey := string;
  VnSignature := string * string;
  VnFeatures := string;
  EvictionProof := string;
  VnMemo := string;
  VnBuilder := Z;
  VnUnsigned := Z;
  vn_hex_decode := fun s => if String.eqb s "" then Err "empty" else Ok s;
  vn_public_key_of_bytes := fun s => Ok s;
  vn_private_key_of_bytes := fun s => Ok s;
  vn_signature := pair;
  vn_public_key_of := id;
  is_valid_registration_signature_for := fun _ s _ _ _ => String.eqb (snd s) "good";
  is_valid_exit_signature_for := fun _ s _ _ => String.eqb (snd s) "good";
  for_validator_node_registration := fun k _ _ _ _ => k;
  for_validator_node_exit := fun k _ _ _ => k;
  for_validator_node_eviction := fun p _ => p;
  eviction_of_json := fun s => Ok s;
  validator_node_registration_min_deposit_amount := 60;
  vn_memo_open := fun s => Ok s;
  vn_memo_default := "";
  vn_builder := fun _ fee _ => Ok fee;
  vn_prepare := fun _ amount _ _ _ _ => Ok amount;
  vn_sign := fun _ _ => Ok (mkVnSigned _ tx 77 (Some "excess") ["sent"]);
|}.

(** The funds of the account, whose wallet has seed words. *)
Definition seeded : Db := snd (create_account "salt" nonce24 "validator" ("seed", "spend", Some 49) "secret" (empty_db 1000)).
Definition vn_funded : Db := with_accounts (accounts seeded) funded.

Definition vn_command : VnCommand :=
  mkVnCommand (Ok tt) "validator" "secret" (Some "key") "fresh" 3600 0 (Ok tt).
Definition register (sig : string) : Command := Register "pk" "nonce" sig "claim" 500.

#[local] Instance demo_vn_accepting : VnExt := demo_vn (C := demo_client) tt.
Definition registered := run_command "r1" "k" (register "good") 5 None None vn_command vn_funded.

Lemma registered_ok : run_command "r1" "k" (register "good") 5 None None vn_command vn_funded = (Ok tt, snd registered).
Proof. unfold registered. apply run_done. vm_compute. reflexivity. Qed.

Lemma vn_success_recorded_witness :
  exists account tx_id, account_of vn_command vn_funded account /\
    recorded_as tx_id CTS.Broadcast "key" (a_id account) 1 (snd registered).
Proof.
  exact (vn_success_recorded "r1" "k" (register "good") 5 None None vn_command vn_funded (snd registered)
    (amount_u64 60 eq_refl) registered_ok).
Defined.

(** The deposit is locked until the transaction is mined. *)
Example registration_locks : map o_status (rows (outputs (snd registered))) = [LOCKED; UNSPENT; UNSPENT].
Proof. vm_compute. reflexivity. Qed.

(** A signature that is not the node's is refused before anything is locked. *)
Example bad_signature :
  let r := run_command "r1" "k" (register "forged") 5 None None vn_command vn_funded in
  fst r = Err "Invalid validator node registration signature" /\
  map o_status (rows (outputs (snd r))) = [UNSPENT; UNSPENT; UNSPENT].
Proof. vm_compute. repeat split; reflexivity. Qed.

(** A transaction the network rejects stays recorded as completed and keeps its locks, which
    no longer expire: unlike [finalize_transaction_and_broadcast], the command does not
    unlock, and leaves the rejection to the monitor's next broadcast. *)
Definition rejecting : TxClient := {|
  Transaction := unit;
  transaction_of_json := fun _ => Ok tt;
  transaction_to_json := fun _ => Ok "";
  first_kernel := fun _ => Some ("", "");
  reason_to_string := fun _ => "double spend";
  submit_transaction := fun _ => Ok (mkTxSubmissionResponse false (OtherReason "double spend"));
  transaction_query := fun _ _ => Ok (mkTxQueryResponse NotMined None None);
|}.

Definition rejected := run_command (C := rejecting) (V := demo_vn (C := rejecting) tt) "r1" "k" (register "good") 5
  None None vn_command vn_funded.

Example rejection_keeps_locks :
  fst rejected = Err "Transaction rejected by network: double spend" /\
  map o_status (rows (outputs (snd rejected))) = [LOCKED; UNSPENT; UNSPENT] /\
  map c_status (rows (completed_transactions (snd rejected))) = ["completed"] /\
  let later := unlock_expired_transactions (with_clock 1000000 (snd rejected)) in
  map o_status (rows (outputs (snd later))) = [LOCKED; UNSPENT; UNSPENT].
Proof. vm_compute. repeat split; reflexivity. Qed.

End ValidatorExamples.
