(* ===== verification/DisplayTheory.v ===== *)
(** * Displayed transactions: what the processor shows

    The matching of change outputs with spent inputs finds what there is to find
    and uses each input once; and every credit and debit of a block ends up in
    exactly one place, an updated transaction or a new one. *)
From S2P Require Import Prelude Models DisplayTypes External Schema ScanEvents Subset Builder.
From S2P Require Import Processor Scanning BlockProc.
#[local] Open Scope Z_scope.

(** ** The matching *)
Section Matching.
Context {X : Ext} {XL : ExtLaws X} {S0 : StdOrder} {SL : StdOrderLaws S0}.

(** C34: over a pool of distinct indices in range, and values ([good_values]) that are
    [u64] and whose sum is one, the search for one target always returns; the indices it
    finds are distinct, come from the pool and have values that sum to the target, and when
    it finds none no selection of the pool does. *)
Theorem backtrack_subset_correct pool nums target :
  NoDup pool -> (forall i, i ∈ pool -> (i < length nums)%nat) -> good_values nums ->
  exists r, backtrack_subset pool nums target = Ok r /\
    match r with
    | Some used => used ⊆ pool /\ NoDup used /\ zsum (num nums) used = target
    | None => forall sel, zsum (num nums) (List.filter sel pool) <> target
    end.
Proof. apply backtrack_subset_spec. Qed.

(** C35: over values ([good_values]) that are [u64] and whose sum is one, assigning inputs
    to all targets always returns; the result serves every target once, smallest first, each from the inputs that the earlier targets left,
    and no input serves two targets. *)
Theorem solve_back_track_correct values targets :
  good_values values ->
  exists targets' result,
    Permutation targets' targets /\
    StronglySorted (fun a b => (a.1 <=? b.1) = true) targets' /\
    solve_back_track values targets = Ok result /\
    solved (sort_unstable Z.leb values) (seq 0 (length values)) targets' result /\
    map fst result = map snd targets' /\
    NoDup (concat (map snd result)) /\
    (forall i, i ∈ concat (map snd result) -> (i < length values)%nat).
Proof.
  intros Hg. destruct (solve_back_track_solved values targets Hg) as (ts & result & Hp & Hs & He & Hr).
  exists ts, result. split; [done|]. split; [done|]. split; [done|]. split; [done|].
  split; [by eapply solved_targets|]. split; [by eapply solved_disjoint|].
  intros i Hi. apply (solved_pool _ _ _ _ _ Hr), elem_of_seq in Hi. lia.
Qed.

End Matching.

(** ** Removing the used inputs *)

(** The elements at the indices [l]. *)
Definition at_indices {A} (xs : list A) (l : list nat) : list A := omap (fun i => xs !! i) l.
Arguments at_indices : simpl never.

Lemma at_indices_perm {A} (xs : list A) l k : Permutation l k -> Permutation (at_indices xs l) (at_indices xs k).
Proof. apply omap_Permutation. Qed.

Lemma at_indices_app {A} (xs : list A) l k : at_indices xs (l ++ k) = at_indices xs l ++ at_indices xs k.
Proof. apply omap_app. Qed.

Lemma at_indices_hit {A} (xs : list A) i l x : xs !! i = Some x -> at_indices xs (i :: l) = x :: at_indices xs l.
Proof. intros H. unfold at_indices. cbn. by rewrite H. Qed.

Lemma at_indices_below {A} (xs ys : list A) l n :
  (forall i, (i < n)%nat -> xs !! i = ys !! i) -> (forall i, i ∈ l -> (i < n)%nat) -> at_indices xs l = at_indices ys l.
Proof.
  intros Heq Hl. unfold at_indices in *. induction l as [|i l IH]; [done|]. cbn. rewrite Heq by (apply Hl; left).
  destruct (ys !! i); [f_equal|]; (apply IH; intros; apply Hl; by right).
Qed.

Lemma at_indices_all {A} (xs : list A) : at_indices xs (seq 0 (length xs)) = xs.
Proof.
  unfold at_indices. induction xs as [|x xs IH] using rev_ind; [done|].
  rewrite length_app. cbn. rewrite Nat.add_1_r, seq_S, omap_app. cbn.
  rewrite lookup_app_r, Nat.sub_diag by lia. cbn. f_equal. etransitivity; [|exact IH].
  apply (at_indices_below _ _ _ (length xs)).
  - intros i Hi. by rewrite lookup_app_l.
  - intros i Hi%elem_of_seq. lia.
Qed.

(** Removing indices from the largest down gives the elements that are not at them. *)
Lemma remove_descending {E A} (l : list nat) : forall (xs rest : list A),
  StronglySorted (fun a b => (b < a)%nat) l ->
  outcome_fold (E := E) (fun l i => vec_remove i l) xs l = Ok rest ->
  Permutation xs (at_indices xs l ++ rest).
Proof.
  induction l as [|i l IH]; intros xs rest Hs H; cbn in H; [by injection H as ->|].
  apply outcome_bind_ok in H as (ys & Hy & H). unfold vec_remove in Hy.
  destruct (i <? length xs)%nat eqn:Ei; [|done]. injection Hy as <-. apply Nat.ltb_lt in Ei.
  inversion Hs as [|? ? Hs' Hf]; subst. specialize (IH _ _ Hs' H).
  destruct (lookup_lt_is_Some_2 xs i Ei) as [x Hx].
  rewrite (at_indices_hit _ _ _ _ Hx). assert (at_indices (take i xs ++ drop (S i) xs) l = at_indices xs l) as <-.
  { apply (at_indices_below _ _ _ i); [|by apply Forall_forall]. intros j Hj.
    rewrite lookup_app_l by (rewrite length_take; lia). by rewrite lookup_take_lt. }
  cbn [app]. etransitivity; [|apply Permutation_cons; [done|exact IH]].
  rewrite <- (take_drop_middle xs i x Hx) at 1. symmetry. apply Permutation_middle.
Qed.

Lemma sorted_strict (l : list nat) :
  NoDup l -> StronglySorted (fun a b => (b < a)%nat) (sort_by (fun a b => (b <=? a)%nat) l).
Proof.
  intros Hn. assert (NoDup (sort_by (fun a b => (b <=? a)%nat) l)) as Hn' by (by rewrite sort_by_perm).
  assert (Hs : StronglySorted (fun a b => (b <=? a)%nat = true) (sort_by (fun a b => (b <=? a)%nat) l)).
  { apply sort_by_sorted; intros *; rewrite ?Nat.leb_le, ?Nat.leb_gt; lia. }
  induction Hs as [|i k Hs IH Hf]; [constructor|]. inversion Hn' as [|? ? Hi Hk]; subst.
  constructor; [by apply IH|]. rewrite Forall_forall in *. intros j Hj. specialize (Hf j Hj).
  apply Nat.leb_le in Hf. assert (j <> i) by (intros ->; done). lia.
Qed.

Lemma remove_used_perm {X : Ext} (inputs : list Debit) used rest :
  NoDup used -> remove_used inputs used = Ok rest -> Permutation inputs (at_indices inputs used ++ rest).
Proof.
  intros Hn H. unfold remove_used in H. rewrite (remove_descending _ _ _ (sorted_strict used Hn) H) at 1.
  apply Permutation_app; [|done]. apply at_indices_perm, sort_by_perm.
Qed.

(** ** The new transactions *)
Section Display.
Context {X : Ext} {XL : ExtLaws X} {S0 : StdOrder} {SL : StdOrderLaws S0}.
Context (self : DisplayedTransactionProcessor).

Definition credit_value (c : Credit) : Z := balance_credit c.1.
Definition debit_value (d : Debit) : Z := wo_value (si_output d.2).
Definition output_of (ty : string) (c : Credit) : TransactionOutput := transaction_output ty c.2.
Definition input_of (d : Debit) : TransactionInput := transaction_input d.2.

Definition tx_outputs (tx : DisplayedTransaction) : list TransactionOutput := td_outputs (details tx).
Definition tx_inputs (tx : DisplayedTransaction) : list TransactionInput := td_inputs (details tx).
Definition tx_credit (tx : DisplayedTransaction) : Z := total_credit (details tx).
Definition tx_debit (tx : DisplayedTransaction) : Z := total_debit (details tx).

(** What a transaction shows. *)
Record shows (tx : DisplayedTransaction) (outs : list TransactionOutput) (ins : list TransactionInput)
    (credit debit : Z) : Prop := {
  shows_outs : tx_outputs tx = outs;
  shows_ins : tx_inputs tx = ins;
  shows_credit : tx_credit tx = credit;
  shows_debit : tx_debit tx = debit;
}.


Lemma received_shows acc c tx :
  received_transaction self acc c = Ok tx -> shows tx [output_of OutputType_Standard c] [] (credit_value c) 0.
Proof.
  destruct c as [bc o]. unfold received_transaction, Builder.credits_and_debits.
  destruct (calculate_status_and_confirmations _ _). cbn. intros [= <-]. by constructor.
Qed.

Lemma coinbase_shows acc c tx :
  coinbase_transaction self acc c = Ok tx -> shows tx [output_of OutputType_Coinbase c] [] (credit_value c) 0.
Proof.
  destruct c as [bc o]. unfold coinbase_transaction, Builder.credits_and_debits.
  destruct (calculate_status_and_confirmations _ _). cbn. intros [= <-]. by constructor.
Qed.

Lemma unpaired_shows acc d tx :
  unpaired_input_transaction self acc d = Ok tx -> shows tx [] [input_of d] 0 (balance_debit d.1).
Proof.
  destruct d as [bc i]. unfold unpaired_input_transaction, Builder.credits_and_debits.
  destruct (calculate_status_and_confirmations _ _). destruct (balance_debit bc >? 0); cbn; intros [= <-]; by constructor.
Qed.

Lemma matched_shows acc c ins debit tx :
  matched_transaction self acc c ins debit = Ok tx ->
  shows tx [output_of OutputType_Standard c] ins (credit_value c) debit.
Proof.
  destruct c as [bc o]. unfold matched_transaction, Builder.credits_and_debits.
  destruct (calculate_status_and_confirmations _ _). destruct (debit >? 0); cbn; intros [= <-]; by constructor.
Qed.

(** A loop of conversions shows one element per transaction. *)
Lemma mapM_shows {A} (f : A -> outcome ProcessorError DisplayedTransaction) outs ins credit debit l txs :
  (forall a tx, f a = Ok tx -> shows tx (outs a) (ins a) (credit a) (debit a)) ->
  outcome_mapM f l = Ok txs ->
  concat (map tx_outputs txs) = concat (map outs l) /\ concat (map tx_inputs txs) = concat (map ins l) /\
  zsum tx_credit txs = zsum credit l /\ zsum tx_debit txs = zsum debit l.
Proof.
  intros Hf H%outcome_mapM_ok. induction H as [|a tx l txs Ha _ (H1 & H2 & H3 & H4)]; [done|].
  destruct (Hf _ _ Ha) as [Ho Hi Hc Hd]. cbn. rewrite !zsum_cons, H1, H2, H3, H4, Ho, Hi, Hc, Hd. done.
Qed.

Lemma concat_singletons {A B} (f : A -> B) l : concat (map (fun a => [f a]) l) = map f l.
Proof. induction l as [|a l IH]; [done|]. cbn. by rewrite IH. Qed.
Lemma concat_nils {A B} (l : list A) : concat (map (fun _ => @nil B) l) = [].
Proof. by induction l. Qed.
Lemma zsum_zero {A} (l : list A) : zsum (fun _ => 0) l = 0.
Proof. induction l as [|a l IH]; [done|]. rewrite zsum_cons, IH. done. Qed.

Lemma gather_inputs_ok (inputs : list Debit) solution balance ins :
  gather_inputs inputs solution = Ok (balance, ins) ->
  ins = map input_of (at_indices inputs solution) /\ balance = zsum debit_value (at_indices inputs solution).
Proof.
  unfold gather_inputs. enough (Hgen : forall b0 i0, is_u64 b0 ->
    outcome_fold (fun '(balance, tx_inputs) index =>
      outcome_bind (ok_or (inputs !! index) (index_error "Input")) (fun '(_, input) =>
      outcome_bind (mm_plus balance (wo_value (si_output input))) (fun balance =>
      Ok (balance, tx_inputs ++ [transaction_input input])))) (b0, i0) solution = Ok (balance, ins) ->
    ins = i0 ++ map input_of (at_indices inputs solution) /\
    balance = b0 + zsum debit_value (at_indices inputs solution)).
  { intros H. apply Hgen in H; [|unfold is_u64, two64; lia]. exact H. }
  induction solution as [|i solution IH]; intros b0 i0 Hb H; cbn [outcome_fold] in H.
  { injection H as <- <-. unfold at_indices. cbn. rewrite app_nil_r, zsum_nil. split; [done|lia]. }
  apply outcome_bind_ok in H as ([b1 i1] & H1 & H). apply outcome_bind_ok in H1 as ([bc input] & Hi & H1).
  apply outcome_bind_ok in H1 as (b2 & Hp & [= <- <-]). apply mm_plus_ok in Hp as [-> Hu]; [|done|apply wo_value_u64].
  destruct (inputs !! i) as [d|] eqn:E; [|done]. cbn in Hi. injection Hi as ->.
  apply IH in H as [-> ->]; [|done].
  rewrite (at_indices_hit _ _ _ _ E). cbn [map]. rewrite zsum_cons, <- app_assoc. split; [done|]. by rewrite Z.add_assoc.
Qed.

(** *** The loop over the solutions *)

(** After the solutions [sols], from the initially unmatched outputs [u0]. *)
Record search_inv (inputs : list Debit) (outputs : list Credit) (u0 : list nat)
    (sols : list (nat * list nat)) (st : SearchState) : Prop := {
  si_outs : Permutation
    (concat (map tx_outputs st.1.1) ++ map (output_of OutputType_Standard) (at_indices outputs st.2))
    (map (output_of OutputType_Standard) (at_indices outputs (u0 ++ map fst sols)));
  si_ins : concat (map tx_inputs st.1.1) = map input_of (at_indices inputs st.1.2);
  si_used : st.1.2 `sublist_of` concat (map snd sols);
  si_credit : zsum tx_credit st.1.1 + zsum credit_value (at_indices outputs st.2)
    = zsum credit_value (at_indices outputs (u0 ++ map fst sols));
  si_debit : zsum tx_debit st.1.1 = zsum debit_value (at_indices inputs st.1.2);
}.

Lemma search_step_inv acc inputs outputs u0 sols st s st' :
  search_inv inputs outputs u0 sols st -> search_step self acc inputs outputs st s = Ok st' ->
  search_inv inputs outputs u0 (sols ++ [s]) st'.
Proof.
  destruct st as [[result used] unmatched], s as [oi solution]. intros [H1 H2 H3 H4 H5] H. cbn in *.
  apply outcome_bind_ok in H as ([balance ins] & Hg & H). apply gather_inputs_ok in Hg as [-> ->].
  apply outcome_bind_ok in H as ([bc out] & Ho & H). destruct (outputs !! oi) as [c|] eqn:Eo; [|done].
  cbn in Ho. injection Ho as ->. apply outcome_bind_ok in H as ([info amount] & _ & H).
  apply outcome_bind_ok in H as (ts & _ & H). destruct (negb _).
  - injection H as <-. constructor; cbn.
    + rewrite map_app, app_assoc, (at_indices_app outputs (u0 ++ _)), at_indices_app, !map_app, app_assoc.
      by rewrite H1.
    + done.
    + rewrite map_app, concat_app. by apply sublist_inserts_r.
    + rewrite map_app, app_assoc, (at_indices_app outputs (u0 ++ _)), at_indices_app, !zsum_app. cbn [map fst]. lia.
    + done.
  - apply outcome_bind_ok in H as (tx & Htx & [= <-]). destruct (matched_shows acc (bc, out) _ _ _ Htx) as [T1 T2 T3 T4].
    constructor; cbn.
    + rewrite map_app, concat_app. cbn. rewrite T1, app_nil_r, map_app, app_assoc, (at_indices_app outputs (u0 ++ _)),
        map_app, <- H1. cbn [map fst]. rewrite (at_indices_hit _ _ _ _ Eo). cbn. rewrite <- !app_assoc.
      apply Permutation_app_head. apply Permutation_app_comm.
    + rewrite map_app, concat_app, H2, at_indices_app, map_app. cbn. by rewrite T2, app_nil_r.
    + rewrite map_app, concat_app. cbn. rewrite app_nil_r. by apply sublist_app.
    + rewrite map_app, app_assoc, (at_indices_app outputs (u0 ++ _)), !zsum_app, <- H4. cbn [map fst].
      rewrite (at_indices_hit _ _ _ _ Eo), !zsum_cons, T3. change (at_indices outputs []) with (@nil Credit).
      rewrite !zsum_nil. lia.
    + rewrite at_indices_app, !zsum_app, H5, zsum_cons, T4, zsum_nil. lia.
Qed.

Lemma search_loop_inv acc inputs outputs u0 sols : forall done st st',
  search_inv inputs outputs u0 done st ->
  outcome_fold (search_step self acc inputs outputs) st sols = Ok st' ->
  search_inv inputs outputs u0 (done ++ sols) st'.
Proof.
  induction sols as [|s sols IH]; intros done st st' Hi H; cbn in H; [injection H as <-; by rewrite app_nil_r|].
  apply outcome_bind_ok in H as (st1 & H1 & H). rewrite cons_middle, app_assoc.
  eapply IH; [|exact H]. by eapply search_step_inv.
Qed.

(** The targets and the unmatched outputs cover all outputs. *)
Lemma collect_targets_cover outputs : forall i targets unmatched,
  collect_targets i outputs = Ok (targets, unmatched) ->
  Permutation (unmatched ++ map snd targets) (seq i (length outputs)).
Proof.
  induction outputs as [|[bc o] outputs IH]; intros i targets unmatched H; cbn in H; [by injection H as <- <-|].
  destruct (memo_transaction_info _) as [[info amount]|].
  - apply outcome_bind_ok in H as (t & _ & H). apply outcome_bind_ok in H as ([ts um] & H1 & [= <- <-]).
    cbn. rewrite <- (IH _ _ _ H1). symmetry. apply Permutation_middle.
  - apply outcome_bind_ok in H as ([ts um] & H1 & [= <- <-]). cbn. by rewrite <- (IH _ _ _ H1).
Qed.

Lemma unmatched_shows acc inputs outputs unmatched txs :
  handle_unmatched_inputs_outputs self acc inputs outputs unmatched = Ok txs ->
  concat (map tx_outputs txs) = map (output_of OutputType_Standard) (at_indices outputs unmatched) /\
  concat (map tx_inputs txs) = map input_of inputs /\
  zsum tx_credit txs = zsum credit_value (at_indices outputs unmatched) /\
  zsum tx_debit txs = zsum (fun d => balance_debit d.1) inputs.
Proof.
  intros H. apply outcome_bind_ok in H as (received & Hr & H). apply outcome_bind_ok in H as (unpaired & Hu & [= <-]).
  destruct (mapM_shows _ _ _ _ _ _ _ (unpaired_shows acc) Hu) as (U1 & U2 & U3 & U4).
  assert (Hr' : outcome_mapM (received_transaction self acc) (at_indices outputs unmatched) = Ok received).
  { apply outcome_mapM_ok. apply outcome_mapM_ok in Hr. induction Hr as [|i tx l txs Hi _ IH]; [constructor|].
    apply outcome_bind_ok in Hi as (c & Hc & Hi). destruct (outputs !! i) eqn:E; [|done]. cbn in Hc. injection Hc as ->.
    rewrite (at_indices_hit _ _ _ _ E). by constructor. }
  destruct (mapM_shows _ _ _ _ _ _ _ (received_shows acc) Hr') as (R1 & R2 & R3 & R4).
  rewrite !map_app, !concat_app, !zsum_app, R1, R2, R3, R4, U1, U2, U3, U4.
  rewrite !concat_singletons, !concat_nils, !zsum_zero, app_nil_r. repeat split; try done; lia.
Qed.

(** The matching and what it leaves over show every output and input once. *)
Lemma search_inputs_partition acc inputs outputs txs :
  good_values (map debit_value inputs) -> (forall d, d ∈ inputs -> balance_debit d.1 = debit_value d) ->
  search_inputs self inputs outputs acc = Ok txs ->
  Permutation (concat (map tx_outputs txs)) (map (output_of OutputType_Standard) outputs) /\
  Permutation (concat (map tx_inputs txs)) (map input_of inputs) /\
  zsum tx_credit txs = zsum credit_value outputs /\
  zsum tx_debit txs = zsum debit_value inputs.
Proof.
  intros Hg Hbd H. apply outcome_bind_ok in H as ([targets u0] & Ht & H).
  pose proof (collect_targets_cover _ _ _ _ Ht) as Hcover.
  apply outcome_bind_ok in H as (sols & Hs & H).
  destruct (solve_back_track_solved (map debit_value inputs) targets Hg) as (ts & sols' & Hp & _ & He & Hsolved).
  change (map (fun d => wo_value (si_output d.2)) inputs) with (map debit_value inputs) in Hs.
  rewrite He in Hs. injection Hs as ->.
  apply outcome_bind_ok in H as ([[result used] unmatched] & Hloop & H).
  assert (Hinv : search_inv inputs outputs u0 sols (result, used, unmatched)).
  { eapply (search_loop_inv _ _ _ _ _ []); [|exact Hloop]. constructor; cbn; rewrite ?app_nil_r; try done; constructor. }
  destruct Hinv as [H1 H2 H3 H4 H5]; cbn in *.
  assert (Hall : Permutation (at_indices outputs (u0 ++ map fst sols)) outputs).
  { rewrite <- (at_indices_all outputs) at 2. apply at_indices_perm. rewrite <- Hcover.
    apply Permutation_app_head. rewrite (solved_targets _ _ _ _ Hsolved). by apply Permutation_map. }
  apply outcome_bind_ok in H as (rest & Hrest & H). apply outcome_bind_ok in H as (txs' & Htxs & [= <-]).
  assert (Hused : NoDup used) by (eapply sublist_NoDup; [|exact H3]; by eapply solved_disjoint).
  pose proof (remove_used_perm _ _ _ Hused Hrest) as Hrem.
  destruct (unmatched_shows _ _ _ _ _ Htxs) as (T1 & T2 & T3 & T4).
  assert (Hr : zsum (fun d => balance_debit d.1) rest = zsum debit_value rest).
  { apply zsum_ext. intros d Hd. apply Hbd. rewrite Hrem. set_solver. }
  rewrite !map_app, !concat_app, !zsum_app, T1, T2, T3, T4, H2, H5, Hr.
  split; [by rewrite H1, Hall|]. split; [by rewrite <- map_app, <- Hrem|].
  split; [by rewrite H4, (zsum_perm _ _ _ Hall)|]. by rewrite <- zsum_app, <- (zsum_perm _ _ _ Hrem).
Qed.

(** ** The whole block *)

(** Changes that no transaction on display shows yet. *)
Definition new_credit (current : list DisplayedTransaction) (c : Credit) : bool :=
  match List.find (shows_output (wo_output_hash (do_output c.2))) current with None => true | Some _ => false end.
Definition new_debit (current : list DisplayedTransaction) (d : Debit) : bool :=
  match List.find (shows_input (wo_output_hash (si_output d.2))) current with None => true | Some _ => false end.

(** [m] holds, under its id, an update of a transaction on display. *)
Definition updates_of (current : list DisplayedTransaction) (m : UpdateMap) : Prop :=
  forall k tx, (k, tx) ∈ m -> exists t0 h e, t0 ∈ current /\ tx = mined_update self h e t0 /\ k = dt_id t0.

Lemma elem_of_map_insert {A} k (v : A) m p : p ∈ map_insert k v m -> p = (k, v) \/ p ∈ m.
Proof.
  induction m as [|[k' v'] m IH]; cbn; [set_solver|]. destruct (k' =? k); [set_solver|].
  rewrite !elem_of_cons. intros [->|H]; [by right; left|]. destruct (IH H); auto.
Qed.

Lemma map_insert_keys {A} k (v : A) m x : x ∈ map fst (map_insert k v m) <-> x = k \/ x ∈ map fst m.
Proof.
  induction m as [|[k' v'] m IH]; cbn; [set_solver|]. destruct (Z.eqb_spec k' k) as [->|]; cbn.
  - set_solver.
  - rewrite elem_of_cons, IH. set_solver.
Qed.

(** One loop over changes: [find] looks for a transaction that shows the change. *)
Lemma update_loop {C} (find : C -> option DisplayedTransaction) (height date : C -> Z) current l : forall m0 new0,
  (forall c tx, find c = Some tx -> tx ∈ current) -> updates_of current m0 ->
  exists m, foldl (fun '(updated, new) c =>
      match find c with
      | Some tx => (map_insert (dt_id tx) (mined_update self (height c) (date c) tx) updated, new)
      | None => (updated, new ++ [c])
      end) (m0, new0) l
    = (m, new0 ++ List.filter (fun c => match find c with None => true | Some _ => false end) l) /\
  updates_of current m /\ (forall k, k ∈ map fst m0 -> k ∈ map fst m) /\
  (forall c tx, c ∈ l -> find c = Some tx -> dt_id tx ∈ map fst m).
Proof.
  induction l as [|c l IH]; intros m0 new0 Hin Hm; cbn [foldl List.filter].
  { exists m0. rewrite app_nil_r. repeat split; try done. set_solver. }
  destruct (find c) as [tx|] eqn:E; cbv beta iota.
  - destruct (IH (map_insert (dt_id tx) (mined_update self (height c) (date c) tx) m0) new0 Hin) as (m & He & H1 & H2 & H3).
    { intros k t [[= -> ->]|Ht]%elem_of_map_insert; [|by apply Hm]. exists tx, (height c), (date c). eauto. }
    exists m. split; [exact He|]. split; [done|]. split; [intros k Hk; apply H2, map_insert_keys; by right|].
    intros c' tx' [->|Hc]%elem_of_cons Hf; [|by eapply H3]. rewrite E in Hf. injection Hf as <-.
    apply H2, map_insert_keys. by left.
  - destruct (IH m0 (new0 ++ [c]) Hin Hm) as (m & He & H1 & H2 & H3). exists m. rewrite <- app_assoc in He.
    split; [exact He|]. split; [done|]. split; [done|].
    intros c' tx' [->|Hc]%elem_of_cons Hf; [congruence|by eapply H3].
Qed.

Lemma extract_rev_perm {A} (p : A -> bool) l removed rest :
  extract_rev p l = (removed, rest) -> Permutation removed (List.filter p l) /\ rest = List.filter (fun x => negb (p x)) l.
Proof.
  revert removed rest. induction l as [|x l IH]; intros removed rest H; cbn in H; [by injection H as <- <-|].
  destruct (extract_rev p l) as [rm rs]. destruct (IH _ _ eq_refl) as [Hp ->]. cbn.
  destruct (p x); cbn; injection H as <- <-; [|done]. split; [|done]. rewrite <- Hp. apply Permutation_app_comm.
Qed.

(** The type that a new transaction gives an output. *)
Definition shown_as (c : Credit) : TransactionOutput :=
  output_of (if is_coinbase_credit c then OutputType_Coinbase else OutputType_Standard) c.

Lemma foldl_ext {A B} (f g : B -> A -> B) (l : list A) b :
  (forall b a, f b a = g b a) -> foldl f b l = foldl g b l.
Proof. intros H. revert b. induction l as [|a l IH]; intros b; cbn; [done|]. by rewrite H, IH. Qed.

Lemma find_shows_in (p : DisplayedTransaction -> bool) current tx : List.find p current = Some tx -> tx ∈ current.
Proof. intros H%find_some. rewrite list_elem_of_In. tauto. Qed.

Lemma output_loop_ok current credits :
  exists m, output_loop self current credits = (m, List.filter (new_credit current) credits) /\
  updates_of current m /\
  (forall c tx, c ∈ credits -> List.find (shows_output (wo_output_hash (do_output c.2))) current = Some tx ->
    dt_id tx ∈ map fst m).
Proof.
  destruct (update_loop (fun c : Credit => List.find (shows_output (wo_output_hash (do_output c.2))) current)
    (fun c => do_height c.2) (fun c => effective_date c.1) current credits [] []) as (m & He & H1 & _ & H3).
  - intros c tx. apply find_shows_in.
  - intros k tx Hk. by apply elem_of_nil in Hk.
  - exists m. split; [|done]. etransitivity; [|exact He]. unfold output_loop. apply foldl_ext. by intros [] [].
Qed.

Lemma input_loop_ok current m0 debits :
  updates_of current m0 ->
  exists m, input_loop self current m0 debits = (m, List.filter (new_debit current) debits) /\
  updates_of current m /\ (forall k, k ∈ map fst m0 -> k ∈ map fst m) /\
  (forall d tx, d ∈ debits -> List.find (shows_input (wo_output_hash (si_output d.2))) current = Some tx ->
    dt_id tx ∈ map fst m).
Proof.
  intros Hm0. destruct (update_loop (fun d : Debit => List.find (shows_input (wo_output_hash (si_output d.2))) current)
    (fun d => mined_in_block_height d.2) (fun d => effective_date d.1) current debits m0 []) as (m & He & H1 & H2 & H3).
  - intros d tx. apply find_shows_in.
  - done.
  - exists m. split; [|done]. etransitivity; [|exact He]. unfold input_loop. apply foldl_ext. by intros [] [].
Qed.

(** Coinbases and received outputs are taken out before the matching. *)
Lemma coinbase_split {B} (f g : Credit -> B) (l : list Credit) :
  Permutation (map f (List.filter is_coinbase_credit l) ++ map g (List.filter (fun c => negb (is_coinbase_credit c)) l))
    (map (fun c => if is_coinbase_credit c then f c else g c) l).
Proof.
  induction l as [|c l IH]; [done|]. cbn. destruct (is_coinbase_credit c); cbn; rewrite <- IH; [done|].
  symmetry. apply Permutation_middle.
Qed.

Lemma filter_split_perm {A} (p : A -> bool) (l : list A) :
  Permutation (List.filter p l ++ List.filter (fun x => negb (p x)) l) l.
Proof.
  induction l as [|x l IH]; [done|]. cbn. destruct (p x); cbn; [by rewrite IH|].
  rewrite <- Permutation_middle. by rewrite IH.
Qed.

Lemma updated_keys current m k :
  updates_of current m -> k ∈ map fst m -> exists tx, tx ∈ map snd m /\ dt_id tx = k.
Proof.
  intros Hm ((k' & tx) & -> & Hin)%list_elem_of_fmap. exists tx.
  split; [by apply (list_elem_of_fmap_2 snd) in Hin|]. cbn.
  destruct (Hm _ _ Hin) as (t0 & h & e & _ & -> & ->). unfold mined_update.
  by destruct (calculate_status_and_confirmations self h).
Qed.

(** C36: no change of a block is lost or shown twice.  The processor's new transactions
    show, together, each credit and each debit that no displayed transaction shows
    yet, exactly once, and their credited and debited totals are the sums of these
    changes; every other change leads to an updated transaction that keeps all
    but the status and the block of one on display. *)
Theorem display_partition acc current updated new :
  good_values (map debit_value (List.filter (new_debit current) (debit_balance_changes acc))) ->
  (forall d, d ∈ debit_balance_changes acc -> balance_debit d.1 = debit_value d) ->
  create_new_updated_display_transactions self acc current = Ok (updated, new) ->
  let credits := List.filter (new_credit current) (credit_balance_changes acc) in
  let debits := List.filter (new_debit current) (debit_balance_changes acc) in
  Permutation (concat (map tx_outputs new)) (map shown_as credits) /\
  Permutation (concat (map tx_inputs new)) (map input_of debits) /\
  zsum tx_credit new = zsum credit_value credits /\
  zsum tx_debit new = zsum debit_value debits /\
  (forall tx, tx ∈ updated -> exists t0 h e, t0 ∈ current /\ tx = mined_update self h e t0) /\
  (forall c t0, c ∈ credit_balance_changes acc ->
     List.find (shows_output (wo_output_hash (do_output c.2))) current = Some t0 ->
     exists tx, tx ∈ updated /\ dt_id tx = dt_id t0) /\
  (forall d t0, d ∈ debit_balance_changes acc ->
     List.find (shows_input (wo_output_hash (si_output d.2))) current = Some t0 ->
     exists tx, tx ∈ updated /\ dt_id tx = dt_id t0).
Proof.
  intros Hg Hbd H credits debits. unfold create_new_updated_display_transactions in H.
  destruct (output_loop_ok current (credit_balance_changes acc)) as (m1 & E1 & U1 & C1). rewrite E1 in H.
  destruct (input_loop_ok current m1 (debit_balance_changes acc) U1) as (m & E2 & U2 & K2 & D2). rewrite E2 in H.
  fold credits debits in H. set (sorted := sort_by (fun a b : Debit => wo_value (si_output a.2) <=? wo_value (si_output b.2)) debits) in H.
  assert (Hsorted : Permutation sorted debits) by apply sort_by_perm.
  destruct (extract_rev is_coinbase_credit credits) as [coinbases others] eqn:Ec.
  apply extract_rev_perm in Ec as [Pc ->]. apply outcome_bind_ok in H as (ctxs & Hctxs & H).
  destruct (extract_rev is_received_credit _) as [received change] eqn:Er.
  apply extract_rev_perm in Er as [Pr ->]. apply outcome_bind_ok in H as (rtxs & Hrtxs & H).
  apply outcome_bind_ok in H as (stxs & Hstxs & [= <- <-]).
  apply search_inputs_partition in Hstxs as (S1 & S2 & S3 & S4).
  2:{ by eapply good_values_perm; [apply Permutation_map; symmetry|]. }
  2:{ intros d Hd. apply Hbd. apply (elem_of_Permutation_proper d _ _ Hsorted) in Hd.
    by apply elem_of_filter_bool in Hd as []. }
  destruct (mapM_shows _ _ _ _ _ _ _ (coinbase_shows acc) Hctxs) as (X1 & X2 & X3 & X4).
  destruct (mapM_shows _ _ _ _ _ _ _ (received_shows acc) Hrtxs) as (R1 & R2 & R3 & R4).
  rewrite concat_singletons in X1, R1. rewrite concat_nils in X2, R2. rewrite zsum_zero in X4, R4.
  rewrite !map_app, !concat_app, !zsum_app, X1, X2, X3, X4, R1, R2, R3, R4, S1, S2, S3, S4.
  split; [|split; [exact (Permutation_map input_of Hsorted)|split; [|split; [exact (zsum_perm debit_value _ _ Hsorted)|]]]].
  - rewrite Pc, Pr, <- map_app, filter_split_perm. etransitivity; [apply coinbase_split|].
    rewrite (map_ext _ shown_as); [done|]. intros c. unfold shown_as. by destruct (is_coinbase_credit c).
  - rewrite (zsum_perm _ _ _ Pc), (zsum_perm _ _ _ Pr), <- zsum_app, (zsum_perm _ _ _ (filter_split_perm _ _)).
    symmetry. apply zsum_filter_add.
  - assert (Hu : forall tx, tx ∈ hash_order (map snd m) <-> tx ∈ map snd m) by (intros; by rewrite hash_order_perm).
    assert (Hk : forall k, k ∈ map fst m -> exists tx, tx ∈ hash_order (map snd m) /\ dt_id tx = k).
    { intros k Hk. destruct (updated_keys _ _ _ U2 Hk) as (tx & Htx & Hid). exists tx. by rewrite Hu. }
    split; [|split].
    + intros tx Htx%Hu. apply list_elem_of_fmap in Htx as ((k & t) & -> & Hin).
      destruct (U2 _ _ Hin) as (t0 & h & e & H1 & H2 & _). eauto.
    + intros c t0 Hc Hf. apply Hk, K2. by eapply C1.
    + intros d t0 Hd Hf. apply Hk. by eapply D2.
Qed.

End Display.

(** ** Examples *)
Module DisplayExamples.
Import Demo.

(** A coinbase, a received output, and a change output of a payment of 60 with a
    fee of 5 out of the two inputs of 70 and 30. *)
Definition coinbase : output := mkOutput 500 "cb" true false "" None None.
Definition received : output := mkOutput 20 "rc" false false "" None None.
Definition change : output := mkOutput 35 "ch" false false "" (Some 5) (Some ("bob", 60)).
Definition spent70 : output := mkOutput 70 "s70" false false "" None None.
Definition spent30 : output := mkOutput 30 "s30" false false "" None None.
Definition spent9 : output := mkOutput 9 "s9" false false "" None None.

Definition block : BlockScanResult := mkBlockScanResult 20 "block20" [] [] 1000.
Definition credit (id : Z) (o : output) : BalanceChange * DetectedOutput :=
  (make_balance_change_for_output 1000 1 id 1000 20 o, mkDetectedOutput 20 "block20" o).
Definition debit (id : Z) (o : output) : BalanceChange * SpentInput :=
  (input_balance_change 1000 1 id (value o) block, mkSpentInput id "block20" 20 o).

Definition changes : BlockEventAccumulator :=
  mkBlockEventAccumulator 1 20 "block20" [debit 1 spent70; debit 2 spent9; debit 3 spent30]
    [credit 4 coinbase; credit 5 received; credit 6 change].
Definition display : DisplayedTransactionProcessor := mkProcessor 20 3 "viewkey".
Definition displayed := create_new_updated_display_transactions display changes [].
Definition displayed_new : list DisplayedTransaction := snd (result_or ([], []) displayed).

Lemma displayed_ok : create_new_updated_display_transactions display changes [] = Ok ([], displayed_new).
Proof. vm_compute. reflexivity. Qed.

(** Four transactions; the change output is matched with the inputs of 30 and 70. *)
Example displayed_values :
  map (fun tx => (amount tx, bool_decide (direction tx = Incoming), length (tx_inputs tx))) displayed_new
  = [(500, true, 0%nat); (20, true, 0%nat); (65, false, 2%nat); (9, false, 1%nat)].
Proof. vm_compute. reflexivity. Qed.

Lemma backtrack_subset_correct_witness : exists r, backtrack_subset [0; 1; 2]%nat [1; 2; 3] 5 = Ok r.
Proof.
  destruct (backtrack_subset_correct [0; 1; 2]%nat [1; 2; 3] 5) as (r & H & _).
  - apply (bool_decide_unpack _). vm_compute. reflexivity.
  - intros i Hi. repeat (apply elem_of_cons in Hi as [->|Hi]; [cbn; lia|]). by apply elem_of_nil in Hi.
  - split; [|vm_compute; discriminate]. intros v Hv. repeat (apply elem_of_cons in Hv as [->|Hv]; [unfold is_u64, two64; lia|]).
    by apply elem_of_nil in Hv.
  - exists r. exact H.
Defined.

Lemma small_values : good_values [70; 9; 30].
Proof.
  split; [|vm_compute; discriminate]. intros v Hv.
  repeat (apply elem_of_cons in Hv as [->|Hv]; [unfold is_u64, two64; lia|]). by apply elem_of_nil in Hv.
Qed.

Lemma solve_back_track_correct_witness : exists result, solve_back_track [70; 9; 30] [(100, 6%nat)] = Ok result.
Proof.
  destruct (solve_back_track_correct [70; 9; 30] [(100, 6%nat)] small_values) as (ts & result & _ & _ & H & _).
  exists result. exact H.
Defined.

Lemma display_partition_witness :
  Permutation (concat (map tx_inputs displayed_new)) (map input_of (debit_balance_changes changes)).
Proof.
  refine (proj1 (proj2 (display_partition display changes [] [] displayed_new _ _ displayed_ok))).
  - exact small_values.
  - intros d Hd. repeat (apply elem_of_cons in Hd as [->|Hd]; [reflexivity|]). by apply elem_of_nil in Hd.
Defined.

End DisplayExamples.
