(* ===== verification/MonitorTheory.v ===== *)
(** * The life of an outbound transaction

    What one pass of the monitor does to the completed transactions: each moves to its
    next state, which depends on the row, the height and the answers of the node. *)
From S2P Require Import Prelude Models DisplayTypes External Schema OutputsDb EventsDb CompletedDb.
From S2P Require Import DisplayedDb AccountsDb Webhooks Processor Scanning BlockProc Reorg InputSelector.
From S2P Require Import FundLocker Monitor Manager Ledger Wallet.
#[local] Open Scope Z_scope.

Section MonitorRows.
Context {X : Ext} {C : TxClient}.
Context (self : TransactionMonitor) (acc height : Z).

(** What a run of the monitor makes of a row that is read as [tx]. *)
Definition next_state (now : Z) (tx : CompletedTransaction) (c : CompletedRow) : CompletedRow :=
  match ct_status tx with
  | CTS.Completed =>
      if broadcast_attempts tx >=? MAX_BROADCAST_ATTEMPTS
      then set_rejected ("Exceeded " +:+ pretty MAX_BROADCAST_ATTEMPTS +:+ " broadcast attempts") now c
      else
        match broadcast_transaction tx with
        | Ok _ => set_broadcast (broadcast_attempts tx + 1) now c
        | Err reason => set_rejected reason now c
        | Panic _ => c
        end
  | CTS.Broadcast =>
      match find_kernel_on_chain tx with
      | Ok (Some (block_height, block_hash)) => set_mined (as_i64 block_height) block_hash now c
      | _ => c
      end
  | CTS.MinedUnconfirmed =>
      match CompletedDb.mined_height tx with
      | Some h =>
          if tm_required_confirmations self <=? u64_saturating_sub height (as_u64 h) then
            match payref_of tx with
            | Ok payref => set_mined_confirmed (as_i64 height) payref now c
            | _ => c
            end
          else c
      | None => c
      end
  | CTS.MinedConfirmed | CTS.Rejected | CTS.Canceled => c
  end.

Definition monitor_next (now : Z) (c : CompletedRow) : CompletedRow :=
  if c_account_id c =? acc then
    match map_row c with
    | Ok tx => next_state now tx c
    | _ => c
    end
  else c.

(** The row [c] when those with the ids [todo] are still to be processed. *)
Definition progress_row (now : Z) (todo : list Z) (c : CompletedRow) : CompletedRow :=
  if bool_decide (c_id c ∈ todo) then c else monitor_next now c.

Lemma next_id now c : c_id (monitor_next now c) = c_id c.
Proof.
  unfold monitor_next. destruct (_ =? _); [|done]. destruct (map_row c) as [tx| |]; [|done..]. unfold next_state.
  by repeat match goal with |- context [match ?x with _ => _ end] => destruct x end.
Qed.

Lemma progress_id now todo c : c_id (progress_row now todo c) = c_id c.
Proof. unfold progress_row. destruct (bool_decide _); [done|apply next_id]. Qed.

Lemma next_read now c tx : c_account_id c = acc -> map_row c = Ok tx -> monitor_next now c = next_state now tx c.
Proof. intros Ha Hm. unfold monitor_next. by rewrite Ha, Z.eqb_refl, Hm. Qed.

(** ** The invariant of a pass *)

(** What a pass reads of its transactions and of the clock. *)
Definition view (d : Db) : Table CompletedRow * Z := (completed_transactions d, clock d).

(** The id column of a transaction read from a row. *)
Definition row_id (tx : CompletedTransaction) : Z := as_i64 (ct_id tx).

(** [tx] was read from a row of the account at the start of the pass. *)
Definition reads (d0 : Db) (tx : CompletedTransaction) : Prop :=
  exists c, c ∈ rows (completed_transactions d0) /\ map_row c = Ok tx /\ c_account_id c = acc.

(** The rows of [left] are as at the start, and the others are done. *)
Definition progress_at (d0 : Db) (left : list Z) (d : Db) : Prop :=
  clock d = clock d0 /\
  rows (completed_transactions d) = map (progress_row (clock d0) left) (rows (completed_transactions d0)).

Definition pass (d0 : Db) (todo : list CompletedTransaction) (d : Db) : Prop :=
  NoDup (map row_id todo) /\ (forall tx, tx ∈ todo -> reads d0 tx) /\ progress_at d0 (map row_id todo) d.

Definition pass_over (d0 : Db) (d : Db) : Prop := exists left, progress_at d0 left d.

Lemma pass_end d0 todo d : pass d0 todo d -> pass_over d0 d.
Proof. intros (_ & _ & H). by eexists. Qed.

Lemma row_id_of d c tx : wallet_ok d -> c ∈ rows (completed_transactions d) -> map_row c = Ok tx -> row_id tx = c_id c.
Proof.
  intros (_ & _ & [Hrows _] & _) Hc Hm. pose proof (map_row_id _ _ Hm) as (Hid & _ & _).
  unfold row_id. rewrite Hid. rewrite Forall_forall in Hrows. apply as_i64_as_u64, (Hrows c Hc).
Qed.

(** The rows are done one by one: [f] does the row of the first transaction. *)
Lemma progress_next d0 tx todo f :
  wallet_ok d0 -> NoDup (map row_id (tx :: todo)) -> reads d0 tx ->
  (forall c, c_account_id c = acc -> map_row c = Ok tx -> f c = monitor_next (clock d0) c) ->
  update_rows (has_tx_id (ct_id tx)) f
    (map (progress_row (clock d0) (map row_id (tx :: todo))) (rows (completed_transactions d0)))
  = map (progress_row (clock d0) (map row_id todo)) (rows (completed_transactions d0)).
Proof.
  intros Hok Hn (c0 & Hc0 & Hm & Hacc) Hf. pose proof (row_id_of _ _ _ Hok Hc0 Hm) as Hrow.
  destruct Hok as (_ & _ & [_ Hids] & _). cbn in Hn. apply NoDup_cons in Hn as [Hx Hn].
  unfold update_rows. rewrite map_map. apply map_ext_in. intros c Hc%list_elem_of_In.
  unfold has_tx_id. rewrite progress_id. fold (row_id tx). unfold progress_row. cbn [map].
  destruct (Z.eqb_spec (c_id c) (row_id tx)) as [He|He].
  - assert (c = c0) as -> by (apply (unique_row _ _ _ c c0 Hids); congruence). rewrite He.
    rewrite bool_decide_true by (by left). rewrite bool_decide_false by done. by apply Hf.
  - erewrite bool_decide_ext; [done|]. rewrite elem_of_cons. naive_solver.
Qed.

(** Updating the row of the next transaction by a step of the life cycle. *)
Lemma pass_step d0 tx todo f :
  wallet_ok d0 ->
  (forall c, c_account_id c = acc -> map_row c = Ok tx -> f (clock d0) c = monitor_next (clock d0) c) ->
  runs (pass d0 (tx :: todo)) (update_completed (has_tx_id (ct_id tx)) f) (pass d0 todo) (pass_over d0).
Proof.
  intros Hok Hf. apply runs_modify; [|by apply pass_end].
  intros d (Hn & Hr & Hclock & Hp). split; [by apply NoDup_cons in Hn as [_ ?]|]. split; [intros; apply Hr; by right|].
  split; [done|]. cbn. rewrite Hp, Hclock. by apply progress_next; [..|apply Hr; left|].
Qed.

(** The first transaction is done without a step. *)
Lemma pass_skip d0 tx todo d :
  wallet_ok d0 ->
  (forall c, c_account_id c = acc -> map_row c = Ok tx -> monitor_next (clock d0) c = c) ->
  pass d0 (tx :: todo) d -> pass d0 todo d.
Proof.
  intros Hok Hf (Hn & Hr & Hclock & Hp). split; [by apply NoDup_cons in Hn as [_ ?]|]. split; [intros; apply Hr; by right|].
  split; [done|]. rewrite Hp, <- (progress_next d0 tx todo id Hok Hn); [|apply Hr; left|intros; by rewrite Hf].
  unfold update_rows. symmetry. rewrite map_map. apply map_ext. intros c. by destruct (has_tx_id _ _).
Qed.

Lemma preserves_pass (d0 : Db) todo {A E} (m : M Db E A) :
  frames view m -> runs (pass d0 todo) m (pass d0 todo) (pass_over d0).
Proof.
  intros Hm. apply runs_preserves; [|by apply pass_end]. intros d (Hn & Hr & Hp). specialize (Hm d).
  injection Hm as H1 H2. split; [done|]. split; [done|]. unfold progress_at in *. by rewrite H1, H2.
Qed.

(** ** One transaction *)
Lemma frames_persist e : frames view (persist_event self acc e).
Proof. unfold persist_event, any_db. solve_preserves. Qed.

Lemma frames_ret_any {A} (a : A) : frames view (ret (E := AnyError) a).
Proof. solve_preserves. Qed.

Section Pass.
Context (d0 : Db) (Hok : wallet_ok d0).

(** What the grouping knows of the transactions of a list. *)
Definition in_status (st : CTS.t) (tx : CompletedTransaction) : Prop := ct_status tx = st.

Lemma runs_reject tx todo reason descr :
  (forall c, next_state (clock d0) tx c = set_rejected reason (clock d0) c) ->
  runs (pass d0 (tx :: todo)) (reject_transaction self acc tx reason descr) (pass d0 todo) (pass_over d0).
Proof.
  intros Hr. unfold reject_transaction. eapply runs_bind.
  { apply runs_map_err. apply pass_step; [done|]. intros c Ha Hm. by rewrite (next_read _ _ _ Ha Hm), Hr. }
  intros ?. apply preserves_pass. pose proof frames_persist.
  unfold unlock_outputs_for_request, update_outputs, any_db. solve_preserves.
Qed.

Lemma runs_rebroadcast tx todo :
  in_status CTS.Completed tx ->
  runs (pass d0 (tx :: todo)) (rebroadcast_one self acc tx) (pass d0 todo) (pass_over d0).
Proof.
  unfold in_status. intros Hs. unfold rebroadcast_one. destruct (broadcast_attempts tx >=? MAX_BROADCAST_ATTEMPTS) eqn:Ea.
  { apply runs_reject. intros c. unfold next_state. by rewrite Hs, Ea. }
  destruct (broadcast_transaction tx) as [[]|reason|msg] eqn:Eb.
  - eapply runs_bind.
    { apply runs_map_err. apply (pass_step d0 tx todo (set_broadcast (broadcast_attempts tx + 1))); [done|].
      intros c Ha Hm. rewrite (next_read _ _ _ Ha Hm). unfold next_state. by rewrite Hs, Ea, Eb. }
    intros ?. apply preserves_pass. pose proof frames_persist. solve_preserves.
  - apply runs_reject. intros c. unfold next_state. by rewrite Hs, Ea, Eb.
  - intros d r d' Hd H. injection H as <- <-. split; [by eapply pass_end|done].
Qed.

Lemma runs_skip {A E} tx todo (m : M Db E A) :
  (forall c, next_state (clock d0) tx c = c) ->
  frames view m -> runs (pass d0 (tx :: todo)) m (pass d0 todo) (pass_over d0).
Proof.
  intros Hn Hm. eapply runs_conseq; [by apply preserves_pass| |done]. intros d. apply pass_skip; [done|].
  intros c Ha Hr. by rewrite (next_read _ _ _ Ha Hr).
Qed.

Lemma runs_fails {A B E} todo todo' (r : outcome E A) (k : A -> M Db E B) :
  match r with Ok _ => False | _ => True end -> runs (pass d0 todo) (bind (lift r) k) (pass d0 todo') (pass_over d0).
Proof. intros Hr d r' d' Hd H. destruct r; [done|..]; injection H as <- <-; (split; [by eapply pass_end|done]). Qed.

Lemma runs_mined tx todo :
  in_status CTS.Broadcast tx ->
  runs (pass d0 (tx :: todo)) (check_one_mined self acc tx) (pass d0 todo) (pass_over d0).
Proof.
  unfold in_status. intros Hs. unfold check_one_mined. pose proof frames_persist.
  destruct (find_kernel_on_chain tx) as [[[h b]|]|e|msg] eqn:Ek; [| |by apply runs_fails..].
  - rewrite bind_lift_ok. cbn zeta. eapply runs_bind; [|intros ?; apply preserves_pass; solve_preserves].
    apply runs_map_err, pass_step; [done|]. intros c Ha Hm. rewrite (next_read _ _ _ Ha Hm). unfold next_state.
    by rewrite Hs, Ek.
  - rewrite bind_lift_ok. apply runs_skip; [|solve_preserves]. intros c. unfold next_state. by rewrite Hs, Ek.
Qed.

Lemma runs_confirmed tx todo :
  in_status CTS.MinedUnconfirmed tx ->
  runs (pass d0 (tx :: todo)) (check_one_confirmed self acc height tx) (pass d0 todo) (pass_over d0).
Proof.
  unfold in_status. intros Hs. unfold check_one_confirmed. pose proof frames_persist.
  destruct (CompletedDb.mined_height tx) as [h|] eqn:Eh.
  2: { apply runs_skip; [|solve_preserves]. intros c. unfold next_state. by rewrite Hs, Eh. }
  cbn zeta. rewrite Z.geb_leb. destruct (_ <=? _) eqn:Ec.
  2: { apply runs_skip; [|solve_preserves]. intros c. unfold next_state. by rewrite Hs, Eh, Ec. }
  destruct (payref_of tx) as [payref|e|msg] eqn:Ep; [|by apply runs_fails..].
  rewrite bind_lift_ok. cbn zeta.
  eapply runs_bind; [|intros ?; apply preserves_pass; solve_preserves].
  apply runs_map_err, pass_step; [done|]. intros c Ha Hm. rewrite (next_read _ _ _ Ha Hm). unfold next_state.
  by rewrite Hs, Eh, Ec, Ep.
Qed.

(** ** The pass *)
Lemma runs_process_pending by_status :
  Forall (in_status CTS.Completed) (completed by_status) ->
  Forall (in_status CTS.Broadcast) (broadcast by_status) ->
  Forall (in_status CTS.MinedUnconfirmed) (mined_unconfirmed by_status) ->
  runs (pass d0 (completed by_status ++ broadcast by_status ++ mined_unconfirmed by_status))
    (process_pending_transactions self acc height by_status) (pass d0 []) (pass_over d0).
Proof.
  rewrite !Forall_forall. intros Hc Hb Hm. unfold process_pending_transactions.
  assert (Hend : forall k s, pass d0 k s -> pass_over d0 s) by apply pass_end.
  eapply runs_bind.
  { unfold rebroadcast_completed_transactions.
    apply (runs_fold_m (fun k => pass d0 (k ++ broadcast by_status ++ mined_unconfirmed by_status))); [eauto|].
    intros b tx k Htx. eapply runs_bind; [cbn; apply runs_rebroadcast; auto|].
    intros r. apply preserves_pass, frames_ret_any. }
  intros rb. cbn zeta. eapply runs_bind.
  { unfold check_broadcast_for_mining.
    apply (runs_fold_m (fun k => pass d0 (k ++ mined_unconfirmed by_status))); [eauto|].
    intros b tx k Htx. eapply runs_bind; [cbn; apply runs_mined; auto|].
    intros r. apply preserves_pass, frames_ret_any. }
  intros be. cbn zeta. eapply runs_bind; [|intros ce; apply preserves_pass, frames_ret_any].
  unfold check_confirmation_status. cbn.
  apply (runs_fold_m (fun k => pass d0 k)); [eauto|]. intros b tx k Htx.
  eapply runs_bind; [apply runs_confirmed; auto|]. intros r. apply preserves_pass, frames_ret_any.
Qed.

End Pass.

(** ** Grouping *)
Definition status_is (st : CTS.t) (tx : CompletedTransaction) : bool := bool_decide (ct_status tx = st).

Lemma from_transactions_filter l :
  completed (from_transactions l) = List.filter (status_is CTS.Completed) l /\
  broadcast (from_transactions l) = List.filter (status_is CTS.Broadcast) l /\
  mined_unconfirmed (from_transactions l) = List.filter (status_is CTS.MinedUnconfirmed) l.
Proof.
  unfold from_transactions. enough (forall r,
    completed (foldl push_by_status r l) = completed r ++ List.filter (status_is CTS.Completed) l /\
    broadcast (foldl push_by_status r l) = broadcast r ++ List.filter (status_is CTS.Broadcast) l /\
    mined_unconfirmed (foldl push_by_status r l)
      = mined_unconfirmed r ++ List.filter (status_is CTS.MinedUnconfirmed) l) as H by apply (H (mkByStatus [] [] [])).
  induction l as [|tx l IH]; intros r; cbn; [by rewrite !app_nil_r|].
  destruct (IH (push_by_status r tx)) as (-> & -> & ->). unfold push_by_status, status_is.
  destruct (ct_status tx); cbn; rewrite <- ?app_assoc; done.
Qed.

Lemma filter_status st l : Forall (in_status st) (List.filter (status_is st) l).
Proof.
  rewrite Forall_forall. intros tx [_ H]%elem_of_filter_bool. by apply bool_decide_eq_true_1 in H.
Qed.

Lemma groups_distinct l :
  NoDup (map row_id l) ->
  NoDup (map row_id (List.filter (status_is CTS.Completed) l ++ List.filter (status_is CTS.Broadcast) l
    ++ List.filter (status_is CTS.MinedUnconfirmed) l)).
Proof.
  intros Hn. rewrite !map_app.
  assert (Hdis : forall s1 s2 x, s1 <> s2 -> x ∈ map row_id (List.filter (status_is s1) l) ->
    x ∉ map row_id (List.filter (status_is s2) l)).
  { intros s1 s2 x Hne (t1 & -> & [H1 S1]%elem_of_filter_bool)%list_elem_of_fmap
      (t2 & He & [H2 S2]%elem_of_filter_bool)%list_elem_of_fmap.
    assert (t1 = t2) as -> by (by apply (NoDup_map_eq row_id l)).
    apply bool_decide_eq_true_1 in S1, S2. congruence. }
  apply NoDup_app. split; [by apply NoDup_map_filter|]. split.
  - intros x Hx [H|H]%elem_of_app; by eapply Hdis in H.
  - apply NoDup_app. split; [by apply NoDup_map_filter|]. split; [|by apply NoDup_map_filter].
    intros x Hx H. by eapply Hdis in H.
Qed.

(** The transactions that a pass reads: those of the account whose status is not final. *)
Lemma pending_rows d l d' :
  wallet_ok d -> get_pending_completed_transactions acc d = (Ok l, d') ->
  d' = d /\ NoDup (map row_id l) /\ (forall tx, tx ∈ l -> reads d tx) /\
  forall c tx, c ∈ rows (completed_transactions d) -> c_account_id c = acc -> map_row c = Ok tx ->
    is_final (c_status c) = false -> tx ∈ l.
Proof.
  intros Hok H. pose proof Hok as (_ & _ & [_ Hids] & _). unfold get_pending_completed_transactions in H.
  apply bind_ok_inv in H as (x0 & s0 & H0 & H). injection H0 as <- <-. injection H as H <-. unfold id in H.
  apply map_rows_ok in H. split; [done|]. set (sel := select _ _) in H. set (le := fun a b : CompletedRow => c_created_at a <=? c_created_at b) in H.
  assert (Hin : forall c, c ∈ sort_by le sel <->
    c ∈ rows (completed_transactions d) /\ c_account_id c = acc /\ is_final (c_status c) = false).
  { intros c. rewrite elem_of_sort_by. unfold sel, select. rewrite elem_of_filter_bool, andb_true_iff, Z.eqb_eq, negb_true_iff. tauto. }
  split; [|split].
  - replace (map row_id l) with (map c_id (sort_by le sel)).
    + rewrite sort_by_perm. apply NoDup_map_filter. unfold unique_index, select in Hids. by rewrite filter_all in Hids.
    + assert (Hrows : forall c, c ∈ sort_by le sel -> c ∈ rows (completed_transactions d)) by (intros c Hc; by apply Hin).
      clear -H Hok Hrows. induction H as [|c tx cs l Hm _ IH]; [done|]. cbn. rewrite IH by (intros; apply Hrows; by right).
      by rewrite (row_id_of d c tx Hok (Hrows c ltac:(left)) Hm).
  - intros tx (i & Hi)%list_elem_of_lookup. destruct (Forall2_lookup_r _ _ _ _ _ H Hi) as (c & Hc & Hm).
    apply list_elem_of_lookup_2, Hin in Hc as (Hc & Ha & _). by exists c.
  - intros c tx Hc Ha Hm Hf. assert (c ∈ sort_by le sel) as (i & Hi)%list_elem_of_lookup by (by apply Hin).
    destruct (Forall2_lookup_l _ _ _ _ _ H Hi) as (tx' & Htx & Hm'). rewrite Hm in Hm'. injection Hm' as <-.
    by eapply list_elem_of_lookup_2.
Qed.

Lemma reads_status tx c : map_row c = Ok tx -> c_status c = CTS.to_string (ct_status tx).
Proof. intros H. pose proof (map_row_id _ _ H) as (_ & _ & Hs). by rewrite Hs. Qed.

(** The three groups, in the order in which they are processed. *)
Definition in_groups (l : list CompletedTransaction) : list CompletedTransaction :=
  completed (from_transactions l) ++ broadcast (from_transactions l) ++ mined_unconfirmed (from_transactions l).

Lemma elem_of_groups l tx : tx ∈ in_groups l <-> tx ∈ l /\
  (ct_status tx = CTS.Completed \/ ct_status tx = CTS.Broadcast \/ ct_status tx = CTS.MinedUnconfirmed).
Proof.
  unfold in_groups. destruct (from_transactions_filter l) as (-> & -> & ->).
  rewrite !elem_of_app, !elem_of_filter_bool. unfold status_is. rewrite !bool_decide_eq_true. tauto.
Qed.

(** Before the pass, the rows that it does not read are done. *)
Lemma pass_start d l d' :
  wallet_ok d -> get_pending_completed_transactions acc d = (Ok l, d') -> d' = d /\ pass d (in_groups l) d.
Proof.
  intros Hok H. destruct (pending_rows _ _ _ Hok H) as (-> & Hn & Hr & Hall). split; [done|]. split; [|split].
  - unfold in_groups. destruct (from_transactions_filter l) as (-> & -> & ->). by apply groups_distinct.
  - intros tx Htx. apply Hr. by apply elem_of_groups in Htx as [? _].
  - split; [done|]. rewrite <- (map_id (rows (completed_transactions d))) at 1. apply map_ext_in. intros c Hc%list_elem_of_In.
    unfold progress_row. destruct (bool_decide_reflect (c_id c ∈ map row_id (in_groups l))) as [|Hni]; [done|].
    unfold monitor_next. destruct (Z.eqb_spec (c_account_id c) acc) as [Ha|]; [|done].
    destruct (map_row c) as [tx| |] eqn:Hm; [|done..].
    assert (Hgroup : ct_status tx = CTS.Completed \/ ct_status tx = CTS.Broadcast \/ ct_status tx = CTS.MinedUnconfirmed -> False).
    { intros Hs. apply Hni. rewrite <- (row_id_of d c tx Hok Hc Hm). apply list_elem_of_fmap_2, elem_of_groups. split; [|done].
      apply (Hall c tx Hc Ha Hm). rewrite (reads_status _ _ Hm). by destruct Hs as [-> |[-> | ->]]. }
    unfold next_state. destruct (ct_status tx); naive_solver.
Qed.

(** Nothing was done. *)
Lemma progress_none now l : map (progress_row now (map c_id l)) l = l.
Proof.
  rewrite <- (map_id l) at 3. apply map_ext_in. intros c Hc%list_elem_of_In. unfold progress_row.
  rewrite bool_decide_true; [done|]. by apply list_elem_of_fmap_2.
Qed.

Lemma progress_done now l : map (progress_row now []) l = map (monitor_next now) l.
Proof. apply map_ext. intros c. unfold progress_row. rewrite bool_decide_false; [done|apply not_elem_of_nil]. Qed.

(** The pass of [monitor_if_needed]. *)
Lemma monitor_pass d l r d' :
  wallet_ok d -> pass d (in_groups l) d ->
  process_pending_transactions self acc height (from_transactions l) d = (r, d') ->
  pass_over d d' /\ (is_ok r = true -> progress_at d [] d').
Proof.
  intros Hok Hp H. destruct (from_transactions_filter l) as (Fc & Fb & Fm).
  destruct (fun H1 H2 H3 => runs_process_pending d Hok (from_transactions l) H1 H2 H3 d r d' Hp H) as [Hend Hdone];
    rewrite ?Fc, ?Fb, ?Fm; try apply filter_status.
  split; [exact Hend|]. intros Hr. by destruct (Hdone Hr) as (_ & _ & ?).
Qed.

(** C37: a run of the monitor, while outbound transactions are pending, takes every row of
    the completed transactions to its next state; a run that fails on its way has done so with
    some of the rows and left the others as they were.  The next state is that of the life
    cycle.  A [completed] transaction of the account is rejected when ten attempts to
    broadcast it were made before; otherwise it is broadcast when the node accepts it or
    has it already, and rejected when the broadcast fails, be it that the node refuses the
    transaction or that it cannot be reached.  A [broadcast] one is mined, at the block where
    the node has its kernel, once there is one, and stays as it is until then: it is never
    rejected.  A mined one is confirmed once the required number of blocks followed.
    Confirmed, rejected and cancelled transactions, and those of other accounts, never
    change; and none does when no transaction is pending. *)
Theorem monitor_steps flag d r flag' d' :
  wallet_ok d -> monitor_if_needed self acc height (flag, d) = (r, (flag', d')) ->
  (flag = false -> completed_transactions d' = completed_transactions d) /\
  (flag = true -> exists left,
    rows (completed_transactions d') =
      map (fun c => if bool_decide (c_id c ∈ left) then c else monitor_next (clock d) c) (rows (completed_transactions d)) /\
    (is_ok r = true -> left = [])).
Proof.
  intros Hok H. unfold monitor_if_needed in H. unfold bind at 1 in H. unfold mon_db at 1 in H.
  destruct (update_displayed_confirmations self acc height d) as [r1 d1] eqn:E1.
  assert (Hv : view d1 = view d).
  { eapply (frames_ok view); [|exact E1]. unfold update_displayed_confirmations, any_db,
      get_displayed_transactions_needing_confirmation_update. solve_preserves. }
  assert (Hok1 : wallet_ok d1).
  { assert (preserves wallet_ok (update_displayed_confirmations self acc height)) as Hp.
    { unfold update_displayed_confirmations, any_db, get_displayed_transactions_needing_confirmation_update. solve_preserves. }
    specialize (Hp d Hok). by rewrite E1 in Hp. }
  injection Hv as Hc Ht. rewrite <- Hc, <- Ht. clear Hok Hc Ht E1 d.
  assert (Hnone : is_ok r = false -> d' = d1 -> exists left, rows (completed_transactions d') =
      map (progress_row (clock d1) left) (rows (completed_transactions d1)) /\ (is_ok r = true -> left = [])).
  { intros Hr ->. exists (map c_id (rows (completed_transactions d1))). split; [by rewrite progress_none|congruence]. }
  destruct r1 as [updated| |]; [|injection H as <- <- <-; split; [done|]; intros _; by apply Hnone..].
  unfold bind at 1, gets at 1 in H. cbn [fst] in H.
  destruct flag; cbn [negb] in H; [|injection H as <- <- <-; by split]. split; [done|]. intros _.
  unfold bind at 1, mon_db at 1, any_db, map_err in H.
  destruct (get_pending_completed_transactions acc d1) as [[l|e|p] d2] eqn:E2; cbn in H;
    try (injection H as <- <- <-; apply Hnone; [done|]; apply (frames_ok id) in E2; [exact E2|];
      unfold get_pending_completed_transactions; solve_preserves).
  destruct (pass_start _ _ _ Hok1 E2) as [-> Hp]. destruct l as [|tx l].
  { injection H as <- <- <-. exists []. split; [|done]. by destruct Hp as (_ & _ & _ & Hp). }
  set (txs := tx :: l) in *. unfold bind at 1, mon_db at 1 in H.
  destruct (process_pending_transactions self acc height (from_transactions txs) d1) as [r3 d3] eqn:E3.
  destruct (monitor_pass d1 txs r3 d3 Hok1 Hp E3) as [[left [_ Hleft]] Hdone].
  destruct r3; [|injection H as <- <- <-; exists left; split; [exact Hleft|done]..].
  destruct (Hdone eq_refl) as [_ Hall]. exists []. split; [|done].
  assert (d' = d3) as ->; [|exact Hall]. unfold bind, when, clear_pending_outbound, set_flag, modify in H.
  destruct (_ <=? _)%nat; by injection H as <- <- <-.
Qed.

End MonitorRows.

(** ** Examples *)
Module MonitorExamples.
Import Demo Ledger.Examples Wallet.WalletExamples.

(** A node that has the transaction mined at height 12. *)
Definition mined_client : TxClient := {|
  Transaction := unit;
  transaction_of_json := fun _ => Ok tt;
  transaction_to_json := fun _ => Ok "";
  first_kernel := fun _ => Some ("", "");
  reason_to_string := fun _ => "";
  submit_transaction := fun _ => Ok (mkTxSubmissionResponse true AlreadyMined);
  transaction_query := fun _ _ => Ok (mkTxQueryResponse Mined (Some 12) (Some "block12"));
|}.

Definition monitor : TransactionMonitor := mkTransactionMonitor 3 None.
Definition run := @monitor_if_needed ext mined_client monitor 1 13 (true, paid).

Lemma run_eq : @monitor_if_needed ext mined_client monitor 1 13 (true, paid) = (fst run, (fst (snd run), snd (snd run))).
Proof. unfold run. by destruct (monitor_if_needed monitor 1 13 (true, paid)) as [? []]. Qed.

Example run_mined : map c_status (rows (completed_transactions (snd (snd run)))) = ["mined_unconfirmed"].
Proof. vm_compute. reflexivity. Qed.

Lemma run_success : is_ok (fst run) = true.
Proof. vm_compute. reflexivity. Qed.

Lemma monitor_steps_witness :
  rows (completed_transactions (snd (snd run))) =
    map (@progress_row ext mined_client monitor 1 13 (clock paid) []) (rows (completed_transactions paid)).
Proof.
  destruct (@monitor_steps ext mined_client monitor 1 13 true paid (fst run) (fst (snd run)) (snd (snd run))
    (reachable_ok paid paid_reachable) run_eq) as [_ H].
  destruct (H eq_refl) as (left & Hrows & Hdone). rewrite (Hdone run_success) in Hrows. exact Hrows.
Defined.

End MonitorExamples.
