(* ===== verification/WebhookTheory.v ===== *)
(** * Webhook deliveries

    What is enqueued, how a delivery's result moves its row, and how long a retry
    waits. *)
From S2P Require Import Prelude Models DisplayTypes External Schema AccountsDb WebhooksDb Webhooks.
#[local] Open Scope Z_scope.

(** ** The delay before a retry *)

(** The delay without jitter: 30 seconds times four for each earlier retry, at most
    a day. *)
Definition base_delay (attempt : Z) : Z := Z.min (30 * 4 ^ (attempt - 1)) MAX_AGE.

Lemma base_delay_bounds attempt : 1 <= attempt -> 30 <= base_delay attempt <= MAX_AGE.
Proof.
  intros Ha. unfold base_delay, MAX_AGE. assert (1 <= 4 ^ (attempt - 1)) by (apply (Z.pow_le_mono_r 4 0); lia). lia.
Qed.

Lemma calculate_backoff_delay {E} draw plus now attempt :
  1 <= attempt < MAX_ATTEMPTS -> (forall n, 0 <= n -> 0 <= draw n <= n) ->
  exists delay, calculate_backoff (E := E) draw plus now attempt = Ok (now + delay, false) /\
    base_delay attempt - base_delay attempt / 10 <= delay <= base_delay attempt + base_delay attempt / 10.
Proof.
  intros Ha Hd. pose proof (base_delay_bounds attempt ltac:(lia)) as Hb. unfold calculate_backoff.
  rewrite (proj2 (Z.leb_gt _ _)) by lia. unfold MAX_ATTEMPTS in *.
  rewrite Z.mod_small by lia. unfold pow4. rewrite (proj2 (Z.ltb_lt _ _)) by lia. cbn [outcome_bind].
  fold (base_delay attempt). specialize (Hd (base_delay attempt / 10) (Z.div_pos (base_delay attempt) 10 ltac:(lia) ltac:(lia))).
  unfold MAX_AGE in Hb.
  assert (base_delay attempt / 10 <= base_delay attempt) by (apply Z.div_le_upper_bound; lia).
  assert (base_delay attempt / 10 <= 8640) by (apply Z.div_le_upper_bound; lia).
  eexists. split; [reflexivity|]. destruct plus; unfold u64_saturating_sub;
    rewrite as_i64_id by (unfold is_i64, two63; lia); lia.
Qed.

(** The back-off.  The delay before the retry of attempt 1 to 9 is 30 s, 2 min,
    8 min, ... up to a day, give or take a tenth, so never less than 27 s nor more
    than 26.4 h; the tenth attempt is the last one.  The computation never
    overflows. *)
Theorem calculate_backoff_bounds {E} draw plus now attempt :
  1 <= attempt -> (forall n, 0 <= n -> 0 <= draw n <= n) ->
  if attempt <? MAX_ATTEMPTS then
    exists delay, calculate_backoff (E := E) draw plus now attempt = Ok (now + delay, false) /\
      base_delay attempt - base_delay attempt / 10 <= delay <= base_delay attempt + base_delay attempt / 10 /\
      27 <= delay <= 95040
  else calculate_backoff (E := E) draw plus now attempt = Ok (now, true).
Proof.
  intros Ha Hd. destruct (Z.ltb_spec attempt MAX_ATTEMPTS) as [Hlt|Hge].
  - destruct (calculate_backoff_delay (E := E) draw plus now attempt (conj Ha Hlt) Hd) as (delay & He & Hb).
    exists delay. split; [done|]. split; [done|].
    pose proof (base_delay_bounds attempt Ha) as Hbase. unfold MAX_AGE in Hbase.
    assert (base_delay attempt / 10 <= 8640) by (apply Z.div_le_upper_bound; lia).
    pose proof (Z.mul_div_le (base_delay attempt) 10 ltac:(lia)). lia.
  - unfold calculate_backoff. by rewrite (proj2 (Z.leb_le _ _)).
Qed.

(** ** One delivery *)
Section Delivery.
Context (sender : Z -> string -> string -> string -> DeliveryResult) (draw : Z -> Z) (plus : bool).

(** What the result of an attempt makes of an item. *)
Definition delivered (now : Z) (item : WebhookQueueItem) (result : DeliveryResult) (st : WS.t) (next : Z)
    (err : option string) : Prop :=
  match result with
  | Success => st = WS.Success /\ next = wq_next_retry_at item /\ err = None
  | PermanentFailure msg => st = WS.PermanentFailure /\ next = wq_next_retry_at item /\ err = Some msg
  | RetryableFailure msg =>
      err = Some msg /\
      if wq_attempt_count item + 1 <? MAX_ATTEMPTS
      then st = WS.Failed /\ now + 27 <= next <= now + 95040
      else st = WS.PermanentFailure /\ next = now
  end.

(** An attempt at a delivery always ends with its row updated: one more attempt,
    and the status of the result - delivered, given up on a client error or on the
    tenth attempt, or failed with a retry between 27 s and 26.4 h from now.  No other
    row changes. *)
Theorem process_item_spec secret item d :
  0 <= wq_attempt_count item < MAX_ATTEMPTS -> (forall n, 0 <= n -> 0 <= draw n <= n) ->
  exists st next err,
    process_item sender draw plus secret item d =
      (Ok tt, with_webhook_queue (update_where (fun r => w_id r =? wq_id item)
        (set_webhook st (wq_attempt_count item + 1) next err) (webhook_queue d)) d) /\
    delivered (clock d) item (sender (clock d) (wq_target_url item) secret (wq_payload item)) st next err.
Proof.
  intros Hc Hd. unfold process_item, bind, gets, lift, attempt, update_webhook_status, modify, ret.
  destruct (sender _ _ _ _) as [|msg|msg]; cbn [delivery_update outcome_bind].
  - eexists _, _, _. split; [reflexivity|]. done.
  - assert (H1 : 1 <= wq_attempt_count item + 1) by lia. unfold delivered.
    destruct (Z.ltb_spec (wq_attempt_count item + 1) MAX_ATTEMPTS) as [Hlt|Hge].
    + destruct (calculate_backoff_delay (E := WalletDbError) draw plus (clock d) _ (conj H1 Hlt) Hd) as (delay & -> & Hb).
      cbn [outcome_bind]. eexists _, _, _. split; [reflexivity|].
      pose proof (base_delay_bounds _ H1) as Hbase. unfold MAX_AGE in Hbase.
      assert (base_delay (wq_attempt_count item + 1) / 10 <= 8640) by (apply Z.div_le_upper_bound; lia).
      pose proof (Z.mul_div_le (base_delay (wq_attempt_count item + 1)) 10 ltac:(lia)).
      split; [done|]. split; [done|]. lia.
    + unfold calculate_backoff. rewrite (proj2 (Z.leb_le _ _)) by done. cbn [outcome_bind].
      eexists _, _, _. split; [reflexivity|]. done.
  - eexists _, _, _. split; [reflexivity|]. done.
Qed.
End Delivery.

(** ** Enqueueing *)

(** Triggering a webhook writes nothing when the configured list of event types
    does not hold the event's, and otherwise, when it succeeds, adds one row: the
    event's key and URL, never tried, due at once. *)
Theorem trigger_webhook_spec {X : Ext} acc event_id event config d d' :
  trigger_webhook_with_balance acc event_id event config d = (Ok tt, d') ->
  if event_filtered config (to_key_string (event_type event)) then d' = d
  else exists row, d' = with_webhook_queue (mkTable (rows (webhook_queue d) ++ [row]) (w_id row)) d /\
    w_event_id row = Some event_id /\ w_event_type row = to_key_string (event_type event) /\
    w_target_url row = url config /\ w_attempt_count row = 0 /\ is_due (clock d) row = true.
Proof.
  unfold trigger_webhook_with_balance. intros H. destruct (event_filtered _ _); [by inv_ok|].
  apply bind_ok_inv in H as (balance & d1 & H1 & H). apply (frames_ok id) in H1; [|solve_preserves].
  unfold id in H1. subst d1. apply bind_ok_inv in H as (now & d1 & H1 & H). injection H1 as <- <-.
  apply bind_ok_inv in H as (payload & d1 & H1 & H). injection H1 as _ <-.
  apply bind_ok_inv in H as (i & d1 & H1 & H). injection H as <-. unfold enqueue_webhook in H1.
  apply bind_ok_inv in H1 as (u & d2 & Hc & H1). apply constrained_inv in Hc as [_ ->].
  apply bind_ok_inv in H1 as (d2 & d3 & Hg & H1). injection Hg as <- <-. cbn in H1. injection H1 as <- <-.
  exists (mkWebhookRow (seqno (webhook_queue d) + 1) (Some event_id) (to_key_string (event_type event)) payload
    (url config) (WS.to_string WS.Pending) 0 (clock d) (clock d) None).
  split; [reflexivity|]. unfold is_due. cbn. rewrite Z.leb_refl. done.
Qed.

(** ** Examples *)
Module WebhookExamples.
Import External.Demo.

Lemma draw_ok n : 0 <= n -> 0 <= id n <= n.
Proof. unfold id. lia. Qed.

(** The ninth retry with the largest jitter waits longer than a day. *)
Lemma calculate_backoff_bounds_witness :
  calculate_backoff (E := string) id true 0 9 = Ok (95040, false) /\
  exists delay, calculate_backoff (E := string) id true 0 9 = Ok (0 + delay, false).
Proof.
  split; [vm_compute; reflexivity|].
  pose proof (calculate_backoff_bounds (E := string) id true 0 9 ltac:(lia) draw_ok) as H.
  destruct H as (delay & H & _). exists delay. exact H.
Defined.

Definition item : WebhookQueueItem := mkWebhookQueueItem 1 None "output_detected" "{}" "url" WS.Failed 9 5 0 None.
Definition failing (now : Z) (url secret payload : string) : DeliveryResult := RetryableFailure "Server Error 500".

Lemma process_item_spec_witness : exists d', process_item failing id true "s" item (empty_db 10) = (Ok tt, d').
Proof.
  destruct (process_item_spec failing id true "s" item (empty_db 10)) as (st & next & err & H & _).
  - vm_compute. split; [discriminate|reflexivity].
  - exact draw_ok.
  - eexists. exact H.
Defined.

Definition config : WebhookTriggerConfig := mkWebhookTriggerConfig "url" (Some ["BlockRolledBack"]).
Definition event : WalletEvent := mkWalletEvent 0 1 (BlockRolledBack 5 "h") "".
Definition with_event : Db := with_events (mkTable [mkEventRow 1 1 "" "" "" 0] 1) (empty_db 10).
Definition triggered := trigger_webhook_with_balance 1 1 event config with_event.

Lemma triggered_ok : trigger_webhook_with_balance 1 1 event config with_event = (Ok tt, snd triggered).
Proof. vm_compute. reflexivity. Qed.

Lemma trigger_webhook_spec_witness :
  event_filtered config (to_key_string (event_type event)) = false /\
  exists row, snd triggered = with_webhook_queue (mkTable (rows (webhook_queue with_event) ++ [row]) (w_id row)) with_event.
Proof.
  split; [vm_compute; reflexivity|].
  destruct (trigger_webhook_spec 1 1 event config with_event (snd triggered) triggered_ok) as (row & H & _).
  exists row. exact H.
Defined.

End WebhookExamples.
