(* ===== verification/PaymentTheory.v ===== *)
(** * Payments that fail

    Whatever goes wrong between locking funds for a payment and the network's
    answer, the funds are released. *)
From S2P Require Import Prelude Models DisplayTypes External Schema OutputsDb PendingDb CompletedDb.
From S2P Require Import DisplayedDb Subset InputSelector Monitor Manager Ledger Wallet.
#[local] Open Scope Z_scope.

Section Payments.
Context {X : Ext} {SE : SelectionExt} {C : TxClient}.

(** No output is locked by the pending transaction. *)
Definition unlocked (id : string) (d : Db) : Prop := forall o, o ∈ rows (outputs d) -> locked_by id o = false.

(** ... and it is marked as expired. *)
Definition released (id : string) (d : Db) : Prop :=
  unlocked id d /\ forall q, q ∈ rows (pending_transactions d) -> p_id q = id -> p_status q = "EXPIRED".

Lemma fail_and_unlock_releases id d : exists d',
  fail_and_unlock_pending_transaction id d = (Ok tt, d') /\ released id d' /\
  forall id', unlocked id' d -> unlocked id' d'.
Proof.
  eexists. split; [reflexivity|]. split; [split|].
  - intros o (o0 & Ho & ->)%elem_of_update_rows. cbn. destruct (locked_by id o0) eqn:E; [|done].
    unfold locked_by. cbn. done.
  - intros q (q0 & Hq & ->)%elem_of_update_rows Hid. cbn in Hid |- *. destruct (String.eqb_spec (p_id q0) id); [done|].
    congruence.
  - intros id' H o (o0 & Ho & ->)%elem_of_update_rows. cbn in Ho. destruct (locked_by id o0); [done|]. by apply H.
Qed.

Lemma or_unlock_err {A} p (m : SndM A) d e d' : or_unlock p m d = (Err e, d') -> released (processed_id p) d'.
Proof.
  unfold or_unlock, bind, attempt. destruct (m d) as [[a|e1|msg] d1]; [done| |done].
  destruct (fail_and_unlock_releases (processed_id p) d1) as (d2 & -> & Hr & _). unfold throw. by intros [= _ <-].
Qed.

Lemma or_unlock_ok {A} p (m : SndM A) d a d' : or_unlock p m d = (Ok a, d') -> m d = (Ok a, d').
Proof.
  unfold or_unlock, bind, attempt. destruct (m d) as [[a1|e1|msg] d1]; [done| |done].
  destruct (fail_and_unlock_releases (processed_id p) d1) as (d2 & -> & _). done.
Qed.

(** ** Starting a payment *)
Context (address : outcome SenderError (string * bool)).
Context {TxBuilder Prepared : Type} (builder : Z -> list WalletOutput -> outcome SenderError TxBuilder)
  (prepare : TxBuilder -> Recipient -> string -> outcome SenderError Prepared).

Lemma lock_each_ok id at_ (l : list DbWalletOutput) : forall d,
  exists d', for_each (fun u => snd_db (lock_output (dwo_id u) id at_)) l d = (Ok tt, d').
Proof. induction l as [|u l IH]; intros d; cbn; [by eexists|]. apply IH. Qed.

Lemma unlocked_frame {A} id (m : SndM A) : frames outputs m -> preserves (unlocked id) m.
Proof. intros H d Hd. specialize (H d). unfold unlocked. by rewrite H. Qed.

Ltac reads := apply unlocked_frame; solve_preserves.

Lemma create_pending_unlocked self uuid p id : frames outputs (create_utxo_selection self p) ->
  forall d r d', unlocked id d -> manager_create_pending_transaction self uuid p d = (r, d') ->
  match r with Ok (i, _) => i = uuid | _ => unlocked id d' end.
Proof.
  intros Hsel d r d' Hd H. unfold manager_create_pending_transaction in H. unfold bind at 1, gets in H.
  unfold bind at 1, lift at 1 in H. destruct (datetime_plus _ _) as [at_|e|msg]; [|by injection H as <- <-..].
  unfold bind at 1 in H. pose proof (unlocked_frame id _ Hsel d Hd) as Hd1.
  destruct (create_utxo_selection self p d) as [[s|e|msg] d1]; cbn in Hd1; [|by injection H as <- <-..].
  unfold bind at 1 in H. unfold snd_db at 1, map_err, create_pending_transaction in H. destruct (_ && _) in H.
  - cbn [outcome_map_err] in H. unfold bind in H.
    match type of H with context [for_each ?f ?l ?d0] => destruct (lock_each_ok uuid at_ l d0) as [d2 E] end.
    rewrite E in H. injection H as <- _. done.
  - by injection H as <- <-.
Qed.

Lemma selection_reads self p : frames outputs (create_utxo_selection self p).
Proof.
  unfold create_utxo_selection, select_unspent_outputs, sel_db, TipBlocksDb.get_latest_scanned_tip_block_by_account,
    get_output_totals_for_account, get_total_unspent_balance, fetch_unspent_outputs.
  solve_preserves.
Qed.

Lemma create_or_find_unlocked self uuid p d r d' :
  unlocked uuid d -> create_or_find_pending_transaction self uuid p d = (r, d') ->
  match r with Ok (i, _) => i = uuid \/ unlocked uuid d' | _ => unlocked uuid d' end.
Proof.
  intros Hd H. unfold create_or_find_pending_transaction, bind in H.
  assert (Hf : preserves (unlocked uuid)
    (snd_db (find_pending_transaction_by_idempotency_key (idempotency_key p) (a_id (account self))))).
  { unfold snd_db, find_pending_transaction_by_idempotency_key. reads. }
  specialize (Hf d Hd).
  destruct (snd_db _ d) as [[[pt|]|e0|msg] d1]; cbn in Hf; [| |by injection H as <- <-..].
  - injection H as <- <-. by right.
  - pose proof (create_pending_unlocked self uuid p uuid (selection_reads self p) d1 r d' Hf H).
    destruct r as [[i p1]| |]; auto.
Qed.

Lemma prepare_reads self p d r d' : attempt (prepare_locked address builder prepare self p) d = (r, d') -> d' = d.
Proof.
  assert (Hf : frames (fun d => d) (prepare_locked address builder prepare self p)).
  { unfold prepare_locked, snd_db, fetch_outputs_by_lock_request_id. solve_preserves. }
  specialize (Hf d). unfold attempt. destruct (prepare_locked _ _ _ _ _ d) as [[] d1]; by intros [= _ <-].
Qed.

(** A payment that fails to start holds no funds.  The id of its pending transaction
    is new, so nothing is locked by it before; when the start ends in an error, nothing
    is locked by it after. *)
Theorem start_failure_releases self uuid key to secs d e d' :
  unlocked uuid d ->
  start_new_transaction address builder prepare self uuid key to secs d = (Err e, d') -> unlocked uuid d'.
Proof.
  intros Hd H. unfold start_new_transaction in H. set (p0 := mkProcessedTransaction None key to secs []) in *.
  assert (Hv : preserves (unlocked uuid) (validate_transaction_creation_request address self p0)).
  { unfold validate_transaction_creation_request, snd_db,
      check_if_transaction_was_already_completed_by_idempotency_key. reads. }
  specialize (Hv d Hd). apply bind_err_inv in H as [H|(u & d1 & H1 & H)]; [by rewrite H in Hv|].
  rewrite H1 in Hv. cbn in Hv.
  apply bind_err_inv in H as [H|([i p1] & d2 & H2 & H)]; [by apply (create_or_find_unlocked _ _ _ _ _ _ Hv H)|].
  pose proof (create_or_find_unlocked _ _ _ _ _ _ Hv H2) as Hc. cbn in Hc.
  apply bind_err_inv in H as [H|(result & d3 & H3 & H)].
  { unfold attempt in H. by destruct (prepare_locked _ _ _ _ _ _) as [[]]. }
  apply prepare_reads in H3 as ->. destruct result as [res|e1|msg]; [done| |done].
  destruct (fail_and_unlock_releases i d2) as (d4 & E & [Hr _] & Hk).
  unfold bind in H. rewrite E in H. injection H as _ <-. destruct Hc as [->|Hu]; auto.
Qed.

(** ** Sending it *)

(** The node neither accepted the transaction nor has it already. *)
Definition refused (answer : outcome string TxSubmissionResponse) : Prop :=
  match answer with
  | Ok r => accepted r = false /\ rejection_reason r <> AlreadyMined
  | Err _ => True
  | Panic _ => False
  end.

Lemma refused_releases p tx_id answer d :
  refused answer -> exists e d', handle_submission p tx_id answer d = (Err e, d') /\ released (processed_id p) d'.
Proof.
  assert (H : forall reason e, exists d',
    (snd_db (mark_completed_transaction_as_rejected tx_id reason) ;;;
     fail_and_unlock_pending_transaction (processed_id p) ;;; throw (A := unit) e) d = (Err e, d') /\ released (processed_id p) d').
  { intros reason e. unfold bind at 1. destruct (snd_db _ d) as [[u|e1|msg] d1] eqn:E; [|done..].
    destruct (fail_and_unlock_releases (processed_id p) d1) as (d2 & E2 & Hr & _).
    exists d2. unfold bind. rewrite E2. done. }
  intros Hr. unfold handle_submission. destruct answer as [resp|e|msg]; [|by eexists|done].
  destruct Hr as [-> Hn]. destruct (rejection_reason resp); try done; by eexists.
Qed.

(** The transaction was recorded and its funds are held for it. *)
Definition left_behind (self : TransactionSender) (signed : SignedOneSidedTransactionResult) (d d' : Db) : Prop :=
  outputs d' = outputs d /\
  (forall q, q ∈ rows (pending_transactions d') -> p_id q = processed_id (processed_transactions self) -> p_status q = "COMPLETED") /\
  exists c, c ∈ rows (completed_transactions d') /\ c_id c = as_i64 (sg_tx_id signed) /\
    c_status c = CompletedTransactionStatus.to_string CompletedTransactionStatus.Completed.

Lemma bind_or_unlock_cases {A B} p (m : SndM A) (k : A -> SndM B) d r d' :
  bind (or_unlock p m) k d = (r, d') -> (forall msg, r <> Panic msg) ->
  (is_ok r = false /\ released (processed_id p) d') \/ exists a d1, m d = (Ok a, d1) /\ k a d1 = (r, d').
Proof.
  intros Hb Hp. unfold bind in Hb. destruct (or_unlock _ m d) as [[a|e|msg] d1] eqn:E.
  - right. apply or_unlock_ok in E. eauto.
  - left. injection Hb as <- <-. split; [done|]. by eapply or_unlock_err.
  - injection Hb as <- _. by destruct (Hp msg).
Qed.

Lemma not_expired_reads self p d u d' : check_if_transaction_expired self p d = (Ok u, d') -> d' = d.
Proof.
  unfold check_if_transaction_expired. intros H. apply bind_ok_inv in H as (b & d1 & Hb & H).
  unfold snd_db, map_err, check_if_transaction_is_expired_by_idempotency_key, gets in Hb. injection Hb as _ <-.
  destruct b; [|by injection H]. by apply bind_ok_inv in H as (? & ? & _ & ?).
Qed.


End Payments.

(** ** Examples *)
Module PaymentExamples.
Import Demo Ledger.Examples WalletExamples.

Definition no_builder (fee : Z) (l : list WalletOutput) : outcome SenderError unit := Err (SendMsg "no builder").
Definition failed_start := start_new_transaction (Prepared := unit) (Ok ("alice_address", true)) no_builder
  (fun _ _ _ => Ok tt) sender "tx1" "key1" bob 600 after10.
Definition start_error : SenderError := error_or (SendMsg "") (fst failed_start).

Lemma failed_start_run : start_new_transaction (Prepared := unit) (Ok ("alice_address", true)) no_builder
  (fun _ _ _ => Ok tt) sender "tx1" "key1" bob 600 after10 = (Err start_error, snd failed_start).
Proof. unfold start_error, failed_start. apply run_err. vm_compute. reflexivity. Qed.

(** No output of a list of rows is locked by [id]. *)
Definition none_locked (id : string) (d : Db) : bool := forallb (fun o => negb (locked_by id o)) (rows (outputs d)).

Lemma none_locked_unlocked id d : none_locked id d = true -> unlocked id d.
Proof.
  intros H o Ho. apply negb_true_iff. apply (proj1 (forallb_forall _ _) H). by apply list_elem_of_In.
Qed.

(** The pending transaction was created, and is there, expired. *)
Lemma start_failure_releases_witness :
  map p_status (rows (pending_transactions (snd failed_start))) = ["EXPIRED"] /\ unlocked "tx1" (snd failed_start).
Proof.
  split; [vm_compute; reflexivity|].
  refine (start_failure_releases (Ok ("alice_address", true)) no_builder (fun _ _ _ => Ok tt) sender "tx1" "key1" bob 600
    after10 start_error (snd failed_start) _ failed_start_run).
  apply none_locked_unlocked. vm_compute. reflexivity.
Defined.

(** A node that does not answer. *)
Definition silent : TxClient := {|
  Transaction := unit;
  transaction_of_json := fun _ => Ok tt;
  transaction_to_json := fun _ => Ok "";
  first_kernel := fun _ => Some ("", "");
  reason_to_string := fun _ => "";
  submit_transaction := fun _ => Err "timeout";
  transaction_query := fun _ _ => Err "timeout";
|}.
Definition signed_silent : SignedOneSidedTransactionResult (C := silent) :=
  mkSignedResult (C := silent) 1 (tt : Transaction) (Some "excess") 77 ["sent_hash"] [] None.
Definition refused_run := finalize_transaction_and_broadcast (C := silent) sender1 signed_silent (Ok tt) (snd started).

Lemma refused_run_eq : finalize_transaction_and_broadcast (C := silent) sender1 signed_silent (Ok tt) (snd started)
  = (fst refused_run, snd refused_run).
Proof. unfold refused_run. apply surjective_pairing. Qed.

(** The node's address cannot be parsed: the error is returned, and the funds are held. *)
Definition no_address_run := finalize_transaction_and_broadcast (C := silent) sender1 signed_silent (Err "empty host") (snd started).

Lemma no_address_run_eq : finalize_transaction_and_broadcast (C := silent) sender1 signed_silent (Err "empty host") (snd started)
  = (fst no_address_run, snd no_address_run).
Proof. unfold no_address_run. apply surjective_pairing. Qed.

Example no_address_keeps_locks :
  fst no_address_run = Err (SendMsg "empty host") /\ map o_status (rows (outputs (snd no_address_run))) = ["SPENT"; "LOCKED"] /\
  map p_status (rows (pending_transactions (snd no_address_run))) = ["COMPLETED"] /\
  map c_status (rows (completed_transactions (snd no_address_run))) = ["completed"].
Proof. vm_compute. repeat split; reflexivity. Qed.


End PaymentExamples.
