(* ===== verification/BurnTheory.v ===== *)
(** * Properties of burns and of the burn proof worker

    What is stored of a burn comes back in the complete proof; a record is marked complete
    only when its file is written.  A finding: a burn that fails after the lock, as one
    without a claim key always does, keeps its funds locked. *)
From S2P Require Import Prelude Models DisplayTypes External Schema OutputsDb PendingDb CompletedDb.
From S2P Require Import BurnProofsDb InputSelector FundLocker Scanning BlockProc Monitor Burn Ledger Wallet.
From S2P Require Import Locks.
From stdpp Require Import gmap.
#[local] Open Scope Z_scope.

(** ** A burn *)
Section Funds.
Context {X : Ext} {SE : SelectionExt} {C : TxClient} {BX : BurnExt}.

(** The proof of [result] waits for its merkle proof. *)
Definition proof_stored (result : BurnTxResult) (d : Db) : Prop :=
  exists row, row ∈ rows (burn_proofs d) /\ is_pending_merkle row = true /\
    bp_output_hash row = br_output_hash result /\ bp_account_id row = nb_account_id (br_new_burn_proof result).

Lemma build_burn_hash account params sender utxos result :
  build_burn account params sender utxos = Ok result ->
  nb_output_hash (br_new_burn_proof result) = br_output_hash result.
Proof.
  unfold build_burn. intros H. apply outcome_bind_ok in H as (u & _ & H). apply outcome_bind_ok in H as (keys & _ & H).
  apply outcome_bind_ok in H as (o & _ & H). apply outcome_bind_ok in H as ([[tx id] enc] & _ & H).
  destruct (bt_claim_public_key params); [|done]. apply outcome_bind_ok in H as (sg & _ & H).
  apply outcome_bind_ok in H as (k & _ & H). by injection H as <-.
Qed.

Lemma frames_broadcast_burn result client : frames burn_proofs (broadcast_burn result client).
Proof.
  unfold broadcast_burn, burn_msg, mark_completed_transaction_as_broadcasted, update_completed. solve_preserves.
Qed.

Lemma frames_complete_pending_burn result account_id key :
  frames burn_proofs (complete_pending_burn result account_id key).
Proof.
  unfold complete_pending_burn, burn_msg, find_pending_transaction_by_idempotency_key,
    update_pending_transaction_status, create_completed_transaction. solve_preserves.
Qed.

Lemma create_burn_hash uuid uuid_key account params d result d1 :
  create_burn_tx uuid uuid_key account params d = (Ok result, d1) ->
  nb_output_hash (br_new_burn_proof result) = br_output_hash result.
Proof.
  intros Hc. unfold create_burn_tx in Hc. apply bind_ok_inv in Hc as (sender & s1 & _ & Hc).
  apply bind_ok_inv in Hc as (lf & s2 & _ & Hc). unfold burn_msg, lift in Hc. injection Hc as Hc _.
  destruct (build_burn _ _ _ _) as [result'| |] eqn:Eb; cbn in Hc; [|done..]. injection Hc as ->.
  by eapply build_burn_hash.
Qed.

(** Records that were written hold the proof. *)
Lemma persisted_stored result account_id key d d' :
  nb_output_hash (br_new_burn_proof result) = br_output_hash result ->
  persist_burn_records result account_id key d = (Ok tt, d') -> proof_stored result d'.
Proof.
  intros Hh Hp. unfold persist_burn_records in Hp.
  apply bind_ok_inv in Hp as (id & d3 & Hi & Ht). pose proof (frames_complete_pending_burn result account_id key d3) as Hf.
  rewrite Ht in Hf. cbn in Hf. unfold proof_stored. rewrite Hf. clear -Hh Hi.
  unfold map_err, insert_burn_proof in Hi.
  destruct (bind _ _ _) as [r0 d0] eqn:E. destruct r0 as [id0| |]; cbn in Hi; [|done..]. injection Hi as <- <-.
  apply bind_ok_inv in E as (u & s & _ & E). unfold bind, gets, modify, ret, insert_auto in E. cbn in E.
  injection E as _ <-. eexists. split; [cbn; apply elem_of_app; right; by apply list_elem_of_singleton|].
  by rewrite <- Hh.
Qed.

(** C32: a burn transaction is submitted only after its proof is stored: however a burn
    ends, either it failed without the node, its result and its database being the same
    whatever client there is for the node, even none; or, before the node was asked, the
    proof of the burn that was built was in the database, waiting for its merkle proof, and
    whatever the node answered to the transaction of that burn, it still is. *)
Theorem burn_proof_never_lost uuid uuid_key key account params client d r d' :
  burn_funds uuid uuid_key key account params client d = (r, d') ->
  (is_ok r = false /\ forall client', burn_funds uuid uuid_key key account params client' d = (r, d')) \/
  (exists result d1 d2,
    create_burn_tx uuid uuid_key account params d = (Ok result, d1) /\ proof_stored result d2 /\
    broadcast_burn result client d2 = (r, d') /\ proof_stored result d').
Proof.
  intros H. unfold burn_funds in *. unfold bind at 1 in H.
  destruct (create_burn_tx uuid uuid_key account params d) as [[result|e|msg] d1] eqn:Hc.
  2-3: left; injection H as <- <-; split; [done|]; intros client'; unfold bind at 1; by rewrite Hc.
  unfold bind at 1 in H. destruct (persist_burn_records result (a_id account) key d1) as [[[]|e|msg] d2] eqn:Hp.
  2-3: left; injection H as <- <-; split; [done|]; intros client'; unfold bind at 1; rewrite Hc; unfold bind at 1; by rewrite Hp.
  right. exists result, d1, d2. pose proof (persisted_stored _ _ _ _ _ (create_burn_hash _ _ _ _ _ _ _ Hc) Hp) as Hs.
  split; [done|]. split; [exact Hs|]. split; [exact H|].
  pose proof (frames_broadcast_burn result client d2) as Hf. rewrite H in Hf. cbn in Hf. unfold proof_stored. by rewrite Hf.
Qed.

(** (Finding.) What follows the lock leaves the database as it is, so when it fails the
    funds stay locked until the lock expires; and it always fails for a burn without a
    claim key, which the parameters allow. *)
Theorem burn_failure_keeps_lock uuid uuid_key account params sender lf d d1 r d' :
  burn_sender_address account = Ok sender ->
  lock uuid uuid_key (a_id account) (bt_amount params) 1 (bt_fee_per_gram params) None
    (bt_idempotency_key params) (bt_seconds_to_lock params) (bt_confirmation_window params) d = (Ok lf, d1) ->
  create_burn_tx uuid uuid_key account params d = (r, d') ->
  d' = d1 /\ (bt_claim_public_key params = None -> is_ok r = false).
Proof.
  intros Hs Hl H. unfold create_burn_tx in H. unfold bind at 1, burn_msg at 1, lift at 1 in H. rewrite Hs in H.
  cbn in H. unfold bind, map_err in H. rewrite Hl in H. cbn in H. injection H as <- <-. split; [done|].
  intros Hn. unfold build_burn. rewrite Hn.
  destruct (burn_key_manager account); [|done..]. cbn. destruct next_burn_keys; [|done..]. cbn.
  destruct (build_burn_output _ _ _ _ _); [|done..]. cbn.
  by destruct (build_burn_transaction _ _ _ _ _ _) as [[[]]| |].
Qed.
End Funds.

(** ** Round trip of a record *)
Section RoundTrip.
Context {X : Ext} {W : WorkerExt}.

(** A burn proof that was stored is among the pending ones, and the complete proof
    made from it has the value, the fee, the lock height and the encrypted data of the
    burn, although the columns are signed. *)
Theorem burn_proof_roundtrip (proof : NewBurnProof) (d d' : Db) (id : Z) :
  is_u64 (nb_value proof) -> is_u64 (nb_kernel_fee proof) -> is_u64 (nb_kernel_lock_height proof) ->
  insert_burn_proof proof d = (Ok id, d') ->
  exists pending row, get_pending_burn_proofs d' = (Ok pending, d') /\ row ∈ pending /\ bp_id row = id /\
    forall merkle cp, assemble_complete_proof row merkle = Ok cp ->
      cp_value cp = nb_value proof /\ cp_fee cp = nb_kernel_fee proof /\
      lock_height cp = nb_kernel_lock_height proof /\ cp_encrypted_data cp = nb_encrypted_data proof /\
      encoded_merkle_proof cp = merkle.
Proof.
  intros Hv Hf Hl H. unfold insert_burn_proof in H. apply bind_ok_inv in H as (u & s & _ & H).
  unfold bind, gets, modify, ret, insert_auto in H. cbn in H. injection H as <- <-.
  eexists. exists (burn_proof_row proof (clock s) (seqno (burn_proofs s) + 1)).
  split; [reflexivity|]. split; [|split; [done|]].
  - apply elem_of_sort_by, elem_of_filter_bool. split; [|done]. cbn. apply elem_of_app. right. by apply list_elem_of_singleton.
  - intros merkle cp Hcp. unfold assemble_complete_proof in Hcp.
    repeat match type of Hcp with outcome_bind ?m _ = _ => destruct m; cbn [outcome_bind] in Hcp; [|done..] end.
    injection Hcp as <-. cbn. by rewrite !as_u64_as_i64 by done.
Qed.
End RoundTrip.

(** ** The worker *)
Section Worker.
Context {X : Ext} {W : WorkerExt}.
Context (create_dir_all : outcome string unit) (to_vec_pretty : CompleteClaimBurnProof -> outcome string string).
Context (write : string -> string -> outcome string unit) (torn : string -> string -> option string).

Definition file_of (b : BurnProofRow) : string := proof_file_name (bp_claim_public_key b) (bp_commitment b).
Definition is_complete (b : BurnProofRow) : bool := String.eqb (bp_status b) BURN_PROOF_STATUS_COMPLETE.

(** The file of [b] holds the complete proof, with the merkle proof of the node. *)
Definition written (files : Files) (b : BurnProofRow) : Prop :=
  exists merkle cp json,
    kernel_merkle_proof (bp_kernel_excess_nonce b) (bp_kernel_excess_sig b) = Ok merkle /\
    assemble_complete_proof b merkle = Ok cp /\ to_vec_pretty cp = Ok json /\ files !! file_of b = Some json.

(** A row without its status: what the worker never changes. *)
Definition core (b : BurnProofRow) : BurnProofRow := set_burn_proof_complete 0 b.

Lemma written_core files b b' : core b = core b' -> written files b -> written files b'.
Proof.
  intros Hc H. change (written files b') with (written files (core b')). by rewrite <- Hc.
Qed.

Context (rows0 : list BurnProofRow).
Context (ids : NoDup (map bp_id rows0)).
Context (names : forall a b, a ∈ rows0 -> b ∈ rows0 -> file_of a = file_of b -> bp_id a = bp_id b).

(** Before the proofs [l] are processed. *)
Definition worker_inv (l : list BurnProofRow) (s : Files * Db) : Prop :=
  map core (rows (burn_proofs (snd s))) = map core rows0 /\
  NoDup (map bp_id l) /\ (forall b, b ∈ l -> b ∈ rows0) /\
  forall b, b ∈ rows (burn_proofs (snd s)) -> is_complete b = true ->
    b ∈ rows0 \/ ((bp_id b ∉ map bp_id l) /\ written (fst s) b).

Lemma core_id a b : core a = core b -> bp_id a = bp_id b.
Proof. intros H. by apply (f_equal bp_id) in H. Qed.

Lemma core_file a b : core a = core b -> file_of a = file_of b.
Proof.
  intros H. unfold file_of. pose proof (f_equal bp_claim_public_key H) as H1.
  pose proof (f_equal bp_commitment H) as H2. cbn in H1, H2. by rewrite H1, H2.
Qed.

(** A row of the database is one of the start, but for its status. *)
Lemma row_origin l s b : worker_inv l s -> b ∈ rows (burn_proofs (snd s)) ->
  exists b0, b0 ∈ rows0 /\ core b0 = core b.
Proof.
  intros [H _] Hb. assert (core b ∈ map core (rows (burn_proofs (snd s)))) as Hc by (by apply list_elem_of_fmap_2).
  rewrite H in Hc. apply list_elem_of_fmap in Hc as (b0 & Hc & Hb0). by exists b0.
Qed.

(** A write to another file keeps the files of the complete proofs. *)
Lemma written_other files path f b :
  file_of b <> path -> written files b -> written (partial_alter f path files) b.
Proof.
  intros Hne (merkle & cp & json & H1 & H2 & H3 & H4). exists merkle, cp, json.
  repeat split; [done..|]. etrans; [apply (lookup_partial_alter_ne (M := gmap string)); congruence|done].
Qed.

(** The file of a proof that is processed is not the file of one that was written. *)
Lemma other_file x l s b : worker_inv (x :: l) s -> b ∈ rows (burn_proofs (snd s)) ->
  bp_id b ∉ map bp_id (x :: l) -> file_of b <> file_of x.
Proof.
  intros Hi Hb Hni Hf. destruct (row_origin _ _ _ Hi Hb) as (b0 & Hb0 & Hc).
  destruct Hi as (_ & _ & Hl & _). apply Hni. cbn. rewrite <- (core_id _ _ Hc).
  rewrite (names b0 x Hb0 (Hl x (list_elem_of_here _ _))); [left|]. by rewrite (core_file _ _ Hc).
Qed.

Lemma inv_later x l s : worker_inv (x :: l) s -> worker_inv l s.
Proof.
  intros (H1 & H2 & H3 & H4). cbn in H2. apply NoDup_cons in H2 as [_ H2].
  repeat split; [done|done|intros; apply H3; by right|].
  intros b Hb Hc. destruct (H4 b Hb Hc) as [|[Hni Hw]]; [by left|right]. split; [|done].
  intros Hin. apply Hni. cbn. by right.
Qed.

(** A write for [x], complete or torn. *)
Lemma inv_write x l files d f : worker_inv (x :: l) (files, d) ->
  worker_inv (x :: l) (partial_alter f (file_of x) files, d).
Proof.
  intros Hi. destruct (Hi) as (H1 & H2 & H3 & H4). repeat split; try done. cbn in *.
  intros b Hb Hc. destruct (H4 b Hb Hc) as [|[Hni Hw]]; [by left|right]. split; [done|].
  apply written_other; [|done]. by apply (other_file x l (files, d)).
Qed.

Lemma core_set_complete now b : core (set_burn_proof_complete now b) = core b.
Proof. reflexivity. Qed.

Lemma inv_mark x l files d : worker_inv (x :: l) (files, d) -> written files x ->
  worker_inv l (files, with_burn_proofs (update_where (fun b => bp_id b =? bp_id x)
    (set_burn_proof_complete (clock d)) (burn_proofs d)) d).
Proof.
  intros Hi Hw. destruct (Hi) as (H1 & H2 & H3 & H4). pose proof (inv_later _ _ _ Hi) as (_ & H2' & H3' & H4').
  repeat split; [|done|done|]; cbn in *.
  - unfold update_rows. rewrite map_map, <- H1. apply map_ext. intros b. by destruct (_ =? _).
  - intros b Hb Hc. unfold update_rows in Hb. apply list_elem_of_fmap in Hb as (b0 & -> & Hb0).
    destruct (Z.eqb_spec (bp_id b0) (bp_id x)) as [He|Hne]; [|by apply H4'].
    right. split; [cbn; rewrite He; by apply NoDup_cons in H2 as [? _]|].
    apply (written_core _ x); [|done]. rewrite core_set_complete.
    destruct (row_origin _ (files, d) b0 Hi Hb0) as (b1 & Hb1 & Hc1). rewrite <- Hc1. f_equal.
    assert (bp_id b1 = bp_id x) as Hid by (by rewrite (core_id _ _ Hc1)).
    apply list_elem_of_lookup in Hb1 as [i Hi1]. destruct (list_elem_of_lookup_1 rows0 x (H3 x (list_elem_of_here _ _)))
      as [j Hj]. assert (i = j) as ->; [|congruence].
    eapply (NoDup_lookup _ i j (bp_id x) ids); rewrite list_lookup_fmap; [by rewrite Hi1; cbn; rewrite Hid|by rewrite Hj].
Qed.

Lemma inv_process_single x l :
  hoare (worker_inv (x :: l)) (attempt (process_single_proof create_dir_all to_vec_pretty write torn x) ;;; ret tt)
    (fun _ => worker_inv l).
Proof.
  intros [files d] u [files' d'] Hi H. apply bind_ok_inv in H as (r & s1 & H & Hret). injection Hret as _ ->.
  unfold attempt, process_single_proof in H. unfold bind at 1, lift at 1 in H.
  destruct (kernel_merkle_proof _ _) as [merkle|e|m] eqn:Em; [|injection H as _ <- <-; by apply (inv_later x)|done].
  unfold bind at 1, lift at 1 in H.
  destruct (assemble_complete_proof _ _) as [cp|e|m] eqn:Ea; [|injection H as _ <- <-; by apply (inv_later x)|done].
  unfold bind at 1, write_proof_file in H. unfold bind at 1, lift at 1 in H.
  destruct create_dir_all as [t|e|m]; [|injection H as _ <- <-; by apply (inv_later x)|done].
  unfold bind at 1, lift at 1 in H.
  destruct (to_vec_pretty cp) as [json|e|m] eqn:Ej; [|injection H as _ <- <-; by apply (inv_later x)|done].
  unfold fs_write in H. fold (file_of x) in H. cbn in H.
  destruct (write (file_of x) json) as [t'|e|m]; [|injection H as _ <- <-|done].
  - injection H as _ <- <-. apply inv_mark.
    + exact (inv_write x l files d (fun _ => Some json) Hi).
    + exists merkle, cp, json. repeat split; [done..|]. apply (lookup_insert_eq (M := gmap string)).
  - apply (inv_later x). by apply inv_write.
Qed.

(** The worker marks a burn proof complete only when the file named after its claim key
    and commitment holds the complete proof, assembled with the merkle proof of the node;
    a proof that fails, or whose file is torn, stays pending for the next cycle. *)
Theorem complete_proofs_written (files files' : Files) (d d' : Db) :
  rows (burn_proofs d) = rows0 ->
  process_pending_proofs create_dir_all to_vec_pretty write torn (files, d) = (Ok tt, (files', d')) ->
  map core (rows (burn_proofs d')) = map core rows0 /\
  forall b, b ∈ rows (burn_proofs d') -> is_complete b = true -> b ∈ rows0 \/ written files' b.
Proof.
  intros Hrows H. unfold process_pending_proofs, worker_db, get_pending_burn_proofs, gets in H.
  unfold bind at 1 in H. cbn in H.
  eapply (hoare_for_each worker_inv) in H; [|intros; apply inv_process_single|].
  - destruct H as (H1 & _ & _ & H4). split; [done|]. intros b Hb Hc. destruct (H4 b Hb Hc) as [|[_ Hw]]; auto.
  - split; [cbn; by rewrite Hrows|]. split; [|split].
    + rewrite (Permutation_map bp_id (sort_by_perm _ _)). unfold select. rewrite Hrows.
      by apply NoDup_map_filter.
    + intros b Hb. apply elem_of_sort_by, elem_of_filter_bool in Hb as [Hb _]. by rewrite <- Hrows.
    + intros b Hb _. left. by rewrite <- Hrows.
Qed.
End Worker.

(** ** Examples *)
Module BurnExamples.
Import Demo Ledger.Examples Wallet.WalletExamples Locks.LockExamples.

Definition demo_kernel : BurnKernel := mkBurnKernel true "excess" "nonce" "sig" 5 0.

#[export] Instance demo_burn : BurnExt := {
  PublicKey := string;
  PrivateKey := string;
  BurnMemo := string;
  BurnKeys := unit;
  BurnOutput := Z;
  public_key_hex := id;
  burn_sender_address := fun _ => Ok "alice_address";
  burn_key_manager := fun _ => Ok tt;
  next_burn_keys := Ok tt;
  sender_offset_key_bytes := fun _ => "offset";
  memo_from_string := Ok;
  memo_default := "";
  build_burn_output := fun _ _ _ amount _ => Ok amount;
  burn_output_hash := fun _ => "burnt";
  burn_output_commitment := fun _ => "commitment";
  build_burn_transaction := fun _ _ _ _ _ _ => Ok (tt, 99, Some "sealed");
  burn_kernels := fun _ => [demo_kernel];
  burn_claim_signature := fun _ _ _ => Ok ("cn", "cs");
}.

Definition burn_params (claim : option string) : BurnTxParams :=
  mkBurnTxParams 1 60 claim None 5 None (Some "burn1") 600 0.

Definition created := create_burn_tx "tx1" "k" account1 (burn_params (Some "l2key")) funded.
Definition no_proof : NewBurnProof := mkNewBurnProof 0 "" "" "" "" "" "" "" "" "" "" 0 0 0.
Definition burn_result : BurnTxResult := result_or (mkBurnTxResult tt "" no_proof 0) (fst created).
Definition burnt := burn_funds "tx1" "k" "burn1" account1 (burn_params (Some "l2key")) (Err "no node") funded.

(** The result depends on the client. *)
Lemma burnt_asks_the_node : fst burnt <> fst (burn_funds "tx1" "k" "burn1" account1 (burn_params (Some "l2key")) (Err "no network") funded).
Proof. vm_compute. discriminate. Qed.

Lemma burnt_eq : burn_funds "tx1" "k" "burn1" account1 (burn_params (Some "l2key")) (Err "no node") funded = (fst burnt, snd burnt).
Proof. unfold burnt. apply surjective_pairing. Qed.

Lemma burn_created : create_burn_tx "tx1" "k" account1 (burn_params (Some "l2key")) funded = (Ok burn_result, snd created).
Proof. unfold burn_result, created. apply run_ok. vm_compute. reflexivity. Qed.

Lemma first_result {X Y} (run : X * Y) x y : run = (x, y) -> x = fst run.
Proof. by intros ->. Qed.

Lemma same_creation {E A} (run : outcome E A * Db) a d a' d' : run = (Ok a, d) -> run = (Ok a', d') -> a' = a.
Proof. intros ->. by injection 1. Qed.

(** The node cannot be reached, and the proof is there. *)
Lemma burn_proof_never_lost_witness : proof_stored burn_result (snd burnt).
Proof.
  destruct (burn_proof_never_lost "tx1" "k" "burn1" account1 (burn_params (Some "l2key")) (Err "no node") funded
    (fst burnt) (snd burnt) burnt_eq) as [[_ H]|(result & d1 & d2 & Hc & _ & _ & Hs)].
  - destruct burnt_asks_the_node. exact (first_result _ _ _ (H (Err "no network"))).
  - pose proof (same_creation _ _ _ _ _ burn_created Hc) as He. clear Hc. subst result. exact Hs.
Defined.

(** Without a claim key the burn fails and the output of 70 stays locked. *)
Definition unclaimed := create_burn_tx "tx1" "k" account1 (burn_params None) funded.
Definition burn_lock := lock "tx1" "k" 1 60 1 5 None (Some "burn1") 600 0 funded.

Lemma burn_failure_keeps_lock_witness :
  is_ok (fst unclaimed) = false /\ map o_status (rows (outputs (snd unclaimed))) = [LOCKED; UNSPENT; UNSPENT].
Proof.
  destruct (burn_failure_keeps_lock "tx1" "k" account1 (burn_params None) "alice_address" (result_or no_funds (fst burn_lock))
    funded (snd burn_lock) (fst unclaimed) (snd unclaimed)) as [H1 H2].
  - reflexivity.
  - unfold burn_lock. apply run_ok. vm_compute. reflexivity.
  - unfold unclaimed. apply surjective_pairing.
  - split; [by apply H2|]. rewrite H1. vm_compute. reflexivity.
Defined.

Definition demo_proof : NewBurnProof :=
  mkNewBurnProof 1 "burnt" "commitment" "l2key" "cn" "cs" "excess" "nonce" "sig" "offset" "sealed" 18446744073709551615 5 0.
Definition inserted := insert_burn_proof demo_proof start.

#[export] Instance demo_worker : WorkerExt := {
  Point := string;
  Scalar := string;
  point_from_bytes := Ok;
  scalar_from_bytes := Ok;
  worker_hex_decode := Ok;
  kernel_merkle_proof := fun _ _ => Ok (mkMerkleResponse "block" "merkle" 42);
}.

Lemma burn_proof_roundtrip_witness :
  exists pending row, get_pending_burn_proofs (snd inserted) = (Ok pending, snd inserted) /\ row ∈ pending /\
    bp_id row = 1 /\ forall merkle cp, assemble_complete_proof row merkle = Ok cp ->
      cp_value cp = 18446744073709551615 /\ cp_fee cp = 5 /\ lock_height cp = 0 /\
      cp_encrypted_data cp = "sealed" /\ encoded_merkle_proof cp = merkle.
Proof.
  apply (burn_proof_roundtrip demo_proof start (snd inserted) 1).
  - vm_compute. split; [discriminate|reflexivity].
  - vm_compute. split; [discriminate|reflexivity].
  - vm_compute. split; [discriminate|reflexivity].
  - vm_compute. reflexivity.
Defined.

(** A cycle of the worker after the burn. *)
Definition with_proof : Db := snd inserted.
Definition cycle := process_pending_proofs (Ok tt) (fun _ => Ok "{}") (fun _ _ => Ok tt) (fun _ _ => None)
  (∅ : Files, with_proof).

Lemma complete_proofs_written_witness :
  map core (rows (burn_proofs (snd (snd cycle)))) = map core (rows (burn_proofs with_proof)) /\
  (forall b, b ∈ rows (burn_proofs (snd (snd cycle))) -> is_complete b = true ->
    b ∈ rows (burn_proofs with_proof) \/ written (fun _ => Ok "{}") (fst (snd cycle)) b) /\
  map is_complete (rows (burn_proofs (snd (snd cycle)))) = [true].
Proof.
  assert (H : process_pending_proofs (Ok tt) (fun _ => Ok "{}") (fun _ _ => Ok tt) (fun _ _ => None)
    (∅ : Files, with_proof) = (Ok tt, (fst (snd cycle), snd (snd cycle)))).
  { fold cycle. rewrite (run_done cycle) by (vm_compute; reflexivity). by destruct (snd cycle). }
  assert (Hids : NoDup (map bp_id (rows (burn_proofs with_proof)))).
  { apply (bool_decide_unpack _). vm_compute. reflexivity. }
  destruct (complete_proofs_written (Ok tt) (fun _ => Ok "{}") (fun _ _ => Ok tt) (fun _ _ => None)
    (rows (burn_proofs with_proof)) Hids
    ltac:(intros a b Ha%list_elem_of_singleton Hb%list_elem_of_singleton _; by rewrite Ha, Hb)
    ∅ (fst (snd cycle)) with_proof (snd (snd cycle)) eq_refl H) as [H1 H2].
  split; [exact H1|]. split; [exact H2|]. vm_compute. reflexivity.
Defined.

End BurnExamples.
