(* ===== verification/StoreTheory.v ===== *)
(** * What the stores keep

    Pruning of the recorded tips, payment references across a reorg, the text of
    ids, and the deletion of an account. *)
From S2P Require Import Prelude Models DisplayTypes External Schema OutputsDb TipBlocksDb.
From S2P Require Import CompletedDb DisplayedDb PayrefDb BurnProofsDb AccountsDb.
From Stdlib Require Import Ascii.
#[local] Open Scope Z_scope.

(** ** Pruning *)

(** Pruning keeps of the account's recorded tips every one of the last thousand
    blocks, and below these every five-hundredth block; it removes the others, and
    none of another account.  Heights are those of scanned blocks, not negative. *)
Theorem prune_spec acc tip d d' t :
  is_i64 tip -> 0 <= tip -> prune_scanned_tip_blocks acc tip d = (Ok tt, d') ->
  0 <= t_height t ->
  (t ∈ rows (scanned_tip_blocks d') <->
   t ∈ rows (scanned_tip_blocks d) /\
   (t_account_id t <> acc \/ tip - RECENT_BLOCKS_TO_KEEP <= t_height t
    \/ (OLD_BLOCKS_PRUNING_INTERVAL | t_height t))).
Proof.
  intros Hi Ht H Hh. injection H as <-. cbn. rewrite elem_of_filter_bool. apply and_iff_compat_l.
  unfold prunable. rewrite as_i64_id, (as_i64_id OLD_BLOCKS_PRUNING_INTERVAL)
    by (unfold is_i64, u64_saturating_sub, OLD_BLOCKS_PRUNING_INTERVAL, RECENT_BLOCKS_TO_KEEP, two63 in *; lia).
  rewrite negb_true_iff, !andb_false_iff, Z.eqb_neq, Z.ltb_ge, Z.geb_leb, Z.leb_gt, negb_false_iff, Z.eqb_eq.
  unfold u64_saturating_sub, RECENT_BLOCKS_TO_KEEP, OLD_BLOCKS_PRUNING_INTERVAL.
  rewrite Z.rem_divide by lia. generalize (500 | t_height t). intros D. intuition lia.
Qed.

(** Pruning never removes the newest tip, which the next scan resumes from: the
    latest recorded block is the same before and after. *)
Theorem prune_keeps_latest acc tip d d' latest :
  is_i64 tip -> 0 <= tip ->
  (forall t, t ∈ rows (scanned_tip_blocks d) -> t_account_id t = acc -> 0 <= t_height t) ->
  head (account_tips acc d) = Some latest -> tip - RECENT_BLOCKS_TO_KEEP <= t_height latest ->
  prune_scanned_tip_blocks acc tip d = (Ok tt, d') ->
  latest ∈ rows (scanned_tip_blocks d') /\
  forall t, t ∈ rows (scanned_tip_blocks d') -> t_account_id t = acc -> t_height t <= t_height latest.
Proof.
  intros Hi Ht Hpos Hl Hrec H.
  assert (Hin : latest ∈ account_tips acc d) by (destruct (account_tips acc d); [done|injection Hl as ->; left]).
  pose proof Hin as [Hrow Hacc]%elem_of_sort_by%elem_of_filter_bool. apply Z.eqb_eq in Hacc.
  injection H as <-. cbn. split.
  - apply elem_of_filter_bool. split; [done|]. unfold prunable.
    rewrite as_i64_id by (unfold is_i64, u64_saturating_sub, RECENT_BLOCKS_TO_KEEP, two63 in *; lia).
    apply negb_true_iff. unfold u64_saturating_sub. specialize (Hpos latest Hrow Hacc).
    rewrite (proj2 (Z.ltb_ge _ _)) by lia. by rewrite andb_false_r.
  - intros t [Hrt _]%elem_of_filter_bool Hat. assert (t ∈ account_tips acc d) as Htt.
    { apply elem_of_sort_by, elem_of_filter_bool. split; [done|]. by apply Z.eqb_eq. }
    assert (Hs : StronglySorted (fun a b => height_desc a b = true) (account_tips acc d)).
    { apply sort_by_sorted; unfold height_desc; intros *; rewrite ?Z.leb_le, ?Z.leb_gt; lia. }
    destruct (account_tips acc d) as [|x l]; [done|]. injection Hl as ->.
    apply elem_of_cons in Htt as [->|Htt]; [lia|]. inversion Hs as [|? ? _ Hf]; subst.
    rewrite Forall_forall in Hf. specialize (Hf t Htt). unfold height_desc in Hf. lia.
Qed.

(** ** The text of an id *)
Lemma digit_value_pretty n : (n < 10)%N -> digit_value (pretty_N_char n) = Some (Z.of_N n).
Proof.
  intros Hn. assert (exists k, (k < 10)%nat /\ n = N.of_nat k) as (k & Hk & ->) by (exists (N.to_nat n); lia).
  do 10 (destruct k as [|k]; [reflexivity|]). lia.
Qed.

Lemma parse_digits_go x : forall s,
  Z.of_N x <= u64_max -> parse_digits 0 (pretty_N_go x s) = parse_digits (Z.of_N x) s.
Proof.
  induction (N.lt_wf_0 x) as [x _ IH]. intros s Hx. destruct (decide (0 < x)%N) as [Hp|Hp].
  - rewrite pretty_N_go_step by done. assert (x `div` 10 < x)%N by (apply N.div_lt; lia).
    rewrite IH; [|done|lia].
    cbn [parse_digits]. rewrite digit_value_pretty by (apply N.mod_lt; lia). cbn.
    assert (Z.of_N (x `div` 10) * 10 + Z.of_N (x `mod` 10) = Z.of_N x) as ->.
    { rewrite <- (N2Z.inj_mul _ 10), <- N2Z.inj_add. f_equal. pose proof (N.div_mod x 10 ltac:(lia)). lia. }
    by rewrite (proj2 (Z.leb_le _ _)).
  - assert (x = 0%N) as -> by lia. by rewrite pretty_N_go_0.
Qed.

(** The decimal text of a [u64], which is how the id of a displayed transaction
    is stored, is read back by [str::parse] as that number. *)
Theorem parse_u64_pretty z : is_u64 z -> parse_u64 (pretty z) = Some z.
Proof.
  intros Hz. destruct z as [|p|p]; [reflexivity| |by destruct Hz].
  assert (H : parse_digits 0 (pretty_N_go (Npos p) "") = Some (Z.pos p)).
  { rewrite parse_digits_go; [done|]. unfold is_u64, u64_max in *. lia. }
  change (pretty (Z.pos p)) with (pretty_N_go (Npos p) ""). destruct (pretty_N_go (Npos p) "") as [|c s] eqn:E.
  - cbn in H. by simplify_eq.
  - unfold parse_u64. assert (Ascii.eqb c "+" = false) as ->.
    { apply Ascii.eqb_neq. intros ->. discriminate H. }
    by destruct s.
Qed.

(** ** Payment references across a reorg *)
Section Payrefs.
Context {X : Ext}.

(** The history maps [payref] of the account to the transaction. *)
Definition recorded (account_id transaction_id : Z) (payref : string) (d : Db) : Prop :=
  exists h, h ∈ rows (payref_history d) /\ has_payref account_id payref h = true
    /\ as_u64 (h_transaction_id h) = transaction_id.

Lemma save_payref_keeps acc tx p a t q o : preserves (recorded acc tx p) (save_payref_history a t q o).
Proof.
  apply preserves_bind; [auto with dbm|]. intros _. apply preserves_modify.
  intros d (h & Hin & Hh). exists h. split; [|done]. cbn. apply elem_of_app. by left.
Qed.

Lemma save_payref_records acc tx p o :
  is_u64 tx -> hoare (fun _ => True) (save_payref_history acc tx p o) (fun _ => recorded acc tx p).
Proof.
  intros Htx d u d' _ (v & d1 & H1 & H2)%bind_ok_inv. injection H2 as _ <-. eexists. split.
  - cbn. apply elem_of_app. right. by apply list_elem_of_singleton.
  - unfold has_payref. cbn. by rewrite Z.eqb_refl, String.eqb_refl, as_u64_as_i64.
Qed.

Lemma save_displayed_row_keeps acc tx p a n row : preserves (recorded acc tx p) (save_displayed_row_payrefs a n row).
Proof.
  unfold save_displayed_row_payrefs. pose proof save_payref_keeps. solve_preserves; auto.
Qed.

Lemma save_displayed_row_records acc tx payrefs p row :
  is_u64 tx -> d_id row = pretty tx -> d_payref row ≫= strings_of_json = Some payrefs -> p ∈ payrefs -> p <> "" ->
  forall n, hoare (fun _ => True) (save_displayed_row_payrefs acc n row) (fun _ => recorded acc tx p).
Proof.
  intros Htx Hid Hp Hin Hne n. unfold save_displayed_row_payrefs. rewrite Hid, parse_u64_pretty, Hp by done.
  apply hoare_fold_m_elem with p; [done| |].
  - intros b. rewrite (proj2 (String.eqb_neq p "")) by done.
    apply (hoare_bind _ (fun _ => recorded acc tx p)); [by apply save_payref_records|]. intros u. by apply hoare_ret.
  - intros b y. pose proof save_payref_keeps. solve_preserves; auto.
Qed.

Lemma recorded_found acc tx p d :
  recorded acc tx p d -> (forall t, recorded acc t p d -> t = tx) ->
  get_transaction_id_by_historical_payref acc p d = (Ok (Some tx), d).
Proof.
  intros (h & Hin & Hh & Ht) Hu. unfold get_transaction_id_by_historical_payref, gets. do 2 f_equal.
  assert (He : h ∈ sort_by (fun a b => h_created_at b <=? h_created_at a) (select (has_payref acc p) (payref_history d))).
  { apply elem_of_sort_by, elem_of_filter_bool. done. }
  assert (Hall : forall x, x ∈ sort_by (fun a b => h_created_at b <=? h_created_at a)
      (select (has_payref acc p) (payref_history d)) -> as_u64 (h_transaction_id x) = tx).
  { intros x [Hx Hp]%elem_of_sort_by%elem_of_filter_bool. apply Hu. by exists x. }
  destruct (sort_by _ _) as [|x l]; [set_solver|]. cbn. f_equal. apply Hall. left.
Qed.

(** Before a reorg removes the displayed transactions of the blocks it undoes, each
    payment reference of each of them is recorded: a lookup by the stale reference
    then finds the transaction, unless another one of the account was recorded under
    the same reference. *)
Theorem reorg_keeps_payrefs acc height d n d' row tx payrefs p :
  save_displayed_transaction_payrefs_before_reorg acc height d = (Ok n, d') ->
  row ∈ rows (displayed_transactions d) -> has_payref_column acc (as_i64 height) row = true ->
  d_id row = pretty tx -> is_u64 tx ->
  d_payref row ≫= strings_of_json = Some payrefs -> p ∈ payrefs -> p <> "" ->
  recorded acc tx p d' /\
  ((forall t, recorded acc t p d' -> t = tx) ->
   get_transaction_id_by_historical_payref acc p d' = (Ok (Some tx), d')).
Proof.
  intros H Hrow Hcol Hid Htx Hp Hin Hne. assert (Hr : recorded acc tx p d').
  { unfold save_displayed_transaction_payrefs_before_reorg in H. inv_ok.
    eapply (hoare_fold_m_elem _ _ _ row); [..|exact I|exact H1].
    - by apply elem_of_filter_bool.
    - intros b. by eapply save_displayed_row_records.
    - intros b y. apply save_displayed_row_keeps. }
  split; [done|]. by apply recorded_found.
Qed.

End Payrefs.

(** ** Deleting an account *)

(** A database without the rows of an account; the webhooks of its events stay,
    without their event. *)
Record deleted (id : Z) (d d' : Db) : Prop := {
  del_accounts : accounts d' = delete_where (of_account a_id id) (accounts d);
  del_outputs : outputs d' = delete_where (of_account o_account_id id) (outputs d);
  del_inputs : inputs d' = delete_where (of_account i_account_id id) (inputs d);
  del_changes : balance_changes d' = delete_where (of_account b_account_id id) (balance_changes d);
  del_pending : pending_transactions d' = delete_where (of_account p_account_id id) (pending_transactions d);
  del_completed : completed_transactions d' = delete_where (of_account c_account_id id) (completed_transactions d);
  del_tips : scanned_tip_blocks d' = delete_where (of_account t_account_id id) (scanned_tip_blocks d);
  del_events : events d' = delete_where (of_account e_account_id id) (events d);
  del_displayed : displayed_transactions d' = delete_where (of_account d_account_id id) (displayed_transactions d);
  del_webhooks : webhook_queue d' = update_where (fun w => existsb (fun e => of_account e_account_id id e
    && opt_points (w_event_id w) (e_id e)) (rows (events d))) set_event_null (webhook_queue d);
  del_history : payref_history d' = payref_history d;
  del_proofs : burn_proofs d' = burn_proofs d;
}.

Lemma delete_checked_ok ref del d u d' : delete_checked ref del d = (Ok u, d') -> ref d = false /\ d' = del d.
Proof.
  intros (v & d1 & H1 & H2)%bind_ok_inv. apply constrained_inv in H1 as [Hr ->]. injection H2 as _ <-.
  by apply negb_true_iff in Hr.
Qed.

Lemma modify_ok (f : Db -> Db) d (u : unit) d' : modify (E := WalletDbError) f d = (Ok u, d') -> d' = f d.
Proof. by intros [= _ <-]. Qed.

(** The last state, back to the first one, table by table. *)
Ltac unwind :=
  repeat match goal with H : ?s = with_webhook_queue _ _ |- context [?s] => rewrite H; cbn
  | H : ?s = ?f _ ?s' |- context [?s] => is_var s; is_var s'; rewrite H; cbn end.

Lemma delete_account_ok name d u d' :
  delete_account name d = (Ok u, d') ->
  exists a, head (select (name_is name) (accounts d)) = Some a /\ deleted (a_id a) d d' /\
    existsb (of_account bp_account_id (a_id a)) (rows (burn_proofs d)) = false /\
    existsb (of_account h_account_id (a_id a)) (rows (payref_history d)) = false.
Proof.
  unfold delete_account, get_account_by_name. intros H. inv_ok.
  destruct (head _) as [a|] eqn:E in H; [|discriminate]. injection H as ->. exists a0. split; [exact E|].
  clear E.
  apply delete_checked_ok in H1 as [_ E1]. apply delete_checked_ok in H2 as [_ E2].
  apply delete_checked_ok in H3 as [_ E3]. apply modify_ok in H4 as E4.
  apply delete_checked_ok in H5 as [_ E5]. apply modify_ok in H6 as E6. apply modify_ok in H7 as E7.
  apply modify_ok in H8 as E8. apply delete_checked_ok in H10 as [Hr E9]. clear H4 H6 H7 H8.
  unfold account_referenced in Hr. rewrite !orb_false_iff in Hr. destruct Hr as [[_ Hp] Hh].
  assert (burn_proofs s8 = burn_proofs s0) as Hbp by by unwind.
  assert (payref_history s8 = payref_history s0) as Hph by by unwind.
  rewrite Hbp in Hp. rewrite Hph in Hh. split; [|done]. constructor; by unwind.
Qed.

(** A deletion that succeeds removes the account and all its rows, and no row of
    another account; one that fails changes nothing. *)
Theorem delete_wallet_spec name d r d' :
  delete_wallet name d = (r, d') ->
  (is_ok r = true -> exists a, head (select (name_is name) (accounts d)) = Some a /\ deleted (a_id a) d d') /\
  (is_ok r = false -> d' = d).
Proof.
  intros H. split; intros Hr; [|by apply (atomic_transaction _ _ _ _ H)].
  destruct r as [u| |]; [|done..]. apply (proj1 (transaction_ok _ _ _ _)) in H. unfold any_db, map_err in H.
  destruct (delete_account name d) as [[u'| |] d1] eqn:E; try discriminate. injection H as _ ->.
  apply delete_account_ok in E as (a & Ha & Hd & _). by exists a.
Qed.

(** The tables that the deletion clears do not include burn_proofs and
    payref_history, which reference the account too: an account that burned funds or
    went through a reorg cannot be deleted. *)
Theorem delete_wallet_stuck name d a r d' :
  head (select (name_is name) (accounts d)) = Some a ->
  existsb (of_account bp_account_id (a_id a)) (rows (burn_proofs d))
  || existsb (of_account h_account_id (a_id a)) (rows (payref_history d)) = true ->
  delete_wallet name d = (r, d') -> is_ok r = false /\ d' = d.
Proof.
  intros Ha Href H. assert (Hr : is_ok r = false).
  { destruct r as [u| |]; [|done..]. apply (proj1 (transaction_ok _ _ _ _)) in H. unfold any_db, map_err in H.
    destruct (delete_account name d) as [[u'| |] d1] eqn:E; try discriminate.
    apply delete_account_ok in E as (a' & Ha' & _ & H1 & H2). rewrite Ha in Ha'. injection Ha' as <-.
    by rewrite H1, H2 in Href. }
  split; [done|]. by apply (proj2 (delete_wallet_spec name d r d' H)).
Qed.

(** ** Examples *)
Module StoreExamples.
Import Demo.

Definition account1 : AccountRow := mkAccountRow 1 "alice" "" "" "" "" 0.
Definition account2 : AccountRow := mkAccountRow 2 "bob" "" "" "" "" 0.

(** Two accounts; alice has three tips, a displayed transaction with two payment
    references, and a stale reference in the history. *)
Definition tip (id height : Z) : TipRow := mkTipRow id 1 height "hash" 0.
Definition payrefs : list string := ["ref1"; "ref2"].
Definition displayed : DisplayedRow :=
  mkDisplayedRow (pretty 77) 1 "" "" "" 0 2000 0 "" (to_json payrefs) 0 0.
Definition store : Db :=
  with_displayed_transactions (mkTable [displayed] 0)
  (with_scanned_tip_blocks (mkTable [tip 1 500; tip 2 501; tip 3 2000] 3)
  (with_accounts (mkTable [account1; account2] 2) (empty_db 1000))).

Definition pruned := prune_scanned_tip_blocks 1 2000 store.

Lemma pruned_ok : prune_scanned_tip_blocks 1 2000 store = (Ok tt, snd pruned).
Proof. unfold pruned. reflexivity. Qed.

Example pruned_heights : map t_height (rows (scanned_tip_blocks (snd pruned))) = [500; 2000].
Proof. vm_compute. reflexivity. Qed.

Lemma prune_spec_witness : ~ tip 2 501 ∈ rows (scanned_tip_blocks (snd pruned)).
Proof.
  intros H. apply (prune_spec 1 2000 store (snd pruned) (tip 2 501)) in H.
  - destruct H as (_ & [H|[H|[k H]]]); cbn in H; [done| |]; unfold RECENT_BLOCKS_TO_KEEP, OLD_BLOCKS_PRUNING_INTERVAL in H; lia.
  - unfold is_i64, two63. lia.
  - lia.
  - exact pruned_ok.
  - cbn. lia.
Defined.

Lemma prune_keeps_latest_witness : tip 3 2000 ∈ rows (scanned_tip_blocks (snd pruned)).
Proof.
  refine (proj1 (prune_keeps_latest 1 2000 store (snd pruned) (tip 3 2000) _ _ _ _ _ pruned_ok)).
  - unfold is_i64, two63. lia.
  - lia.
  - intros t Ht _. assert (Forall (fun t => 0 <= t_height t) (rows (scanned_tip_blocks store))) as Hf
      by (repeat constructor; cbn; lia). rewrite Forall_forall in Hf. by apply Hf.
  - reflexivity.
  - unfold RECENT_BLOCKS_TO_KEEP. cbn. lia.
Defined.

Lemma parse_u64_pretty_witness : parse_u64 (pretty 18446744073709551615) = Some 18446744073709551615.
Proof. apply parse_u64_pretty. unfold is_u64, two64. lia. Defined.

Definition saved := save_displayed_transaction_payrefs_before_reorg 1 1500 store.
Definition saved_count : Z := result_or 0 (fst saved).

Lemma saved_ok : save_displayed_transaction_payrefs_before_reorg 1 1500 store = (Ok saved_count, snd saved).
Proof. unfold saved_count, saved. apply run_ok. vm_compute. reflexivity. Qed.

Lemma reorg_keeps_payrefs_witness :
  saved_count = 2 /\ get_transaction_id_by_historical_payref 1 "ref2" (snd saved) = (Ok (Some 77), snd saved).
Proof.
  split; [vm_compute; reflexivity|].
  refine (proj2 (reorg_keeps_payrefs 1 1500 store saved_count (snd saved) displayed 77 payrefs "ref2"
    saved_ok _ _ _ _ _ _ _) _).
  - left.
  - vm_compute. reflexivity.
  - reflexivity.
  - unfold is_u64, two64. lia.
  - vm_compute. reflexivity.
  - right. left.
  - done.
  - intros t (h & Hin & _ & <-).
    assert (forallb (fun h => as_u64 (h_transaction_id h) =? 77) (rows (payref_history (snd saved))) = true) as Hf
      by (vm_compute; reflexivity).
    apply Z.eqb_eq. apply (proj1 (forallb_forall _ _) Hf). by apply list_elem_of_In.
Defined.

Definition bob_deleted := delete_wallet "bob" store.

Lemma bob_deleted_run : delete_wallet "bob" store = (fst bob_deleted, snd bob_deleted).
Proof. unfold bob_deleted. apply surjective_pairing. Qed.

Lemma delete_wallet_spec_witness :
  map a_id (rows (accounts (snd bob_deleted))) = [1] /\
  exists a, head (select (name_is "bob") (accounts store)) = Some a /\ deleted (a_id a) store (snd bob_deleted).
Proof.
  split; [vm_compute; reflexivity|].
  exact (proj1 (delete_wallet_spec "bob" store _ _ bob_deleted_run) ltac:(vm_compute; reflexivity)).
Defined.

Definition alice_deleted := delete_wallet "alice" (snd saved).

Lemma alice_deleted_run : delete_wallet "alice" (snd saved) = (fst alice_deleted, snd alice_deleted).
Proof. unfold alice_deleted. apply surjective_pairing. Qed.

Lemma delete_wallet_stuck_witness : is_ok (fst alice_deleted) = false.
Proof.
  refine (proj1 (delete_wallet_stuck "alice" (snd saved) account1 _ _ _ _ alice_deleted_run)).
  - vm_compute. reflexivity.
  - vm_compute. reflexivity.
Defined.

End StoreExamples.
