(* ===== verification/ApiTheory.v ===== *)
(** * Properties of the HTTP API

    Requests move the database along the wallet's state machine; those that read, and those
    that fail before funds are taken, leave it as it was; what an unknown account, a page
    and a stale payment reference are answered. *)
From S2P Require Import Prelude Models DisplayTypes External Schema BalanceDb OutputsDb TipBlocksDb.
From S2P Require Import PendingDb AccountsDb Crypto EventsDb CompletedDb DisplayedDb PayrefDb BurnProofsDb.
From S2P Require Import InputSelector FundLocker Monitor Manager Burn ScanEvents History Api Ledger Wallet Locks StoreTheory AccountTheory BurnTheory.
From stdpp Require Import relations.
#[local] Open Scope Z_scope.

Section Rules.
Context {X : Ext} {SE : SelectionExt} {C : TxClient} {BX : BurnExt} {CR : CryptoExt} {WT : WalletExt}.
Context {AX : ApiExt} {S0 : StdOrder}.
Context (app_state : AppState).

(** ** Rules of the handlers *)
Lemma preserves_spawn_blocking {A} (P : Db -> Prop) (m : ApiM A) : preserves P m -> preserves P (spawn_blocking m).
Proof. intros Hm d Hd. unfold spawn_blocking. specialize (Hm d Hd). by destruct (m d) as [[] d']. Qed.

Lemma preserves_find_account (P : Db -> Prop) name : preserves P (find_account name).
Proof. unfold find_account, api_db, get_account_by_name. solve_preserves. Qed.

Lemma preserves_with_account {A} (P : Db -> Prop) name (k : AccountRow -> ApiM A) :
  (forall account, preserves P (k account)) -> preserves P (with_account app_state name k).
Proof.
  intros Hk. apply preserves_spawn_blocking. unfold get_connection. apply preserves_bind; [solve_preserves|]. intros _.
  apply preserves_bind; [apply preserves_find_account|]. exact Hk.
Qed.

Lemma atomic_spawn_blocking {A} (m : ApiM A) : atomic m -> atomic (spawn_blocking m).
Proof.
  intros Hm d r d' H Hr. unfold spawn_blocking in H. destruct (m d) as [r0 d0] eqn:E.
  destruct r0; injection H as <- <-; [done|..]; by apply (Hm _ _ _ E).
Qed.

Lemma preserves_expect {A} (P : Db -> Prop) (o : option A) : preserves P (expect o).
Proof. destruct o; [apply preserves_ret|apply preserves_panic]. Qed.

End Rules.

Ltac solve_handler :=
  repeat first
    [ apply preserves_with_account; intros ?
    | apply preserves_spawn_blocking
    | apply preserves_find_account
    | apply preserves_expect
    | progress preserves_step
    | progress cbv beta ].

(** ** Requests and the state of the wallet *)
Section Requests.
Context {X : Ext} {SE : SelectionExt} {C : TxClient} {BX : BurnExt} {CR : CryptoExt} {WT : WalletExt}.
Context {AX : ApiExt} {S0 : StdOrder}.
Context (app_state : AppState).

(** The requests that take funds. *)
Definition takes_funds (req : ApiRequest) : bool :=
  match req with LockFunds _ _ | CreateUnsignedTransaction _ _ | BurnFunds _ _ => true | _ => false end.

Lemma preserves_select (P : Db -> Prop) s amount n fee size : preserves P (select_unspent_outputs s amount n fee size).
Proof.
  unfold select_unspent_outputs, sel_db, get_latest_scanned_tip_block_by_account,
    get_output_totals_for_account, get_total_unspent_balance, fetch_unspent_outputs. solve_preserves.
Qed.

Lemma preserves_read (P : Db -> Prop) u0 u1 u2 req :
  takes_funds req = false -> preserves P (handle app_state u0 u1 u2 req).
Proof.
  pose proof preserves_select.
  intros Hr. destruct req; try discriminate Hr; cbn [handle]; unfold reply, api_get_version, api_get_balance,
    api_get_address, api_create_address_with_payment_id, api_get_scan_status, api_get_events,
    api_get_completed_transactions, api_get_displayed_transactions, api_get_completed_transaction_by_payref,
    api_get_displayed_transactions_by_payref, api_estimate_fees, estimate_fees, api_db, get_balance,
    get_balance_aggregates_for_account, get_output_totals_for_account, get_latest_scanned_block_with_timestamp,
    get_events_by_account_id, get_completed_transactions_by_account, get_displayed_transactions_paginated,
    get_completed_transaction_by_payref, get_transaction_id_by_historical_payref, get_completed_transaction_by_id,
    optional_row, get_displayed_transactions_by_payref, get_displayed_transaction_by_id, query_displayed,
    get_account_by_name; solve_handler; auto.
Qed.

Lemma preserves_handle (P : Db -> Prop) u0 u1 u2 req :
  (forall a b, wallet_step a b -> P a -> P b) -> preserves P (handle app_state u0 u1 u2 req).
Proof.
  intros HP. destruct (takes_funds req) eqn:E; [|by apply preserves_read].
  assert (forall uuid key acc amount n fee size k secs window,
    preserves P (lock uuid key acc amount n fee size k secs window)) as Hlock by (intros ** d; apply HP; constructor).
  assert (forall uuid key account params, preserves P (create_burn_tx uuid key account params)) as Hcreate
    by (intros ** d; apply HP; constructor).
  assert (forall result acc key, preserves P (persist_burn_records result acc key)) as Hpersist
    by (intros ** d; apply HP; constructor).
  assert (forall tx_id, preserves P (mark_completed_transaction_as_broadcasted tx_id 1)) as Hmark
    by (intros ** d; apply HP; constructor).
  destruct req; try discriminate E; cbn [handle]; unfold reply, api_lock_funds, api_create_unsigned_transaction,
    api_lock, api_burn_funds, burn_prepare, get_connection, api_db; solve_handler; auto.
Qed.

Lemma serve_from_start u0 u1 u2 req d0 d :
  rtc wallet_step d0 d -> rtc wallet_step d0 (snd (serve app_state u0 u1 u2 req d)).
Proof.
  intros Hd. unfold serve. pose proof (preserves_handle (rtc wallet_step d0) u0 u1 u2 req) as H.
  specialize (H ltac:(intros a b Hs Ha; by eapply rtc_r) d Hd). by destruct (handle app_state u0 u1 u2 req d).
Qed.

(** Every request, whatever its arguments, the answers of the node and its outcome,
    moves the database along the steps of the wallet's state machine: a database that was
    reachable stays so. *)
Theorem serve_steps u0 u1 u2 req d : rtc wallet_step d (snd (serve app_state u0 u1 u2 req d)).
Proof. apply serve_from_start, rtc_refl. Qed.

Lemma api_lock_funds_atomic u0 u1 name body : atomic (api_lock_funds app_state u0 u1 name body).
Proof.
  apply atomic_spawn_blocking. unfold get_connection.
  apply atomic_before; [solve_preserves|]. intros _.
  apply atomic_before; [apply frames_preserves; intro; apply preserves_find_account|]. intros account.
  apply atomic_before; [apply frames_preserves; intro; apply preserves_expect|]. intros num_outputs.
  apply atomic_before; [apply frames_preserves; intro; apply preserves_expect|]. intros fee_per_gram.
  apply atomic_before; [apply frames_preserves; intro; apply preserves_expect|]. intros seconds.
  apply atomic_map_err, lock_atomic.
Qed.

(** C29: a request that only reads leaves the database as it was, and so does a request
    to lock funds that is not answered with status 200. *)
Theorem failed_request_keeps_db u0 u1 u2 req d resp d' :
  serve app_state u0 u1 u2 req d = (resp, d') ->
  (takes_funds req = false -> d' = d) /\
  (forall name body, req = LockFunds name body -> (forall reply, resp <> Some (200, inl reply)) -> d' = d).
Proof.
  unfold serve. destruct (handle app_state u0 u1 u2 req d) as [r d1] eqn:E. intros [= <- <-]. split.
  - intros Hr. pose proof (preserves_read (eq d) u0 u1 u2 req Hr d eq_refl) as H. by rewrite E in H.
  - intros name body -> Hresp. cbn [handle] in E.
    apply (atomic_ret _ (fun a => LockReply a) (api_lock_funds_atomic u0 u1 name body) d r d1 E).
    destruct r; try done. by destruct (Hresp a).
Qed.

(** ** Accounts that do not exist *)

(** The account in the path of a request. *)
Definition account_of (req : ApiRequest) : option string :=
  match req with
  | GetVersion => None
  | GetBalance name | GetAddress name | CreateAddressWithPaymentId name _ | GetScanStatus name
  | GetEvents name _ | GetCompletedTransactions name _ | GetCompletedTransactionByPayref name _
  | GetDisplayedTransactions name _ | GetDisplayedTransactionsByPayref name _
  | LockFunds name _ | CreateUnsignedTransaction name _ | EstimateFees name _ | BurnFunds name _ => Some name
  end.

(** What a handler parses before it looks for the account. *)
Definition parses (req : ApiRequest) : bool :=
  match req with
  | CreateAddressWithPaymentId _ h => negb (is_none (hex_decode h))
  | BurnFunds _ body =>
      is_ok (parse_optional "claim_public_key" parse_public_key_hex (br_claim_public_key body))
      && is_ok (parse_optional "sidechain_deployment_key" parse_private_key_hex (br_sidechain_deployment_key body))
  | _ => true
  end.

Definition no_account (name : string) (d : Db) : Prop :=
  forall a, a ∈ rows (accounts d) -> a_friendly_name a <> name.

Lemma no_account_none name d : no_account name d -> get_account_by_name name d = (Ok None, d).
Proof.
  intros H. unfold get_account_by_name, gets. do 2 f_equal. destruct (select _ _) as [|a l] eqn:E; [done|].
  assert (a ∈ select (fun a => String.eqb (a_friendly_name a) name) (accounts d)) as [Ha Hn]%elem_of_filter_bool
    by (rewrite E; left).
  by apply String.eqb_eq in Hn as <-; destruct (H a Ha).
Qed.

Lemma find_account_none name d : no_account name d -> find_account name d = (Err (AccountNotFound name), d).
Proof. intros H. unfold find_account, api_db, bind, map_err. by rewrite no_account_none. Qed.

Lemma connected n d : pool app_state n = Ok tt -> get_connection app_state n d = (Ok tt, d).
Proof. intros H. unfold get_connection. by rewrite H. Qed.

Lemma with_account_none {A} name (k : AccountRow -> ApiM A) d :
  pool app_state 0 = Ok tt -> no_account name d ->
  with_account app_state name k d = (Err (AccountNotFound name), d).
Proof.
  intros Hp Hn. unfold with_account, spawn_blocking, bind. by rewrite connected, find_account_none.
Qed.

Lemma burn_prepare_none u0 u1 u2 name body d :
  pool app_state 0 = Ok tt -> no_account name d -> parses (BurnFunds name body) = true ->
  burn_prepare app_state u0 u1 u2 name body d = (Err (AccountNotFound name), d).
Proof.
  intros Hp Hn [H1 H2]%andb_true_iff. unfold burn_prepare, spawn_blocking.
  destruct (parse_optional "claim_public_key" _ _) as [claim| |]; try done.
  destruct (parse_optional "sidechain_deployment_key" _ _) as [key| |]; try done.
  unfold bind, lift. by rewrite connected, find_account_none.
Qed.

(** A request for an account that does not exist changes nothing and is answered with
    status 404, except that an estimate of fees is answered with status 500. *)
Theorem unknown_account u0 u1 u2 req name d :
  pool app_state 0 = Ok tt -> account_of req = Some name -> no_account name d -> parses req = true ->
  serve app_state u0 u1 u2 req d =
    (Some match req with
     | EstimateFees _ _ => (500, inr ("Account with name '" +:+ name +:+ "' not found"))
     | _ => (404, inr ("Account '" +:+ name +:+ "' not found"))
     end, d).
Proof.
  intros Hp Ha Hn Hok. pose proof (fun A k => @with_account_none A name k d Hp Hn) as Hw.
  unfold serve. destruct req; try discriminate Ha; injection Ha as ->; cbn [handle]; unfold reply;
    unfold api_get_balance, api_get_address, api_create_address_with_payment_id, api_get_scan_status, api_get_events,
      api_get_completed_transactions, api_get_displayed_transactions, api_get_completed_transaction_by_payref,
      api_get_displayed_transactions_by_payref, api_lock_funds, api_create_unsigned_transaction;
    try (unfold bind; rewrite ?Hw; done).
  - unfold parses in Hok. destruct (hex_decode payment_id_hex) as [b|]; [|done]. unfold bind, lift.
    cbn [ok_or]. by rewrite Hw.
  - unfold api_estimate_fees, estimate_fees, bind, map_err, lift. rewrite Hp. by rewrite no_account_none.
  - unfold api_burn_funds, bind. by rewrite (burn_prepare_none u0 u1 u2 name body d Hp Hn Hok).
Qed.

(** ** Accounts that exist *)
Lemma with_account_some {A} name account (k : AccountRow -> ApiM A) d :
  pool app_state 0 = Ok tt -> get_account_by_name name d = (Ok (Some account), d) ->
  with_account app_state name k d = spawn_blocking (k account) d.
Proof.
  intros Hp Hn. unfold with_account, spawn_blocking. unfold bind at 1. rewrite connected by done.
  unfold bind, find_account, api_db, bind, map_err. by rewrite Hn.
Qed.

(** Locking funds over the API is [FundLocker::lock] with the defaults of the API, on every
    branch: its result is answered with status 200 and its error with status 500; a field that is
    explicitly [null] in the body panics in the handler, and is answered with status 500. *)
Theorem api_lock_funds_spec u0 u1 u2 name account amount n fee size secs key window d :
  pool app_state 0 = Ok tt -> get_account_by_name name d = (Ok (Some account), d) ->
  let body := lock_funds_request_of amount n fee size secs key window in
  let panicked msg := (500, inr ("Task join error: " +:+ join_error_text msg)) in
  serve app_state u0 u1 u2 (LockFunds name body) d =
    match field_option (Some 1) n, field_option (Some 5) fee, field_option (Some 86400) secs with
    | Some n, Some fee, Some secs =>
        let '(r, d') := lock u0 u1 (a_id account) amount n fee (field_option None size) (field_option None key) secs
          (default (required_confirmations app_state) (field_option None window)) d in
        (Some match r with
         | Ok result => (200, inl (LockReply result))
         | Err e => (500, inr (lock_error_to_string e))
         | Panic msg => panicked msg
         end, d')
    | _, _, _ => (Some (panicked "must be defaulted"), d)
    end.
Proof.
  intros Hp Hn body panicked. unfold serve, handle, reply, api_lock_funds. unfold bind at 1.
  rewrite (with_account_some name account) by done. unfold spawn_blocking.
  subst body. unfold lock_funds_request_of. cbn [lr_num_outputs lr_fee_per_gram lr_seconds_to_lock_utxos
    lr_estimated_output_size lr_idempotency_key lr_confirmation_window lr_amount].
  unfold default_num_outputs, default_fee_per_gram, default_seconds_to_lock_utxos.
  destruct (field_option (Some 1) n) as [n'|]; [|done]. unfold bind at 1. cbn [expect ret].
  destruct (field_option (Some 5) fee) as [fee'|]; [|done]. unfold bind at 1. cbn [expect ret].
  destruct (field_option (Some 86400) secs) as [secs'|]; [|done]. unfold bind at 1. cbn [expect ret].
  unfold api_lock, map_err. by destruct (lock _ _ _ _ _ _ _ _ _ _ d) as [[] d'].
Qed.

(** ** Pages *)
Definition all_events (acc : Z) (d : Db) : list EventRow :=
  sort_by newest_event_first (select (fun e => e_account_id e =? acc) (events d)).

(** The events that a request with these parameters is answered. *)
Definition events_page (name : string) (p : PaginationParams) (d : Db) : list EventRow :=
  result_or [] (fst (api_get_events app_state name p d)).

Lemma events_page_eq name account p d :
  pool app_state 0 = Ok tt -> get_account_by_name name d = (Ok (Some account), d) ->
  events_page name p d = limit_offset (page_limit p) (page_offset p) (all_events (a_id account) d).
Proof. intros Hp Hn. unfold events_page, api_get_events. by rewrite (with_account_some name account). Qed.

Lemma take_concat_pages {A} (size n : nat) (l : list A) :
  concat (map (fun k => take size (drop (k * size) l)) (seq 0 n)) = take (n * size) l.
Proof.
  induction n as [|n IH]; [done|]. rewrite seq_S, map_app, concat_app, IH. cbn [map concat].
  rewrite app_nil_r, Nat.add_0_l. replace (S n * size)%nat with (n * size + size)%nat by lia. by rewrite take_take_drop.
Qed.

(** The events of an account are read page by page, the newest first: for a limit between 1
    and 1000 the pages one after the other are the events, each once and in order, and with
    enough pages all of them; a page has at most 1000 events unless the limit is negative. *)
Theorem event_pages name account d limit n :
  pool app_state 0 = Ok tt -> get_account_by_name name d = (Ok (Some account), d) ->
  1 <= limit <= MAX_PAGE_LIMIT ->
  let page k := events_page name (mkPagination (Some limit) (Some (Z.of_nat k * limit))) d in
  concat (map page (seq 0 n)) = take (n * Z.to_nat limit) (all_events (a_id account) d) /\
  ((length (all_events (a_id account) d) <= n * Z.to_nat limit)%nat ->
    concat (map page (seq 0 n)) = all_events (a_id account) d) /\
  (forall p, 0 <= default DEFAULT_PAGE_LIMIT (pg_limit p) ->
    Z.of_nat (length (events_page name p d)) <= MAX_PAGE_LIMIT).
Proof.
  intros Hp Hn Hlimit page. unfold MAX_PAGE_LIMIT in *.
  assert (concat (map page (seq 0 n)) = take (n * Z.to_nat limit) (all_events (a_id account) d)) as Hpages.
  { rewrite <- take_concat_pages. f_equal. apply map_ext. intros k. subst page. cbv beta.
    rewrite (events_page_eq name account) by done. unfold limit_offset, page_limit, page_offset, MAX_PAGE_LIMIT.
    cbn [pg_limit pg_offset default from_option]. unfold id.
    rewrite Z.min_l by lia. rewrite (proj2 (Z.ltb_ge limit 0)) by lia. f_equal. f_equal. cbn. lia. }
  split; [done|]. split.
  - intros Hall. rewrite Hpages. by apply take_ge.
  - intros p H0. rewrite (events_page_eq name account) by done. unfold limit_offset, page_limit, MAX_PAGE_LIMIT.
    set (m := default DEFAULT_PAGE_LIMIT (pg_limit p)) in *. clearbody m.
    destruct (Z.ltb_spec (Z.min m 1000) 0) as [|_]; [lia|]. rewrite length_take. lia.
Qed.

(** A negative limit passes the cap, and the database takes it as no limit: one
    request is answered all events of the account, however many there are. *)
Theorem negative_limit_unbounded name account d limit :
  pool app_state 0 = Ok tt -> get_account_by_name name d = (Ok (Some account), d) -> limit < 0 ->
  events_page name (mkPagination (Some limit) None) d = all_events (a_id account) d.
Proof.
  intros Hp Hn Hl. rewrite (events_page_eq name account) by done.
  unfold limit_offset, page_limit, page_offset, MAX_PAGE_LIMIT. cbn [pg_limit pg_offset default from_option]. unfold id.
  rewrite (proj2 (Z.ltb_lt _ 0)) by lia. done.
Qed.

(** ** Stale payment references *)

(** A payment reference that a reorg has made stale still leads to its transaction: when the
    history records the reference for one transaction of the account, the lookup over the API
    answers at least one displayed transaction, and exactly that one unless the reference
    matches a live one. *)
Theorem stale_payref_answered name account d payref tx row t :
  pool app_state 0 = Ok tt -> get_account_by_name name d = (Ok (Some account), d) ->
  recorded (a_id account) tx payref d -> (forall t, recorded (a_id account) t payref d -> t = tx) ->
  head (select (has_id (pretty tx)) (displayed_transactions d)) = Some row ->
  displayed_of_json (d_transaction_json row) = Some t ->
  exists l, api_get_displayed_transactions_by_payref app_state name payref d = (Ok l, d) /\ l <> [] /\
    (fst (get_displayed_transactions_by_payref (a_id account) payref d) = Ok [] -> l = [t]).
Proof.
  intros Hp Hn Hr Hu Hrow Ht. unfold api_get_displayed_transactions_by_payref.
  rewrite (with_account_some name account) by done. unfold spawn_blocking, bind at 1, api_db at 1, map_err.
  destruct (get_displayed_transactions_by_payref (a_id account) payref d) as [r d1] eqn:E.
  assert (d1 = d /\ exists l, r = Ok l) as [-> [l ->]].
  { unfold get_displayed_transactions_by_payref, query_displayed, gets in E. injection E as <- <-. eauto. }
  cbn [outcome_map_err]. destruct l as [|x l]; [|by eexists].
  unfold bind at 1, api_db at 1, map_err. rewrite (recorded_found _ _ _ _ Hr Hu). cbn [outcome_map_err].
  unfold bind, api_db, map_err, get_displayed_transaction_by_id, gets. rewrite Hrow. cbn [mbind option_bind outcome_map_err].
  rewrite Ht. exists [t]. done.
Qed.

End Requests.

(** ** Examples *)
Module ApiExamples.
Import Demo Ledger.Examples WalletExamples LockExamples AccountExamples BurnTheory.BurnExamples.

#[export] Instance demo_api : ApiExt := {
  CARGO_PKG_VERSION := "1.0.0";
  CARGO_PKG_NAME := "minotari";
  to_rfc3339 := pretty;
  hex_error_text := fun _ => "odd number of digits";
  public_key_of_bytes := Ok;
  private_key_of_bytes := Ok;
  OneSidedMemo := string;
  memo_new_open := Ok;
  memo_new_empty := "";
  OneSidedBuilder := unit;
  UnsignedTransaction := unit;
  one_sided_builder := fun _ _ _ => Ok tt;
  prepare_for_signing := fun _ _ _ _ => Ok tt;
  unsigned_to_json := fun _ => Ok "{}";
}.

Definition server : AppState := mkAppState (fun _ => Ok tt) "secret" 0 (Ok tt) (Ok tt) (Ok []).

Lemma alice_found : get_account_by_name "alice" funded = (Ok (Some account1), funded).
Proof. unfold get_account_by_name, gets. do 2 f_equal. Qed.

(** More than alice has: refused, and nothing is locked. *)
Definition lock_body (amount : Z) (fee : Field Z) : LockFundsRequest :=
  lock_funds_request_of amount Missing fee Missing Missing Missing Missing.

Definition refused := serve server "r1" "k1" "k2" (LockFunds "alice" (lock_body 1000 Missing)) funded.

Example refused_status : fst <$> fst refused = Some 500.
Proof. vm_compute. reflexivity. Qed.

Lemma failed_request_keeps_db_witness : snd refused = funded.
Proof.
  refine (proj2 (failed_request_keeps_db server "r1" "k1" "k2" (LockFunds "alice" (lock_body 1000 Missing)) funded
    (fst refused) (snd refused) (surjective_pairing _)) "alice" (lock_body 1000 Missing) eq_refl _).
  intros r H. apply (f_equal (fun x => fst <$> x)) in H. rewrite refused_status in H. discriminate H.
Defined.

Lemma no_bob : no_account "bob" funded.
Proof.
  intros a Ha. change (rows (accounts funded)) with [account1] in Ha. apply list_elem_of_singleton in Ha as ->. discriminate.
Qed.

Lemma unknown_account_witness :
  serve server "r1" "k1" "k2" (GetBalance "bob") funded = (Some (404, inr "Account 'bob' not found"), funded) /\
  serve server "r1" "k1" "k2" (EstimateFees "bob" (mkEstimateFeeRequest 5 1 None None)) funded
  = (Some (500, inr "Account with name 'bob' not found"), funded).
Proof.
  split.
  - exact (unknown_account server "r1" "k1" "k2" (GetBalance "bob") "bob" funded eq_refl eq_refl no_bob eq_refl).
  - exact (unknown_account server "r1" "k1" "k2" (EstimateFees "bob" (mkEstimateFeeRequest 5 1 None None)) "bob" funded
      eq_refl eq_refl no_bob eq_refl).
Defined.

(** A fee that is [null] in the body. *)
Lemma api_lock_funds_spec_witness :
  serve server "r1" "k1" "k2" (LockFunds "alice" (lock_body 60 Null)) funded
  = (Some (500, inr "Task join error: task panicked: must be defaulted"), funded).
Proof.
  exact (api_lock_funds_spec server "r1" "k1" "k2" "alice" account1 60 Missing Null Missing Missing Missing Missing funded
    eq_refl alice_found).
Defined.

Definition granted := serve server "r1" "k1" "k2" (LockFunds "alice" (lock_body 60 Missing)) funded.

Example granted_status : fst <$> fst granted = Some 200 /\
  map o_status (rows (outputs (snd granted))) <> map o_status (rows (outputs funded)).
Proof. vm_compute. split; [reflexivity|discriminate]. Qed.

Lemma event_pages_witness :
  concat (map (fun k => events_page server "alice" (mkPagination (Some 1) (Some (Z.of_nat k * 1))) funded) (seq 0 2))
  = take (2 * Z.to_nat 1) (all_events (a_id account1) funded).
Proof.
  exact (proj1 (event_pages server "alice" account1 funded 1 2 eq_refl alice_found
    (conj (Z.le_refl 1) (proj1 (Z.leb_le 1 MAX_PAGE_LIMIT) eq_refl)))).
Defined.

Lemma negative_limit_unbounded_witness :
  events_page server "alice" (mkPagination (Some (-1)) None) funded = all_events (a_id account1) funded.
Proof. exact (negative_limit_unbounded server "alice" account1 funded (-1) eq_refl alice_found eq_refl). Defined.

(** The history of a database where alice's displayed transaction had another reference. *)
Definition no_row : DisplayedRow := mkDisplayedRow "" 0 "" "" "" 0 0 0 "" None 0 0.
Definition shown : DisplayedRow := hd no_row (rows (displayed_transactions funded)).
Definition shown_id : Z := default 0 (parse_u64 (d_id shown)).
Definition reorged : Db :=
  with_payref_history (mkTable [mkPayrefHistoryRow 1 1 (as_i64 shown_id) "stale" None 0] 1) funded.

Lemma recorded_stale t : StoreTheory.recorded 1 t "stale" reorged <-> t = shown_id.
Proof.
  split.
  - intros (h & Hin & _ & <-). apply list_elem_of_singleton in Hin as ->. vm_compute. reflexivity.
  - intros ->. exists (mkPayrefHistoryRow 1 1 (as_i64 shown_id) "stale" None 0). split; [left|]. by vm_compute.
Qed.

Lemma alice_found_reorged : get_account_by_name "alice" reorged = (Ok (Some account1), reorged).
Proof. unfold get_account_by_name, gets. do 2 f_equal. Qed.

Lemma head_select {R} (p : R -> bool) (t : Table R) d :
  (length (rows t) =? 0)%nat = false -> p (hd d (rows t)) = true -> head (select p t) = Some (hd d (rows t)).
Proof. unfold select. destruct (rows t) as [|r l]; [done|]. cbn. intros _ Hp. by rewrite Hp. Qed.

Lemma history_displayed t d : displayed_transactions (with_payref_history t d) = displayed_transactions d.
Proof. reflexivity. Qed.

Lemma stale_payref_answered_witness : exists t l,
  displayed_of_json (d_transaction_json shown) = Some t /\
  api_get_displayed_transactions_by_payref server "alice" "stale" reorged = (Ok l, reorged) /\ l = [t].
Proof.
  destruct (displayed_of_json (d_transaction_json shown)) as [t|] eqn:Ht; [|apply (f_equal is_none) in Ht; vm_compute in Ht; discriminate Ht].
  destruct (stale_payref_answered server "alice" account1 reorged "stale" shown_id shown t eq_refl alice_found_reorged
    (proj2 (recorded_stale shown_id) eq_refl) (fun t => proj1 (recorded_stale t))) as (l & Hl & _ & Hone).
  - unfold reorged. rewrite history_displayed.
    refine (head_select (has_id (pretty shown_id)) (displayed_transactions funded) no_row _ _); vm_compute; reflexivity.
  - exact Ht.
  - exists t, l. split; [reflexivity|]. split; [exact Hl|]. apply Hone. vm_compute. reflexivity.
Defined.

(** The history of alice, one transaction at a time. *)
Definition chunked := emit_in_chunks (Ok tt) 1 1 funded.
Definition chunked_result := result_or (0%nat, []) (fst chunked).

Lemma chunked_ok : emit_in_chunks (Ok tt) 1 1 funded = (Ok chunked_result, snd chunked).
Proof. unfold chunked_result, chunked. apply run_ok. vm_compute. reflexivity. Qed.

Lemma chunks_cover_history_witness : fst chunked_result = 3%nat /\
  load_all_transactions (Ok tt) 1 funded = (Ok (concat (map dte_transactions (snd chunked_result))), funded).
Proof.
  split; [vm_compute; reflexivity|].
  exact (proj1 (proj2 (chunks_cover_history (Ok tt) 1 1 funded chunked_result (snd chunked) (le_n 1) chunked_ok))).
Defined.

End ApiExamples.
