(* ===== verification/ScanTheory.v ===== *)
(** * The scan loop

    The event buffer, the plan of a turn, what one account does with a batch of
    blocks, and the loop as a sequence of steps of the wallet's state machine. *)
From S2P Require Import Prelude Models DisplayTypes External Schema TipBlocksDb Webhooks ScanEvents.
From S2P Require Import Subset Processor Scanning BlockProc Reorg InputSelector Monitor Coordinator Ledger.
From S2P Require Import ReorgTheory Wallet.
From stdpp Require Import relations.
#[local] Open Scope Z_scope.

(** ** The event buffer *)

(** The buffer of a continuous scan drops the oldest events: it holds the newest
    ones, as many as the limit allows. *)
Theorem push_events_with_limit_spec all_events events limit :
  exists dropped,
    all_events ++ events = dropped ++ push_events_with_limit all_events events (Some limit) /\
    length (push_events_with_limit all_events events (Some limit)) = Nat.min limit (length (all_events ++ events)).
Proof.
  exists (take (length (all_events ++ events) - limit) (all_events ++ events)). unfold push_events_with_limit.
  rewrite take_drop, length_drop. split; [done|]. lia.
Qed.

(** ** The plan of a turn *)
Lemma foldl_min_le hs : forall h, foldl Z.min h hs <= h /\ (forall x, x ∈ hs -> foldl Z.min h hs <= x).
Proof.
  induction hs as [|y hs IH]; intros h; cbn; [split; [lia|set_solver]|].
  destruct (IH (Z.min h y)) as [H1 H2]. split; [lia|]. intros x [->|Hx]%elem_of_cons; [lia|]. by apply H2.
Qed.

Lemma foldl_min_elem hs : forall h, foldl Z.min h hs ∈ h :: hs.
Proof.
  induction hs as [|y hs IH]; intros h; cbn; [left|]. specialize (IH (Z.min h y)).
  apply elem_of_cons in IH as [->|IH]; [|by do 2 right].
  destruct (Z.min_spec h y) as [[_ ->]|[_ ->]]; [left|right; left].
Qed.

Lemma min_height_spec l m : min_height_of l = Some m -> m ∈ l /\ forall x, x ∈ l -> m <= x.
Proof.
  destruct l as [|h hs]; [done|]. cbn. intros [= <-]. split; [apply foldl_min_elem|].
  intros x [->|Hx]%elem_of_cons; [apply (proj1 (foldl_min_le hs h))|by apply (proj2 (foldl_min_le hs h))].
Qed.

Lemma min_height_none l : min_height_of l = None -> l = [].
Proof. by destruct l. Qed.

Lemma global_next_spec ts t : t ∈ ts ->
  global_next_block ts <= next_block_to_scan t /\ exists a, a ∈ ts /\ next_block_to_scan a = global_next_block ts.
Proof.
  intros Ht. unfold global_next_block. destruct (min_height_of _) as [m|] eqn:E.
  - apply min_height_spec in E as [Hin Hle]. cbn. split; [apply Hle; by apply list_elem_of_fmap_2|].
    apply list_elem_of_fmap in Hin as (a & -> & Ha). by exists a.
  - apply min_height_none in E. destruct ts; [set_solver|done].
Qed.

Lemma horizon_spec ts h t : next_horizon_height ts = Some h -> t ∈ ts ->
  next_block_to_scan t <> global_next_block ts -> global_next_block ts < h <= next_block_to_scan t.
Proof.
  intros H Ht Hne. pose proof (global_next_spec ts t Ht) as [Hle _].
  apply min_height_spec in H as [Hin Hmin]. split.
  - apply elem_of_filter_bool in Hin as [_ Hin]. lia.
  - apply Hmin, elem_of_filter_bool. split; [by apply list_elem_of_fmap_2|]. lia.
Qed.

Lemma horizon_some ts t : t ∈ ts -> next_block_to_scan t <> global_next_block ts ->
  exists h, next_horizon_height ts = Some h.
Proof.
  intros Ht Hne. unfold next_horizon_height. destruct (min_height_of _) as [h|] eqn:E; [by exists h|].
  apply min_height_none in E. exfalso. apply (not_elem_of_nil (next_block_to_scan t)). rewrite <- E.
  apply elem_of_filter_bool. pose proof (global_next_spec ts t Ht) as [? _].
  split; [by apply list_elem_of_fmap_2|]. lia.
Qed.

(** The plan of a turn is safe for the accounts that are ahead: an account is
    active exactly when it is furthest behind, some account is active, and neither the
    last height asked for nor a batch from the common next block reaches a block that
    an inactive account expects next. *)
Theorem turn_plan mode batch ts total t :
  t ∈ ts -> NoDup (map tg_account_id ts) -> 0 <= global_next_block ts -> 0 <= batch ->
  active_account_ids ts <> [] /\
  (tg_account_id t ∈ active_account_ids ts <-> next_block_to_scan t = global_next_block ts) /\
  (next_block_to_scan t <> global_next_block ts ->
    (exists e, end_height mode ts total = Some e /\ e < next_block_to_scan t) /\
    global_next_block ts + effective_batch_size batch ts <= next_block_to_scan t).
Proof.
  intros Ht Hn Hg Hb. pose proof (global_next_spec ts t Ht) as [Hle (a & Ha & Hag)].
  assert (Hact : forall x, x ∈ ts -> next_block_to_scan x = global_next_block ts -> tg_account_id x ∈ active_account_ids ts).
  { intros x Hx Hxg. apply list_elem_of_fmap_2, elem_of_filter_bool. split; [done|]. lia. }
  split; [|split; [split|]].
  - specialize (Hact a Ha Hag). intros E. rewrite E in Hact. set_solver.
  - intros (x & Hid & [Hx Hxg]%elem_of_filter_bool)%list_elem_of_fmap.
    rewrite (NoDup_map_eq tg_account_id ts t x) by done. lia.
  - by apply Hact.
  - intros Hne. destruct (horizon_some ts t Ht Hne) as [h Hh]. pose proof (horizon_spec ts h t Hh Ht Hne).
    unfold end_height, effective_batch_size. rewrite Hh. cbn. unfold u64_saturating_sub. split; [|lia].
    destruct mode; eexists; (split; [done|]); lia.
Qed.

Section Scan.
Context {X : Ext} {S0 : StdOrder} {SE : SelectionExt} {C : TxClient}.
Context (self : Config).

(** ** One account, one batch *)

(** C39: the blocks of a batch take effect together or not at all: when one of them fails,
    the database, the account's next block and the buffered events are as before the
    batch, and the processor is gone, so that no later batch is processed either. *)
Theorem process_blocks_atomic blocks acc pending next s r s' :
  process_blocks self blocks acc pending next s = (r, s') -> is_ok r = false ->
  db s' = db s /\ targets s' = targets s /\ all_events s' = all_events s /\
  (forall b bs acc' pending' next', is_ok (fst (process_blocks self (b :: bs) acc' pending' next' s')) = false).
Proof.
  intros H Hr. unfold process_blocks in H. destruct blocks as [|b0 bs0]; [by injection H as <- _|].
  destruct (handler s) as [p|] eqn:Hh.
  - destruct (process_new_blocks _ _ _ _) as [[u|e|msg] [p' d']] in H.
    + destruct (take_wallet_events p') in H. by injection H as <- _.
    + by injection H as _ <-.
    + by injection H as _ <-.
  - injection H as _ <-. repeat split; try done. intros. unfold process_blocks. by rewrite Hh.
Qed.

Lemma process_blocks_targets blocks acc pending next s r s' :
  process_blocks self blocks acc pending next s = (r, s') -> targets s' = targets s.
Proof.
  unfold process_blocks. intros H. destruct blocks; [by injection H as _ <-|].
  destruct (handler s) as [p|]; [|by injection H as _ <-].
  destruct (process_new_blocks _ _ _ _) as [[u|e|msg] [p' d']] in H; [|by injection H as _ <-..].
  destruct (take_wallet_events p') in H. by injection H as _ <-.
Qed.

Lemma find_update_target id f ts :
  (forall t, tg_account_id (f t) = tg_account_id t) ->
  find_target id (update_target id f ts) = f <$> find_target id ts.
Proof.
  intros Hf. unfold find_target. induction ts as [|t ts IH]; [done|]. cbn.
  destruct (tg_account_id t =? id) eqn:E; cbn; [by rewrite Hf, E|by rewrite E].
Qed.

(** What the turn of an account amounts to: the new blocks are processed and the
    account's next block is the one after the last of them. *)
Definition scan_account_blocks (blocks : list BlockScanResult) (limit : option nat) (account_id : Z) : ScanM unit :=
  let! ts := gets targets in
  let! target := lift (ok_or (find_target account_id ts)
    (Fatal (AnyMsg ("Unknown active account id: " +:+ pretty account_id)))) in
  let! events := process_blocks self blocks account_id (tg_has_pending_outbound target)
    (next_block_to_scan target) in
  push_events events limit ;;;
  match last blocks with
  | None => ret tt
  | Some last_block =>
      let! h := lift (u64_add (blk_height last_block) 1) in
      modify (fun s => set_targets (update_target account_id (set_next h) (targets s)) s)
  end.

(** The account's next block is advanced past the batch before it is
    compared with the batch's last height, so the comparison is always false: what is
    guarded by it never runs after a batch: the monitoring of pending transactions,
    the pruning of the recorded tips, and the progress event. *)
Theorem scan_account_never_progresses blocks limit acc s :
  scan_account self blocks limit acc s = scan_account_blocks blocks limit acc s.
Proof.
  unfold scan_account, scan_account_blocks, bind, gets, lift, push_events, modify.
  destruct (find_target acc (targets s)) as [t|] eqn:Hf; [|done]. cbn [ok_or].
  destruct (process_blocks _ _ _ _ _ s) as [[events|e|msg] s1] eqn:Hp; [|done..].
  apply process_blocks_targets in Hp. destruct (last blocks) as [b|]; [|done].
  destruct (u64_add _ _) as [h|e|msg] eqn:Hh; [|done..].
  unfold set_targets, set_all_events. cbn [targets]. rewrite find_update_target, Hp, Hf by done. cbn.
  unfold u64_add in Hh. destruct (_ <=? _) in Hh; [|done]. injection Hh as <-.
  rewrite Z.geb_leb, (proj2 (Z.leb_gt _ _)) by lia. done.
Qed.

(** ** The loop on the database and on the event channel

    [Pd] is kept by the steps of the wallet, [Pc] by sending an event other than
    [Progress]: then the loop keeps both. *)
Definition is_progress (e : ProcessingEvent) : bool :=
  match e with ScanStatus (Progress _ _ _) => true | _ => false end.

Section Loop.
Context (Pd : Db -> Prop) (Pc : list ProcessingEvent -> Prop).
Context (Hstep : forall d d', wallet_step d d' -> Pd d -> Pd d').
Context (Hsend : forall e l, is_progress e = false -> Pc l -> Pc (l ++ [e])).

Definition loop_inv (s : LoopState) : Prop := Pd (db s) /\ Pc (channel s).
Definition sent_ok (s : BlockProcessor * Db) : Prop := Pc (sent (fst s)).

Lemma sent_on_db {A} (m : DbM A) : preserves sent_ok (on_db m).
Proof. intros [p d] H. unfold on_db. by destruct (m d). Qed.
Lemma sent_on_processor {A} (m : ProcM A) : preserves sent_ok (on_processor m).
Proof. intros [p d] H. unfold on_processor. by destruct (m d). Qed.
Lemma sent_self {A} (f : BlockProcessor -> A) : preserves sent_ok (BlockProc.self f).
Proof. by intros [p d] H. Qed.
Lemma sent_on_self f : (forall p, Pc (sent p) -> Pc (sent (f p))) -> preserves sent_ok (on_self f).
Proof. intros Hf. apply preserves_modify. intros [p d] H. by apply Hf. Qed.

Lemma sent_process_block block acc : preserves sent_ok (process_block block acc).
Proof.
  unfold process_block, process_outputs, process_inputs, process_confirmations, record_scanned_block,
    save_and_emit_displayed_transactions, process_output, process_input, confirm_output,
    record_output_balance_change, record_input_balance_change, trigger_webhooks, update_current.
  repeat first
    [ progress (match goal with
      | |- preserves _ (on_db _) => apply sent_on_db
      | |- preserves _ (on_processor _) => apply sent_on_processor
      | |- preserves _ (BlockProc.self _) => apply sent_self
      | |- preserves _ (on_self _) => apply sent_on_self; intros ? ?; cbn; auto
      end) | progress preserves_step | progress cbv beta ].
Qed.

Lemma inv_process_blocks blocks acc pending next : preserves loop_inv (process_blocks self blocks acc pending next).
Proof.
  intros s [Hd Hc]. unfold process_blocks. destruct blocks as [|b bs]; [done|]. destruct (handler s) as [p|]; [|done].
  destruct (process_new_blocks _ _ _ _) as [r [p' d']] eqn:E. cbv zeta in E.
  assert (Hc' : Pc (sent p')).
  { assert (Hp : preserves sent_ok (process_new_blocks (b :: bs) acc next)).
    { apply preserves_for_each. intros x _. destruct (_ <? _); [apply preserves_ret|apply sent_process_block]. }
    match type of E with _ ?s2 = _ => specialize (Hp s2 Hc) end. rewrite E in Hp. exact Hp. }
  destruct r as [u| |]; [|done..].
  assert (Hh : hoare (fun s2 => Pd (snd s2)) (process_new_blocks (b :: bs) acc next) (fun _ s2 => Pd (snd s2))).
  { apply (hoare_for_each (fun _ s2 => Pd (snd s2))). intros x l. destruct (_ <? _); [by apply hoare_ret|].
    intros [q d] a s2 H0 H. pose proof (ws_process_block q x acc d) as Hw. rewrite H in Hw. by eapply Hstep; [apply Hw|]. }
  apply Hh in E; [|done]. by destruct p'.
Qed.

Lemma inv_emit e : is_progress e = false -> preserves loop_inv (emit e).
Proof. intros He. apply preserves_modify. intros s [Hd Hc]. split; [done|]. by apply Hsend. Qed.

Lemma inv_modify (f : LoopState -> LoopState) :
  (forall s, db (f s) = db s /\ channel (f s) = channel s) -> preserves (E := ScanError) loop_inv (modify f).
Proof. intros Hf. apply preserves_modify. intros s H. destruct (Hf s) as [H1 H2]. unfold loop_inv. by rewrite H1, H2. Qed.

Lemma inv_scan_account blocks limit acc : preserves loop_inv (scan_account self blocks limit acc).
Proof.
  intros s Hs. rewrite scan_account_never_progresses. revert s Hs.
  change (preserves loop_inv (scan_account_blocks blocks limit acc)).
  pose proof inv_process_blocks. unfold scan_account_blocks, push_events.
  repeat first [by apply inv_modify | progress preserves_step | progress cbv beta | by auto].
Qed.

Context (get_header : Z -> outcome string (option string)).

Lemma inv_check_global_reorgs : preserves loop_inv (check_global_reorgs self get_header).
Proof.
  assert (forall acc, preserves loop_inv (on_loop_db Fatal (handle_reorgs get_header acc (cf_webhook_config self)))).
  { intros acc s [Hd Hc]. unfold on_loop_db.
    pose proof (Hstep _ _ (ws_handle_reorgs get_header acc (cf_webhook_config self) (db s)) Hd) as H.
    destruct (handle_reorgs _ _ _ _). split; done. }
  unfold check_global_reorgs, check_target_reorg, emit_reorg_event.
  repeat first [by apply inv_modify | by apply inv_emit | progress preserves_step | progress cbv beta | by auto].
Qed.

Context (connect : outcome string unit).
Context (blocks_of : nat -> list Z -> ScanConfig -> outcome string (list (outcome string (list BlockScanResult)))).
Context (cancelled interrupted : nat -> bool).

Lemma inv_scan_batch ids limit next response : preserves loop_inv (scan_batch self get_header ids limit next response).
Proof.
  pose proof inv_check_global_reorgs. pose proof inv_scan_account. unfold scan_batch, emit_status.
  repeat first [by apply inv_modify | by apply inv_emit | progress preserves_step | progress cbv beta | by auto].
Qed.

Lemma inv_drain_stream ids limit next stream :
  forall empty, preserves loop_inv (drain_stream self get_header ids limit next empty stream).
Proof.
  induction stream as [|x stream IH]; intros empty; cbn; [apply preserves_ret|].
  apply preserves_bind; [apply inv_scan_batch|]. intros []; [apply preserves_ret|apply IH].
Qed.

Lemma inv_scan_turn turn mode :
  preserves loop_inv (scan_turn self get_header connect blocks_of cancelled interrupted turn mode).
Proof.
  pose proof inv_check_global_reorgs. pose proof inv_drain_stream.
  unfold scan_turn, finish_turn, handle_pause, emit_completed, wait_for_next_poll_cycle, emit_status.
  repeat first [by apply inv_modify | by apply inv_emit | progress preserves_step | progress cbv beta | by auto].
Qed.

Lemma inv_loop fuel mode : forall turn,
  preserves loop_inv (unified_scan_loop self get_header connect blocks_of cancelled interrupted fuel turn mode).
Proof.
  induction fuel as [|fuel IH]; intros turn; cbn; [apply preserves_ret|].
  apply preserves_bind; [apply inv_scan_turn|]. intros []; [apply preserves_ret|apply IH].
Qed.

End Loop.

(** ** The index of a scanned output *)

(** The scanner numbers the accounts of a turn among the active ones, the
    block processor numbers them among all targets.  When the numbers of an account
    differ, the outputs that the scanner found for it are skipped, and since the
    account's next block moves past them they are not seen again. *)
Theorem lagging_outputs_skipped ts block acc view_key p d :
  wallet_index_to_account_id p = map tg_account_id ts ->
  (forall h o i, (h, o, i) ∈ wallet_outputs block -> active_account_ids ts !! i = Some acc) ->
  (forall i, active_account_ids ts !! i = Some acc -> map tg_account_id ts !! i <> Some acc) ->
  process_outputs block acc view_key (p, d) = (Ok tt, (p, d)).
Proof.
  intros Hp Hs Hd. unfold process_outputs.
  assert (H : forall l evs, l ⊆ wallet_outputs block ->
    fold_m (fun generated_events '(hash, output, wallet_idx) =>
      let! mapped := BlockProc.self (fun p => wallet_index_to_account_id p !! wallet_idx) in
      match mapped with
      | None => ret generated_events
      | Some mapped_account_id =>
          if negb (mapped_account_id =? acc) then ret generated_events
          else
            let! e := process_output block acc view_key hash output in
            ret (generated_events ++ [e])
      end) evs l (p, d) = (Ok evs, (p, d))).
  { induction l as [|[[h o] i] l IH]; intros evs Hl; [done|]. cbn [fold_m]. unfold bind at 1 2, BlockProc.self, gets.
    rewrite Hp. specialize (Hd i (Hs h o i (Hl _ ltac:(left)))).
    assert (l ⊆ wallet_outputs block) by set_solver.
    destruct (map tg_account_id ts !! i) as [id|]; [|by apply IH].
    rewrite (proj2 (Z.eqb_neq id acc)) by congruence. by apply IH. }
  unfold bind at 1. rewrite H by done. unfold trigger_webhooks, bind, BlockProc.self, gets.
  by destruct (webhook_config p).
Qed.

(** ** The scan *)
Context (get_header : Z -> outcome string (option string)) (connect : outcome string unit).
Context (blocks_of : nat -> list Z -> ScanConfig -> outcome string (list (outcome string (list BlockScanResult)))).
Context (cancelled interrupted : nat -> bool).

(** Whatever the base node answers, and however the scan ends, the scan takes the
    database only through steps of the wallet's state machine: a database that was
    reachable stays so, and what holds of every reachable state holds after the scan. *)
Theorem scan_loop_steps fuel turn mode s :
  rtc wallet_step (db s)
    (db (snd (unified_scan_loop self get_header connect blocks_of cancelled interrupted fuel turn mode s))).
Proof.
  apply (inv_loop (fun d => rtc wallet_step (db s) d) (fun _ => True)); [|done|by split].
  intros d d' Hs Hd. by eapply rtc_r.
Qed.

(** A scan never reports its progress: no [Progress] event is sent,
    however long it runs and whatever the base node answers. *)
Theorem progress_never_sent fuel mode d ts :
  Forall (fun e => is_progress e = false)
    (channel (snd (unified_scan_loop self get_header connect blocks_of cancelled interrupted fuel 0 mode
      (initial_state self d ts)))).
Proof.
  apply (inv_loop (fun _ => True) (Forall (fun e => is_progress e = false))); [done| |by split].
  intros e l He Hl. apply Forall_app. split; [done|]. by constructor.
Qed.

(** The [Paused] events of a pause. *)
Definition paused (reason : PauseReason) (ts : list AccountSyncTarget) : list ProcessingEvent :=
  map (fun t => ScanStatus (Paused (tg_account_id t) (u64_saturating_sub (next_block_to_scan t) 1) reason)) ts.

Lemma emit_all {A} (f : A -> ScanStatusEvent) l : forall s,
  for_each (fun x => emit_status (f x)) l s = (Ok tt, set_channel (channel s ++ map (fun x => ScanStatus (f x)) l) s).
Proof.
  induction l as [|x l IH]; intros s; cbn.
  - rewrite app_nil_r. by destruct s.
  - unfold bind, emit_status, emit, modify. rewrite IH. cbn. by rewrite <- app_assoc.
Qed.

(** A cancelled scan stops at the start of the next turn, before it asks the base
    node for anything: it returns the buffered events, says that more blocks remain,
    tells each account where it stopped, and leaves the database alone. *)
Theorem scan_cancelled fuel turn mode s :
  cancelled turn = true ->
  unified_scan_loop self get_header connect blocks_of cancelled interrupted (S fuel) turn mode s
  = (Ok (Some (all_events s, true)), set_channel (channel s ++ paused Cancelled (targets s)) s).
Proof.
  intros Hc. cbn. unfold scan_turn. rewrite Hc. unfold handle_pause, bind, gets. rewrite emit_all. reflexivity.
Qed.

End Scan.

(** ** Examples *)
Module ScanExamples.
Import Demo Ledger.Examples ReorgExamples WalletExamples.

(** Alice has scanned up to block 99, bob, who was added later, up to block 49. *)
Definition alice : AccountSyncTarget := mkTarget 1 "viewkey" 100 false.
Definition bob : AccountSyncTarget := mkTarget 2 "bobkey" 50 false.
Definition both : list AccountSyncTarget := [alice; bob].
Definition config : Config := mkConfig 3 None 100 10.
Definition two_accounts : Db :=
  with_accounts (mkTable [account1; mkAccountRow 2 "bob" "" "" "" "" 0] 2) (empty_db 1000).

Lemma turn_plan_witness : active_account_ids both = [2] /\
  global_next_block both + effective_batch_size 100 both <= next_block_to_scan alice.
Proof.
  split; [reflexivity|].
  refine (proj2 (proj2 (proj2 (turn_plan Full 100 both 0 alice _ _ _ _)) _)).
  - left.
  - apply (bool_decide_unpack _). vm_compute. reflexivity.
  - vm_compute. discriminate.
  - lia.
  - vm_compute. discriminate.
Defined.

(** A block for an account that the processor does not know fails. *)
Definition loop_start : LoopState := initial_state config two_accounts both.
Definition failing := process_blocks config [block10] 9 false 0 loop_start.

Lemma failing_run : process_blocks config [block10] 9 false 0 loop_start = (fst failing, snd failing).
Proof. unfold failing. apply surjective_pairing. Qed.

Lemma process_blocks_atomic_witness : db (snd failing) = two_accounts.
Proof.
  exact (proj1 (process_blocks_atomic config [block10] 9 false 0 loop_start _ _ failing_run
    ltac:(vm_compute; reflexivity))).
Defined.

Lemma scan_cancelled_witness :
  channel (snd (unified_scan_loop config no_node (Ok tt) (fun _ _ _ => Ok []) (fun _ => true) (fun _ => false) 1 0
    Full loop_start)) = paused Cancelled both.
Proof.
  rewrite (scan_cancelled config no_node (Ok tt) (fun _ _ _ => Ok []) (fun _ => true) (fun _ => false) 0 0 Full loop_start
    eq_refl). reflexivity.
Defined.

(** Block 50 pays bob.  The scanner of the turn has bob's keys alone: index 0. *)
Definition block50 : BlockScanResult := mkBlockScanResult 50 "block50" [("h1", o1, 0%nat)] [] 900.
Definition knows_both : BlockProcessor := with_event_sender (map (fun t => (tg_account_id t, tg_view_key t)) both) false 3.

Lemma lagging_outputs_skipped_witness :
  process_outputs block50 2 "bobkey" (knows_both, two_accounts) = (Ok tt, (knows_both, two_accounts)).
Proof.
  refine (lagging_outputs_skipped both block50 2 "bobkey" knows_both two_accounts eq_refl _ _).
  - intros h o i Hin. apply list_elem_of_singleton in Hin. injection Hin as _ _ ->. reflexivity.
  - intros i Hi. assert (i = 0%nat) as ->; [|discriminate]. destruct i as [|i]; [reflexivity|discriminate Hi].
Defined.

(** The scan of that block by the whole loop: bob has passed the block, and his output
    is nowhere; scanned alone, he has it. *)
Definition serve (turn : nat) (kms : list Z) (c : ScanConfig) :
    outcome string (list (outcome string (list BlockScanResult))) :=
  match turn with O => Ok [Ok [block50]; Ok []] | _ => Ok [Ok []] end.
Definition scan (ts : list AccountSyncTarget) :=
  unified_scan_loop config no_node (Ok tt) serve (fun _ => false) (fun _ => false) 3 0 Full (initial_state config two_accounts ts).

Example lagging_scan :
  map next_block_to_scan (targets (snd (scan both))) = [100; 51] /\
  length (rows (outputs (db (snd (scan both))))) = 0%nat /\
  map next_block_to_scan (targets (snd (scan [bob]))) = [51] /\
  length (rows (outputs (db (snd (scan [bob]))))) = 1%nat.
Proof. vm_compute. repeat split; reflexivity. Qed.

End ScanExamples.
