(* ===== verification/SetupTheory.v ===== *)
(** * Starting a scan

    Where the scan of an account starts, and the whole scan as a sequence of steps of the
    wallet's state machine. *)
From S2P Require Import Prelude Models DisplayTypes External Schema BalanceDb TipBlocksDb AccountsDb CompletedDb Crypto.
From S2P Require Import Webhooks ScanEvents Scanning BlockProc Reorg InputSelector Monitor HttpScanner Coordinator.
From S2P Require Import ScanPipeline ScanSetup Ledger ReorgTheory Wallet AccountTheory ScanTheory.
From stdpp Require Import relations sorting.
#[local] Open Scope Z_scope.

Section Setup.
Context {X : Ext} {S0 : StdOrder} {SE : SelectionExt} {C : TxClient}.
Context {CE : CryptoExt} {W : WalletExt} {SX : ScanningExt X}.
Context (env : ScanEnv).

(** ** The recorded tips after the check for reorgs *)
Definition tip_row (r : TipRow) (b : ScannedTipBlock) : Prop :=
  0 <= t_height r /\ t_account_id r = stb_account_id b /\ t_height r = stb_height b /\ t_hash r = stb_hash b.

Lemma tips_of_rows acc d tips d' : get_scanned_tip_blocks_by_account acc d = (Ok tips, d') ->
  Forall2 tip_row (account_tips acc d) tips.
Proof.
  unfold get_scanned_tip_blocks_by_account. intros H. inv_ok.
  destruct (mapM tip_block_of_row (account_tips acc d')) as [l|] eqn:E; simplify_eq/=.
  apply mapM_Some_1 in E. eapply Forall2_impl; [exact E|]. intros r b Hb. unfold tip_block_of_row, unsigned in Hb.
  destruct (0 <=? t_height r) eqn:Hh; [|done]. injection Hb as <-. unfold tip_row. cbn. repeat split; lia.
Qed.

Lemma account_tips_sorted acc d : StronglySorted (fun a b => t_height b <= t_height a) (account_tips acc d).
Proof.
  assert (H : StronglySorted (fun a b => height_desc a b = true) (account_tips acc d)).
  { apply sort_by_sorted; unfold height_desc; intros; lia. }
  induction H as [|a l _ IH Ha]; constructor; [done|]. eapply Forall_impl; [exact Ha|]. unfold height_desc. lia.
Qed.

Lemma elem_of_account_tips acc d r :
  r ∈ account_tips acc d <-> r ∈ rows (scanned_tip_blocks d) /\ t_account_id r = acc.
Proof. unfold account_tips. rewrite elem_of_sort_by. unfold select. by rewrite elem_of_filter_bool, Z.eqb_eq. Qed.

(** The rows split like the blocks they hold. *)
Lemma tips_split acc d above rest :
  Forall2 tip_row (account_tips acc d) (above ++ rest) ->
  exists ra rr, account_tips acc d = ra ++ rr /\ Forall2 tip_row ra above /\ Forall2 tip_row rr rest.
Proof. intros H. apply Forall2_app_inv_r in H as (ra & rr & H1 & H2 & ->). by exists ra, rr. Qed.

(** The recorded blocks of the account that are left after the check, when the heights
    are below the largest [i64]. *)
Lemma tips_after_reorgs g acc config d res d' :
  (forall r, r ∈ rows (scanned_tip_blocks d) -> t_height r < i64_max) ->
  handle_reorgs g acc config d = (Ok res, d') ->
  (forall r, r ∈ rows (scanned_tip_blocks d') -> t_account_id r = acc -> 0 <= t_height r < resume_height res) /\
  (resume_height res = 0 \/
   exists r, r ∈ rows (scanned_tip_blocks d') /\ t_account_id r = acc /\ t_height r + 1 = resume_height res /\
     g (t_height r) = Ok (Some (t_hash r))) /\
  (forall r, r ∈ rows (scanned_tip_blocks d') -> r ∈ rows (scanned_tip_blocks d)).
Proof.
  intros Hmax H. apply handle_reorgs_split in H as (tips & above & rest & Htips & -> & _ & Hon & Hres & Hroll).
  apply tips_of_rows in Htips. pose proof (account_tips_sorted acc d) as Hsort.
  destruct (tips_split _ _ _ _ Htips) as (ra & rr & Hsplit & Hra & Hrr). rewrite Hsplit in Hsort.
  assert (Hnn : forall r, r ∈ account_tips acc d -> 0 <= t_height r).
  { apply Forall_forall. clear -Htips. induction Htips as [|r b ? ? Hb]; constructor; [apply Hb|done]. }
  assert (Htab : scanned_tip_blocks d' = match above with
    | [] => scanned_tip_blocks d
    | _ => delete_where (tip_from_height acc (as_i64 (resume_height res))) (scanned_tip_blocks d)
    end).
  { rewrite Hres. destruct above; [by destruct Hroll as [-> _]|]. destruct Hroll as (info & _ & Hroll).
    apply rollback_tips in Hroll. exact Hroll. }
  assert (Hle : forall r0, head rr = Some r0 -> forall r, r ∈ rr -> t_height r <= t_height r0).
  { intros r0 H0 r Hr. apply StronglySorted_app_1_r in Hsort. destruct rr as [|x rr]; [done|]. injection H0 as ->.
    apply StronglySorted_inv in Hsort as [_ Hall]. rewrite Forall_forall in Hall.
    apply elem_of_cons in Hr as [->|Hr]; [lia|]. by apply Hall. }
  assert (Hsmall : is_i64 (resume_height res) /\ 0 <= resume_height res /\ forall r0, head rr = Some r0 -> resume_height res = t_height r0 + 1).
  { rewrite Hres. destruct Hrr as [|r0 b0 rr rest (H1 & _ & H2 & _) _]; cbn.
    { split; [unfold is_i64, two63; lia|]. split; [lia|done]. }
    assert (r0 ∈ account_tips acc d) as Hr0 by (rewrite Hsplit; apply elem_of_app; right; left).
    apply elem_of_account_tips in Hr0 as [Hr0 _]. specialize (Hmax r0 Hr0). unfold i64_max, is_i64, two63 in *.
    split; [lia|]. split; [lia|]. intros ? [= <-]. lia. }
  destruct Hsmall as (Hi & Hge & Hhead). rewrite as_i64_id in Htab by done. split; [|split].
  - intros r Hr Hacc. rewrite Htab in Hr.
    assert (Hd : r ∈ account_tips acc d).
    { apply elem_of_account_tips. split; [|done]. destruct above; [done|]. cbn in Hr. by apply elem_of_filter_bool in Hr as [? _]. }
    split; [by apply Hnn|]. destruct above as [|b above].
    + inversion Hra; subst. rewrite Hsplit in Hd. cbn in Hd. destruct rr as [|r0 rr]; [set_solver|].
      rewrite (Hhead r0 eq_refl). specialize (Hle r0 eq_refl r Hd). lia.
    + cbn in Hr. apply elem_of_filter_bool in Hr as [_ Hr]. unfold tip_from_height in Hr. lia.
  - destruct Hrr as [|r0 b0 rr rest (H1 & Ha & H2 & H3) _]; [left; by rewrite Hres|]. right. exists r0.
    assert (Hr0 : r0 ∈ account_tips acc d) by (rewrite Hsplit; apply elem_of_app; right; left).
    apply elem_of_account_tips in Hr0 as [Hin Hacc]. specialize (Hhead r0 eq_refl).
    split; [|split; [done|]; split; [lia|]; rewrite H2, H3; by apply Hon].
    rewrite Htab. destruct above; [done|]. cbn. apply elem_of_filter_bool. split; [done|].
    unfold tip_from_height. lia.
  - intros r. rewrite Htab. destruct above; [done|]. cbn. by intros [? _]%elem_of_filter_bool.
Qed.

(** ** The start of an account's scan *)
Lemma birthday_time_ok birthday offset t : birthday_time env birthday offset = Ok t ->
  t = Z.max 0 (as_u64 birthday - offset) * 86400 + BIRTHDAY_GENESIS_FROM_UNIX_EPOCH env /\ t <= u64_max.
Proof.
  unfold birthday_time, u64_saturating_sub. intros (h & Hh & H)%outcome_bind_ok.
  apply outcome_bind_ok in H as (m & Hm & H). apply outcome_bind_ok in H as (s & Hs & H).
  unfold u64_mul, u64_add in *. repeat case_match; simplify_eq/=. split; [|lia]. lia.
Qed.

Lemma initialize_ok acc d flag r d' : initialize acc (flag, d) = (Ok r, d') ->
  exists pending, get_pending_completed_transactions acc d = (Ok pending, d) /\
    d' = (match pending with [] => false | _ => true end, d).
Proof.
  unfold initialize, mon_db, any_db, map_err, set_flag, bind, get_pending_completed_transactions, gets, lift. cbn.
  destruct (map_rows _) as [l| |]; cbn; intros H; [|done..]. injection H as _ <-. exists l. by destruct l.
Qed.

Lemma prepare_target_ok webhooks account password offset d t d' :
  prepare_target env webhooks account password offset d = (Ok t, d') ->
  exists res pending,
    handle_reorgs (get_header_by_height env) (a_id account) webhooks d = (Ok res, d') /\
    tg_account_id t = a_id account /\
    (if resume_height res =? 0
     then get_height_at_time env (Z.max 0 (as_u64 (a_birthday account) - offset) * 86400
       + BIRTHDAY_GENESIS_FROM_UNIX_EPOCH env) = Ok (next_block_to_scan t)
     else next_block_to_scan t = resume_height res) /\
    get_pending_completed_transactions (a_id account) d' = (Ok pending, d') /\
    tg_has_pending_outbound t = match pending with [] => false | _ => true end.
Proof.
  unfold prepare_target. intros H. apply bind_ok_inv in H as (km & d1 & Hk & H). injection Hk as _ <-.
  apply bind_ok_inv in H as (res & d1 & Hr & H). unfold map_err in Hr.
  destruct (handle_reorgs _ _ _ d) as [rr dr] eqn:Hh. injection Hr as Hr <-.
  apply bind_ok_inv in H as (next & d2 & Hn & H). apply bind_ok_inv in H as (flag & d3 & Hi & H).
  injection H as <- <-. destruct (initialize (a_id account) (false, d2)) as [ri [fl di]] eqn:Ei.
  destruct ri as [u|e|p]; cbn in Hi; simplify_eq/=. apply initialize_ok in Ei as (pending & Hp & [= -> ->]).
  destruct rr as [rr|e|p]; cbn in Hr; simplify_eq/=. exists res, pending.
  assert (d2 = dr /\ if resume_height res =? 0
     then get_height_at_time env (Z.max 0 (as_u64 (a_birthday account) - offset) * 86400
       + BIRTHDAY_GENESIS_FROM_UNIX_EPOCH env) = Ok next
     else next = resume_height res) as [-> Hnext].
  { destruct (resume_height res =? 0); [|by injection Hn as <- <-].
    apply bind_ok_inv in Hn as (time & d4 & Ht & Hn). injection Ht as Ht <-. injection Hn as Hn <-.
    apply birthday_time_ok in Ht as [-> _]. split; [done|]. by destruct (get_height_at_time env _); cbn in Hn; simplify_eq. }
  repeat split; try done.
Qed.

(** A block that is recorded for the account. *)
Definition recorded (acc : Z) (r : TipRow) (d : Db) : Prop := r ∈ rows (scanned_tip_blocks d) /\ t_account_id r = acc.

(** The block right below [next] is recorded and on the node's chain. *)
Definition continues_chain (acc next : Z) (d : Db) : Prop :=
  exists r, recorded acc r d /\ t_height r + 1 = next /\ get_header_by_height env (t_height r) = Ok (Some (t_hash r)).

(** The account starts over, at the block of its birthday. *)
Definition starts_at_birthday (account : AccountRow) (offset next : Z) (d : Db) : Prop :=
  (forall r, ~ recorded (a_id account) r d) /\
  get_height_at_time env (Z.max 0 (as_u64 (a_birthday account) - offset) * 86400
    + BIRTHDAY_GENESIS_FROM_UNIX_EPOCH env) = Ok next.

(** C21: a scan resumes where the account's history on the base node's chain ends.  Once a
    target is prepared, every block still recorded for the account lies below the next
    block to scan, and either the block right below it is recorded and the node's chain has
    it, or nothing is recorded and the node named the block for the wallet's birthday, less
    the offset in days, counted from the birthday genesis.  The monitor of the target is
    armed exactly when the account has transactions that are not final. *)
Theorem prepare_target_resumes webhooks account password offset d t d' :
  (forall r, r ∈ rows (scanned_tip_blocks d) -> t_height r < i64_max) ->
  prepare_target env webhooks account password offset d = (Ok t, d') ->
  tg_account_id t = a_id account /\
  (forall r, recorded (a_id account) r d' -> 0 <= t_height r < next_block_to_scan t) /\
  (continues_chain (a_id account) (next_block_to_scan t) d' \/
   starts_at_birthday account offset (next_block_to_scan t) d') /\
  exists pending, get_pending_completed_transactions (a_id account) d' = (Ok pending, d') /\
    (tg_has_pending_outbound t = true <-> pending <> []).
Proof.
  intros Hmax H. apply prepare_target_ok in H as (res & pending & Hr & Hid & Hnext & Hp & Hflag).
  destruct (tips_after_reorgs _ _ _ _ _ _ Hmax Hr) as (Hall & Hnewest & _).
  split; [done|]. destruct (Z.eqb_spec (resume_height res) 0) as [E|E].
  - assert (Hnone : forall r, ~ recorded (a_id account) r d').
    { intros r [Hin Hacc]. specialize (Hall r Hin Hacc). lia. }
    split; [intros r Hin; by destruct (Hnone r)|]. split; [right; by split|]. exists pending. split; [done|].
    rewrite Hflag. by destruct pending.
  - rewrite Hnext. split; [intros r [Hin Hacc]; by apply Hall|]. split.
    + left. destruct Hnewest as [?|(r & H1 & H2 & H3 & H4)]; [done|]. by exists r.
    + exists pending. split; [done|]. rewrite Hflag. by destruct pending.
Qed.

(** ** The whole scan as steps *)
Section Steps.
Context (d0 : Db).

Definition from_start (s : Db * list ProcessingEvent) : Prop := rtc wallet_step d0 (fst s).

Lemma prepare_target_steps webhooks account password offset :
  preserves (rtc wallet_step d0) (prepare_target env webhooks account password offset).
Proof.
  unfold prepare_target. apply preserves_bind; [apply preserves_lift|]. intros km. cbn zeta.
  apply preserves_bind.
  { apply preserves_map_err. intros d Hd. eapply rtc_r; [exact Hd|]. apply ws_handle_reorgs. }
  intros res. apply preserves_bind; [solve_preserves|]. intros next. apply preserves_bind; [|intros; apply preserves_ret].
  intros d Hd. destruct (initialize (a_id account) (false, d)) as [r [fl d1]] eqn:E. cbn.
  unfold initialize, mon_db, any_db, map_err, set_flag, bind, get_pending_completed_transactions, gets, lift in E.
  cbn in E. destruct (map_rows _); by injection E as _ _ <-.
Qed.

Lemma prepare_targets_steps webhooks accounts password offset :
  preserves (rtc wallet_step d0) (prepare_targets env webhooks accounts password offset).
Proof.
  apply preserves_fold_m. intros ts account _. apply preserves_bind; [apply prepare_target_steps|].
  intros t. apply preserves_ret.
Qed.

Lemma from_start_db {A} (m : M Db ScanError A) : preserves (rtc wallet_step d0) m -> preserves from_start (run_db m).
Proof. intros Hm [d sent] Hd. specialize (Hm d Hd). unfold run_db. by destruct (m d). Qed.

Lemma from_start_loop self connect targets fuel : preserves from_start (run_loop env self connect targets fuel).
Proof.
  intros [d sent] Hd. unfold run_loop.
  pose proof (inv_loop (coordinator_config self) (rtc wallet_step d0) (fun _ => True)
    (fun x y Hxy Hx => rtc_r _ _ _ Hx Hxy) (fun _ _ _ _ => I) (get_header_by_height env) connect (scan_blocks env)
    (token_cancelled env) (sleep_interrupted env) fuel (sb_mode self) 0
    (set_channel sent (initial_state (coordinator_config self) d targets)) (conj Hd I)) as H.
  destruct (unified_scan_loop _ _ _ _ _ _ _ _ _ _) as [r s]. exact (proj1 H).
Qed.

Lemma from_start_run self accounts fuel : preserves from_start (coordinator_run env self accounts fuel).
Proof.
  unfold coordinator_run. destruct accounts as [|first accounts]; [apply preserves_ret|].
  repeat (apply preserves_bind; [apply preserves_lift|intros ?]).
  apply preserves_bind; [apply from_start_db, prepare_targets_steps|]. intros targets. apply from_start_loop.
Qed.

Lemma from_start_internal self fuel : preserves from_start (run_internal env self fuel).
Proof.
  unfold run_internal. repeat (apply preserves_bind; [apply preserves_lift|intros ?]).
  apply preserves_bind; [apply from_start_db; unfold get_accounts; solve_preserves|]. intros accounts.
  apply preserves_bind; [apply preserves_lift|]. intros _. apply from_start_run.
Qed.

End Steps.

(** The whole of a scan, from opening the database to its last turn, whatever the base
    node answers and however it ends: the database goes from where it was through steps of
    the wallet's state machine only. *)
Theorem run_internal_steps self fuel s :
  rtc wallet_step (fst s) (fst (snd (run_internal env self fuel s))).
Proof.
  exact (from_start_internal (fst s) self fuel s (rtc_refl _ _)).
Qed.

(** ** Options without effect *)

(** The number of retries after a timeout reaches no part of the scan. *)
Lemma max_timeout_retries_unused n self fuel s :
  run_internal env (max_timeout_retries n self) fuel s = run_internal env self fuel s.
Proof. reflexivity. Qed.

End Setup.

(** ** A wallet that was away during a reorg *)
Module SetupExamples.
Import Demo WalletExamples AccountExamples ScanDemo.

(** The node replaced block 10, and names block 7 for a birthday of 49 less 2 days. *)
Definition headers (h : Z) : outcome string (option string) :=
  Ok (if h =? 9 then Some "block9" else if h =? 10 then Some "other10" else None).

Definition keys : KeyManager := hd "" (hc_key_managers scanner_config).

Definition node : ScanEnv := {|
  init_db := Ok tt;
  pool := fun _ => Ok tt;
  parse_base_url := Ok tt;
  wallet_client := Ok tt;
  scanner_client := Ok tt;
  reached := fun _ => true;
  num_cpus := 4;
  node_url := "http://node";
  scanning_keys := fun _ => keys;
  BIRTHDAY_GENESIS_FROM_UNIX_EPOCH := 1000;
  get_header_by_height := headers;
  get_height_at_time := fun t => if t =? 47 * 86400 + 1000 then Ok 7 else Err "no block";
  scan_blocks := fun turn _ _ => Ok [Ok []];
  token_cancelled := fun _ => false;
  sleep_interrupted := fun _ => false;
|}.

(** Carol's account with two recorded blocks, and without. *)
Definition away : Db := with_scanned_tip_blocks
  (mkTable [mkTipRow 1 1 9 "block9" 0; mkTipRow 2 1 10 "block10" 0] 2) (snd created).
Definition prepare := prepare_target node None carol "secret" 2.
Definition no_target : AccountSyncTarget := mkTarget 0 "" 0 false.
Definition target : AccountSyncTarget := result_or no_target (fst (prepare away)).

Lemma prepared : prepare away = (Ok target, snd (prepare away)).
Proof. unfold target. apply run_ok. vm_compute. reflexivity. Qed.

Lemma away_heights r : r ∈ rows (scanned_tip_blocks away) -> t_height r < i64_max.
Proof. intros H. cbn in H. set_unfold in H. destruct H as [->|[->|[]]]; vm_compute; reflexivity. Qed.

Lemma prepare_target_resumes_witness : next_block_to_scan target = 10 /\
  forall r, recorded (a_id carol) r (snd (prepare away)) -> 0 <= t_height r < next_block_to_scan target.
Proof.
  split; [vm_compute; reflexivity|].
  exact (proj1 (proj2 (prepare_target_resumes node None carol "secret" 2 away target (snd (prepare away))
    away_heights prepared))).
Defined.

(** A full scan of a new wallet and of one that was away. *)
Definition scanner : Scanner := account "carol" (Scanner_new "secret" 50 3).

Definition final_heights (d : Db) : list (option Z) :=
  map (fun e => match e with ScanStatus (ScanCompleted _ h _) => Some h | _ => None end)
    (snd (snd (run_internal node scanner 1 (d, [])))).

Example scans : final_heights (snd created) = [Some 6] /\ final_heights away = [Some 9].
Proof. vm_compute. split; reflexivity. Qed.

Example wrong_password_scan :
  match fst (run_internal node (account "carol" (Scanner_new "guess" 50 3)) 1 (snd created, [])) with
  | Err (ScanDbError (DecryptionFailed msg)) => msg
  | _ => ""
  end = "Failed to decrypt wallet data".
Proof. vm_compute. reflexivity. Qed.

End SetupExamples.
