(* ===== verification/ScanChain.v ===== *)
(** * A scan of a chain, from end to end

    The loop of the scan coordinator against a base node whose chain does not change
    while it runs: the coins of the account are those that the blocks between the start
    of the scan and the account's next block pay and leave unspent, each block taken once,
    however the turns are cut, wherever requests fail, and whether the scan is stopped,
    cancelled or ends; and the balance is their worth.  The loop keeps this in a full and
    in a partial scan.  A continuous scan does not: it steps back one block at each poll
    and processes that block again. *)
From S2P Require Import Prelude Models DisplayTypes External Schema BalanceDb OutputsDb InputsDb.
From S2P Require Import TipBlocksDb PendingDb AccountsDb Crypto EventsDb BurnProofsDb CompletedDb.
From S2P Require Import DisplayedDb PayrefDb WebhooksDb Webhooks ScanEvents Subset Processor Scanning BlockProc Reorg.
From S2P Require Import InputSelector FundLocker Monitor Manager Burn ValidatorNode Coordinator Ledger Wallet.
From S2P Require Import ReorgTheory Coins OffChain Linked CoinsTheory Spendable Books ScanTheory ScanSetup SetupTheory.
#[local] Open Scope Z_scope.

(** ** A stretch of a chain *)
Section Segment.
Context {X : Ext}.

Fixpoint segment (chain : Z -> BlockScanResult) (from : Z) (count : nat) : list BlockScanResult :=
  match count with
  | O => []
  | S count => chain from :: segment chain (from + 1) count
  end.

(** The messages of a scanner deliver the chain from a height on, up to [tip] at most,
    until one of them is an error. *)
Fixpoint follows (chain : Z -> BlockScanResult) (tip from : Z)
    (stream : list (outcome string (list BlockScanResult))) : Prop :=
  match stream with
  | Ok blocks :: stream =>
      blocks = segment chain from (length blocks) /\ from + Z.of_nat (length blocks) <= tip
      /\ follows chain tip (from + Z.of_nat (length blocks)) stream
  | _ => True
  end.

(** An empty message, with which a stream says that there is no more, comes at the tip. *)
Fixpoint ends_at_tip (tip from : Z) (stream : list (outcome string (list BlockScanResult))) : Prop :=
  match stream with
  | Ok [] :: _ => from = tip
  | Ok blocks :: stream => ends_at_tip tip (from + Z.of_nat (length blocks)) stream
  | _ => True
  end.

Context (chain : Z -> BlockScanResult).

Lemma segment_length from k : length (segment chain from k) = k.
Proof. revert from. induction k as [|k IH]; intros from; cbn; [done|]. by rewrite IH. Qed.

Lemma segment_app from j k :
  segment chain from (j + k) = segment chain from j ++ segment chain (from + Z.of_nat j) k.
Proof.
  revert from. induction j as [|j IH]; intros from; cbn.
  - by rewrite Z.add_0_r.
  - rewrite IH. do 3 f_equal. lia.
Qed.

Lemma segment_last from k : last (segment chain from (S k)) = Some (chain (from + Z.of_nat k)).
Proof.
  replace (S k) with (k + 1)%nat by lia. rewrite segment_app. apply last_snoc.
Qed.

Lemma segment_Forall (P : BlockScanResult -> Prop) from k :
  (forall h, from <= h < from + Z.of_nat k -> P (chain h)) -> Forall P (segment chain from k).
Proof.
  revert from. induction k as [|k IH]; intros from HP; cbn; constructor; [apply HP; lia|].
  apply IH. intros h Hh. apply HP. lia.
Qed.
End Segment.

(** ** The recorded tips *)
Section Tips.
Context {X : Ext} {S0 : StdOrder}.
Context (chain : Z -> BlockScanResult) (tip acc : Z).

(** The tips that the account recorded are blocks of the chain. *)
Definition tips_on_chain (d : Db) : Prop :=
  forall t, t ∈ rows (scanned_tip_blocks d) -> t_account_id t = acc ->
    0 <= t_height t < tip /\ t_hash t = blk_hash (chain (t_height t)).

Lemma tips_frames {E A} (m : M Db E A) : frames scanned_tip_blocks m -> preserves tips_on_chain m.
Proof. intros Hf d Hd. unfold tips_on_chain. by rewrite (Hf d). Qed.

#[local] Hint Extern 8 (preserves tips_on_chain _) => (apply tips_frames; solve [solve_preserves]) : dbm.

Lemma tips_insert h :
  0 <= h < tip -> preserves tips_on_chain (insert_scanned_tip_block acc h (blk_hash (chain h))).
Proof.
  intros Hh. unfold insert_scanned_tip_block. apply preserves_bind; [solve_preserves|]. intros known.
  apply preserves_when. apply preserves_bind; [solve_preserves|]. intros _. apply preserves_modify.
  intros d Hd t [Ht| ->%list_elem_of_singleton]%elem_of_app Ha; [by apply Hd|done].
Qed.
#[local] Hint Resolve preserves_create_for_height : dbm.

Lemma tips_process_block h block :
  blk_height block = h -> 0 <= h < tip -> as_i64 h = h -> blk_hash block = blk_hash (chain h) ->
  preserves (in_db tips_on_chain) (process_block block acc).
Proof.
  intros Hb Hh Hi Hhash.
  assert (preserves tips_on_chain (insert_scanned_tip_block acc (as_i64 (blk_height block)) (blk_hash block))) as Ht
    by (rewrite Hb, Hi, Hhash; by apply tips_insert).
  assert (forall p ba, preserves tips_on_chain (create_new_updated_display_transactions_for_height p ba)).
  { intros p ba. apply tips_frames, frames_preserves. intros x. apply preserves_create_for_height. }
  unfold process_block, process_outputs, process_inputs, process_confirmations, record_scanned_block,
    save_and_emit_displayed_transactions, process_output, process_input, confirm_output,
    record_output_balance_change, record_input_balance_change, trigger_webhooks, update_current,
    get_output_info_by_hash_for_account, output_info, get_unconfirmed_outputs,
    get_burn_proof_by_output_hash, insert_input.
  solve_step; auto; apply tips_frames; unfold insert_output, update_output_status, mark_output_confirmed, update_outputs;
    solve_preserves.
Qed.

(** *** Looking for a reorganisation *)
Context (get_header : Z -> outcome string (option string)).
Hypothesis header_on_chain : forall h r, 0 <= h < tip -> get_header h = Ok r -> r = Some (blk_hash (chain h)).

Lemma tip_read d tips d' b :
  get_scanned_tip_blocks_by_account acc d = (Ok tips, d') -> tips_on_chain d -> b ∈ tips ->
  0 <= stb_height b < tip /\ stb_hash b = blk_hash (chain (stb_height b)).
Proof.
  intros H Hd [i Hi]%list_elem_of_lookup. apply tips_of_rows in H.
  destruct (Forall2_lookup_r _ _ _ _ _ H Hi) as (r & Hr%list_elem_of_lookup_2 & _ & _ & <- & <-).
  apply elem_of_account_tips in Hr as [Hr Ha]. by apply Hd.
Qed.

(** Every tip that the node is asked for is on its chain, so there is no fork. *)
Lemma no_reorg config d r d' :
  handle_reorgs get_header acc config d = (r, d') -> tips_on_chain d ->
  d' = d /\ forall res, r = Ok res -> reorg_information res = None.
Proof.
  intros H Hd. destruct r as [res| |]; [|split; [by eapply handle_reorgs_error_keeps_db|done]..].
  destruct (handle_reorgs_split get_header acc config d res d' H) as (tips & above & rest & Ht & -> & Ha & _ & _ & Hres).
  destruct above as [|b above]; [destruct Hres as [-> Hn]; split; [done|]; by intros ? [= <-]|].
  exfalso. unfold handle_reorgs, bind, any_db, map_err in H. rewrite Ht in H. cbn in H. unfold lift in H. cbn in H.
  destruct (tip_read d _ d b Ht Hd ltac:(left)) as [Hh Hhash]. apply Forall_cons in Ha as [Ha _].
  destruct (get_header (stb_height b)) as [r| |] eqn:E; [|discriminate H..].
  apply Ha. unfold on_chain. by rewrite E, (header_on_chain _ _ Hh E), Hhash.
Qed.

End Tips.

(** ** The loop *)
Section Loop.
Context {X : Ext} {XL : ExtLaws X} {S0 : StdOrder} {SL : StdOrderLaws S0} {SE : SelectionExt} {C : TxClient}.
Context (self : Config) (chain : Z -> BlockScanResult) (tip acc start : Z) (d0 : Db) (Good : Db -> Prop).

(** The chain's blocks lie at their heights, which columns can hold. *)
Hypothesis chain_heights : forall h, 0 <= h < tip -> blk_height (chain h) = h.
Hypothesis tip_bound : tip <= two63.
Hypothesis start_bound : 0 <= start.

(** [Good] holds of reachable databases and is kept by the batches of the chain. *)
Hypothesis good_reachable : forall d, Good d -> reachable d.
Hypothesis good_batch : forall k j pending next s p events s',
  start + Z.of_nat (k + j) <= tip -> Good (db s) -> handler s = Some p -> wallet_index_to_account_id p = [acc] ->
  coins acc (db s) = scan_chain [acc] acc (segment chain start k) (coins acc d0) ->
  new_blocks next (segment chain (start + Z.of_nat k) j) = segment chain (start + Z.of_nat k) j ->
  process_blocks self (segment chain (start + Z.of_nat k) j) acc pending next s = (Ok events, s') -> Good (db s').

(** The account, the only target, has scanned [k] blocks from [start] up. *)
Record at_block (k : nat) (s : LoopState) : Prop := {
  ab_target : exists t, targets s = [t] /\ tg_account_id t = acc /\ next_block_to_scan t = start + Z.of_nat k;
  ab_tip : start + Z.of_nat k <= tip;
  ab_handler : forall p, handler s = Some p -> wallet_index_to_account_id p = [acc];
  ab_scanner : forall kms, scanner (state_manager s) = Some kms -> kms = [acc];
  ab_good : Good (db s);
  ab_tips : tips_on_chain chain tip acc (db s);
  ab_coins : coins acc (db s) = scan_chain [acc] acc (segment chain start k) (coins acc d0);
  ab_others : forall a, a <> acc -> coins a (db s) = coins a d0;
}.

Definition scanned (s : LoopState) : Prop := exists k, at_block k s.

(** What [at_block] reads. *)
Lemma at_block_view k s s' :
  (db s', targets s', handler s', state_manager s') = (db s, targets s, handler s, state_manager s) ->
  at_block k s -> at_block k s'.
Proof. intros [= H1 H2 H3 H4] []. constructor; by rewrite ?H1, ?H2, ?H3, ?H4. Qed.

Lemma at_block_modify {E} k f :
  (forall s, (db (f s), targets (f s), handler (f s), state_manager (f s)) = (db s, targets s, handler s, state_manager s)) ->
  preserves (E := E) (at_block k) (modify f).
Proof. intros Hf. apply preserves_modify. intros s. apply at_block_view, Hf. Qed.

Lemma at_block_emit k e : preserves (at_block k) (emit e).
Proof. by apply at_block_modify. Qed.

(** *** A batch *)
Lemma segment_new k j :
  start + Z.of_nat (k + j) <= tip ->
  new_blocks (start + Z.of_nat k) (segment chain (start + Z.of_nat k) j) = segment chain (start + Z.of_nat k) j.
Proof.
  intros Hj. unfold new_blocks. apply filter_all. intros b Hb.
  assert (Forall (fun b => negb (blk_height b <? start + Z.of_nat k) = true) (segment chain (start + Z.of_nat k) j)) as Hf.
  { apply segment_Forall. intros h Hh. rewrite chain_heights by lia. apply negb_true_iff, Z.ltb_ge. lia. }
  rewrite Forall_forall in Hf. by apply Hf.
Qed.

Lemma tips_batch k j p d u p' d' :
  start + Z.of_nat (k + j) <= tip -> tips_on_chain chain tip acc d ->
  process_new_blocks (segment chain (start + Z.of_nat k) j) acc (start + Z.of_nat k) (p, d) = (Ok u, (p', d')) ->
  tips_on_chain chain tip acc d'.
Proof.
  intros Hj Hd H.
  assert (Forall (fun b => 0 <= blk_height b < tip /\ blk_hash b = blk_hash (chain (blk_height b)))
    (segment chain (start + Z.of_nat k) j)) as Hf.
  { apply segment_Forall. intros h Hh. rewrite chain_heights by lia. split; [lia|done]. }
  rewrite Forall_forall in Hf.
  assert (preserves (in_db (tips_on_chain chain tip acc)) (process_new_blocks (segment chain (start + Z.of_nat k) j) acc
    (start + Z.of_nat k))) as Hp.
  { apply preserves_for_each. intros b Hb. destruct (_ <? _); [apply preserves_ret|]. destruct (Hf b Hb) as [Hh Hhash].
    eapply tips_process_block; [done|done| |done]. apply as_i64_id. unfold is_i64, two63 in *. lia. }
  specialize (Hp (p, d) Hd). by rewrite H in Hp.
Qed.

Lemma batch_at k j pending s p events s' :
  at_block k s -> handler s = Some p -> start + Z.of_nat (k + j) <= tip ->
  process_blocks self (segment chain (start + Z.of_nat k) j) acc pending (start + Z.of_nat k) s = (Ok events, s') ->
  Good (db s') /\ tips_on_chain chain tip acc (db s')
  /\ coins acc (db s') = scan_chain [acc] acc (segment chain start (k + j)) (coins acc d0)
  /\ (forall a, a <> acc -> coins a (db s') = coins a d0)
  /\ (forall p', handler s' = Some p' -> wallet_index_to_account_id p' = [acc]).
Proof.
  intros Hs Hh Hj H. pose proof (segment_new k j Hj) as Hnew. pose proof (ab_handler k s Hs p Hh) as Hids.
  assert (Good (db s')) as Hg.
  { eapply (good_batch k j); [exact Hj|apply Hs|exact Hh|exact Hids|apply Hs|exact Hnew|exact H]. }
  pose proof (reachable_holds _ (good_reachable _ (ab_good k s Hs))) as H0.
  destruct (process_blocks_holds self _ _ _ _ _ _ _ _ _ _ H0 Hh H) as [(_ & _ & Hc) (p1 & Hh1 & Hi1)].
  destruct (process_blocks_run self _ _ _ _ _ _ _ _ Hh H) as (q0 & q1 & q' & _ & Hr & _).
  split; [exact Hg|]. split; [by eapply tips_batch; [exact Hj|apply Hs|exact Hr]|].
  rewrite Hnew, Hids in Hc. unfold at_account in Hc. split; [|split].
  - rewrite Hc, Z.eqb_refl, (ab_coins k s Hs), segment_app. symmetry. apply scan_chain_app.
  - intros a Ha. rewrite Hc, (proj2 (Z.eqb_neq a acc)) by done. by apply (ab_others k s Hs).
  - intros p' Hp'. congruence.
Qed.

(** A batch that fails leaves what it read, but for the processor. *)
Lemma batch_failed_at k blocks pending next s r s' :
  at_block k s -> process_blocks self blocks acc pending next s = (r, s') -> is_ok r = false -> at_block k s'.
Proof.
  intros Hs H Hr. unfold process_blocks in H. destruct blocks as [|b bs]; [by injection H as <- _|].
  destruct (handler s) as [p|]; [|by injection H as _ <-].
  assert (forall l, at_block k (set_channel l (set_handler None s))) as Hgone by (intros l; destruct Hs; by constructor).
  destruct (process_new_blocks _ _ _ _) as [[u|e|m] [p' d']]; [|injection H as _ <-; apply Hgone..].
  destruct (take_wallet_events p'). by injection H as <- _.
Qed.

Lemma process_blocks_manager blocks pending next s r s' :
  process_blocks self blocks acc pending next s = (r, s') -> state_manager s' = state_manager s.
Proof.
  unfold process_blocks. intros H. destruct blocks as [|b bs]; [by injection H as _ <-|].
  destruct (handler s) as [p|]; [|by injection H as _ <-].
  destruct (process_new_blocks _ _ _ _) as [[u|e|m] [p' d']]; [|by injection H as _ <-..].
  destruct (take_wallet_events p'). by injection H as _ <-.
Qed.

Lemma scan_account_at k j limit :
  start + Z.of_nat (k + j) <= tip ->
  runs (at_block k) (scan_account self (segment chain (start + Z.of_nat k) j) limit acc) (at_block (k + j)) scanned.
Proof.
  intros Hj s r s' Hs H. rewrite scan_account_never_progresses in H.
  destruct (ab_target k s Hs) as (t & Ht & Hid & Hnext).
  unfold scan_account_blocks, bind, gets, lift in H. rewrite Ht in H. unfold find_target in H. cbn [List.find] in H.
  rewrite Hid, Z.eqb_refl in H. cbn [ok_or] in H. rewrite Hnext in H.
  destruct (process_blocks self _ _ _ _ s) as [rp s1] eqn:Hp. destruct (is_ok rp) eqn:Hrp.
  2: { assert (at_block k s1) as H1 by (by eapply batch_failed_at).
       destruct rp; [discriminate Hrp|..]; injection H as <- <-; (split; [by exists k|done]). }
  destruct rp as [events| |]; [|discriminate Hrp..]. unfold push_events, modify in H.
  destruct j as [|j].
  { cbn in Hp, H. injection Hp as <- <-. injection H as <- <-. replace (k + 0)%nat with k by lia.
    assert (at_block k (set_all_events (push_events_with_limit (all_events s) [] limit) s)) as Hk
      by (by eapply at_block_view; [|exact Hs]). split; [by exists k|done]. }
  destruct (handler s) as [p|] eqn:Hh; [|unfold process_blocks in Hp; cbn in Hp; rewrite Hh in Hp; discriminate Hp].
  destruct (batch_at k (S j) _ s p events s1 Hs Hh Hj Hp) as (Hg & Htips & Hc & Ho & Hhs).
  pose proof (process_blocks_targets self _ _ _ _ _ _ _ Hp) as Htg. pose proof (process_blocks_manager _ _ _ _ _ _ Hp) as Hm.
  rewrite segment_last, chain_heights in H by lia. unfold u64_add in H.
  rewrite (proj2 (Z.leb_le _ _)) in H by (unfold u64_max, two64, two63 in *; lia).
  injection H as <- <-. assert (at_block (k + S j) (set_targets (update_target acc (set_next (start + Z.of_nat k + Z.of_nat j + 1))
    (targets (set_all_events (push_events_with_limit (all_events s1) events limit) s1)))
    (set_all_events (push_events_with_limit (all_events s1) events limit) s1))) as Hk.
  { constructor; cbn; try done.
    - rewrite Htg, Ht. cbn. rewrite Hid, Z.eqb_refl. eexists. split; [done|]. cbn. split; [done|lia].
    - rewrite Hm. apply Hs. }
  split; [by eexists|done].
Qed.

(** *** The checks for reorganisations *)
Context (get_header : Z -> outcome string (option string)).
Hypothesis header_on_chain : forall h r, 0 <= h < tip -> get_header h = Ok r -> r = Some (blk_hash (chain h)).

Lemma check_reorgs_at k : preserves (at_block k) (check_global_reorgs self get_header).
Proof.
  intros s Hs. destruct (ab_target k s Hs) as (t & Ht & Hid & _).
  unfold check_global_reorgs, bind, gets. rewrite Ht. cbn [map for_each]. rewrite Hid.
  unfold check_target_reorg, bind, on_loop_db.
  destruct (handle_reorgs get_header acc _ (db s)) as [r d'] eqn:E.
  destruct (no_reorg chain tip acc get_header header_on_chain _ _ _ _ E (ab_tips k s Hs)) as [-> Hn].
  assert (at_block k (set_db (db s) s)) as Hk by (by eapply at_block_view; [|exact Hs]).
  destruct r as [res| |]; cbn; [|done..]. by rewrite (Hn res eq_refl).
Qed.

(** *** A stream *)
Lemma runs_keep {A} k (m : ScanM A) : preserves (at_block k) m -> runs (at_block k) m (at_block k) scanned.
Proof. intros Hm. apply runs_preserves; [done|]. intros s Hs. by exists k. Qed.

Lemma runs_end {A} (P : LoopState -> Prop) (m : ScanM A) :
  (forall s, P s -> scanned s) -> preserves scanned m -> runs P m scanned scanned.
Proof. intros HP Hm s r s' Hs%HP H. specialize (Hm s Hs). by rewrite H in Hm. Qed.

#[local] Hint Resolve at_block_emit check_reorgs_at : dbm.
#[local] Hint Extern 4 (preserves (at_block _) (modify _)) => (by apply at_block_modify) : dbm.

Lemma scan_batch_at k blocks limit next :
  blocks = segment chain (start + Z.of_nat k) (length blocks) -> start + Z.of_nat (k + length blocks) <= tip ->
  runs (at_block k) (scan_batch self get_header [acc] limit next (Ok blocks)) (at_block (k + length blocks)) scanned.
Proof.
  intros Hb Hj. pose proof (scan_account_at k (length blocks) limit Hj) as Hscan. rewrite <- Hb in Hscan.
  assert (Hrest : runs (at_block k) (
      for_each (fun id => emit_status (MoreBlocksAvailable id (u64_saturating_sub next 1))) [acc] ;;;
      for_each (scan_account self blocks limit) [acc] ;;;
      let! since := gets blocks_since_reorg_check in
      let! total := gets total_scanned_globally in
      let! since := lift (u64_add since (Z.of_nat (length blocks))) in
      let! total := lift (u64_add total (Z.of_nat (length blocks))) in
      modify (set_counters total since) ;;;
      (if since >=? reorg_check_interval self then
        check_global_reorgs self get_header ;;;
        modify (fun s => set_counters (total_scanned_globally s) 0 s)
      else ret tt) ;;;
      ret false) (at_block (k + length blocks)) scanned).
  { eapply runs_bind; [apply runs_keep; unfold emit_status; solve_preserves|]. intros _.
    eapply runs_bind; [eapply runs_bind; [exact Hscan|]; intros _; apply runs_keep; solve_preserves|]. intros _.
    apply runs_keep. solve_preserves. }
  unfold scan_batch. destruct blocks as [|b bs]; [|exact Hrest].
  intros s r s' Hs H. injection H as <- <-. replace (k + length [])%nat with k by (cbn; lia). split; [by exists k|done].
Qed.

Lemma drain_at limit next stream : forall k empty,
  follows chain tip (start + Z.of_nat k) stream ->
  runs (at_block k) (drain_stream self get_header [acc] limit next empty stream) scanned scanned.
Proof.
  induction stream as [|[blocks|e|m] stream IH]; intros k empty Hf; cbn [drain_stream].
  - apply runs_end; [by exists k|apply preserves_ret].
  - destruct Hf as (Hb & Hj & Hf).
    eapply runs_bind; [apply (scan_batch_at k blocks); [exact Hb|lia]|].
    intros []; [apply runs_end; [by eexists|apply preserves_ret]|].
    apply IH. by replace (start + Z.of_nat (k + length blocks)) with (start + Z.of_nat k + Z.of_nat (length blocks)) by lia.
  - intros s r s' Hs H. injection H as <- <-. split; [by exists k|done].
  - intros s r s' Hs H. injection H as <- <-. split; [by exists k|done].
Qed.

(** *** The turns *)
Context (connect : outcome string unit).
Context (blocks_of : nat -> list Z -> ScanConfig -> outcome string (list (outcome string (list BlockScanResult)))).
Context (cancelled interrupted : nat -> bool).

(** The streams of a scanner for the account deliver the chain. *)
Hypothesis blocks_follow : forall turn c stream,
  0 <= start_height c <= tip -> blocks_of turn [acc] c = Ok stream -> follows chain tip (start_height c) stream.

Definition stops (mode : ScanMode) : bool := match mode with Continuous _ => false | _ => true end.

Lemma scanned_emit e : preserves scanned (emit e).
Proof. intros s [k Hs]. exists k. by apply at_block_emit. Qed.

#[local] Hint Resolve scanned_emit : dbm.

Lemma scanned_finish turn mode empty :
  stops mode = true -> preserves scanned (finish_turn self get_header interrupted turn mode [acc] empty).
Proof.
  intros Hm. unfold finish_turn, handle_pause, emit_completed, emit_status.
  destruct mode; [| |discriminate Hm]; solve_preserves.
Qed.

(** The scanner of a turn is the account's, from its next block on. *)
Lemma scanner_at k s ts end_ batch kms c manager :
  at_block k s -> targets s = ts ->
  get_scanner_and_config connect (active_account_ids ts) (global_next_block ts) end_ batch ts (state_manager s)
    = Ok (kms, c, manager) ->
  active_account_ids ts = [acc] /\ kms = [acc] /\ start_height c = start + Z.of_nat k /\ sc_end_height c = end_
  /\ forall kms', scanner manager = Some kms' -> kms' = [acc].
Proof.
  intros Hs <- H. destruct (ab_target k s Hs) as (t & Ht & Hid & Hnext). rewrite Ht in H |- *.
  assert (global_next_block [t] = start + Z.of_nat k) as Hg by (unfold global_next_block; cbn; exact Hnext).
  assert (active_account_ids [t] = [acc]) as Ha.
  { unfold active_account_ids. cbn [List.filter]. rewrite Hg, Hnext, Z.eqb_refl. cbn. by rewrite Hid. }
  rewrite Ha, Hg in H. split; [exact Ha|]. unfold get_scanner_and_config in H. destruct (_ || _).
  - unfold key_managers, find_target in H. cbn [List.find] in H. rewrite Hid, Z.eqb_refl in H. cbn in H.
    destruct connect; [|discriminate H..]. cbn in H. rewrite Hid in H. injection H as <- <- <-. cbn. repeat split. by intros ? [= <-].
  - destruct (scanner (state_manager s)) as [kms0|] eqn:E; [|discriminate H]. cbn in H. injection H as <- <- <-.
    split; [by apply (ab_scanner k s Hs)|]. split; [done|]. split; [done|]. apply (ab_scanner k s Hs).
Qed.

(** A turn fails before it reads its stream, or reads a stream from the next block on. *)
Lemma turn_cases turn mode k s :
  at_block k s -> cancelled turn = false ->
  (exists r s', scan_turn self get_header connect blocks_of cancelled interrupted turn mode s = (r, s')
    /\ is_ok r = false /\ at_block k s')
  \/ exists c stream next s1, at_block k s1 /\ start_height c = start + Z.of_nat k
    /\ (mode = Full -> sc_end_height c = None) /\ blocks_of turn [acc] c = Ok stream
    /\ scan_turn self get_header connect blocks_of cancelled interrupted turn mode s = (
      let! is_batch_empty := drain_stream self get_header [acc] (max_buffered_events mode) next false stream in
      finish_turn self get_header interrupted turn mode [acc] is_batch_empty) s1.
Proof.
  intros Hs Hcan. destruct (scan_turn _ _ _ _ _ _ turn mode s) as [r s'] eqn:H.
  unfold scan_turn in H. rewrite Hcan in H. unfold bind at 1 2 3, gets in H. unfold bind at 1, lift in H.
  destruct (get_scanner_and_config _ _ _ _ _ _ _) as [[[kms c] manager]| |] eqn:E;
    [|left; injection H as <- <-; by eexists _, s..].
  destruct (scanner_at k s _ _ _ kms c manager Hs eq_refl E) as (Ha & -> & Hc & He & Hman). rewrite Ha in H.
  unfold bind at 1, modify in H. set (s1 := set_state_manager manager s) in H.
  assert (at_block k s1) as Hs1 by (destruct Hs; by constructor). unfold bind at 1 in H.
  destruct (blocks_of turn [acc] c) as [stream| |] eqn:Eb; [|left; injection H as <- <-; by eexists _, s1..].
  right. exists c, stream, (global_next_block (targets s)), s1. split_and!; [done|done| |done|by rewrite <- H].
  intros ->. rewrite He. destruct (ab_target k s Hs) as (t & -> & _). unfold end_height, next_horizon_height, global_next_block.
  cbn. by rewrite Z.gtb_ltb, Z.ltb_irrefl.
Qed.

Lemma turn_at turn mode :
  stops mode = true -> preserves scanned (scan_turn self get_header connect blocks_of cancelled interrupted turn mode).
Proof.
  intros Hm s [k Hs]. destruct (cancelled turn) eqn:Hcan.
  { unfold scan_turn. rewrite Hcan.
    assert (preserves scanned (let! r := handle_pause Cancelled in ret (Some r))) as Hp
      by (unfold handle_pause, emit_status; solve_preserves).
    apply (Hp s). by exists k. }
  destruct (turn_cases turn mode k s Hs Hcan) as [(r & s' & -> & _ & H)|(c & stream & next & s1 & Hs1 & Hc & _ & Eb & ->)];
    [by exists k|].
  pose proof (ab_tip k s Hs). apply blocks_follow in Eb; [|rewrite Hc; lia]. rewrite Hc in Eb.
  assert (runs (at_block k) (
      let! is_batch_empty := drain_stream self get_header [acc] (max_buffered_events mode) next false stream in
      finish_turn self get_header interrupted turn mode [acc] is_batch_empty) scanned scanned) as Hr.
  { eapply runs_bind; [by apply drain_at|]. intros empty. apply runs_preserves; [by apply scanned_finish|done]. }
  destruct (bind _ _ s1) as [r s2] eqn:E2. exact (proj1 (Hr s1 r s2 Hs1 E2)).
Qed.

Lemma loop_at mode fuel : stops mode = true -> forall turn,
  preserves scanned (unified_scan_loop self get_header connect blocks_of cancelled interrupted fuel turn mode).
Proof.
  intros Hm. induction fuel as [|fuel IH]; intros turn; cbn; [apply preserves_ret|].
  apply preserves_bind; [by apply turn_at|]. intros []; [apply preserves_ret|apply IH].
Qed.

(** *** The end of a full scan *)
Hypothesis blocks_end : forall turn c stream, sc_end_height c = None ->
  0 <= start_height c <= tip -> blocks_of turn [acc] c = Ok stream -> stream <> [] /\ ends_at_tip tip (start_height c) stream.

Lemma scan_batch_more limit next b blocks :
  hoare (fun _ => True) (scan_batch self get_header [acc] limit next (Ok (b :: blocks))) (fun empty _ => empty = false).
Proof.
  intros s empty s' _ H. unfold scan_batch in H. apply bind_ok_inv in H as (l & s1 & [= <- <-] & H).
  do 8 apply bind_ok_inv in H as (? & ? & _ & H). by injection H as <- _.
Qed.

(** Either the stream ended at the tip, or every message of it took the account on. *)
Lemma drain_ends limit next stream : forall k,
  follows chain tip (start + Z.of_nat k) stream -> ends_at_tip tip (start + Z.of_nat k) stream ->
  hoare (at_block k) (drain_stream self get_header [acc] limit next false stream)
    (fun empty s => exists k', at_block k' s /\ if empty then start + Z.of_nat k' = tip else (k + length stream <= k')%nat).
Proof.
  induction stream as [|[[|b blocks]|e|m] stream IH]; intros k Hf He; cbn [drain_stream]; [| |..|done|done].
  - apply hoare_ret. intros s Hs. exists k. cbn. split; [done|lia].
  - intros s r s' Hs H. injection H as <- <-. by exists k.
  - destruct Hf as (Hb & Hj & Hf). cbn [ends_at_tip] in He.
    apply (hoare_bind _ (fun empty s => empty = false /\ at_block (k + length (b :: blocks)) s)).
    { intros s r s' Hs H. split; [by eapply scan_batch_more|].
      by eapply (scan_batch_at k (b :: blocks) limit next Hb); [lia| | |]. }
    intros []; [by intros s r s' [? _]|].
    replace (start + Z.of_nat k + Z.of_nat (length (b :: blocks))) with (start + Z.of_nat (k + length (b :: blocks))) in * by lia.
    eapply hoare_conseq; [exact (IH _ Hf He)|by intros s [_ Hs]|]. intros [] s (k' & Hs & Hk); exists k'; (split; [done|]); [done|].
    cbn [length] in *. lia.
Qed.

Lemma at_block_finish k turn empty :
  hoare (at_block k) (finish_turn self get_header interrupted turn Full [acc] empty)
    (fun r s => at_block k s /\ match r with Some (_, more) => empty = true /\ more = false | None => empty = false end).
Proof.
  unfold finish_turn. cbn. eapply (hoare_bind _ (fun _ => at_block k)); [apply hoare_preserves; solve_preserves|]. intros _.
  destruct empty; [|by apply hoare_ret].
  eapply (hoare_bind _ (fun _ => at_block k)); [apply hoare_preserves; unfold emit_completed, emit_status; solve_preserves|].
  intros _. eapply (hoare_bind _ (fun _ => at_block k)); [apply hoare_preserves; solve_preserves|].
  intros events. by apply hoare_ret.
Qed.

(** What a full scan that has not failed has reached: a result says whether there are more
    blocks to scan, which is so only when it was cancelled. *)
Definition full_outcome (k : nat) (r : option (list WalletEvent * bool)) (s : LoopState) : Prop :=
  exists k', at_block k' s /\
    match r with
    | Some (_, true) => exists turn, cancelled turn = true
    | Some (_, false) => start + Z.of_nat k' = tip
    | None => (k < k')%nat
    end.

Lemma turn_ends turn k :
  hoare (at_block k) (scan_turn self get_header connect blocks_of cancelled interrupted turn Full) (full_outcome k).
Proof.
  intros s r s' Hs H. destruct (cancelled turn) eqn:Hcan.
  { unfold scan_turn in H. rewrite Hcan in H. apply bind_ok_inv in H as ([events more] & s1 & Hp & [= <- <-]).
    assert (preserves (at_block k) (handle_pause Cancelled)) as Hk by (unfold handle_pause, emit_status; solve_preserves).
    specialize (Hk s Hs). rewrite Hp in Hk. exists k. split; [done|].
    unfold handle_pause in Hp. inv_ok. by exists turn. }
  destruct (turn_cases turn Full k s Hs Hcan) as [(r1 & s1 & E & Hr & _)|(c & stream & next & s1 & Hs1 & Hc & He & Eb & E)].
  { rewrite E in H. by injection H as -> _. }
  pose proof (ab_tip k s Hs). rewrite E in H.
  destruct (blocks_end turn c stream (He eq_refl) ltac:(rewrite Hc; lia) Eb) as [Hne Hend].
  apply blocks_follow in Eb; [|rewrite Hc; lia]. rewrite Hc in Eb, Hend.
  apply bind_ok_inv in H as (empty & s2 & Hd & Hfin).
  destruct (drain_ends _ _ stream k Eb Hend s1 empty s2 Hs1 Hd) as (k' & Hk & Hcase).
  destruct (at_block_finish k' turn empty s2 r s' Hk Hfin) as [Hk' Hr]. exists k'. split; [done|].
  destruct r as [[events more]|]; [by destruct Hr as [-> ->]|]. subst empty. destruct stream; [done|]. cbn in Hcase. lia.
Qed.

(** A turn takes the account on or is the last, so there is a turn for each block and one more at most. *)
Lemma loop_ends fuel : forall turn k, tip < start + Z.of_nat k + Z.of_nat fuel ->
  hoare (at_block k) (unified_scan_loop self get_header connect blocks_of cancelled interrupted fuel turn Full)
    (fun r s => is_Some r /\ full_outcome k r s).
Proof.
  induction fuel as [|fuel IH]; intros turn k Hfuel; cbn.
  - intros s r s' Hs _. pose proof (ab_tip k s Hs). lia.
  - eapply hoare_bind; [apply turn_ends|]. intros [r|].
    + apply hoare_ret. by intros s Hs.
    + intros s r s' (k' & Hs & Hk) H. destruct (IH (S turn) k' ltac:(lia) s r s' Hs H) as [[x ->] (k2 & Hk2 & Hr)].
      split; [by eexists|]. by exists k2.
Qed.

End Loop.

(** ** The theorems *)
Section Theorems.
Context {X : Ext} {XL : ExtLaws X} {S0 : StdOrder} {SL : StdOrderLaws S0} {SE : SelectionExt} {C : TxClient}.
Context (self : Config) (chain : Z -> BlockScanResult) (tip : Z).
Context (get_header : Z -> outcome string (option string)) (connect : outcome string unit).
Context (blocks_of : nat -> list Z -> ScanConfig -> outcome string (list (outcome string (list BlockScanResult)))).
Context (cancelled interrupted : nat -> bool).

(** A base node that serves a chain of [tip] blocks, whenever it answers: blocks at their
    heights, the hash of a block of the chain as its header, and streams of the scanner
    for the account's keys that deliver the chain from the asked height, in batches of
    any size and up to any block. *)
Record serves_chain (acc : Z) : Prop := {
  sc_heights : forall h, 0 <= h < tip -> blk_height (chain h) = h;
  sc_bound : tip <= two63;
  sc_headers : forall h r, 0 <= h < tip -> get_header h = Ok r -> r = Some (blk_hash (chain h));
  sc_streams : forall turn c stream, 0 <= start_height c <= tip ->
    blocks_of turn [acc] c = Ok stream -> follows chain tip (start_height c) stream;
}.

Lemma valid_chain_app ids acc b1 b2 cs :
  valid_chain ids acc (b1 ++ b2) cs <-> valid_chain ids acc b1 cs /\ valid_chain ids acc b2 (scan_chain ids acc b1 cs).
Proof.
  revert cs. induction b1 as [|b b1 IH]; intros cs; cbn; [naive_solver|]. rewrite IH. tauto.
Qed.

(** The state that the loop starts in. *)
Lemma at_block_start (Good : Db -> Prop) t d :
  next_block_to_scan t <= tip -> Good d -> tips_on_chain chain tip (tg_account_id t) d ->
  at_block chain tip (tg_account_id t) (next_block_to_scan t) d Good 0 (initial_state self d [t]).
Proof.
  intros Ht Hg Htips. constructor; cbn; try done.
  - eexists. split; [done|]. split; [done|lia].
  - lia.
  - by intros p [= <-].
Qed.

Section Scan.
Context (fuel : nat) (mode : ScanMode) (t : AccountSyncTarget) (d : Db).
Let acc := tg_account_id t.
Let start := next_block_to_scan t.
Definition after_scan : LoopState :=
  snd (unified_scan_loop self get_header connect blocks_of cancelled interrupted fuel 0 mode (initial_state self d [t])).

(** C3: a scan takes every block once: however a full or a partial scan of an account
    goes and ends - in any number of turns, with batches of any size, requests that fail
    at any point, when it is cancelled - its coins are those it had, paid and spent by the
    blocks of the chain from where it started up to its next block, in order and without
    gap or repetition; no other account's coins change, and the state is reachable. *)
Theorem scan_takes_chain :
  serves_chain acc -> stops mode = true -> reachable d -> tips_on_chain chain tip acc d -> 0 <= start <= tip ->
  exists k, map next_block_to_scan (targets after_scan) = [start + Z.of_nat k] /\ start + Z.of_nat k <= tip
    /\ reachable (db after_scan)
    /\ coins acc (db after_scan) = scan_chain [acc] acc (segment chain start k) (coins acc d)
    /\ forall a, a <> acc -> coins a (db after_scan) = coins a d.
Proof.
  intros [Hh Hb Hhd Hst] Hm Hd Htips [Hs0 Hs1].
  assert (scanned chain tip acc start d reachable after_scan) as [k Hk].
  { eapply (loop_at self chain tip acc start d reachable); try done; [|exists 0%nat; by apply at_block_start].
    intros k j pending next s p events s' _ Hg Hp _ _ _ H. by eapply batch_reachable. }
  exists k. destruct (ab_target _ _ _ _ _ _ _ _ Hk) as (t' & -> & _ & Hn). cbn. rewrite Hn.
  split; [done|]. by destruct Hk.
Qed.

(** C1: the balance after a scan is right: when the blocks of the chain are valid and
    the wallet's history is honest, the state after a full or a partial scan, whatever
    its outcome, is honest, and the total that [get_balance] reports is the sum of the
    coins that the chain up to the account's next block leaves unspent. *)
Theorem scanned_balance :
  serves_chain acc -> stops mode = true -> honest d -> tips_on_chain chain tip acc d -> 0 <= start <= tip ->
  valid_chain [acc] acc (segment chain start (Z.to_nat (tip - start))) (coins acc d) ->
  exists k, map next_block_to_scan (targets after_scan) = [start + Z.of_nat k] /\ honest (db after_scan)
    /\ forall b d', get_balance acc (db after_scan) = (Ok b, d') ->
         total b = zsum worth (scan_chain [acc] acc (segment chain start k) (coins acc d)).
Proof.
  intros [Hh Hb Hhd Hst] Hm Hd Htips [Hs0 Hs1] Hv.
  assert (scanned chain tip acc start d honest after_scan) as [k Hk].
  { eapply (loop_at self chain tip acc start d honest); try done;
      [by apply honest_reachable| |exists 0%nat; by apply at_block_start].
    intros k j pending next s p events s' Hj Hg Hp Hi Hc Hnew H. eapply batch_honest; [exact Hp|exact H|done|].
    rewrite Hi, Hnew, Hc. apply valid_chain_app. rewrite <- segment_app.
    eapply (proj1 (valid_chain_app _ _ _ (segment chain (start + Z.of_nat (k + j)) (Z.to_nat (tip - start) - (k + j))) _)).
    rewrite <- segment_app. by replace (k + j + (Z.to_nat (tip - start) - (k + j)))%nat with (Z.to_nat (tip - start)) by lia. }
  exists k. destruct (ab_target _ _ _ _ _ _ _ _ Hk) as (t' & -> & _ & Hn). cbn. rewrite Hn.
  split; [done|]. split; [apply Hk|]. intros b d' H.
  destruct (honest_balance _ acc b d' (ab_good _ _ _ _ _ _ _ _ Hk) H) as (_ & -> & _). by rewrite (ab_coins _ _ _ _ _ _ _ _ Hk).
Qed.

(** C4: a full scan of an account ends, and ends at the tip: when every stream has a message
    and says that there is no more at the tip only, then after at most one turn for each
    block and one more, a scan that has not failed has a result; unless it was cancelled, it
    reports that there is no more to scan, the account's next block is the tip, and its
    coins are those of the whole chain from where the scan started.  The streams of the
    HTTP scanner may end earlier ([ScanDemo.overtaken]). *)
Theorem full_scan_completes r s :
  serves_chain acc ->
  (forall turn c stream, sc_end_height c = None -> 0 <= start_height c <= tip ->
    blocks_of turn [acc] c = Ok stream -> stream <> [] /\ ends_at_tip tip (start_height c) stream) ->
  reachable d -> tips_on_chain chain tip acc d -> 0 <= start <= tip -> tip - start < Z.of_nat fuel ->
  unified_scan_loop self get_header connect blocks_of cancelled interrupted fuel 0 Full (initial_state self d [t]) = (Ok r, s) ->
  match r with
  | Some (_, false) => map next_block_to_scan (targets s) = [tip]
      /\ coins acc (db s) = scan_chain [acc] acc (segment chain start (Z.to_nat (tip - start))) (coins acc d)
  | Some (_, true) => exists turn, cancelled turn = true
  | None => False
  end.
Proof.
  intros [Hh Hb Hhd Hst] Hend Hd Htips [Hs0 Hs1] Hfuel E.
  assert (hoare (at_block chain tip acc start d reachable 0)
    (unified_scan_loop self get_header connect blocks_of cancelled interrupted fuel 0 Full)
    (fun r s => is_Some r /\ full_outcome chain tip acc start d reachable cancelled 0 r s)) as H.
  { eapply loop_ends; try done; [|lia]. intros k j pending next s0 p events s' _ Hg Hp _ _ _ H. by eapply batch_reachable. }
  destruct (H _ r s (at_block_start reachable t d Hs1 Hd Htips) E) as [[[events more] ->] (k & Hk & Hr)].
  destruct more; [done|]. destruct (ab_target _ _ _ _ _ _ _ _ Hk) as (t' & -> & _ & Hn). cbn. rewrite Hn, Hr.
  split; [done|]. rewrite (ab_coins _ _ _ _ _ _ _ _ Hk). do 2 f_equal. lia.
Qed.

End Scan.
End Theorems.

(** ** Examples *)
Module ScanChainExamples.
Import Demo Ledger.Examples WalletExamples CoinsExamples BooksExamples.

(** A chain of eleven blocks, whose last two are of interest, and a node that serves it
    in two batches. *)
Definition quiet (h : Z) : BlockScanResult := mkBlockScanResult h "quiet" [] [] 900.
Definition chain (h : Z) : BlockScanResult := if h =? 9 then block9 else if h =? 10 then fork10 else quiet h.
Definition headers (ch : Z -> BlockScanResult) (tip h : Z) : outcome string (option string) :=
  Ok (if h <? tip then Some (blk_hash (ch h)) else None).
Definition serve (ch : Z -> BlockScanResult) (tip : Z) (turn : nat) (kms : list Z) (c : ScanConfig) :
    outcome string (list (outcome string (list BlockScanResult))) :=
  let left := Z.to_nat (tip - start_height c) in
  let first := Nat.min 1 left in
  Ok [Ok (segment ch (start_height c) first); Ok (segment ch (start_height c + Z.of_nat first) (left - first)); Ok []].

Lemma chain_served : serves_chain chain 11 (headers chain 11) (serve chain 11) 1.
Proof.
  constructor.
  - intros h _. unfold chain. destruct (Z.eqb_spec h 9) as [->|]; [done|]. by destruct (Z.eqb_spec h 10) as [->|].
  - unfold two63. lia.
  - intros h r Hh [= <-]. by rewrite (proj2 (Z.ltb_lt h 11)) by lia.
  - intros turn c stream Hs [= <-]. generalize dependent (start_height c). intros a Ha. cbn [follows].
    rewrite !segment_length. cbn [length segment]. destruct (Z.to_nat (11 - a)) eqn:E; repeat split; cbn; lia.
Qed.

Definition from9 : AccountSyncTarget := mkTarget 1 "viewkey" 9 false.

Lemma start_tips : tips_on_chain chain 11 1 start.
Proof. intros t Ht. by apply elem_of_nil in Ht. Qed.

Lemma full_next : map next_block_to_scan (targets (after_scan config (headers chain 11) (Ok tt) (serve chain 11)
  (fun _ => false) (fun _ => false) 2 Full from9 start)) = [11].
Proof. vm_compute. reflexivity. Qed.

Lemma scan_takes_chain_witness :
  coins 1 (db (after_scan config (headers chain 11) (Ok tt) (serve chain 11) (fun _ => false) (fun _ => false) 2 Full from9 start))
  = [mkCoin "h1" 700 9 (Some 10); mkCoin "h2" 50 10 None].
Proof.
  destruct (scan_takes_chain config chain 11 (headers chain 11) (Ok tt) (serve chain 11) (fun _ => false) (fun _ => false)
    2 Full from9 start chain_served eq_refl (honest_reachable _ start_honest) start_tips ltac:(cbn; lia))
    as (k & Hk & _ & _ & Hc & _).
  rewrite full_next in Hk. injection Hk as Hk. assert (k = 2%nat) as -> by (cbn in Hk; lia).
  etransitivity; [exact Hc|]. vm_compute. reflexivity.
Defined.

Lemma chain_valid : valid_chain [1] 1 (segment chain 9 2) (coins 1 start).
Proof. split; [apply block9_valid|]. split; [apply fork10_valid|done]. Qed.

Lemma scanned_balance_witness : exists b,
  fst (get_balance 1 (db (after_scan config (headers chain 11) (Ok tt) (serve chain 11) (fun _ => false) (fun _ => false) 2 Full from9 start)))
    = Ok b /\ total b = 50.
Proof.
  destruct (scanned_balance config chain 11 (headers chain 11) (Ok tt) (serve chain 11) (fun _ => false) (fun _ => false)
    2 Full from9 start chain_served eq_refl start_honest start_tips ltac:(cbn; lia) chain_valid)
    as (k & Hk & _ & Hb).
  rewrite full_next in Hk. injection Hk as Hk. assert (k = 2%nat) as -> by (cbn in Hk; lia).
  set (bal := get_balance _ _) in *.
  assert (is_ok (fst bal) = true) as Hok by (vm_compute; reflexivity).
  destruct bal as [[b| |] d'] eqn:E; [|discriminate Hok..]. exists b. split; [reflexivity|].
  rewrite (Hb b d' eq_refl). vm_compute. reflexivity.
Defined.

(** With three turns at hand the scan of the two blocks ends at the tip. *)
#[local] Notation full_run := (unified_scan_loop config (headers chain 11) (Ok tt) (serve chain 11)
  (fun _ => false) (fun _ => false) 3 0 Full (initial_state config start [from9])).

Lemma full_run_ends : exists events, fst full_run = Ok (Some (events, false)).
Proof. eexists. vm_compute. reflexivity. Qed.

Lemma serve_ends turn c stream : 0 <= start_height c <= 11 ->
  serve chain 11 turn [1] c = Ok stream -> stream <> [] /\ ends_at_tip 11 (start_height c) stream.
Proof.
  intros Hs [= <-]. split; [done|]. generalize dependent (start_height c). intros a Ha.
  destruct (Z.to_nat (11 - a)) as [|[|n]] eqn:E; cbn; [lia..|]. rewrite segment_length. lia.
Qed.

Lemma full_scan_completes_witness :
  map next_block_to_scan (targets (snd full_run)) = [11]
  /\ coins 1 (db (snd full_run)) = [mkCoin "h1" 700 9 (Some 10); mkCoin "h2" 50 10 None].
Proof.
  destruct full_run_ends as [events He].
  assert (full_run = (Ok (Some (events, false)), snd full_run)) as E by (rewrite <- He; apply surjective_pairing).
  destruct (full_scan_completes config chain 11 (headers chain 11) (Ok tt) (serve chain 11) (fun _ => false) (fun _ => false)
    3 from9 start (Some (events, false)) (snd full_run) chain_served (fun turn c stream _ => serve_ends turn c stream)
    (honest_reachable _ start_honest) start_tips ltac:(cbn; lia) ltac:(cbn; lia) E) as [Hn Hc].
  split; [exact Hn|]. etransitivity; [exact Hc|]. vm_compute. reflexivity.
Defined.

(** *** The tip is scanned again at each poll

    Between two polls a continuous scan steps back to the block it scanned last.  The
    node still has it, so it is processed a second time.  When it pays the account, the
    output is in the table already and the scan fails.  When it only spends, the spend is
    found, and debited, again: of the 750 that block 9 pays and the 700 that block 10
    spends, 50 are left; after one poll, with no new block, the balance is zero, and
    another 700 are debited at every further poll. *)
Definition pays_twice : BlockScanResult := mkBlockScanResult 9 "block9" [("h1", o1, 0%nat); ("h2", o2, 0%nat)] [] 800.
Definition spends : BlockScanResult := mkBlockScanResult 10 "block10" [] ["h1"] 900.
Definition spending (h : Z) : BlockScanResult := if h =? 9 then pays_twice else if h =? 10 then spends else quiet h.
Definition follow (tip : Z) (turns : nat) :=
  unified_scan_loop config (headers spending tip) (Ok tt) (serve spending tip) (fun _ => false) (fun _ => false) turns 0
    (Continuous 10) (initial_state config start [from9]).

Example poll_rescans_tip :
  map (fun turns => (coins 1 (db (snd (follow 11 turns))), journal 1 (db (snd (follow 11 turns))))) [1%nat; 2%nat; 3%nat]
  = [([mkCoin "h1" 700 9 (Some 10); mkCoin "h2" 50 9 None], 50);
     ([mkCoin "h1" 700 9 (Some 10); mkCoin "h2" 50 9 None], -650);
     ([mkCoin "h1" 700 9 (Some 10); mkCoin "h2" 50 9 None], -1350)]
  /\ match fst (get_balance 1 (db (snd (follow 11 2)))) with Ok b => total b = 0 | _ => False end.
Proof. vm_compute. repeat split; reflexivity. Qed.

Example poll_fails_on_payment :
  is_ok (fst (follow 10 1)) = true /\ is_ok (fst (follow 10 2)) = false.
Proof. vm_compute. repeat split; reflexivity. Qed.

End ScanChainExamples.
