(* ===== verification/ScannerTheory.v ===== *)
(** * Properties of the scanner library

    Retries end and give the first decisive answer; the download follows the chain of
    an honest node; a page is scanned alike in every order of completion; the blocks
    that the reader gets are consecutive blocks of the chain in every interleaving of
    the tasks.  Two findings: the end of the stream can overtake the blocks, and a page
    is not cut at the end height. *)
From S2P Require Import Prelude Models DisplayTypes External Schema Webhooks ScanEvents Scanning.
From S2P Require Import GrpcScanner HttpScanner ScanPipeline BlockProc Monitor Coordinator Ledger ReorgTheory Wallet ScanTheory.
From stdpp Require Import relations.
#[local] Open Scope Z_scope.

(** ** Retries *)
Section Retry.
Context {X : Ext} {SX : ScanningExt X} (self : HttpConfig) (net : Net).
Context {A : Type} (call : outcome string HttpResponse -> outcome WalletError A) (req : Request).

(** The [k]-th answer, [None] when it timed out. *)
Definition answer (k : nat) : option (outcome WalletError A) := call <$> net k req.

Definition timed_out (a : option (outcome WalletError A)) : bool := is_none a.
Definition failed (a : option (outcome WalletError A)) : bool :=
  match a with Some (Err _) => true | _ => false end.

(** How many of the [n] answers from the [k]-th on satisfy [p]. *)
Fixpoint count (p : option (outcome WalletError A) -> bool) (k n : nat) : Z :=
  match n with
  | O => 0
  | S n => (if p (answer k) then 1 else 0) + count p (S k) n
  end.

(** The verdict on the last of [S n] answers from the [k]-th on, when [t] timeouts and
    [e] errors came before. *)
Definition verdict (k n : nat) (t e : Z) (r : outcome WalletError A) : Prop :=
  match answer (k + n) with
  | Some (Ok a) => r = Ok a
  | Some (Err err) => r = Err err /\ max_error_retries self <= e + count failed k (S n)
  | Some (Panic msg) => r = Panic msg
  | None => r = Err (WalletTimeout ("Failed after " +:+ pretty (t + count timed_out k (S n))))
      /\ max_error_retries self <= t + count timed_out k (S n)
  end.

(** The answers before it are failures that leave retries of their kind. *)
Definition retried (k n : nat) (t e : Z) : Prop :=
  forall j, (j < n)%nat ->
    (timed_out (answer (k + j)) = true /\ t + count timed_out k (S j) < max_error_retries self) \/
    (failed (answer (k + j)) = true /\ e + count failed k (S j) < max_error_retries self).

(** The pause before the retry after the [e]-th error. *)
Definition error_pause (e : Z) : Z := Z.min (error_backoff_base_secs self ^ Z.min e 5) 60.

(** The pauses after the [n] failures from the [k]-th answer on, when [e] errors came
    before: a second after a timeout. *)
Fixpoint pauses (k n : nat) (e : Z) : list Z :=
  match n with
  | O => []
  | S n =>
      if failed (answer k) then error_pause (e + 1) :: pauses (S k) n (e + 1)
      else 1 :: pauses (S k) n e
  end.

Lemma backoff_secs_ok e :
  0 <= error_backoff_base_secs self <= 7131 -> 0 <= e -> backoff_secs self e = Ok (error_pause e).
Proof.
  intros Hb He. unfold backoff_secs, u64_pow, MAX_BACKOFF_EXPONENT.
  assert (error_backoff_base_secs self ^ Z.min e 5 <= u64_max) as Hle.
  { transitivity (Z.max 1 (error_backoff_base_secs self) ^ 5).
    - transitivity (Z.max 1 (error_backoff_base_secs self) ^ Z.min e 5).
      + apply Z.pow_le_mono_l. lia.
      + apply Z.pow_le_mono_r; lia.
    - transitivity (7131 ^ 5); [apply Z.pow_le_mono_l; lia|]. vm_compute. done. }
  by apply Z.leb_le in Hle as ->.
Qed.

Definition bump (p : option (outcome WalletError A) -> bool) (k : nat) : Z := if p (answer k) then 1 else 0.

Lemma retried_later k n t e :
  (timed_out (answer k) = true /\ t + bump timed_out k < max_error_retries self) \/
  (failed (answer k) = true /\ e + bump failed k < max_error_retries self) ->
  retried (S k) n (t + bump timed_out k) (e + bump failed k) -> retried k (S n) t e.
Proof.
  intros H0 Hn [|j] Hj.
  - rewrite Nat.add_0_r. unfold bump in H0. cbn [count]. rewrite !Z.add_0_r. done.
  - specialize (Hn j ltac:(lia)). replace (k + S j)%nat with (S k + j)%nat by lia.
    cbn [count] in *. unfold bump in Hn. rewrite !Z.add_assoc in *. done.
Qed.

Lemma verdict_later k n t e r :
  verdict (S k) n (t + bump timed_out k) (e + bump failed k) r -> verdict k (S n) t e r.
Proof.
  unfold verdict. replace (k + S n)%nat with (S k + n)%nat by lia.
  cbn [count]. unfold bump. by rewrite !Z.add_assoc.
Qed.

Lemma verdict_now k t e r :
  match answer k with
  | Some (Ok a) => r = Ok a
  | Some (Err err) => r = Err err /\ max_error_retries self <= e + bump failed k
  | Some (Panic msg) => r = Panic msg
  | None => r = Err (WalletTimeout ("Failed after " +:+ pretty (t + bump timed_out k)))
      /\ max_error_retries self <= t + bump timed_out k
  end -> verdict k 0 t e r.
Proof. unfold verdict. rewrite Nat.add_0_r. cbn [count]. unfold bump. by rewrite !Z.add_0_r. Qed.

Lemma retried_none k t e : retried k 0 t e.
Proof. intros j Hj. lia. Qed.

(** A run of the loop from the counters [t] and [e]. *)
Definition settled (s : Scanner) (t e : Z) (r : outcome WalletError A) (s' : Scanner) : Prop :=
  exists n, retried (requests s) n t e /\ verdict (requests s) n t e r /\
    requests s' = (requests s + S n)%nat /\ current_in_progress s' = current_in_progress s /\
    slept s' = slept s ++ pauses (requests s) n e.

Lemma settled_now s t e r s' :
  verdict (requests s) 0 t e r ->
  s' = mkScanner (current_in_progress s) (S (requests s)) (slept s) -> settled s t e r s'.
Proof.
  intros Hv ->. exists 0%nat. repeat split; [apply retried_none|done|cbn; lia|]. cbn. by rewrite app_nil_r.
Qed.

Lemma settled_later s t e r s' :
  (timed_out (answer (requests s)) = true /\ t + bump timed_out (requests s) < max_error_retries self) \/
  (failed (answer (requests s)) = true /\ e + bump failed (requests s) < max_error_retries self) ->
  settled (mkScanner (current_in_progress s) (S (requests s)) (slept s ++ pauses (requests s) 1 e))
    (t + bump timed_out (requests s)) (e + bump failed (requests s)) r s' ->
  settled s t e r s'.
Proof.
  intros H0 (n & Hn & Hv & Hreq & Hip & Hp). exists (S n). cbn in *.
  split; [by apply retried_later|]. split; [by apply verdict_later|]. split; [lia|]. split; [done|].
  rewrite Hp, <- app_assoc. f_equal. unfold bump. destruct (failed _); [done|]. by rewrite Z.add_0_r.
Qed.

Lemma retry_loop_settled fuel : forall s t e r s',
  0 <= t -> 0 <= e -> 0 <= error_backoff_base_secs self <= 7131 ->
  (Z.to_nat (max_error_retries self - t) + Z.to_nat (max_error_retries self - e) < fuel)%nat ->
  retry_loop self net call req fuel t e s = (r, s') -> settled s t e r s'.
Proof.
  induction fuel as [|fuel IH]; intros s t e r s' Ht He Hb Hf Hr; [lia|].
  cbn [retry_loop] in Hr. unfold bind at 1, send at 1 in Hr.
  assert (answer (requests s) = call <$> net (requests s) req) as Ha by done.
  destruct (net (requests s) req) as [resp|]; cbn in Ha.
  - destruct (call resp) as [a|err|msg] eqn:Ec.
    + apply settled_now; [|by injection Hr]. apply verdict_now. rewrite Ha. by injection Hr.
    + assert (bump failed (requests s) = 1 /\ bump timed_out (requests s) = 0) as [Bf Bt].
      { unfold bump. by rewrite Ha. }
      destruct (Z.geb_spec (e + 1) (max_error_retries self)) as [Hge|Hlt].
      * apply settled_now; [|by injection Hr]. apply verdict_now. rewrite Ha, Bf. by injection Hr.
      * rewrite (backoff_secs_ok (e + 1) Hb ltac:(lia)), bind_lift_ok in Hr. unfold bind, sleep, modify in Hr. cbn in Hr.
        apply settled_later.
        -- right. rewrite Ha, Bf. by split.
        -- rewrite Bf, Bt, Z.add_0_r. cbn [pauses]. rewrite Ha. apply (IH _ _ _ _ _) in Hr; [done|lia..].
    + apply settled_now; [|by injection Hr]. apply verdict_now. rewrite Ha. by injection Hr.
  - assert (bump failed (requests s) = 0 /\ bump timed_out (requests s) = 1) as [Bf Bt].
    { unfold bump. by rewrite Ha. }
    destruct (Z.geb_spec (t + 1) (max_error_retries self)) as [Hge|Hlt].
    + apply settled_now; [|by injection Hr]. apply verdict_now. rewrite Ha, Bt. by injection Hr.
    + unfold bind, sleep, modify in Hr. cbn in Hr. apply settled_later.
      * left. rewrite Ha, Bt. by split.
      * rewrite Bf, Bt, Z.add_0_r. cbn [pauses]. rewrite Ha. apply (IH _ _ _ _ _) in Hr; [done|lia..].
Qed.

Lemma retried_inv k n t e : retried k (S n) t e ->
  ((timed_out (answer k) = true /\ t + 1 < max_error_retries self) \/
   (failed (answer k) = true /\ e + 1 < max_error_retries self)) /\
  retried (S k) n (t + bump timed_out k) (e + bump failed k).
Proof.
  intros H. split.
  - specialize (H 0%nat ltac:(lia)). rewrite Nat.add_0_r in H. cbn [count] in H.
    destruct H as [[H1 H2]|[H1 H2]]; rewrite H1 in H2; [left|right]; (split; [done|lia]).
  - intros j Hj. specialize (H (S j) ltac:(lia)). replace (k + S j)%nat with (S k + j)%nat in H by lia.
    unfold bump. rewrite <- !Z.add_assoc. exact H.
Qed.

Lemma bump_nonneg p k : 0 <= bump p k.
Proof. unfold bump. by destruct (p _). Qed.

(** Fewer than [max_error_retries] failures of either kind precede the verdict. *)
Lemma retried_bound n : forall k t e, retried k n t e ->
  Z.of_nat n <= Z.max 0 (max_error_retries self - 1 - t) + Z.max 0 (max_error_retries self - 1 - e).
Proof.
  induction n as [|n IH]; intros k t e H; [lia|]. apply retried_inv in H as [H0 H].
  specialize (IH _ _ _ H). pose proof (bump_nonneg timed_out k) as Bt. pose proof (bump_nonneg failed k) as Bf.
  unfold bump in *. destruct H0 as [[E1 E2]|[E1 E2]]; rewrite E1 in *; lia.
Qed.

(** C33: a request with retries ends, after fewer than twice [max_error_retries] requests (or
    one), when the base of the backoff is at most 7131 (the fifth power of a larger one
    exceeds a [u64]).  It gives the first decisive answer: a success; or the error that is
    the [max_error_retries]-th, or the timeout that is, so that one failure less than that is
    retried; all answers before it were failures of which retries were left.  There is a
    pause after each of these: of one second after a timeout, and after the e-th error of
    [base^min(e, 5)] seconds, but of 60 at most. *)
Theorem retry_settles (s : Scanner) (r : outcome WalletError A) (s' : Scanner) :
  0 <= max_error_retries self -> 0 <= error_backoff_base_secs self <= 7131 ->
  retry_loop self net call req (retry_fuel self) 0 0 s = (r, s') ->
  settled s 0 0 r s' /\
  Z.of_nat (requests s') <= Z.of_nat (requests s) + Z.max 1 (2 * max_error_retries self - 1).
Proof.
  intros Hm Hb Hr. apply retry_loop_settled in Hr; [|lia|lia|done|unfold retry_fuel; lia].
  split; [done|]. destruct Hr as (n & Hn & _ & Hreq & _). apply retried_bound in Hn. lia.
Qed.

End Retry.

(** ** The download *)
Section Download.
Context {X : Ext} {SX : ScanningExt X} {J : ScanJson X SX} (self : HttpConfig) (net : Net).

Ltac next_turn IH :=
  match goal with
  | H : retry_loop _ _ _ _ _ _ _ _ = (Ok _, _) |- _ =>
      let Hp := fresh in apply IH in H as [Hp ?]; split; [rewrite Hp; unfold sleep, modify in *; by simplify_eq/=|done]
  end.

(** A success of a request with retries is the answer of the node to one of them. *)
Lemma retry_ok {A} (call : outcome string HttpResponse -> outcome WalletError A) req fuel :
  forall t e s a s', retry_loop self net call req fuel t e s = (Ok a, s') ->
  current_in_progress s' = current_in_progress s /\
  exists n resp, net n req = Some resp /\ call resp = Ok a.
Proof.
  induction fuel as [|fuel IH]; intros t e s a s' Hr; [done|].
  cbn [retry_loop] in Hr. unfold bind at 1, send at 1 in Hr.
  destruct (net (requests s) req) as [resp|] eqn:En.
  - destruct (call resp) as [b|err|msg] eqn:Ec; [|destruct (_ >=? _); [done|]|done].
    + injection Hr as -> <-. split; [done|]. by exists (requests s), resp.
    + inv_ok. next_turn IH.
  - destruct (_ >=? _); [done|]. inv_ok. next_turn IH.
Qed.

(** The chain from the start height of the scan to the tip, and a node that serves it in
    pages.  The pages of a request stay within a window of the chain; when they are
    exhausted, the response names the block after the window. *)
Context (config : ScanConfig) (chain : list BlockUtxoInfo).

Definition limit_of : Z := default SYNC_UTXOS_BY_BLOCK_PAGE_LIMIT (sc_batch_size config).
Definition hash_hex (b : BlockUtxoInfo) : string := hex_encode (bu_header_hash b).

Record page_of (i w : nat) (page : Z) (resp : SyncResponse) : Prop := mk_page_of {
  po_blocks : sr_blocks resp =
    take (Z.to_nat limit_of) (drop (i + Z.to_nat (page * limit_of)) (take w chain));
  po_next_page : sr_has_next_page resp = (Z.of_nat i + (page + 1) * limit_of <? Z.of_nat w);
  po_next_header : sr_has_next_page resp = false ->
    next_header_to_scan resp = default "" (bu_header_hash <$> chain !! w);
}.

(** Successful answers of the node are right; it may fail at any time. *)
Record HonestNode (window : nat -> nat) : Prop := mk_honest {
  hn_window : forall i, (i < length chain)%nat -> (i < window i <= length chain)%nat;
  hn_header : forall n resp b, net n (GetHeaderByHeight (start_height config)) = Some resp ->
    get_header_by_height_http_call resp = Ok (Some b) ->
    exists blk, chain !! 0%nat = Some blk /\ hdr_hash b = bu_header_hash blk;
  hn_sync : forall n i blk page resp sync, chain !! i = Some blk ->
    net n (SyncUtxosByBlock (hash_hex blk) limit_of page (exclude_spent config)) = Some resp ->
    sync_utxos_by_block_http_call resp = Ok sync -> page_of i (window i) page sync;
}.

Definition past_end (b : BlockUtxoInfo) : bool :=
  match sc_end_height config with Some e => bu_height b >? e | None => false end.

Lemma fold_take_inactive blocks : forall acc m n s, ip_config (current_in_progress s) = None ->
  fold_m take_block (acc, m, n) blocks s = (Ok (acc ++ blocks, m, n), s).
Proof.
  induction blocks as [|b blocks IH]; intros acc m n s Hs; cbn; [by rewrite app_nil_r|].
  unfold bind. cbn. rewrite Hs. cbn. rewrite IH by done. by rewrite <- app_assoc.
Qed.

(** All blocks of a response are kept, also those above the end height. *)
Lemma fold_take blocks : forall acc m n s, ip_config (current_in_progress s) = Some config ->
  fold_m take_block (acc, m, n) blocks s =
    if existsb past_end blocks
    then (Ok (acc ++ blocks, false, false), set_in_progress (clear (current_in_progress s)) s)
    else (Ok (acc ++ blocks, m, n), s).
Proof.
  induction blocks as [|b blocks IH]; intros acc m n s Hs; cbn; [by rewrite app_nil_r|].
  unfold bind. cbn. rewrite Hs. cbn. unfold past_end at 1.
  destruct (sc_end_height config) as [e|] eqn:Ee; [destruct (bu_height b >? e)|]; cbn.
  - rewrite fold_take_inactive by done. by rewrite <- app_assoc.
  - rewrite IH by done. by rewrite <- app_assoc.
  - rewrite IH by done. by rewrite <- app_assoc.
Qed.

(** The scanner has fetched the first [pos] blocks. *)
Definition at_position (window : nat -> nat) (pos : nat) (p : InProgressScan) : Prop :=
  ip_config p = Some config /\
  ((ip_header p = None /\ current_page p = 0 /\ pos = 0%nat) \/
   exists i blk, chain !! i = Some blk /\ ip_header p = Some (hash_hex blk) /\ 0 <= current_page p /\
     Z.of_nat pos = Z.of_nat i + current_page p * limit_of /\ (pos < window i)%nat).

(** Block hashes identify blocks, also as text. *)
Context (window : nat -> nat) (node : HonestNode window) (limit_pos : 0 < limit_of)
  (hashes : NoDup (map hash_hex chain)) (hash_text : forall b, b ∈ chain -> bu_header_hash b <> "").

Lemma header_to_fetch_spec pos s h s' :
  at_position window pos (current_in_progress s) ->
  header_to_fetch self net (start_height config) s = (Ok h, s') ->
  exists i blk, chain !! i = Some blk /\ h = hash_hex blk /\
    ip_config (current_in_progress s') = Some config /\ ip_header (current_in_progress s') = Some h /\
    0 <= current_page (current_in_progress s') /\
    Z.of_nat pos = Z.of_nat i + current_page (current_in_progress s') * limit_of /\ (pos < window i)%nat.
Proof.
  intros [Hc Hp] Hr. unfold header_to_fetch in Hr. unfold bind at 1, gets at 1 in Hr.
  destruct Hp as [(Hh & Hpg & ->)|(i & blk & Hi & Hh & Hpg & Hpos & Hw)]; rewrite Hh in Hr.
  - inv_ok. destruct a as [hdr|]; [|done]. inv_ok.
    unfold get_header_by_height in H. apply retry_ok in H as (Hip & n & resp & Hn & Hcall).
    destruct (hn_header _ node _ _ _ Hn Hcall) as (blk & Hblk & Hb).
    exists 0%nat, blk. unfold in_progress, modify in *. simplify_eq/=. unfold hash_hex.
    rewrite Hb, Hip, Hc. repeat split; try done; try lia.
    apply (hn_window _ node 0%nat). by apply lookup_lt_Some in Hblk.
  - injection Hr as <- <-. exists i, blk. done.
Qed.

(** A page, counted from position [pos]. *)
Lemma page_blocks pos i page resp : (pos < window i)%nat -> (window i <= length chain)%nat -> 0 <= page ->
  Z.of_nat pos = Z.of_nat i + page * limit_of -> page_of i (window i) page resp ->
  sr_blocks resp = take (length (sr_blocks resp)) (drop pos chain) /\ sr_blocks resp <> [] /\
  (if sr_has_next_page resp
   then Z.of_nat (pos + length (sr_blocks resp)) = Z.of_nat i + (page + 1) * limit_of /\
     (pos + length (sr_blocks resp) < window i)%nat
   else (pos + length (sr_blocks resp))%nat = window i).
Proof.
  intros Hw Hle Hpage Hpos [Hb Hn _].
  assert (0 <= page * limit_of) as Hmul by (apply Z.mul_nonneg_nonneg; lia).
  replace (i + Z.to_nat (page * limit_of))%nat with pos in Hb by lia.
  assert (length (sr_blocks resp) = Nat.min (Z.to_nat limit_of) (window i - pos)) as Hlen.
  { rewrite Hb, length_take, length_drop, length_take. lia. }
  split; [|split].
  - rewrite Hlen, Hb at 1. rewrite skipn_firstn_comm, firstn_firstn. done.
  - intros Hnil. rewrite Hnil in Hlen. cbn in Hlen. lia.
  - rewrite Hn, Hlen. destruct (Z.ltb_spec (Z.of_nat i + (page + 1) * limit_of) (Z.of_nat (window i))); lia.
Qed.

Lemma next_request_spec next w more s s' r i blk :
  chain !! i = Some blk -> (i < w <= length chain)%nat ->
  ip_config (current_in_progress s) = Some config -> ip_header (current_in_progress s) = Some (hash_hex blk) ->
  next = default "" (bu_header_hash <$> chain !! w) ->
  next_request next more s = (Ok r, s') ->
  if decide (w = length chain) then r = false
  else r = more /\ at_position window w (current_in_progress s').
Proof.
  intros Hi Hw Hc Hh Hnext Hr. unfold next_request in Hr. unfold bind at 1, gets at 1 in Hr.
  destruct (decide (w = length chain)) as [->|Hne].
  - rewrite (proj2 (lookup_ge_None _ _)) in Hnext by done. cbn in Hnext.
    subst next. cbn in Hr. by inv_ok.
  - destruct (lookup_lt_is_Some_2 chain w) as [b Hb]; [lia|]. rewrite Hb in Hnext. cbn in Hnext. subst next.
    destruct (String.eqb_spec (bu_header_hash b) "") as [He|_].
    { exfalso. apply (hash_text b); [by eapply list_elem_of_lookup_2|done]. }
    rewrite Hh in Hr. cbn in Hr.
    destruct (String.eqb_spec (hex_encode (bu_header_hash b)) (hash_hex blk)) as [He|_].
    { exfalso. assert (w = i) as ->; [|lia]. eapply (NoDup_lookup _ _ _ _ hashes); rewrite list_lookup_fmap.
      - by rewrite Hb.
      - rewrite Hi. cbn. by f_equal. }
    unfold in_progress, modify in Hr. inv_ok. split; [done|]. cbn. split; [done|]. right.
    exists w, b. repeat split; cbn; try done; try lia. apply (hn_window _ node). lia.
Qed.

Lemma fetch_block_range_spec pos s blocks more s' :
  at_position window pos (current_in_progress s) ->
  fetch_block_range self net s = (Ok (blocks, more), s') ->
  blocks = take (length blocks) (drop pos chain) /\ blocks <> [] /\
  if more : bool
  then at_position window (pos + length blocks) (current_in_progress s') /\ existsb past_end blocks = false
  else (pos + length blocks)%nat = length chain \/ existsb past_end blocks = true.
Proof.
  intros Hat Hr. unfold fetch_block_range in Hr. unfold bind at 1, gets at 1 in Hr.
  rewrite (proj1 Hat) in Hr. cbv zeta in Hr. apply bind_ok_inv in Hr as (h & s1 & Hh & Hr).
  destruct (header_to_fetch_spec _ _ _ _ Hat Hh) as (i & blk & Hi & -> & Hc & Hhd & Hpg & Hpos & Hw).
  unfold bind at 1, gets at 1 in Hr. cbv beta iota zeta in Hr. rewrite Hc in Hr.
  apply bind_ok_inv in Hr as (resp & s2 & Hresp & Hr). unfold sync_utxos_by_block in Hresp.
  apply retry_ok in Hresp as (Hip & n & answer & Hn & Hcall).
  pose proof (hn_window _ node i (lookup_lt_Some _ _ _ Hi)) as Hwin.
  pose proof (hn_sync _ node _ _ _ _ _ _ Hi Hn Hcall) as Hpage.
  destruct (page_blocks pos i _ resp Hw ltac:(lia) Hpg Hpos Hpage) as (Hb & Hne & Hnext).
  destruct (sr_blocks resp) as [|b0 bs] eqn:Ebs; [done|]. rewrite <- Ebs in *. clear Hne.
  apply bind_ok_inv in Hr as (x & s3 & Hfold & Hr). rewrite fold_take in Hfold by by rewrite Hip.
  destruct (existsb past_end (sr_blocks resp)) eqn:Ee; injection Hfold as <- <-; cbv beta iota zeta in Hr.
  - unfold bind, gets, lift, increment_page, in_progress, modify in Hr. cbn in Hr.
    destruct (u64_add _ _); cbn in Hr; [|done|done]. injection Hr as <- <- _.
    split; [done|]. split; [by rewrite Ebs|]. by right.
  - unfold bind at 1, gets at 1 in Hr. cbv beta iota zeta in Hr. rewrite Hip in Hr.
    apply bind_ok_inv in Hr as (p' & s3 & Hp' & Hr). unfold lift, increment_page in Hp'.
    unfold u64_add in Hp'. destruct (_ <=? u64_max); cbn in Hp'; [|done]. injection Hp' as <- <-.
    apply bind_ok_inv in Hr as (u & s3 & Hu & Hr). unfold in_progress, modify in Hu. injection Hu as _ <-.
    unfold is_active in Hr. cbn [ip_config] in Hr. rewrite Hc in Hr.
    destruct (sr_has_next_page resp) eqn:En; cbn [negb andb is_none] in Hr.
    + injection Hr as <- <- <-. cbn [app]. split; [done|]. split; [by rewrite Ebs|]. split; [|done]. cbn.
      split; [done|]. right. exists i, blk. destruct Hnext as [H1 H2]. repeat split; try done; cbn; lia.
    + inv_ok. split; [done|]. split; [by rewrite Ebs|].
      apply (next_request_spec _ (window i) _ _ _ _ i blk) in H; try done;
        [|by apply (po_next_header _ _ _ _ Hpage)].
      destruct (decide _) as [Hd|_]; [subst more; left; lia|]. destruct H as [-> H]. by rewrite Hnext.
Qed.
End Download.

(** ** A page of blocks *)

(** A list sorted by [le] that is a permutation of a strictly sorted one equals it. *)
Lemma sorted_perm_eq {A} (le : A -> A -> bool) l : forall k,
  StronglySorted (fun a b => le a b = true) l -> StronglySorted (fun a b => le b a = false) k ->
  (forall a, le a a = true) -> Permutation l k -> l = k.
Proof.
  induction l as [|x l IH]; intros k Hl Hk Hrefl Hp; [by apply Permutation_nil in Hp|].
  destruct k as [|y k]; [by apply Permutation_sym, Permutation_nil in Hp|].
  apply StronglySorted_inv in Hl as [Hl Hx]. apply StronglySorted_inv in Hk as [Hk Hy].
  assert (x = y) as ->.
  { assert (x ∈ y :: k) as Hin by (rewrite <- Hp; left). apply elem_of_cons in Hin as [?|Hin]; [done|].
    assert (y ∈ x :: l) as Hin' by (rewrite Hp; left). apply elem_of_cons in Hin' as [?|Hin']; [done|].
    rewrite Forall_forall in Hx, Hy. specialize (Hx y Hin'). specialize (Hy x Hin). congruence. }
  f_equal. apply IH; [done..|]. by apply Permutation_cons_inv in Hp.
Qed.

Section Page.
Context {X : Ext} {SX : ScanningExt X} {J : ScanJson X SX} {C : Completion} {CL : CompletionLaws C}.
Context (self : HttpConfig) (block_net : nat -> string -> Net).

(** What the scan makes of one block of the [page]-th page. *)
Definition block_result (page : nat) (b : BlockUtxoInfo) (r : BlockScanResult) : Prop :=
  exists scanned, scan_block self b = Ok ([], Some scanned) /\
    complete_in_page self block_net page scanned = Ok r.

(** The parts of a block that do not depend on the key managers. *)
Definition same_block (b : BlockUtxoInfo) (r : BlockScanResult) : Prop :=
  blk_height r = bu_height b /\ fixed_hash_try_from (bu_header_hash b) = Some (blk_hash r) /\
  blk_inputs r = map (fun i => default fixed_hash_default (fixed_hash_try_from i)) (bu_inputs b) /\
  mined_timestamp r = bu_mined_timestamp b.

Definition shape (b : BlockScanResult) : Z * string * list string * Z :=
  (blk_height b, blk_hash b, blk_inputs b, mined_timestamp b).

Lemma complete_outputs_shape full outs : forall b s r s',
  fold_m (complete_output self full) b outs s = (Ok r, s') -> shape r = shape b.
Proof.
  induction outs as [|o outs IH]; intros b s r s' H; cbn in H; [by injection H as <- _|].
  apply bind_ok_inv in H as (b' & s1 & H & H1). apply IH in H1. rewrite H1. unfold complete_output in H.
  destruct (List.find _ _); [|by inv_ok]. destruct (nth_error _ _); [|done].
  destruct (to_wallet_output _ _ _); by inv_ok.
Qed.

Lemma complete_block_shape net b outs s r s' :
  complete_block self net (b, outs) s = (Ok r, s') -> shape r = shape b.
Proof.
  unfold complete_block. destruct outs; [by intros [= <- _]|]. intros H.
  apply bind_ok_inv in H as (full & s1 & _ & H). by eapply complete_outputs_shape.
Qed.

Lemma scan_block_errors b errors found : scan_block self b = Ok (errors, found) ->
  found = None -> errors <> [].
Proof.
  unfold scan_block. destruct (fixed_hash_try_from _); [|by intros [= <- _]].
  destruct (outcome_fold _ _ _) as [[]| |]; cbn; [|done|done]. by intros [= _ <-].
Qed.

Lemma block_result_same page b r : block_result page b r -> same_block b r.
Proof.
  intros ([b0 outs] & Hs & Hc). unfold complete_in_page in Hc. destruct (complete_block _ _ _ _) as [r0 s0] eqn:E.
  cbn in Hc. subst r0. apply complete_block_shape in E. unfold shape in E. injection E as E1 E2 E3 E4.
  unfold scan_block in Hs. destruct (fixed_hash_try_from (bu_header_hash b)) as [h|] eqn:Eh; [|done].
  destruct (outcome_fold _ _ _) as [[]| |]; cbn in Hs; [|done|done]. injection Hs as _ <- _. cbn in *.
  unfold same_block. by rewrite Eh, E1, E2, E3, E4.
Qed.

Definition increasing (l : list BlockUtxoInfo) : Prop := StronglySorted Z.lt (map bu_height l).

Lemma by_height_sorted page blocks rs : increasing blocks -> Forall2 (block_result page) blocks rs ->
  StronglySorted (fun a b => by_height b a = false) rs.
Proof.
  unfold increasing. induction 2 as [|b r blocks rs Hr Hf IH]; [constructor|]. cbn in H.
  apply StronglySorted_inv in H as [Hs Hb]. constructor; [by apply IH|].
  apply Forall_forall. intros r' Hr'. apply list_elem_of_lookup in Hr' as [i Hi].
  destruct (Forall2_lookup_r _ _ _ _ _ Hf Hi) as (b' & Hb' & Hres).
  destruct (block_result_same _ _ _ Hr) as [E1 _]. destruct (block_result_same _ _ _ Hres) as [E2 _].
  unfold by_height. rewrite E1, E2. apply Z.leb_gt.
  apply (proj1 (Forall_forall _ _) Hb). by apply list_elem_of_fmap_2, (list_elem_of_lookup_2 _ i).
Qed.

Lemma sort_results page blocks rs final : increasing blocks -> Forall2 (block_result page) blocks rs ->
  Permutation final rs -> sort_by by_height final = rs.
Proof.
  intros Hi Hf Hp. apply (sorted_perm_eq by_height).
  - apply sort_by_sorted; unfold by_height; intros; rewrite ?Z.leb_le, ?Z.leb_gt in *; lia.
  - by eapply by_height_sorted.
  - intros a. unfold by_height. apply Z.leb_refl.
  - by rewrite sort_by_perm.
Qed.

Lemma no_errors (scanned : list ScannedBlock) page :
  concat (completion page PoolErrors (map fst scanned)) = [] <-> Forall (fun x => fst x = []) scanned.
Proof.
  transitivity (Forall (fun e : list WalletError => e = []) (completion page PoolErrors (map fst scanned))).
  - induction (completion page PoolErrors (map fst scanned)) as [|e l IH]; cbn; [by split|].
    rewrite Forall_cons. destruct e; cbn; [|naive_solver]. rewrite IH. naive_solver.
  - rewrite (completion_perm page PoolErrors (map fst scanned)). by rewrite Forall_map.
Qed.

Lemma scanned_in_order blocks scanned :
  Forall2 (fun b x => scan_block self b = Ok x) blocks scanned -> Forall (fun x => fst x = []) scanned ->
  Forall2 (fun b sc => scan_block self b = Ok ([], Some sc)) blocks (omap snd scanned).
Proof.
  induction 1 as [|b [errors [sc|]] blocks scanned Hb _ IH]; intros [He Hf]%Forall_cons || intros _; cbn in *.
  - constructor.
  - subst errors. constructor; [done|auto].
  - subst errors. by destruct (scan_block_errors _ _ _ Hb eq_refl).
Qed.

Lemma split_results page blocks rs : Forall2 (block_result page) blocks rs -> exists scs,
  Forall2 (fun b sc => scan_block self b = Ok ([], Some sc)) blocks scs /\
  Forall2 (fun sc r => complete_in_page self block_net page sc = Ok r) scs rs.
Proof.
  induction 1 as [|b r blocks rs (sc & Hs & Hc) _ (scs & IH1 & IH2)]; [by exists []|].
  exists (sc :: scs). by split; constructor.
Qed.

Lemma join_results page blocks scs : forall rs,
  Forall2 (fun b sc => scan_block self b = Ok ([], Some sc)) blocks scs ->
  Forall2 (fun sc r => complete_in_page self block_net page sc = Ok r) scs rs ->
  Forall2 (block_result page) blocks rs.
Proof.
  intros rs H. revert rs. induction H as [|b sc blocks scs Hb _ IH]; intros rs Hrs; inversion Hrs; subst;
    constructor; [by exists sc|auto].
Qed.

Lemma completed_perm {A} page (l : list A) :
  Permutation (completion page Futures (completion page PoolResults l)) l.
Proof. by rewrite !completion_perm. Qed.

(** A loop that succeeds on a list succeeds on its permutations. *)
Lemma outcome_mapM_perm {E A B} (f : A -> outcome E B) l k ys : Permutation l k ->
  outcome_mapM f l = Ok ys -> exists zs, outcome_mapM f k = Ok zs /\ Permutation ys zs.
Proof.
  intros Hp H. apply outcome_mapM_ok in H. destruct (Permutation_Forall2 Hp H) as (zs & Hz & Hf).
  exists zs. split; [by apply outcome_mapM_ok|done].
Qed.

Lemma page_in_order (page : nat) (blocks : list BlockUtxoInfo) (rs : list BlockScanResult) :
  increasing blocks ->
  process_page self block_net page blocks = Ok rs <-> Forall2 (block_result page) blocks rs.
Proof.
  intros Hinc. unfold process_page. rewrite outcome_bind_ok. split.
  - intros (scanned & Hs & H). apply outcome_mapM_ok in Hs.
    destruct (concat _) as [|e es] eqn:Ee; [|done]. apply no_errors in Ee.
    apply outcome_bind_ok in H as (final & Hf & [= <-]). apply outcome_mapM_ok in Hf.
    pose proof (scanned_in_order _ _ Hs Ee) as Hscs.
    destruct (outcome_mapM_perm _ _ (omap snd scanned) _ (completed_perm page _)
      (proj2 (outcome_mapM_ok _ _ _) Hf)) as (rs & Hrs & Hp). apply outcome_mapM_ok in Hrs.
    assert (Forall2 (block_result page) blocks rs) as Hres.
    { by eapply join_results. }
    by rewrite (sort_results page blocks rs final Hinc Hres Hp).
  - intros Hres. destruct (split_results _ _ _ Hres) as (scs & Hs & Hc).
    exists (map (fun sc => ([], Some sc)) scs). split.
    { apply outcome_mapM_ok. apply Forall2_fmap_r. exact Hs. }
    destruct (concat _) as [|e es] eqn:Ee; cycle 1.
    { rewrite (proj2 (no_errors _ page)) in Ee; [done|]. by apply Forall_map, Forall_true. }
    assert (omap snd (map (fun sc => ([] : list WalletError, Some sc)) scs) = scs) as ->.
    { clear. induction scs as [|sc scs IH]; cbn; [done|by f_equal]. }
    destruct (outcome_mapM_perm _ _ (completion page Futures (completion page PoolResults scs)) _
      (Permutation_sym (completed_perm page scs)) (proj2 (outcome_mapM_ok _ _ _) Hc)) as (final & Hf & Hp).
    rewrite Hf. cbn. by rewrite (sort_results page blocks rs final Hinc Hres (Permutation_sym Hp)).
Qed.

(** C31: the blocks of a page are scanned in parallel and completed in any order, yet the
    result is that of scanning them one by one: when their heights increase, a page gives
    [rs] exactly when every block has no error and its result stands at its place in
    [rs]. *)
Theorem process_page_spec (page : nat) (blocks : list BlockUtxoInfo) (rs : list BlockScanResult) :
  increasing blocks ->
  process_page self block_net page blocks = Ok rs <-> Forall2 (block_result page) blocks rs.
Proof. apply page_in_order. Qed.
End Page.

(** ** The tasks, interleaved *)
Section Stream.
Context {X : Ext} {SX : ScanningExt X} {J : ScanJson X SX} {C : Completion} {CL : CompletionLaws C}.
Context (self : HttpConfig) (net : Net) (block_net : nat -> string -> Net) (pool : outcome string unit).
Context (config : ScanConfig).

(** The blocks in a list of messages. *)
Definition blocks_in (m : Message) : list BlockScanResult := match m with Ok l => l | _ => [] end.
Definition blocks_of (l : list Message) : list BlockScanResult := concat (map blocks_in l).

#[local] Arguments blocks_of : simpl never.

Lemma blocks_of_app l k : blocks_of (l ++ k) = blocks_of l ++ blocks_of k.
Proof. unfold blocks_of. by rewrite map_app, concat_app. Qed.

Lemma blocks_of_one m : blocks_of [m] = blocks_in m.
Proof. apply app_nil_r. Qed.

Definition working (p : Pipeline) : list (list BlockUtxoInfo) :=
  match process p with PrPage page => [page] | _ => [] end.

(** Pages are processed in the order of their download, and the reader's messages carry
    their results in that order; all of them, while it reads. *)
Record stream_inv (p : Pipeline) (results : list (list BlockScanResult)) : Prop := mk_stream_inv {
  si_results : Forall2 (fun pr rs => process_page self block_net (fst pr) (snd pr) = Ok rs)
    (imap pair (take (processed p) (downloaded p))) results;
  si_processed : (processed p <= length (downloaded p))%nat;
  si_queue : process_running p = true -> drop (processed p) (downloaded p) = working p ++ raw p;
  si_reading : reading p = true -> blocks_of (received p ++ out p) = concat results;
  si_prefix : blocks_of (received p ++ out p) `prefix_of` concat results;
}.

Lemma send_out_cases m p :
  (exists p', send_out m p = Sent p' /\ reading p = true /\
    p' = mkPipeline (download p) (process p) (raw p) (out p ++ [m]) (received p) (reading p) (downloaded p)
      (processed p)) \/
  send_out m p = Waits \/ (send_out m p = Closed /\ reading p = false).
Proof.
  unfold send_out. destruct (reading p) eqn:E; cbn [negb]; [|by (right; right)].
  destruct (length (out p) <? CHANNEL_CAPACITY)%nat; [left|by (right; left)].
  eexists. split; [reflexivity|]. done.
Qed.

(** A message without blocks keeps the invariant, whatever the sender does next. *)
Lemma send_nothing m p results p' (k : Pipeline -> Pipeline) :
  blocks_in m = [] -> stream_inv p results -> after_send (send_out m p) p k = Some p' ->
  (forall q, stream_inv q results -> stream_inv (k q) results) -> stream_inv p' results.
Proof.
  intros Hm [H1 H2 H3 H4 H5] Hs Hk.
  destruct (send_out_cases m p) as [(q & E & Hr & ->)|[E|[E _]]]; rewrite E in Hs; cbn in Hs; [|done|].
  - injection Hs as <-. apply Hk. constructor; cbn; try done.
    + intros _. by rewrite app_assoc, blocks_of_app, (H4 Hr), (blocks_of_one m), Hm, app_nil_r.
    + by rewrite app_assoc, blocks_of_app, (blocks_of_one m), Hm, app_nil_r.
  - injection Hs as <-. by apply Hk.
Qed.

Lemma inv_set_download d p results : stream_inv p results -> stream_inv (set_download d p) results.
Proof. by intros []. Qed.

Lemma inv_process_done p results : stream_inv p results -> stream_inv (set_process PrDone p) results.
Proof. intros [H1 H2 H3 H4 H5]. by constructor. Qed.

Lemma download_step_inv p p' results :
  stream_inv p results -> download_step self net config p = Some p' -> stream_inv p' results.
Proof.
  intros H Hs. unfold download_step in Hs. destruct (download p) as [|s| |]; [| | |done].
  - destruct (get_tip_info _ _ _) as [[tip| |] s]; [destruct (_ >? _)| |];
      [|injection Hs as <-; by apply inv_set_download..].
    apply (send_nothing _ _ _ _ _ (eq_refl : blocks_in (Ok []) = []) H Hs). intros. by apply inv_set_download.
  - destruct (fetch_block_range _ _ _) as [[[page more]|e|] s'].
    + unfold send_raw in Hs. destruct (process_running p) eqn:Er; cbn [negb] in Hs;
        [|injection Hs as <-; by apply inv_set_download].
      destruct (length (raw p) <? CHANNEL_CAPACITY)%nat; [|done]. injection Hs as <-. apply inv_set_download.
      destruct H as [H1 H2 H3 H4 H5]. constructor; cbn; try done.
      * by rewrite take_app_le.
      * rewrite length_app. lia.
      * intros _. rewrite drop_app_le by done. rewrite (H3 Er). unfold working. cbn. by rewrite app_assoc.
    + apply (send_nothing (Err e) _ _ _ _ eq_refl H Hs). intros. by apply inv_set_download.
    + injection Hs as <-. by apply inv_set_download.
  - apply (send_nothing _ _ _ _ _ (eq_refl : blocks_in (Ok []) = []) H Hs). intros. by apply inv_set_download.
Qed.

Lemma read_step_inv p p' results : stream_inv p results -> read_step p = Some p' -> stream_inv p' results.
Proof.
  intros [H1 H2 H3 H4 H5] Hs. unfold read_step in Hs. destruct (reading p) eqn:Er; [|done].
  destruct (out p) as [|m rest] eqn:Eo; [done|]. injection Hs as <-.
  constructor; cbn; try done; rewrite <- app_assoc; cbn; [|done]. intros _. by apply H4.
Qed.

(** A page is finished: its results follow the others. *)
Lemma finish_page_inv p results page rs (p' : Pipeline) :
  stream_inv p results -> process p = PrPage page -> process_page self block_net (processed p) page = Ok rs ->
  after_send (send_out (Ok rs) p) p finish_page = Some p' -> stream_inv p' (results ++ [rs]).
Proof.
  intros [H1 H2 H3 H4 H5] Hp Hrs Hs.
  assert (process_running p = true) as Hrun by (unfold process_running; by rewrite Hp).
  specialize (H3 Hrun). unfold working in H3. rewrite Hp in H3. cbn in H3.
  assert (downloaded p !! processed p = Some page) as Hpage.
  { rewrite <- (Nat.add_0_r (processed p)), <- lookup_drop, H3. done. }
  assert (S (processed p) <= length (downloaded p))%nat as Hlen by (by apply lookup_lt_Some in Hpage).
  assert (Forall2 (fun pr rs => process_page self block_net (fst pr) (snd pr) = Ok rs)
    (imap pair (take (S (processed p)) (downloaded p))) (results ++ [rs])) as Hres.
  { rewrite (take_S_r _ _ page Hpage), imap_app. apply Forall2_app; [done|]. cbn.
    rewrite length_take, Nat.add_0_r, Nat.min_l by done. by constructor. }
  assert (drop (S (processed p)) (downloaded p) = raw p) as Hdrop.
  { rewrite <- Nat.add_1_r, <- drop_drop, H3. done. }
  destruct (send_out_cases (Ok rs) p) as [(q & E & Hr & ->)|[E|[E Hr]]]; rewrite E in Hs; cbn in Hs; [|done|];
    injection Hs as <-; constructor; cbn; try done.
  - intros _. by rewrite app_assoc, blocks_of_app, concat_app, (H4 Hr).
  - by rewrite app_assoc, blocks_of_app, concat_app, (H4 Hr).
  - congruence.
  - rewrite concat_app. by apply prefix_app_r.
Qed.

Lemma process_step_inv p p' results :
  stream_inv p results -> process_step self block_net pool p = Some p' ->
  exists results', stream_inv p' results'.
Proof.
  intros H Hs. unfold process_step in Hs. destruct (process p) as [| |page|] eqn:Ep; [| | |done].
  - exists results. destruct pool as [u|e|msg].
    + injection Hs as <-. destruct H as [H1 H2 H3 H4 H5]. constructor; try done. intros _. cbn.
      specialize (H3 (ltac:(unfold process_running; by rewrite Ep))). unfold working in *. by rewrite Ep in H3.
    + apply (send_nothing _ _ _ _ _ (eq_refl : blocks_in (Err _) = []) H Hs). intros. by apply inv_process_done.
    + injection Hs as <-. by apply inv_process_done.
  - exists results. destruct (raw p) as [|page rest] eqn:Er.
    + destruct (download_running p); [done|]. injection Hs as <-. by apply inv_process_done.
    + injection Hs as <-. destruct H as [H1 H2 H3 H4 H5]. constructor; try done. intros _. cbn.
      specialize (H3 (ltac:(unfold process_running; by rewrite Ep))). unfold working in *. by rewrite Ep, Er in H3.
  - destruct (process_page _ _ _ _) as [rs|e|msg] eqn:Epage.
    + exists (results ++ [rs]). by apply (finish_page_inv p results page rs).
    + exists results. apply (send_nothing (Err e) _ _ _ _ eq_refl H Hs). intros. by apply inv_process_done.
    + exists results. injection Hs as <-. by apply inv_process_done.
Qed.

(** Rule induction over the interleavings. *)
Lemma reachable_ind (P : Pipeline -> Prop) :
  P pipeline_start ->
  (forall p p', P p -> download_step self net config p = Some p' -> P p') ->
  (forall p p', P p -> process_step self block_net pool p = Some p' -> P p') ->
  (forall p p', P p -> read_step p = Some p' -> P p') ->
  forall p, reachable_pipeline self net block_net pool config p -> P p.
Proof.
  intros H0 H1 H2 H3 p Hr.
  apply (rtc_ind_r (R := pipe_step self net block_net pool config) P pipeline_start); [done| |exact Hr].
  intros q q' _ Hstep Hq. inversion Hstep; subst; eauto.
Qed.

Lemma reachable_stream_inv p : reachable_pipeline self net block_net pool config p ->
  exists results, stream_inv p results.
Proof.
  apply (reachable_ind (fun p => exists results, stream_inv p results)).
  - exists []. by constructor.
  - intros q q' [results H] Hs. exists results. by apply (download_step_inv q).
  - intros q q' [results H]. by apply (process_step_inv q q' results).
  - intros q q' [results H] Hs. exists results. by apply (read_step_inv q).
Qed.

(** ** The stream follows the chain of an honest node *)
Context (chain : list BlockUtxoInfo) (window : nat -> nat) (node : HonestNode net config chain window).
Context (limit_pos : 0 < limit_of config) (hashes : NoDup (map hash_hex chain))
  (hash_text : forall b, b ∈ chain -> bu_header_hash b <> "") (heights : increasing chain).

(** The download has fetched the first [pos] blocks. *)
Definition download_inv (p : Pipeline) : Prop :=
  Forall (fun page => page <> []) (downloaded p) /\
  exists pos, concat (downloaded p) = take pos chain /\
    match download p with
    | DlStart => pos = 0%nat
    | DlFetch s => at_position config chain window pos (current_in_progress s)
    | DlFinish => pos = length chain \/ existsb (past_end config) (take pos chain) = true
    | DlDone => True
    end.

Lemma download_inv_frame p p' :
  download p' = download p -> downloaded p' = downloaded p -> download_inv p -> download_inv p'.
Proof. unfold download_inv. by intros -> ->. Qed.

Lemma download_done p : download_inv p -> download_inv (set_download DlDone p).
Proof. intros (H & pos & Hp & _). split; [done|]. by exists pos. Qed.

Lemma after_send_done m p p' : download_inv p ->
  after_send (send_out m p) p (set_download DlDone) = Some p' -> download_inv p'.
Proof.
  intros H Hs. destruct (send_out_cases m p) as [(q & E & _ & ->)|[E|[E _]]]; rewrite E in Hs; cbn in Hs;
    [|done|]; injection Hs as <-; apply download_done; [|done]. by apply (download_inv_frame p).
Qed.

Lemma download_step_follows p p' :
  download_inv p -> download_step self net config p = Some p' -> download_inv p'.
Proof.
  intros H Hs. unfold download_step in Hs. destruct (download p) as [|s| |] eqn:Ed; [| | |done].
  - destruct (get_tip_info _ _ _) as [[tip| |] s] eqn:Et; [destruct (_ >? _)| |];
      [by apply (after_send_done (Ok []) p)| |injection Hs as <-; by apply download_done..].
    injection Hs as <-. destruct H as (H & pos & Hp & Hpos). rewrite Ed in Hpos. subst pos.
    split; [done|]. exists 0%nat. split; [done|]. cbn.
    unfold get_tip_info in Et. apply retry_ok in Et as [Hip _]. rewrite Hip.
    split; [done|]. by left.
  - destruct (fetch_block_range _ _ _) as [[[page more]|e|] s'] eqn:Ef;
      [|by apply (after_send_done (Err e) p)|injection Hs as <-; by apply download_done].
    unfold send_raw in Hs. destruct (process_running p); cbn [negb] in Hs;
      [|injection Hs as <-; by apply download_done].
    destruct (length (raw p) <? CHANNEL_CAPACITY)%nat; [|done]. injection Hs as <-.
    destruct H as (H & pos & Hp & Hpos). rewrite Ed in Hpos.
    destruct (fetch_block_range_spec self net config chain window node limit_pos hashes hash_text _ _ _ _ _ Hpos Ef)
      as (Hb & Hne & Hmore).
    split; cbn; [apply Forall_app; split; [done|by constructor]|].
    exists (pos + length page)%nat. rewrite concat_app, Hp. cbn. rewrite app_nil_r.
    rewrite Hb at 1. rewrite take_take_drop. split; [done|]. destruct more.
    + by destruct Hmore.
    + destruct Hmore as [Hend|Hend]; [by left|right]. rewrite <- take_take_drop, <- Hb, existsb_app, Hend.
      apply orb_true_r.
  - by apply (after_send_done (Ok []) p).
Qed.

Lemma other_steps_frame p p' :
  process_step self block_net pool p = Some p' \/ read_step p = Some p' ->
  download p' = download p /\ downloaded p' = downloaded p.
Proof.
  assert (forall m k, (forall q, download (k q) = download q /\ downloaded (k q) = downloaded q) ->
    after_send (send_out m p) p k = Some p' -> download p' = download p /\ downloaded p' = downloaded p) as Hsend.
  { intros m k Hk Hs. destruct (send_out_cases m p) as [(q & E & _ & ->)|[E|[E _]]]; rewrite E in Hs; cbn in Hs;
      [|done|]; injection Hs as <-; match goal with |- context [k ?q] => by destruct (Hk q) as [-> ->] end. }
  intros [Hs|Hs].
  - unfold process_step in Hs. destruct (process p) as [| |page|]; [| | |done].
    + destruct pool; [by injection Hs as <-|by eapply Hsend; [|exact Hs]|by injection Hs as <-].
    + destruct (raw p); [destruct (download_running p); [done|]|]; by injection Hs as <-.
    + destruct (process_page _ _ _ _); [by eapply Hsend; [|exact Hs]|by eapply Hsend; [|exact Hs]|by injection Hs as <-].
  - unfold read_step in Hs. destruct (reading p); [|done]. destruct (out p); [done|]. by injection Hs as <-.
Qed.

Lemma reachable_download_inv p : reachable_pipeline self net block_net pool config p -> download_inv p.
Proof.
  apply reachable_ind.
  - split; [constructor|]. by exists 0%nat.
  - apply download_step_follows.
  - intros q q' Hq Hs. destruct (other_steps_frame q q' (or_introl Hs)). by apply (download_inv_frame q).
  - intros q q' Hq Hs. destruct (other_steps_frame q q' (or_intror Hs)). by apply (download_inv_frame q).
Qed.

Lemma increasing_app l k : increasing (l ++ k) -> increasing l /\ increasing k.
Proof.
  unfold increasing. rewrite map_app. induction (map bu_height l) as [|x m IH]; cbn; [by split; [constructor|]|].
  intros [Hs Hf]%StronglySorted_inv. apply Forall_app in Hf as [Hf _]. destruct (IH Hs). split; [by constructor|done].
Qed.

Lemma map_snd_imap {A} (l : list A) : map snd (imap pair l) = l.
Proof. apply list_eq. intros i. rewrite list_lookup_fmap, list_lookup_imap. by destruct (l !! i). Qed.

(** A block scanned as part of some page. *)
Definition scanned_as (b : BlockUtxoInfo) (r : BlockScanResult) : Prop := exists page, block_result self block_net page b r.

Lemma scanned_as_same b r : scanned_as b r -> same_block b r.
Proof. intros [page H]. by eapply block_result_same. Qed.

(** The pages' results are their blocks, in order. *)
Lemma pages_results pages results :
  Forall2 (fun pr rs => process_page self block_net (fst pr) (snd pr) = Ok rs) pages results ->
  increasing (concat (map snd pages)) -> Forall2 scanned_as (concat (map snd pages)) (concat results).
Proof.
  induction 1 as [|[i page] rs pages results Hp _ IH]; cbn; intros Hi; [constructor|].
  apply increasing_app in Hi as [H1 H2]. apply Forall2_app; [|by apply IH].
  apply (page_in_order self block_net i page rs H1) in Hp.
  eapply Forall2_impl; [exact Hp|]. intros b r Hr. by exists i.
Qed.

Lemma prefix_is_take {A} (l k : list A) : l `prefix_of` k -> l = take (length l) k.
Proof. intros [m ->]. by rewrite take_app_length. Qed.

Lemma received_chain p :
  reachable_pipeline self net block_net pool config p ->
  exists n, Forall2 scanned_as (take n chain) (blocks_of (received p)).
Proof.
  intros Hr. destruct (reachable_stream_inv p Hr) as (results & [H1 H2 _ _ H5]).
  destruct (reachable_download_inv p Hr) as (Hne & pos & Hpos & _).
  assert (blocks_of (received p) `prefix_of` concat results) as Hpre.
  { etrans; [|exact H5]. rewrite blocks_of_app. by apply prefix_app_r. }
  assert (concat (take (processed p) (downloaded p)) `prefix_of` chain) as Htake.
  { transitivity (concat (downloaded p)).
    - rewrite <- (take_drop (processed p) (downloaded p)) at 2. rewrite concat_app. by apply prefix_app_r.
    - rewrite Hpos. apply prefix_take. }
  assert (increasing (concat (take (processed p) (downloaded p)))) as Hinc.
  { destruct Htake as [rest Hrest]. rewrite Hrest in heights. by apply increasing_app in heights as [? _]. }
  rewrite <- (map_snd_imap (take _ _)) in Hinc. pose proof (pages_results _ _ H1 Hinc) as Hall.
  rewrite map_snd_imap in Hall. rewrite (prefix_is_take _ _ Htake) in Hall.
  rewrite (prefix_is_take _ _ Hpre). eexists. rewrite <- (take_take chain). by apply Forall2_take.
Qed.

(** In every interleaving of the two tasks and the reader, and whatever requests fail, the
    blocks that the reader has received are the first blocks of the chain from the
    start height, in order, without gap or repetition; the download never takes more
    pages than there are blocks. *)
Theorem stream_follows_chain (p : Pipeline) :
  reachable_pipeline self net block_net pool config p ->
  (exists n, Forall2 same_block (take n chain) (blocks_of (received p))) /\
  (length (downloaded p) <= length chain)%nat.
Proof.
  intros Hr. split.
  - destruct (received_chain p Hr) as [n Hn]. exists n. eapply Forall2_impl; [exact Hn|]. apply scanned_as_same.
  - destruct (reachable_download_inv p Hr) as (Hne & pos & Hpos & _).
    transitivity (length (concat (downloaded p))); [|rewrite Hpos, length_take; lia].
    clear -Hne. induction Hne as [|page pages Hp _ IH]; cbn; [lia|]. rewrite length_app.
    destruct page; [done|]. cbn. lia.
Qed.

End Stream.

(** ** The end of the stream *)
Lemma run_schedule_reachable {X : Ext} {SX : ScanningExt X} {J : ScanJson X SX} {C : Completion}
    self net block_net pool config l : forall p p',
  reachable_pipeline self net block_net pool config p ->
  run_schedule self net block_net pool config l p = Some p' ->
  reachable_pipeline self net block_net pool config p'.
Proof.
  unfold reachable_pipeline. induction l as [|t l IH]; intros p p' Hp H; cbn in H; [by injection H as <-|].
  destruct (run_task _ _ _ _ _ t p) as [q|] eqn:E; cbn in H; [|done]. apply (IH q p'); [|done].
  eapply rtc_r; [exact Hp|]. destruct t; cbn in E; by constructor.
Qed.

Section Overtaking.
Context {X : Ext} {SX : ScanningExt X} {J : ScanJson X SX} {C : Completion}.

(** The download task writes the empty message that ends the stream straight
    into the reader's channel, past the pages that wait to be processed.  So whenever
    the first page is the whole rest of the chain, the reader may be told that there
    are no more blocks before it gets any, and it stops reading. *)
Theorem end_of_stream_overtakes self net block_net pool config tip s0 page s1 :
  get_tip_info self net (mkScanner (InProgressScan_new config) 0 []) = (Ok tip, s0) ->
  start_height config <= best_block_height tip ->
  fetch_block_range self net s0 = (Ok (page, false), s1) ->
  exists p, reachable_pipeline self net block_net pool config p /\
    downloaded p = [page] /\ raw p = [page] /\ received p = [Ok []] /\ reading p = false.
Proof.
  intros Htip Hle Hfetch.
  exists (mkPipeline DlDone PrStart [page] [] [Ok []] false [page] 0). split; [|done].
  apply (run_schedule_reachable _ _ _ _ _ [TDownload; TDownload; TDownload; TRead] pipeline_start); [constructor|].
  assert (download_step self net config pipeline_start = Some (set_download (DlFetch s0) pipeline_start)) as E1.
  { unfold download_step. cbn [download pipeline_start]. rewrite Htip.
    by destruct (Z.gtb_spec (start_height config) (best_block_height tip)); [lia|]. }
  assert (download_step self net config (set_download (DlFetch s0) pipeline_start) =
    Some (mkPipeline DlFinish PrStart [page] [] [] true [page] 0)) as E2.
  { unfold download_step. cbn [download set_download]. by rewrite Hfetch. }
  cbn [run_schedule run_task]. rewrite E1. cbn [mbind option_bind]. rewrite E2. reflexivity.
Qed.
End Overtaking.

(** What the scan loop makes of it. *)
Section Completed.
Context {X : Ext} {S0 : StdOrder} {Cl : TxClient} (self : Config).
Context (get_header : Z -> outcome string (option string)).
Context (blocks_at : nat -> list Z -> ScanConfig -> outcome string (list (outcome string (list BlockScanResult)))).
Context (cancelled interrupted : nat -> bool).

Lemma find_target_active ts id : id ∈ map tg_account_id ts -> exists t, find_target id ts = Some t.
Proof.
  induction ts as [|t ts IH]; cbn; intros Hin; [by apply not_elem_of_nil in Hin|].
  unfold find_target. cbn. destruct (Z.eqb_spec (tg_account_id t) id) as [|Hne]; [by eexists|].
  apply IH. apply elem_of_cons in Hin as [->|]; done.
Qed.

Lemma active_ids_known ts id : id ∈ active_account_ids ts -> exists t, find_target id ts = Some t.
Proof.
  intros Hin. apply find_target_active. unfold active_account_ids in Hin.
  apply list_elem_of_fmap in Hin as (t & -> & Ht). apply elem_of_filter_bool in Ht as [Ht _].
  by apply list_elem_of_fmap_2.
Qed.

Lemma key_managers_known ids ts :
  (forall id, id ∈ ids -> exists t, find_target id ts = Some t) -> exists kms, key_managers ids ts = Ok kms.
Proof.
  induction ids as [|id ids IH]; intros H; cbn; [by eexists|].
  destruct (H id) as [t ->]; [left|]. destruct IH as [kms ->]; [intros; apply H; by right|]. cbn. by eexists.
Qed.

(** The [Completed] event of an account. *)
Definition completed_at (ts : list AccountSyncTarget) (total : Z) (id : Z) : list ProcessingEvent :=
  match find_target id ts with
  | Some t => [ScanStatus (ScanCompleted id (u64_saturating_sub (next_block_to_scan t) 1) total)]
  | None => []
  end.

Lemma emit_completed_known ids : forall s,
  (forall id, id ∈ ids -> exists t, find_target id (targets s) = Some t) ->
  emit_completed ids s = (Ok tt, set_channel
    (channel s ++ concat (map (completed_at (targets s) (total_scanned_globally s)) ids)) s).
Proof.
  intros s. unfold emit_completed. unfold bind at 1, gets at 1. unfold bind at 1, gets at 1.
  generalize (targets s) (total_scanned_globally s). intros ts total. revert s.
  induction ids as [|id ids IH]; intros s H; cbn.
  - rewrite app_nil_r. by destruct s.
  - destruct (H id) as [t Ht]; [left|]. unfold completed_at at 1. rewrite Ht. cbn.
    unfold emit_status, emit, modify. cbn.
    rewrite IH by (intros; apply H; by right). cbn. by rewrite <- app_assoc.
Qed.

(** When the first message of a turn is empty, as it may be although blocks
    were downloaded, a full scan ends there: it reports every active account as completed
    at the height before its next block and leaves the database and the targets alone. *)
Theorem empty_stream_completes fuel turn s rest :
  cancelled turn = false -> state_manager s = ScannerStateManager_new ->
  (forall kms c, blocks_at turn kms c = Ok (Ok [] :: rest)) ->
  exists m, unified_scan_loop self get_header (Ok tt) blocks_at cancelled interrupted (S fuel) turn Full s =
    (Ok (Some (all_events s, false)),
     set_channel (channel s ++
       concat (map (completed_at (targets s) (total_scanned_globally s)) (active_account_ids (targets s))))
       (set_state_manager m s)).
Proof.
  intros Hc Hm Hb. cbn [unified_scan_loop]. unfold bind at 1. unfold scan_turn. rewrite Hc.
  unfold bind at 1, gets at 1. unfold bind at 1, gets at 1. unfold bind at 1, gets at 1. rewrite Hm. cbv zeta.
  destruct (key_managers_known (active_account_ids (targets s)) (targets s)) as [kms Hk];
    [intros id; apply active_ids_known|].
  unfold get_scanner_and_config. cbn [scanner ScannerStateManager_new is_none orb]. rewrite Hk.
  cbn [outcome_bind outcome_map_err]. rewrite bind_lift_ok. unfold bind at 1, modify at 1.
  rewrite Hb. cbn [outcome_map_err]. rewrite bind_lift_ok. unfold bind at 1. cbn [drain_stream].
  unfold scan_batch at 1. unfold bind at 1. cbn [outcome_map_err]. rewrite bind_lift_ok. unfold ret at 1. unfold ret at 1.
  unfold finish_turn. unfold bind at 1, gets at 1. cbn [limit_reached].
  eexists. unfold bind at 1. rewrite emit_completed_known; [cbn; reflexivity|].
  cbn. intros id. apply active_ids_known.
Qed.
End Completed.

(** ** Examples *)
Module ScannerExamples.
Import WalletExamples Demo ScanDemo.

Definition fresh : Scanner := mkScanner (InProgressScan_new config) 0 [].

(** The node misses the first request; the second one is answered. *)
Definition tip_run := get_tip_info scanner_config net fresh.

Lemma retry_settles_witness :
  settled scanner_config net get_tip_info_http_call GetTipInfo fresh 0 0 (fst tip_run) (snd tip_run) /\
  Z.of_nat (requests (snd tip_run)) <= 0 + 5.
Proof.
  refine (retry_settles scanner_config net get_tip_info_http_call GetTipInfo fresh (fst tip_run) (snd tip_run) _ _ _).
  - vm_compute. discriminate.
  - vm_compute. split; discriminate.
  - unfold tip_run, get_tip_info. apply surjective_pairing.
Defined.

Lemma increasing_demo : increasing [block_a; block_b; block_c].
Proof. repeat constructor. Qed.

Lemma increasing_page : increasing [block_a; block_b].
Proof. repeat constructor. Qed.

Definition page_results : list BlockScanResult :=
  result_or [] (process_page scanner_config block_net 0 [block_a; block_b]).

Lemma process_page_spec_witness : Forall2 (block_result scanner_config block_net 0) [block_a; block_b] page_results.
Proof.
  apply (proj1 (process_page_spec scanner_config block_net 0 [block_a; block_b] page_results increasing_page)).
  unfold page_results. apply outcome_ok. vm_compute. reflexivity.
Defined.

Definition demo_chain : list BlockUtxoInfo := [block_a; block_b; block_c].

Lemma honest_demo : HonestNode net config demo_chain (fun _ => 3%nat).
Proof.
  constructor.
  - cbn. lia.
  - intros [|n] resp b Hn Hc; [done|]. cbn in Hn. injection Hn as <-. cbn in Hc. injection Hc as <-.
    by exists block_a.
  - intros [|n] i blk page resp sync Hi Hn Hc; [done|]. cbn in Hn.
    destruct i as [|[|[|i]]]; cbn in Hi; [|by injection Hi as <-; injection Hn as <-; discriminate Hc..|done].
    injection Hi as <-. cbn in Hn.
    destruct (Z.eqb_spec page 0) as [->|]; [injection Hn as <-; injection Hc as <-; by constructor|].
    destruct (Z.eqb_spec page 1) as [->|]; [injection Hn as <-; injection Hc as <-; by constructor|].
    by injection Hn as <-.
Qed.

Definition kept_up : Pipeline := default pipeline_start (run keeping_up).

Lemma stream_follows_chain_witness :
  (exists n, Forall2 same_block (take n demo_chain) (blocks_of (received kept_up))) /\
  (length (downloaded kept_up) <= 3)%nat.
Proof.
  refine (stream_follows_chain scanner_config net block_net (Ok tt) config demo_chain (fun _ => 3%nat)
    honest_demo _ _ _ increasing_demo kept_up _).
  - vm_compute. reflexivity.
  - apply (bool_decide_unpack _). vm_compute. reflexivity.
  - intros b Hb. unfold demo_chain in Hb. rewrite !elem_of_cons in Hb.
    destruct Hb as [->|[->|[->|Hb]]]; [discriminate..|by apply not_elem_of_nil in Hb].
  - apply (run_schedule_reachable _ _ _ _ _ keeping_up pipeline_start); [constructor|].
    unfold kept_up, run. destruct (run_schedule _ _ _ _ _ _ _) as [p|] eqn:E; [done|].
    exfalso. apply (f_equal (fun o => match o with Some _ => true | None => false end)) in E.
    revert E. vm_compute. discriminate.
Defined.

(** Pages of 50 blocks: the first is the whole chain. *)
Definition large : ScanConfig := with_batch_size 50 (with_start_height 10 ScanConfig_default).

Lemma end_of_stream_overtakes_witness : exists p,
  reachable_pipeline scanner_config net block_net (Ok tt) large p /\
  downloaded p = [demo_chain] /\ raw p = [demo_chain] /\ received p = [Ok []] /\ reading p = false.
Proof.
  refine (end_of_stream_overtakes scanner_config net block_net (Ok tt) large (mkTipInfo 12 "c" "1" 0 902)
    (mkScanner (InProgressScan_new large) 2 [1]) demo_chain (mkScanner InProgressScan_new_empty 4 [1]) _ _ _).
  - vm_compute. reflexivity.
  - vm_compute. discriminate.
  - vm_compute. reflexivity.
Defined.

(** A node that serves the blocks of all heights it is asked for, empty. *)
Definition grpc_node (heights : list Z) : outcome string (BlockStream (Kernel := unit)) :=
  Ok (map (fun h => Ok (Some (Ok (mkBlock h (pretty h) 0 [] [] [])))) heights).

Definition grpc_tip (_ : nat) : outcome string (option MetaData) := Ok (Some (mkMetaData 12 "c" "1" 0 902)).

Definition grpc_scan (end_height : option Z) :=
  grpc_scan_blocks grpc_node grpc_tip id (Ok tt) (fun A (l : list A) => rev l)
    (mkScanConfig 10 end_height None 30 false) (mkGrpcScanner 30 ["km"] InProgressScan_new_empty 8).

Lemma stream_heights_node heights :
  stream_heights (map (fun h => Ok (Some (Ok (mkBlock (Kernel := unit) h (pretty h) 0 [] [] [])))) heights) = heights.
Proof. induction heights as [|h hs IH]; [done|]. apply (f_equal (cons h) IH). Qed.

Lemma grpc_scan_heights_witness :
  received_heights (result_or [] (grpc_scan (Some 11))) `prefix_of` heights_from 10 (Z.min 11 12).
Proof.
  refine (grpc_scan_heights grpc_node grpc_tip id (Ok tt) (fun A (l : list A) => rev l)
    (mkScanConfig 10 (Some 11) None 30 false) (mkGrpcScanner 30 ["km"] InProgressScan_new_empty 8)
    (result_or [] (grpc_scan (Some 11))) (mkTipInfo 12 "c" "1" 0 902) _ _ _).
  - intros hs stream H. injection H as <-. apply (eq_ind_r (fun l => l `prefix_of` hs) (PreOrder_Reflexive hs) (stream_heights_node hs)).
  - reflexivity.
  - apply outcome_ok. reflexivity.
Defined.

Example grpc_heights : received_heights (result_or [] (grpc_scan (Some 11))) = [10; 11].
Proof. reflexivity. Qed.

Definition full_scan := unified_scan_loop ScanExamples.config ReorgExamples.no_node (Ok tt)
  (fun _ _ _ => Ok [Ok []]) (fun _ => false) (fun _ => false) 1 0 Full ScanExamples.loop_start.

Lemma empty_stream_completes_witness : exists m, full_scan =
  (Ok (Some ([], false)),
   set_channel [ScanStatus (ScanCompleted 2 49 0)] (set_state_manager m ScanExamples.loop_start)).
Proof.
  destruct (empty_stream_completes ScanExamples.config ReorgExamples.no_node (fun _ _ _ => Ok [Ok []])
    (fun _ => false) (fun _ => false) 0 0 ScanExamples.loop_start [] eq_refl eq_refl (fun _ _ => eq_refl)) as [m H].
  exists m. exact H.
Defined.

End ScannerExamples.
