(* ===== verification/HttpChain.v ===== *)
(** * From the base node's HTTP answers to the wallet's coins

    The streams that the scan loop reads come from the pipeline of the HTTP scanner.
    Against a base node that serves a chain, every stream that its tasks can produce, in
    any interleaving and whatever requests fail, delivers that chain as the scan loop
    takes it: the two components meet. *)
From S2P Require Import Prelude Models DisplayTypes External Scanning Schema BalanceDb Webhooks ScanEvents Subset.
From S2P Require Import Processor BlockProc Reorg InputSelector FundLocker Monitor Manager HttpScanner ScanPipeline Coordinator.
From S2P Require Import Ledger Wallet ReorgTheory Coins ScanChain ScannerTheory.
#[local] Open Scope Z_scope.

(** What the coordinator receives: errors as texts. *)
Definition messages {X : Ext} (l : list Message) : list (outcome string (list BlockScanResult)) :=
  map (outcome_map_err wallet_error_to_string) l.

Section HttpChain.
Context {X : Ext} {SX : ScanningExt X} {J : ScanJson X SX} {CP : Completion} {CL : CompletionLaws CP}.
Context (self : HttpConfig) (chain : Z -> BlockScanResult) (tip : Z).

Lemma messages_follow l : forall from,
  blocks_of l = segment chain from (length (blocks_of l)) -> from + Z.of_nat (length (blocks_of l)) <= tip ->
  follows chain tip from (messages l).
Proof.
  induction l as [|[blocks|e|m] l IH]; intros from Hl Ht; [done| |done|done]. cbn [messages map outcome_map_err follows].
  change (blocks_of (Ok blocks :: l)) with (blocks ++ blocks_of l) in *. rewrite length_app in *. rewrite segment_app in Hl.
  apply app_inj_1 in Hl as [Hb Hl]; [|by rewrite segment_length]. split; [done|]. split; [lia|]. apply IH; [done|lia].
Qed.

(** [infos] are the blocks that the node has from the height that is asked for on: one
    per height, each of which the scanner turns into the chain's block, with the outputs
    that the keys recover, whenever it turns it into one. *)
Record chain_infos (c : ScanConfig) (block_net : nat -> string -> Net) (infos : list BlockUtxoInfo) : Prop := {
  ci_heights : forall i b, infos !! i = Some b -> bu_height b = start_height c + Z.of_nat i;
  ci_tip : start_height c + Z.of_nat (length infos) <= tip;
  ci_results : forall b r, b ∈ infos -> scanned_as self block_net b r -> r = chain (bu_height b);
  ci_hashes : NoDup (map hash_hex infos);
  ci_texts : forall b, b ∈ infos -> bu_header_hash b <> "";
}.

Lemma infos_increasing infos : forall from,
  (forall i b, infos !! i = Some b -> bu_height b = from + Z.of_nat i) -> increasing infos.
Proof.
  unfold increasing. induction infos as [|b infos IH]; intros from Hh; cbn; [constructor|]. constructor.
  - apply (IH (from + 1)). intros i b' Hi. rewrite (Hh (S i) b' Hi). lia.
  - apply Forall_map, Forall_forall. intros b' [i Hi]%list_elem_of_lookup.
    pose proof (Hh 0%nat b eq_refl) as H0. pose proof (Hh (S i) b' Hi) as H1. lia.
Qed.

Lemma scanned_segment block_net infos rs : forall from,
  (forall i b, infos !! i = Some b -> bu_height b = from + Z.of_nat i) ->
  (forall b r, b ∈ infos -> scanned_as self block_net b r -> r = chain (bu_height b)) ->
  Forall2 (scanned_as self block_net) infos rs -> rs = segment chain from (length rs).
Proof.
  intros from Hh Hr Hf. revert from Hh. induction Hf as [|b r infos rs Hb _ IH]; intros from Hh; [done|]. cbn. f_equal.
  - rewrite (Hr b r ltac:(left) Hb), (Hh 0%nat b eq_refl). f_equal. lia.
  - apply IH; [intros; apply Hr; [by right|done]|]. intros i b' Hi. rewrite (Hh (S i) b' Hi). lia.
Qed.

(** The streams that [scan_blocks] of the scanner can produce against such a node. *)
Definition http_stream (c : ScanConfig) (stream : list (outcome string (list BlockScanResult))) : Prop :=
  exists net block_net pool infos window p,
    HonestNode net c infos window /\ chain_infos c block_net infos /\ 0 < limit_of c
    /\ reachable_pipeline self net block_net pool c p /\ stream = messages (received p).

Lemma http_follows c stream : http_stream c stream -> follows chain tip (start_height c) stream.
Proof.
  intros (net & block_net & pool & infos & window & p & Hn & [Hh Ht Hr Hd Hx] & Hl & Hp & ->).
  pose proof (infos_increasing infos _ Hh) as Hinc.
  destruct (received_chain self net block_net pool c infos window Hn Hl Hd Hx Hinc p Hp) as [n Hf].
  assert (length (blocks_of (received p)) <= length infos)%nat as Hlen
    by (rewrite <- (Forall2_length _ _ _ Hf), length_take; lia).
  apply messages_follow; [|lia]. apply (scanned_segment block_net (take n infos)); [| |exact Hf].
  - intros i b Hi. apply Hh. by apply lookup_take_Some in Hi as [Hi _].
  - intros b r (i & Hi & _)%elem_of_take. apply Hr. by eapply list_elem_of_lookup_2.
Qed.

(** C30: the HTTP scanner feeds the scan loop the chain: in every interleaving of its
    download, its processing and the reader, with pages of any size and whatever requests
    fail, the messages of a scan are batches of the chain's blocks from the asked height
    on, in order and without gap or repetition, up to the first error. *)
Theorem http_streams_follow c stream : http_stream c stream -> follows chain tip (start_height c) stream.
Proof. apply http_follows. Qed.

(** What the scan loop asks of a base node, from the answers of the node over HTTP. *)
Lemma http_serves_chain acc get_header
    (blocks_of : nat -> list Z -> ScanConfig -> outcome string (list (outcome string (list BlockScanResult)))) :
  (forall h, 0 <= h < tip -> blk_height (chain h) = h) -> tip <= two63 ->
  (forall h r, 0 <= h < tip -> get_header h = Ok r -> r = Some (blk_hash (chain h))) ->
  (forall turn c stream, 0 <= start_height c <= tip -> blocks_of turn [acc] c = Ok stream -> http_stream c stream) ->
  serves_chain chain tip get_header blocks_of acc.
Proof. intros H1 H2 H3 H4. constructor; [done..|]. intros turn c stream Hc H. by apply http_follows, (H4 turn). Qed.

End HttpChain.

(** ** Examples *)
Module HttpChainExamples.
Import Demo ScanDemo ScannerExamples.

Definition no_block : BlockScanResult := mkBlockScanResult 0 "" [] [] 0.
Definition result_of (b : BlockUtxoInfo) : BlockScanResult :=
  match HttpScanner.scan_block scanner_config b with
  | Ok ([], Some scanned) => result_or no_block (complete_in_page scanner_config block_net 0 scanned)
  | _ => no_block
  end.
Definition chain (h : Z) : BlockScanResult :=
  if h =? 10 then result_of block_a else if h =? 11 then result_of block_b else result_of block_c.

Lemma demo_result b r :
  b ∈ demo_chain -> scanned_as scanner_config block_net b r -> r = chain (bu_height b).
Proof.
  intros Hb (page & scanned & Hs & Hc). unfold demo_chain in Hb. rewrite !elem_of_cons in Hb.
  assert (complete_in_page scanner_config block_net 0 scanned = Ok r) as Hc' by exact Hc.
  assert (result_of b = r) as <- by (unfold result_of; by rewrite Hs, Hc').
  destruct Hb as [->|[->|[->|Hb]]]; [reflexivity..|by apply elem_of_nil in Hb].
Qed.

Lemma demo_infos : chain_infos scanner_config chain 13 config block_net demo_chain.
Proof.
  constructor.
  - intros [|[|[|i]]] b Hi; cbn in Hi; [injection Hi as <-; reflexivity..|done].
  - vm_compute. discriminate.
  - apply demo_result.
  - apply (bool_decide_unpack _). vm_compute. reflexivity.
  - intros b Hb. unfold demo_chain in Hb. rewrite !elem_of_cons in Hb.
    destruct Hb as [->|[->|[->|Hb]]]; [discriminate..|by apply elem_of_nil in Hb].
Qed.

Lemma kept_up_reachable : reachable_pipeline scanner_config net block_net (Ok tt) config kept_up.
Proof.
  apply (run_schedule_reachable _ _ _ _ _ keeping_up pipeline_start); [constructor|].
  unfold kept_up, run. destruct (run_schedule _ _ _ _ _ _ _) as [p|] eqn:E; [done|].
  exfalso. apply (f_equal (fun o => match o with Some _ => true | None => false end)) in E.
  revert E. vm_compute. discriminate.
Qed.

Lemma http_streams_follow_witness :
  follows chain 13 10 (messages (received kept_up)) /\ length (received kept_up) = 3%nat.
Proof.
  split; [|vm_compute; reflexivity].
  apply (http_streams_follow scanner_config chain 13 config).
  exists net, block_net, (Ok tt), demo_chain, (fun _ => 3%nat), kept_up.
  exact (conj honest_demo (conj demo_infos (conj eq_refl (conj kept_up_reachable eq_refl)))).
Defined.

End HttpChainExamples.
