(* ===== verification/ScannerTrait.v ===== *)
(** * The scanner interface ([minotari-scanning/src/scanning/interface.rs])

    The trait [BlockchainScanner] as a type class, its two implementations, over HTTP and
    over gRPC, as instances, and what a client of either may rely on: a range that ends
    before it starts is refused, and the blocks that are received lie one above the other
    from the start height on. *)
From S2P Require Import Prelude Models DisplayTypes External Scanning GrpcScanner HttpScanner ScanPipeline.
From S2P Require Import Coins ScanChain ScannerTheory HttpChain.
#[local] Open Scope Z_scope.

(** The methods take [&mut self]; a stream is one of those that the tasks of the scanner
    can produce. *)
Class BlockchainScanner {X : Ext} (S Block : Type) := {
  scan_blocks : ScanConfig -> S -> outcome WalletError (list Message) -> Prop;
  get_tip_info : M S WalletError TipInfo;
  get_blocks_by_heights : list Z -> M S WalletError (list Block);
  get_block_by_height : Z -> M S WalletError (option Block);
  get_header_by_height : Z -> M S WalletError (option BlockHeaderInfo);
}.

(** The heights from [from] up, without a gap. *)
Definition upward (from : Z) (l : list Z) : Prop := l = map (fun i => from + Z.of_nat i) (seq 0 (length l)).

Class ScannerLaws {X : Ext} {S Block : Type} (B : BlockchainScanner S Block) := {
  scan_range : forall c s r, scan_blocks c s r -> start_height_after_end c = true ->
    r = Err (OperationNotSupported "start_height cannot be greater than end_height");
  scan_upward : forall c s msgs, 0 < default 1 (sc_batch_size c) ->
    scan_blocks c s (Ok msgs) -> upward (start_height c) (received_heights msgs);
}.

(** ** A client of the interface *)
Section Client.
Context {X : Ext} {S Block : Type} {B : BlockchainScanner S Block} {L : ScannerLaws B}.

Lemma upward_NoDup from l : upward from l -> NoDup l.
Proof.
  unfold upward. intros ->. apply NoDup_fmap_2; [intros x y; lia|]. apply NoDup_seq.
Qed.

(** No block is delivered twice, whichever scanner is behind the interface. *)
Theorem scanned_once c s msgs :
  0 < default 1 (sc_batch_size c) -> scan_blocks c s (Ok msgs) ->
  NoDup (received_heights msgs) /\ start_height_after_end c = false.
Proof.
  intros Hb H. split; [by eapply upward_NoDup, scan_upward|]. apply not_true_is_false. intros Hr.
  by apply (scan_range c s _ H) in Hr.
Qed.
End Client.

(** ** Over HTTP *)
Section Http.
Context {X : Ext} {SX : ScanningExt X} {J : ScanJson X SX} {CP : Completion} {Block : Type}.
Context (self : HttpConfig) (net : Net) (block_net : nat -> string -> Net) (pool : outcome string unit).

Definition http_scanner : BlockchainScanner HttpScanner.Scanner Block := {|
  scan_blocks := fun config _ stream => scan_blocks_streams self net block_net pool config stream;
  get_tip_info := HttpScanner.get_tip_info self net;
  get_blocks_by_heights := fun heights => lift (HttpScanner.get_blocks_by_heights heights);
  get_block_by_height := fun height => lift (HttpScanner.get_block_by_height height);
  get_header_by_height := HttpScanner.get_header_by_height self net;
|}.

Context {CL : CompletionLaws CP}.

(** The node serves a chain to every request: one block per height. *)
Hypothesis node_serves : forall c, exists infos window,
  HonestNode net c infos window /\ NoDup (map hash_hex infos) /\ (forall b, b ∈ infos -> bu_header_hash b <> "")
  /\ (forall i b, infos !! i = Some b -> bu_height b = start_height c + Z.of_nat i).

Lemma heights_upward infos rs : forall from,
  (forall i b, infos !! i = Some b -> bu_height b = from + Z.of_nat i) ->
  Forall2 same_block infos rs -> upward from (map blk_height rs).
Proof.
  unfold upward. intros from Hh Hf. rewrite length_map. revert from Hh. induction Hf as [|b r infos rs Hb _ IH]; intros from Hh; [done|].
  cbn. destruct Hb as [-> _]. f_equal; [rewrite (Hh 0%nat b eq_refl); lia|].
  rewrite (IH (from + 1)) by (intros i b' Hi; rewrite (Hh (S i) b' Hi); lia).
  rewrite <- seq_shift, map_map. apply map_ext. intros i. lia.
Qed.

Lemma http_laws : ScannerLaws http_scanner.
Proof.
  constructor.
  - intros c s r H Hc. cbn in H. unfold scan_blocks_streams in H. by rewrite Hc in H.
  - intros c s msgs Hb H. cbn in H. unfold scan_blocks_streams in H. destruct (start_height_after_end c); [done|].
    destruct H as (p & Hp & [= ->]). destruct (node_serves c) as (infos & window & Hn & Hd & Hx & Hh).
    assert (0 < limit_of c) as Hl by (unfold limit_of, SYNC_UTXOS_BY_BLOCK_PAGE_LIMIT; by destruct (sc_batch_size c)).
    destruct (received_chain self net block_net pool c infos window Hn Hl Hd Hx (infos_increasing infos _ Hh) p Hp) as [n Hf].
    change (received_heights (received p)) with (map blk_height (blocks_of (received p))).
    apply (heights_upward (take n infos)).
    + intros i b Hi. apply Hh. by apply lookup_take_Some in Hi as [Hi _].
    + eapply Forall2_impl; [exact Hf|]. apply scanned_as_same.
Qed.
End Http.

(** ** Over gRPC *)
Section Grpc.
Context {X : Ext} {SX : ScanningExt X} {Kernel : Type}.
Context (get_blocks : list Z -> outcome string (BlockStream (Kernel := Kernel))) (tip_info : nat -> outcome string (option MetaData)).
Context (u512_text : string -> string) (pool : outcome string unit) (completion : forall {A : Type}, list A -> list A).

Definition grpc_scanner : BlockchainScanner GrpcBlockchainScanner (GrpcScanner.Block (Kernel := Kernel)) := {|
  scan_blocks := fun config s stream => grpc_scan_blocks get_blocks tip_info u512_text pool (@completion) config s = stream;
  get_tip_info := lift (grpc_get_tip_info tip_info u512_text 0);
  get_blocks_by_heights := fun heights => lift (GrpcScanner.get_blocks_by_heights get_blocks heights);
  get_block_by_height := fun height => lift (GrpcScanner.get_block_by_height get_blocks height);
  get_header_by_height := fun height => lift (grpc_get_header_by_height get_blocks height);
|}.

(** The node answers with blocks of the heights it was asked for, in order. *)
Hypothesis node_answers : forall hs stream, get_blocks hs = Ok stream -> stream_heights stream `prefix_of` hs.

Lemma prefix_upward from end_ l : l `prefix_of` heights_from from end_ -> upward from l.
Proof.
  unfold upward, heights_from. intros [k H]. apply (f_equal (take (length l))) in H.
  rewrite take_app_length in H. rewrite <- H at 1. rewrite firstn_map, take_seq. do 2 f_equal.
  apply (f_equal length) in H. rewrite length_take, length_map, length_seq in H. lia.
Qed.

Lemma grpc_laws : ScannerLaws grpc_scanner.
Proof.
  constructor.
  - intros c s r H Hc. cbn in H. unfold grpc_scan_blocks in H. by rewrite Hc in H.
  - intros c s msgs _ H. cbn in H.
    destruct (grpc_get_tip_info tip_info u512_text 1) as [tip|e|m] eqn:Et.
    + eapply prefix_upward, (grpc_scan_heights get_blocks tip_info u512_text pool (@completion) c s msgs tip node_answers Et H).
    + exfalso. unfold grpc_scan_blocks in H. destruct (start_height_after_end c); [discriminate H|].
      apply outcome_bind_ok in H as (s1 & _ & H). by rewrite Et in H.
    + exfalso. unfold grpc_scan_blocks in H. destruct (start_height_after_end c); [discriminate H|].
      apply outcome_bind_ok in H as (s1 & _ & H). by rewrite Et in H.
Qed.
End Grpc.

(** ** Examples *)
Module ScannerTraitExamples.
Import Demo ScanDemo ScannerExamples.

Lemma grpc_node_answers hs stream : grpc_node hs = Ok stream -> stream_heights stream `prefix_of` hs.
Proof. intros H. injection H as <-. by rewrite stream_heights_node. Qed.

(** The gRPC scanner of the example, behind the interface. *)
Lemma grpc_scanned_once : NoDup (received_heights (result_or [] (grpc_scan (Some 11)))) /\
  start_height_after_end (mkScanConfig 10 (Some 11) None 30 false) = false.
Proof.
  refine (scanned_once (L := grpc_laws grpc_node grpc_tip id (Ok tt) (fun A (l : list A) => rev l) grpc_node_answers)
    (mkScanConfig 10 (Some 11) None 30 false) (mkGrpcScanner 30 ["km"] InProgressScan_new_empty 8)
    (result_or [] (grpc_scan (Some 11))) eq_refl _).
  apply outcome_ok. reflexivity.
Qed.
End ScannerTraitExamples.
