(* ===== verification/DaemonTheory.v ===== *)
(** * The running daemon

    Whatever the order of its tasks, the daemon keeps the wallet's database within the
    wallet's state machine; it ends only on Ctrl-C or on an error that is not worth a retry;
    and a task that has ended does not come back. *)
From S2P Require Import Prelude Models DisplayTypes External Schema AccountsDb Crypto Webhooks ScanEvents Scanning.
From S2P Require Import BlockProc InputSelector FundLocker Monitor HttpScanner ScanPipeline Burn Api Coordinator ScanSetup Daemon.
From S2P Require Import Ledger Wallet Locks AccountTheory BurnTheory ApiTheory ScanTheory SetupTheory.
From stdpp Require Import relations.
#[local] Open Scope Z_scope.

Section Daemon.
Context {X : Ext} {XL : ExtLaws X} {S0 : StdOrder} {SE : SelectionExt} {SEL : SelectionLaws SE} {C : TxClient}.
Context {CE : CryptoExt} {W : WalletExt} {SX : ScanningExt X} {BX : BurnExt} {AX : ApiExt}.
Context (self : Daemon).

(** ** The database *)
Lemma set_task_db t st s : dn_db (set_task t st s) = dn_db s.
Proof. done. Qed.

Lemma unlocker_tick_db connection s : rtc wallet_step (dn_db s) (dn_db (unlocker_tick connection s)).
Proof.
  unfold unlocker_tick. destruct connection as [u|e|m]; [|apply rtc_refl..].
  pose proof (ws_unlock (dn_db s)) as H. destruct (unlock_expired_transactions _). by apply rtc_once.
Qed.

Lemma burn_proof_tick_db {WX : WorkerExt} dir to_json write torn connection s :
  rtc wallet_step (dn_db s) (dn_db (burn_proof_tick dir to_json write torn connection s)).
Proof.
  unfold burn_proof_tick. destruct connection as [u|e|m]; [|apply rtc_refl..]. unfold bind, lift.
  pose proof (ws_burn_worker dir to_json write torn (dn_files s) (dn_db s)) as H.
  destruct (process_pending_proofs _ _ _ _ _) as [r [files d]]. by apply rtc_once.
Qed.

Lemma webhook_tick_db config sender draw plus connection s :
  rtc wallet_step (dn_db s) (dn_db (webhook_tick config sender draw plus connection s)).
Proof.
  unfold webhook_tick. destruct connection as [u|e|m], (ww_secret config) as [secret|]; try apply rtc_refl.
  pose proof (ws_webhooks sender draw plus secret (dn_db s)) as H. destruct (process_batch _ _ _ _ _). by apply rtc_once.
Qed.

Lemma cycle_db env scanner fuel d r d' sent :
  run_internal env scanner fuel (d, []) = (r, (d', sent)) -> rtc wallet_step d d'.
Proof.
  intros H. pose proof (from_start_internal env d scanner fuel (d, []) (rtc_refl _ _)) as Hs. by rewrite H in Hs.
Qed.

Lemma daemon_step_db s s' : daemon_step self s s' -> rtc wallet_step (dn_db s) (dn_db s').
Proof.
  intros []; try apply rtc_refl.
  - by eapply cycle_db.
  - by eapply cycle_db.
  - apply unlocker_tick_db.
  - apply burn_proof_tick_db.
  - apply webhook_tick_db.
  - apply serve_from_start, rtc_refl.
  - apply rtc_once, ws_time.
Qed.

(** C19: the daemon keeps the wallet sound: in every interleaving of the cycles of its tasks,
    with the scan dropped at any of its waits, a database that was reachable when it started
    is reachable, and so meets the wallet's invariant. *)
Theorem daemon_keeps_wallet files d s :
  reachable d -> daemon_runs self files d s -> reachable (dn_db s) /\ wallet_ok (dn_db s).
Proof.
  intros Hd Hs. assert (H : rtc wallet_step d (dn_db s)).
  { change d with (dn_db (daemon_start self files d)). induction Hs as [|s1 s2 s3 H12 _ IH]; [apply rtc_refl|].
    etrans; [by apply daemon_step_db|exact IH]. }
  assert (Hr : reachable (dn_db s)) by (destruct Hd as (now & accs & Ha & Hd); exists now, accs; split; [done|by etrans]).
  split; [done|by apply reachable_ok].
Qed.

(** ** The end *)

(** The results with which the scan loop gives up. *)
Definition gives_up (r : outcome ScanError unit) : bool :=
  match r with
  | Err (Fatal _) | Err (ScanDbError _) | Panic _ => true
  | _ => false
  end.

(** Without Ctrl-C, there is no signal but the one after a scan loop that gave up. *)
Record ends_well (s : DaemonState) : Prop := {
  ew_signal : dn_signalled s = true -> dn_task s CtrlCTask = Finished \/ exists r, dn_scanner s = Ended r /\ gives_up r = true;
  ew_result : forall r, dn_scanner s = Ended r -> gives_up r = true \/ (r = Ok tt /\ dn_task s CtrlCTask = Finished);
  ew_ctrl_c : dn_task s CtrlCTask = Running \/ dn_task s CtrlCTask = Finished;
  ew_stopped : forall t, dn_task s t = Finished -> dn_signalled s = true \/ t = UnlockerTask \/
    (t = WebhookTask /\ webhook_worker_starts (dm_webhook_config self) = false);
}.

Lemma after_cycle_ended r res : after_cycle r = Some (Ended res) -> gives_up res = true.
Proof. by destruct r as [[]|[]|]; intros [= <-]. Qed.

(** A cycle of a task changes that task and the wallet only. *)
Definition ticked (t : Task) (P : TaskState -> Prop) (s s' : DaemonState) : Prop :=
  exists st files d, s' = set_task t st (set_wallet files d s) /\ P st.

Lemma unlocker_ticked connection s : ticked UnlockerTask (fun _ => True) s (unlocker_tick connection s).
Proof.
  unfold unlocker_tick, ticked. destruct connection; [destruct (unlock_expired_transactions _)|..]; eauto 6;
    eexists _, (dn_files s), (dn_db s); by destruct s.
Qed.

Lemma after_tick_runs {E A} (r : outcome E A) : after_tick r <> Finished.
Proof. by destruct r. Qed.

Lemma burn_proof_ticked {WX : WorkerExt} dir to_json write torn connection s :
  ticked BurnProofTask (fun st => st <> Finished) s (burn_proof_tick dir to_json write torn connection s).
Proof.
  unfold burn_proof_tick, ticked. destruct (bind _ _ _) as [r [files d]].
  eexists _, _, _. split; [done|apply after_tick_runs].
Qed.

Lemma webhook_ticked config sender draw plus connection s : dn_task s WebhookTask = Running ->
  webhook_tick config sender draw plus connection s = s \/
  ticked WebhookTask (fun st => st <> Finished) s (webhook_tick config sender draw plus connection s).
Proof.
  intros Hs. unfold webhook_tick, ticked.
  destruct connection as [u|e|m], (ww_secret config) as [secret|]; try (by left); right;
    [destruct (process_batch _ _ _ _ _) as [r d]; eexists _, _, _; split; [done|apply after_tick_runs]|..];
    eexists _, (dn_files s), (dn_db s); by destruct s.
Qed.

Lemma set_task_same t st s : dn_task (set_task t st s) t = st.
Proof. cbn. by destruct (decide (t = t)). Qed.
Lemma set_task_other t t' st s : t <> t' -> dn_task (set_task t st s) t' = dn_task s t'.
Proof. cbn. by destruct (decide (t = t')). Qed.

Lemma ticked_ends_well t (P : TaskState -> Prop) s s' :
  t <> CtrlCTask -> (P Finished -> dn_signalled s = true \/ t = UnlockerTask) -> ticked t P s s' -> ends_well s -> ends_well s'.
Proof.
  intros Ht Hf (st & files & d & -> & HP) [H1 H2 H3 H4].
  constructor; cbn; destruct (decide (t = CtrlCTask)); try done.
  intros t'. destruct (decide (t = t')) as [<-|]; [|by apply H4]. intros ->. destruct (Hf HP); auto.
Qed.

Lemma start_ends_well files d : ends_well (daemon_start self files d).
Proof.
  constructor; cbn; [done|done|by left|]. intros []; try done. destruct (webhook_worker_starts _) eqn:E; [done|]. auto.
Qed.

Lemma daemon_step_ends_well s s' : daemon_step self s s' -> ends_well s -> ends_well s'.
Proof.
  intros Hstep H. destruct Hstep as [env fuel s r d sent phase Hp _ Hc|s Hp|env fuel s r d sent Hp Hg _ _|s Hp Hg|s r Hr
    |s Hc|connection s Ht|WX dir to_json write torn connection s Ht|sender draw plus connection s Ht|st u0 u1 u2 req s Ht
    |t s Hg Ht Hn|msg s Ht|now s].
  - destruct H as [H1 H2 H3 H4]. constructor; cbn; [|intros r' ->; left; by eapply after_cycle_ended|done..].
    intros Hg. destruct (H1 Hg) as [|(r' & Hr' & _)]; [by left|congruence].
  - destruct H as [H1 H2 H3 H4]. constructor; cbn; [|done..].
    intros Hg. destruct (H1 Hg) as [|(r' & Hr' & _)]; [by left|congruence].
  - destruct H as [H1 H2 H3 H4]. destruct (H1 Hg) as [Hc|(r' & Hr' & _)]; [|congruence].
    constructor; cbn; [auto|intros r' [= <-]; auto|done..].
  - destruct H as [H1 H2 H3 H4]. destruct (H1 Hg) as [Hc|(r' & Hr' & _)]; [|congruence].
    constructor; cbn; [auto|intros r' [= <-]; auto|done..].
  - destruct H as [H1 H2 H3 H4]. constructor; cbn; [|done|done|auto].
    intros _. destruct (H2 r Hr) as [Hg|[_ Hc]]; [right; by exists r|by left].
  - destruct H as [H1 H2 H3 H4]. constructor; cbn; [auto| |auto|auto].
    intros r Hr. destruct (H2 r Hr) as [|[-> _]]; auto.
  - eapply ticked_ends_well; [| |apply unlocker_ticked|done]; auto.
  - eapply ticked_ends_well; [| |apply burn_proof_ticked|done]; done.
  - destruct (webhook_ticked (dm_webhook_config self) sender draw plus connection s Ht) as [->|Hk]; [done|].
    eapply ticked_ends_well; [| |exact Hk|done]; done.
  - destruct H. by constructor.
  - eapply (ticked_ends_well t (fun _ => True)); [done|by intros _; left| |done].
    eexists _, (dn_files s), (dn_db s). by destruct s.
  - eapply (ticked_ends_well ApiTask (fun st => st <> Finished)); [done|done| |done].
    eexists _, (dn_files s), (dn_db s). by destruct s.
  - destruct H. by constructor.
Qed.

Lemma runs_end_well files d s : daemon_runs self files d s -> ends_well s.
Proof.
  unfold daemon_runs. generalize (start_ends_well files d).
  intros H Hs. induction Hs as [|s1 s2 s3 H12 _ IH]; [done|]. by eapply IH, daemon_step_ends_well.
Qed.

Lemma tasks_all t : t ∈ tasks.
Proof. destruct t; unfold tasks; set_solver. Qed.

Lemma join_tasks_spec text s r : join_tasks text s = Some r ->
  (r = Ok tt /\ forall t, dn_task s t = Finished) \/
  exists t msg, dn_task s t = Panicked msg /\ r = Err (Fatal (AnyMsg ("A task panicked during shutdown: " +:+ text msg))).
Proof.
  unfold join_tasks. destruct (omap _ tasks) as [|msg l] eqn:E.
  - destruct (forallb _ _) eqn:Hf; [|done]. intros [= <-]. left. split; [done|]. intros t.
    rewrite forallb_forall in Hf. specialize (Hf t). rewrite <- list_elem_of_In in Hf. specialize (Hf (tasks_all t)).
    by destruct (dn_task s t).
  - intros [= <-]. right. assert (Hm : msg ∈ omap (fun t => panicked (dn_task s t)) tasks) by (rewrite E; left).
    apply list_elem_of_omap in Hm as (t & _ & Ht). exists t, msg. destruct (dn_task s t); simplify_eq/=. done.
Qed.


(** ** A task that has ended *)
Lemma daemon_step_task t s s' : daemon_step self s s' -> dn_task s t <> Running -> dn_task s' t = dn_task s t.
Proof.
  assert (Hset : forall t' st s, dn_task s t' = Running -> dn_task s t <> Running ->
    dn_task (set_task t' st s) t = dn_task s t) by (intros t' st s0 H1 H2; apply set_task_other; congruence).
  intros Hstep Ht. destruct Hstep as [| | | | |s Hc|connection s Hr|WX dir to_json write torn connection s Hr
    |sender draw plus connection s Hr| |t' s Hg Hr Hn|msg s Hr|]; try done; try (by apply Hset).
  - by apply (Hset _ _ (signal_shutdown s)).
  - destruct (unlocker_ticked connection s) as (st & files & d & -> & _). by apply (Hset _ _ (set_wallet files d s)).
  - destruct (burn_proof_ticked dir to_json write torn connection s) as (st & files & d & -> & _).
    by apply (Hset _ _ (set_wallet files d s)).
  - destruct (webhook_ticked (dm_webhook_config self) sender draw plus connection s Hr) as [->|(st & files & d & -> & _)];
      [done|]. by apply (Hset _ _ (set_wallet files d s)).
Qed.

Lemma ended_task_stays t s s' : rtc (daemon_step self) s s' -> dn_task s t <> Running -> dn_task s' t = dn_task s t.
Proof.
  induction 1 as [|s1 s2 s3 H12 _ IH]; [done|]. intros Ht. pose proof (daemon_step_task t s1 s2 H12 Ht) as E.
  rewrite <- E. apply IH. congruence.
Qed.

(** One failed request for a connection takes the unlocker down for good: the
    task returns the error, which the daemon only reads when it joins its tasks, and from then
    on expired locks stay, while a failed request costs the other workers one cycle. *)
Theorem failed_connection_ends_unlocker e s s' :
  rtc (daemon_step self) (unlocker_tick (Err e) s) s' -> dn_task s' UnlockerTask = Finished.
Proof.
  intros H. assert (E : dn_task (unlocker_tick (Err e) s) UnlockerTask = Finished) by apply set_task_same.
  rewrite (ended_task_stays UnlockerTask _ _ H); [done|congruence].
Qed.

End Daemon.

Section Webhooks.
Context {X : Ext} {S0 : StdOrder} {SE : SelectionExt} {C : TxClient}.
Context {CE : CryptoExt} {W : WalletExt} {SX : ScanningExt X} {BX : BurnExt} {AX : ApiExt}.

(** A webhook address without a secret: every scan queues webhooks for the
    address, and no state of the daemon has a worker that would deliver them. *)
Theorem webhooks_need_secret password base file max batch interval port confirmations url events dir files d s :
  let daemon := Daemon_new password base file max batch interval port confirmations (Some url) None events dir in
  daemon_runs daemon files d s ->
  sb_webhook_config (cycle_scanner daemon) = Some (mkWebhookTriggerConfig url events) /\
  dn_task s WebhookTask = Finished.
Proof. intros daemon Hs. split; [done|]. by rewrite (ended_task_stays daemon WebhookTask _ _ Hs). Qed.

End Webhooks.

(** ** A run of the daemon *)
Module DaemonExamples.
Import Demo WalletExamples AccountExamples ScanDemo SetupExamples BurnTheory.BurnExamples ApiExamples.

Definition daemon : Daemon := Daemon_new "secret" "http://node" "wallet.db" u64_max 25 60 9000 3 None None None "proofs".

(** The node cannot be reached; then it can. *)
Definition offline : ScanEnv := {|
  init_db := Ok tt;
  pool := fun _ => Ok tt;
  parse_base_url := Ok tt;
  wallet_client := Ok tt;
  scanner_client := Ok tt;
  reached := fun _ => false;
  num_cpus := 4;
  node_url := "http://node";
  scanning_keys := fun _ => keys;
  BIRTHDAY_GENESIS_FROM_UNIX_EPOCH := 1000;
  get_header_by_height := fun _ => Err "offline";
  get_height_at_time := fun _ => Err "offline";
  scan_blocks := fun _ _ _ => Err "offline";
  token_cancelled := fun _ => false;
  sleep_interrupted := fun _ => false;
|}.

Definition cycle (env : ScanEnv) (fuel : nat) (d : Db) := run_internal env (cycle_scanner daemon) fuel (d, []).
Definition db0 : Db := snd AccountExamples.created.
Definition db1 : Db := fst (snd (cycle offline 1 db0)).
Definition db2 : Db := fst (snd (cycle node 1 db1)).
Definition db3 : Db := fst (snd (cycle node 0 db2)).

(** An intermittent error, a scan, and a scan that Ctrl-C interrupts. *)
Example cycles :
  after_cycle (fst (cycle offline 1 db0)) = Some Sleeping /\ after_cycle (fst (cycle node 1 db1)) = Some Sleeping /\
  dropped (fst (cycle node 0 db2)) = true.
Proof. vm_compute. repeat split; reflexivity. Qed.

Definition s0 : DaemonState := daemon_start daemon ∅ db0.
Definition s1 : DaemonState := set_phase Sleeping (set_wallet ∅ db1 s0).
Definition s2 : DaemonState := set_phase Sleeping (set_wallet ∅ db2 (set_phase ScanningBlocks s1)).
Definition s3 : DaemonState := set_task CtrlCTask Finished (signal_shutdown (set_phase ScanningBlocks s2)).
Definition s4 : DaemonState := set_phase (Ended (Ok tt)) (set_wallet ∅ db3 s3).
Definition stopped : DaemonState :=
  set_task ApiTask Finished (set_task BurnProofTask Finished (set_task UnlockerTask Finished s4)).

Lemma run_eta {A B} (r : A * (B * list ProcessingEvent)) : r = (fst r, (fst (snd r), snd (snd r))).
Proof. by destruct r as [? []]. Qed.

Lemma run_cycle env fuel s phase :
  dn_scanner s = ScanningBlocks -> after_cycle (fst (cycle env fuel (dn_db s))) = Some phase ->
  daemon_step daemon s (set_phase phase (set_wallet (dn_files s) (fst (snd (cycle env fuel (dn_db s)))) s)).
Proof. intros Hs Hp. by eapply ds_cycle; [|apply run_eta|]. Qed.

Lemma run_drop env fuel s :
  dn_scanner s = ScanningBlocks -> dn_signalled s = true -> dropped (fst (cycle env fuel (dn_db s))) = true ->
  daemon_step daemon s (set_phase (Ended (Ok tt)) (set_wallet (dn_files s) (fst (snd (cycle env fuel (dn_db s)))) s)).
Proof. intros Hs Hg Hp. by eapply ds_drop; [| |apply run_eta|]. Qed.

(** An error, a second scan, Ctrl-C during the third, and the end of the tasks. *)
Lemma stopped_run : daemon_runs daemon ∅ db0 stopped.
Proof.
  destruct cycles as (H1 & H2 & H3).
  apply rtc_l with s1; [by apply (run_cycle offline 1 s0)|].
  apply rtc_l with (set_phase ScanningBlocks s1); [by apply ds_wake|].
  apply rtc_l with s2; [by apply (run_cycle node 1 (set_phase ScanningBlocks s1))|].
  apply rtc_l with (set_phase ScanningBlocks s2); [by apply ds_wake|].
  apply rtc_l with s3; [by apply ds_ctrl_c|].
  apply rtc_l with s4; [by apply (run_drop node 0 s3)|].
  apply rtc_l with (set_task UnlockerTask Finished s4); [by apply ds_stop|].
  apply rtc_l with (set_task BurnProofTask Finished (set_task UnlockerTask Finished s4)); [by apply ds_stop|].
  apply rtc_once. by apply ds_stop.
Qed.

Example stopped_result text : daemon_result text stopped = Some (Ok tt).
Proof. reflexivity. Qed.

Lemma db0_reachable : reachable db0.
Proof.
  exists 1000, (mkTable [] 0). split; [repeat split; cbn; by constructor|]. apply rtc_once.
  exact (ws_create_account "salt" nonce24 "carol" view_only "secret" (empty_db 1000)).
Qed.

Lemma daemon_keeps_wallet_witness : reachable (dn_db stopped) /\ wallet_ok (dn_db stopped).
Proof. exact (daemon_keeps_wallet daemon ∅ db0 stopped db0_reachable stopped_run). Defined.


Lemma failed_connection_ends_unlocker_witness :
  dn_task (set_phase Sleeping (set_wallet ∅ db1 (unlocker_tick (Err "pool exhausted") s0))) UnlockerTask = Finished.
Proof.
  apply (failed_connection_ends_unlocker daemon "pool exhausted" s0). apply rtc_once.
  apply (run_cycle offline 1 (unlocker_tick (Err "pool exhausted") s0)); [reflexivity|exact (proj1 cycles)].
Defined.

(** The daemon of an address without a secret, before its first scan. *)
Definition unsigned : Daemon :=
  Daemon_new "secret" "http://node" "wallet.db" u64_max 25 60 9000 3 (Some "http://hook") None None "proofs".

Lemma webhooks_need_secret_witness :
  sb_webhook_config (cycle_scanner unsigned) = Some (mkWebhookTriggerConfig "http://hook" None) /\
  dn_task (set_task CtrlCTask Finished (signal_shutdown (daemon_start unsigned ∅ db0))) WebhookTask = Finished.
Proof.
  apply (webhooks_need_secret "secret" "http://node" "wallet.db" u64_max 25 60 9000 3 "http://hook" None "proofs" ∅ db0).
  apply rtc_once. by apply ds_ctrl_c.
Defined.

End DaemonExamples.
