(* ===== verification/CliTheory.v ===== *)
(** * Commands

    What each command does to the wallet, and that it keeps it within its state machine;
    what locking funds writes and leaves behind; where a re-scan starts; the texts of
    recipients and of the keys of address files. *)
From S2P Require Import Prelude Models DisplayTypes External Schema BalanceDb OutputsDb AccountsDb TipBlocksDb Crypto PendingDb CompletedDb BurnProofsDb.
From S2P Require Import Webhooks ScanEvents Scanning BlockProc Reorg InputSelector FundLocker Monitor Manager HttpScanner.
From S2P Require Import ScanPipeline Burn ValidatorNode Api Coordinator ScanSetup Daemon Config Cli.
From S2P Require Import Ledger ReorgTheory Wallet Locks AccountTheory ValidatorTheory BurnTheory ApiTheory ScanTheory SetupTheory.
From Stdlib Require Import Ascii.
From stdpp Require Import relations gmap strings.
#[local] Open Scope Z_scope.

Section Cli.
Context {X : Ext} {XL : ExtLaws X} {S0 : StdOrder} {SE : SelectionExt} {SEL : SelectionLaws SE} {C : TxClient}.
Context {CR : CryptoExt} {W : WalletExt} {SX : ScanningExt X} {BX : BurnExt} {AX : ApiExt} {V : VnExt} {K : ConfigExt} {CX : CliExt}.

(** ** Steps *)
Section Steps.
Context (env : CliEnv) (d0 : Db).

Definition from_db (s : Files * Db) : Prop := rtc wallet_step d0 (snd s).

Lemma from_db_wallet {A} (m : M Db string A) : preserves (rtc wallet_step d0) m -> preserves from_db (on_wallet m).
Proof. intros Hm [files d] Hd. specialize (Hm d Hd). unfold on_wallet. cbn. by destruct (m d). Qed.

Lemma from_db_db {A} (m : DbM A) : preserves (rtc wallet_step d0) m -> preserves from_db (cli_db m).
Proof. intros Hm. by apply from_db_wallet, preserves_map_err. Qed.

Lemma from_db_step {E A} (m : M Db E A) : (forall d, wallet_step d (snd (m d))) -> preserves (rtc wallet_step d0) m.
Proof. intros Hm d Hd. by eapply rtc_r. Qed.

Lemma from_db_reads {E A} (m : M Db E A) : frames id m -> preserves (rtc wallet_step d0) m.
Proof. intros Hm d Hd. specialize (Hm d). by rewrite (Hm : snd (m d) = d). Qed.

Lemma from_db_write write torn path contents : preserves from_db (fs_write write torn path contents).
Proof. intros s Hs. unfold fs_write. by destruct (write path contents). Qed.

Lemma from_db_output output_file json : preserves from_db (write_output env output_file json).
Proof.
  unfold write_output. apply preserves_bind.
  { destruct (has_parent output_file); [apply preserves_lift|apply preserves_panic]. }
  intros _. apply preserves_bind; [apply preserves_lift|]. intros contents. apply from_db_write.
Qed.

Lemma from_db_open : preserves from_db (open_database env).
Proof. unfold open_database. solve_preserves. Qed.

Lemma from_db_account name not_found : preserves from_db (find_account name not_found).
Proof.
  unfold find_account. apply preserves_bind; [|intros; apply preserves_lift].
  apply from_db_db. unfold get_account_by_name. solve_preserves.
Qed.

Lemma from_db_scanner scanner fuel : preserves from_db (run_scanner env scanner fuel).
Proof.
  intros [files d] Hd. unfold run_scanner. cbn [fst snd].
  pose proof (from_start_internal (cl_scan env) d0 scanner fuel (d, []) Hd) as H.
  destruct (run_internal _ _ _ _) as [r [d' sent]]. exact H.
Qed.

Lemma from_db_lock uuid uk acc amount n fee size key secs window :
  preserves from_db (on_wallet (map_err (fun e => "Failed to lock funds: " +:+ lock_error_to_string e)
    (lock uuid uk acc amount n fee size key secs window))).
Proof. apply from_db_wallet, preserves_map_err, from_db_step. intros d. constructor. Qed.

Lemma from_db_save pool_ok salt nonce wallet password name db :
  preserves (rtc wallet_step d0) (save_wallet_to_db db pool_ok salt nonce wallet password name).
Proof.
  unfold save_wallet_to_db. repeat (apply preserves_bind; [apply preserves_lift|intros ?]).
  apply preserves_map_err, from_db_step. intros d. constructor.
Qed.

Lemma from_db_rescan name h webhooks join_text : preserves from_db (rescan_rollback env name h webhooks join_text).
Proof.
  assert (Hm : preserves from_db (rescan_task env name h webhooks)).
  { unfold rescan_task. repeat (apply preserves_bind; [apply preserves_lift|intros ?]).
    apply preserves_bind; [apply from_db_wallet, preserves_map_err; unfold get_account_by_name; solve_preserves|].
    intros account. apply preserves_bind; [apply preserves_lift|]. intros row.
    apply preserves_bind; [|intros; apply preserves_ret].
    apply from_db_wallet, preserves_map_err, from_db_step. intros d. constructor. }
  intros s Hs. specialize (Hm s Hs). unfold rescan_rollback. by destruct (rescan_task _ _ _ _ s) as [[] ?].
Qed.

(** A sequence of such steps. *)
Create HintDb cli.
#[local] Hint Resolve from_db_open from_db_account from_db_lock from_db_output from_db_scanner from_db_rescan from_db_write : cli.
Ltac cli_step :=
  match goal with
  | |- preserves _ (bind _ _) => apply preserves_bind; [|intros ?]
  | |- preserves _ (lift _) => apply preserves_lift
  | |- preserves _ (ret _) => apply preserves_ret
  | |- preserves _ (throw _) => apply preserves_throw
  | |- preserves _ (panic _) => apply preserves_panic
  | |- preserves _ (fold_m _ _ _) => apply preserves_fold_m; intros
  | |- preserves _ (on_wallet (map_err _ _)) => apply from_db_wallet, preserves_map_err, from_db_step; intros ?; by constructor
  | |- preserves _ (match ?x with _ => _ end) => destruct x
  | |- preserves _ _ => solve [auto with cli nocore]
  end.
Ltac solve_cli := repeat first [cli_step | progress cbn beta zeta].

Lemma from_db_handlers :
  (forall recipient account_name password key seconds window output_file,
    preserves from_db (handle_create_unsigned_transaction env recipient account_name password key seconds window output_file)) /\
  (forall account_name output_file request, preserves from_db (handle_lock_funds env account_name output_file request)) /\
  (forall account_name amount claim fee memo sidechain password key seconds window,
    preserves from_db (handle_burn_funds env account_name amount claim fee memo sidechain password key seconds window)).
Proof.
  split; [|split]; intros **.
  - unfold handle_create_unsigned_transaction. solve_cli.
  - unfold handle_lock_funds, must_be_present. solve_cli.
  - unfold handle_burn_funds, broadcast_burn_command. solve_cli.
    unfold cli_db. solve_cli.
Qed.

Lemma from_db_vn u0 u1 cmd fee memo sidechain c : preserves from_db (on_wallet (run_command u0 u1 cmd fee memo sidechain c)).
Proof. apply from_db_wallet, preserves_command. Qed.
#[local] Hint Resolve from_db_vn : cli.

Lemma from_db_accounts :
  (forall json password output_file, preserves from_db (create_address env json password output_file)) /\
  (forall view spend password birthday, preserves from_db (import_view_key env view spend password birthday)) /\
  (forall password name words, preserves from_db (create_wallet env password name words)) /\
  (forall password name, preserves from_db (show_seed_words env password name)) /\
  (forall password name, preserves from_db (show_keys env password name)) /\
  (forall config, preserves from_db (handle_balance env config)) /\
  (forall name, preserves from_db (delete_account_command env name)).
Proof.
  split; [|split; [|split; [|split; [|split; [|split]]]]]; intros **.
  - unfold create_address. solve_cli.
  - unfold import_view_key, init_with_view_key. apply from_db_wallet. repeat cli_step. apply from_db_save.
  - unfold create_wallet, init_with_seed_words. apply preserves_bind; [apply preserves_lift|]. intros seed.
    apply from_db_wallet. repeat cli_step. apply from_db_save.
  - unfold show_seed_words. solve_cli.
  - unfold show_keys. solve_cli.
  - unfold handle_balance. solve_cli; apply from_db_db.
    + unfold get_accounts. solve_preserves.
    + apply from_db_reads. unfold get_balance, get_balance_aggregates_for_account, get_output_totals_for_account.
      solve_preserves.
  - unfold delete_account_command. solve_cli.
Qed.

End Steps.

Lemma from_db_main d0 envs json join_text config cmd fuel :
  preserves (from_db d0) (main_command envs json join_text config cmd fuel).
Proof.
  assert (Hdone : forall m, preserves (from_db d0) m -> preserves (from_db d0) (done m))
    by (intros m Hm; unfold done; apply preserves_bind; [done|intros; apply preserves_ret]).
  assert (Hprinted : forall m, preserves (from_db d0) m -> preserves (from_db d0) (printed m))
    by (intros m Hm; unfold printed; apply preserves_bind; [done|intros; apply preserves_ret]).
  assert (Hscanned : forall m, preserves (from_db d0) m -> preserves (from_db d0) (scanned m))
    by (intros m Hm; unfold scanned; apply preserves_bind; [done|intros; apply preserves_ret]).
  destruct cmd; cbn [main_command]; unfold command_create, command_show_seed_words, command_show_keys, command_scan,
    command_rescan, command_daemon, command_balance, command_create_unsigned_transaction, command_lock_funds,
    command_burn_funds, command_register_validator_node, command_submit_validator_node_exit,
    command_submit_validator_eviction_proof; cbv zeta;
    first [apply Hdone | apply Hprinted | apply Hscanned | apply preserves_ret];
    try (by apply from_db_accounts); try (by apply from_db_handlers).
  - apply from_db_scanner.
  - unfold rescan. apply preserves_bind; [apply from_db_rescan|]. intros _. apply from_db_scanner.
  - exact (from_db_vn d0 _ _ (Register _ _ _ _ _) _ _ _ _).
  - exact (from_db_vn d0 _ _ (Exit _ _ _ _) _ _ _ _).
  - exact (from_db_vn d0 _ _ (Evict _ _) _ _ _ _).
Qed.

(** Every command of the command line, whatever its arguments, the configuration, the
    answers of the node and the failures of files and connections, takes the database along
    the steps of the wallet's state machine: one that was reachable stays so. *)
Theorem main_command_steps envs json join_text config cmd fuel s :
  rtc wallet_step (snd s) (snd (snd (main_command envs json join_text config cmd fuel s))).
Proof. exact (from_db_main (snd s) envs json join_text config cmd fuel s (rtc_refl _ _)). Qed.

(** ** Locking funds *)
Lemma write_output_db env output_file json s r s' : write_output env output_file json s = (r, s') -> snd s' = snd s.
Proof.
  unfold write_output, bind, lift, panic, fs_write. intros H. repeat case_match; by simplify_eq/=.
Qed.

Lemma write_output_ok env output_file json s s' : write_output env output_file json s = (Ok tt, s') ->
  has_parent output_file = true /\ exists contents, json = Ok contents /\ fst s' = <[output_file := contents]> (fst s).
Proof.
  unfold write_output. destruct (has_parent output_file); [|done]. intros H. split; [done|].
  apply bind_ok_inv in H as (u & s1 & [_ ->]%lift_ok_inv & H). apply bind_ok_inv in H as (c & s1 & [Hj ->]%lift_ok_inv & H).
  exists c. split; [done|]. unfold fs_write in H. destruct (cl_write env output_file c); by simplify_eq/=.
Qed.

Lemma bind_cases {ST E A B} (m : M ST E A) (k : A -> M ST E B) s r s' : bind m k s = (r, s') ->
  (exists a s1, m s = (Ok a, s1) /\ k a s1 = (r, s')) \/ (is_ok (fst (m s)) = false /\ is_ok r = false /\ s' = snd (m s)).
Proof. unfold bind. destruct (m s) as [[a|e|p] s1]; intros H; [left; eauto|right..]; by simplify_eq/=. Qed.

Lemma bind_ret {ST E A B} (a : A) (k : A -> M ST E B) : bind (ret a) k = k a.
Proof. done. Qed.

Lemma open_database_db env s : snd (open_database env s) = s.
Proof. unfold open_database, bind, lift. repeat case_match; by simplify_eq/=. Qed.

Lemma find_account_cases name not_found s :
  (exists account, get_account_by_name name (snd s) = (Ok (Some account), snd s) /\
    find_account name not_found s = (Ok account, s)) \/
  find_account name not_found s = (Err not_found, s).
Proof.
  destruct s as [files d]. unfold find_account, cli_db, on_wallet, map_err, get_account_by_name, gets, bind, lift. cbn.
  destruct (head _) as [account|]; [left; by exists account|by right].
Qed.

Lemma handle_lock_funds_cases env name output_file request n fee seconds window s r s' :
  lr_num_outputs request = Some n -> lr_fee_per_gram request = Some fee ->
  lr_seconds_to_lock_utxos request = Some seconds -> lr_confirmation_window request = Some window ->
  handle_lock_funds env name output_file request s = (r, s') ->
  (snd s' = snd s /\ is_ok r = false) \/
  (exists account res,
    get_account_by_name name (snd s) = (Ok (Some account), snd s) /\
    lock (cl_uuid env) (cl_uuid_key env) (a_id account) (lr_amount request) n fee (lr_estimated_output_size request)
      (lr_idempotency_key request) seconds window (snd s) = (Ok res, snd s') /\
    (is_ok r = true -> has_parent output_file = true /\
      exists contents, locked_funds_to_json res = Ok contents /\ fst s' = <[output_file := contents]> (fst s))).
Proof.
  intros E1 E2 E3 E4 H. unfold handle_lock_funds in H. rewrite E1, E2, E3, E4 in H. clear E1 E2 E3 E4.
  apply bind_cases in H as [(u & s1 & H1 & H)|(_ & Hr & ->)]; [|left; by rewrite open_database_db].
  apply (f_equal snd) in H1. rewrite open_database_db in H1. cbn in H1. subst s1.
  apply bind_cases in H as [(account & s1 & H1 & H)|(_ & Hr & ->)].
  2:{ left. split; [|done]. by destruct (find_account_cases name ("Account not found: " +:+ name) s) as [(a & _ & ->)| ->]. }
  destruct (find_account_cases name ("Account not found: " +:+ name) s) as [(a & Ha & H2)|H2];
    rewrite H2 in H1; [|done]. injection H1 as <- <-.
  cbn [must_be_present] in H. rewrite !bind_ret in H.
  destruct (lock (cl_uuid env) (cl_uuid_key env) (a_id a) (lr_amount request) n fee (lr_estimated_output_size request)
    (lr_idempotency_key request) seconds window (snd s)) as [rl dl] eqn:El.
  apply bind_cases in H as [(res & s1 & H1 & H)|(Hf & Hr & ->)].
  - right. unfold on_wallet, map_err in H1. rewrite El in H1. destruct rl as [res'|e|m]; [|done..].
    injection H1 as -> <-. exists a, res. split; [done|].
    pose proof (write_output_db _ _ _ _ _ _ H) as Hdb. cbn in Hdb. rewrite Hdb. split; [done|].
    intros Hok. destruct r as [[]|e|m]; [|done..]. apply write_output_ok in H. exact H.
  - left. split; [|done]. unfold on_wallet, map_err in Hf |- *. rewrite El in Hf |- *. cbn in Hf |- *.
    apply (lock_atomic _ _ _ _ _ _ _ _ _ _ _ _ _ El). by destruct rl.
Qed.

(** What [lock-funds] leaves behind: either it fails and the database is what it was, or
    the outputs are locked for the account as [lock] does, with the arguments of the command
    and the window of the argument or else of the configuration.  The command succeeds only
    in the second case and with the description of the lock in the output file; when the
    file cannot be written, or its path has no parent, the command fails and the lock stays. *)
Theorem lock_funds_command envs json join_text config db tx name output_file amount n fee size seconds fuel s r s' :
  main_command envs json join_text config
    (Commands.LockFunds db tx name output_file amount n fee size (Some seconds)) fuel s = (r, s') ->
  (snd s' = snd s /\ is_ok r = false) \/
  (exists account res u0 u1,
    get_account_by_name name (snd s) = (Ok (Some account), snd s) /\
    lock u0 u1 (a_id account) amount n fee size (ta_idempotency_key tx) seconds
      (default (wc_confirmation_window config) (ta_confirmation_window tx)) (snd s) = (Ok res, snd s') /\
    (is_ok r = true <-> r = Ok (Done [])) /\
    (is_ok r = true -> has_parent output_file = true /\
      exists contents, locked_funds_to_json res = Ok contents /\ fst s' = <[output_file := contents]> (fst s))).
Proof.
  cbn [main_command]. unfold command_lock_funds. cbv zeta. unfold done.
  set (env := envs _). set (request := mkLockFundsRequest _ _ _ _ _ _ _). intros H.
  assert (Hwin : lr_confirmation_window request
    = Some (default (wc_confirmation_window config) (ta_confirmation_window tx)))
    by (subst request; cbn; by destruct (ta_confirmation_window tx)).
  pose proof (handle_lock_funds_cases env name output_file request n fee seconds _ s _ _ eq_refl eq_refl eq_refl Hwin
    (surjective_pairing _)) as Hcases.
  apply bind_cases in H as [([] & s1 & H1 & [= <- <-])|(Hf & Hr & ->)].
  - rewrite H1 in Hcases. destruct Hcases as [[_ Hc]|(account & res & Ha & Hl & Hw)]; [done|right].
    exists account, res, (cl_uuid env), (cl_uuid_key env). split; [done|]. split; [exact Hl|]. by split.
  - destruct Hcases as [[Hs _]|(account & res & Ha & Hl & _)]; [by left|right].
    exists account, res, (cl_uuid env), (cl_uuid_key env). split; [done|]. split; [exact Hl|].
    destruct r; by split.
Qed.

(** ** The effects of the commands *)

(** The outcome and the database that a command leaves. *)
Definition effect {A} (m : CliM A) (s : Files * Db) (Q : bool -> Db -> Prop) : Prop :=
  Q (is_ok (fst (m s))) (snd (snd (m s))).

(** It ran [m] on the database [d], and succeeded only if that did. *)
Definition ran {E A} (m : M Db E A) (d : Db) (ok : bool) (d' : Db) : Prop :=
  d' = snd (m d) /\ (ok = true -> is_ok (fst (m d)) = true).

(** It failed before it touched the database, or did what [P] says. *)
Definition or_stopped (d : Db) (P : bool -> Db -> Prop) (ok : bool) (d' : Db) : Prop :=
  (ok = false /\ d' = d) \/ P ok d'.

(** It ran the scan of [scanner] on the database [d]. *)
Definition scanned_by (env : CliEnv) (scanner : Scanner) (fuel : nat) (d : Db) (ok : bool) (d' : Db) : Prop :=
  exists sent, snd (run_internal (cl_scan env) scanner fuel (d, [])) = (d', sent) /\
    ok = is_ok (fst (run_internal (cl_scan env) scanner fuel (d, []))).

Definition named (name : string) (d : Db) (account : AccountRow) : Prop :=
  get_account_by_name name d = (Ok (Some account), d).

(** The scanner of the [scan] commands: the defaults of the library, but for these. *)
Definition scanner_for (config : WalletConfig) (password : string) (account_name : option string) (m : ScanMode) : Scanner :=
  mkScanBuilder password account_name (wc_batch_size config) OPTIMAL_SCANNING_THREADS DEFAULT_SCANNING_OFFSET_DAYS 1000 m
    ScanRetryConfig_default (wc_confirmation_window config)
    ((fun url => mkWebhookTriggerConfig url (wh_send_only_event_types (wc_webhook config))) <$> wh_url (wc_webhook config)).

(** The configuration with the arguments of the command. *)
Definition settings (config : WalletConfig) (command : Commands.t) : WalletConfig :=
  match command with
  | Commands.CreateAddress _ _ => config
  | Commands.ImportViewKey _ _ _ db _ | Commands.Delete db _ => apply_database db config
  | Commands.Create _ db account _ | Commands.ShowSeedWords _ db account | Commands.ShowKeys _ db account
  | Commands.Balance db account => apply_account account (apply_database db config)
  | Commands.Scan _ node db account _ => apply_account account (apply_database db (apply_node node config))
  | Commands.ReScan _ node db _ _ => apply_database db (apply_node node config)
  | Commands.RunDaemon _ node db secs port => apply_daemon (mkDaemonArgs secs port) (apply_database db (apply_node node config))
  | Commands.CreateUnsignedTransaction _ db tx _ _ _ _ | Commands.LockFunds db tx _ _ _ _ _ _ _ =>
      apply_transaction tx (apply_database db config)
  | Commands.RegisterValidatorNode _ node db tx _ _ _ _ _ _ _ _ _ _
  | Commands.SubmitValidatorNodeExit _ node db tx _ _ _ _ _ _ _ _ _
  | Commands.SubmitValidatorEvictionProof _ node db tx _ _ _ _ _ _ =>
      apply_transaction tx (apply_database db (apply_node node config))
  | Commands.BurnFunds _ db tx burn node _ _ _ _ _ _ _ =>
      apply_burn burn (apply_node node (apply_transaction tx (apply_database db config)))
  end.

(** What a validator node command is started with. *)
Definition vn_arguments (env : CliEnv) (config : WalletConfig) (name password : string) (tx : TransactionArgs) (secs : Z) :
    VnCommand := {|
  vc_db := outcome_bind (outcome_map_err db_error_to_string (init_db (cl_scan env))) (fun _ => ScanSetup.pool (cl_scan env) 0);
  vc_account_name := name;
  vc_password := password;
  vc_idempotency_key := ta_idempotency_key tx;
  vc_new_key := cl_new_key env;
  vc_seconds_to_lock := secs;
  vc_confirmation_window := wc_confirmation_window config;
  vc_client := cl_client env;
|}.

(** What a command does to the database [d], with its settings [config] and what it meets. *)
Definition command_effect (config : WalletConfig) (env : CliEnv) (command : Commands.t) (fuel : nat) (d : Db)
    (ok : bool) (d' : Db) : Prop :=
  match command with
  | Commands.CreateAddress _ _ | Commands.ShowSeedWords _ _ _ | Commands.ShowKeys _ _ _ | Commands.Balance _ _
  | Commands.RunDaemon _ _ _ _ _ => d' = d
  | Commands.Create password _ _ words => or_stopped d (fun ok d' => exists seed wallet,
      match words with Some words => seed_of_words words = Ok seed | None => seed = cl_random_seed env end /\
      seed_wallet seed = Ok wallet /\
      ran (create_account (cl_salt env) (cl_nonce env) (default "default" (wc_account_name config)) wallet password) d ok d') ok d'
  | Commands.ImportViewKey view spend password _ birthday => or_stopped d (fun ok d' => exists view_key spend_key,
      private_key_from_hex view = Some view_key /\ public_key_from_hex spend = Some spend_key /\
      ran (create_account (cl_salt env) (cl_nonce env) "default" (view_wallet spend_key view_key (Some birthday)) password)
        d ok d') ok d'
  | Commands.Delete _ account =>
      or_stopped d (ran (delete_wallet (default "default" (aa_account_name account))) d) ok d'
  | Commands.LockFunds _ tx name _ amount n fee size secs => or_stopped d (fun ok d' => exists account secs',
      named name d account /\ secs = Some secs' /\
      ran (lock (cl_uuid env) (cl_uuid_key env) (a_id account) amount n fee size (ta_idempotency_key tx) secs'
        (wc_confirmation_window config)) d ok d') ok d'
  | Commands.CreateUnsignedTransaction _ _ tx name texts _ secs => or_stopped d (fun ok d' => exists account recipients amount,
      named name d account /\ Forall2 (fun text r => parse_recipient text = Ok r) texts recipients /\
      sum_amounts recipients = (Ok amount : outcome string Z) /\
      ran (lock (cl_uuid env) (cl_uuid_key env) (a_id account) amount (Z.of_nat (length recipients)) 5 None
        (ta_idempotency_key tx) secs (wc_confirmation_window config)) d ok d') ok d'
  | Commands.Scan password _ _ _ max_blocks =>
      scanned_by env (scanner_for config password (wc_account_name config) (Partial max_blocks)) fuel d ok d'
  | Commands.ReScan password _ _ name height => or_stopped d (fun ok d' => exists account, named name d account /\
      let '(r, d1) := rollback_from_height (a_id account) height (trigger_config config) d in
      if is_ok r then scanned_by env (scanner_for config password (Some name) (Partial u64_max)) fuel d1 ok d'
      else ok = false /\ d' = d1) ok d'
  | Commands.BurnFunds _ _ tx _ _ name amount claim sidechain fee memo secs => or_stopped d (fun ok d' => exists account c sc,
      named name d account /\ parse_argument "claim-public-key" parse_public_key_hex claim = Ok c /\
      parse_argument "sidechain-deployment-key" parse_private_key_hex sidechain = Ok sc /\
      let key := default (cl_new_key env) (ta_idempotency_key tx) in
      ran (burn_funds (cl_uuid env) (cl_uuid_key env) key account (mkBurnTxParams (a_id account) amount c sc fee memo (Some key)
        secs (wc_confirmation_window config)) (cl_client env)) d ok d') ok d'
  | Commands.RegisterValidatorNode password _ _ tx name pk nonce sig claim max_epoch fee memo sidechain secs =>
      ran (run_command (cl_uuid env) (cl_uuid_key env) (Register pk nonce sig claim max_epoch) fee memo sidechain
        (vn_arguments env config name password tx secs)) d ok d'
  | Commands.SubmitValidatorNodeExit password _ _ tx name pk nonce sig max_epoch fee memo sidechain secs =>
      ran (run_command (cl_uuid env) (cl_uuid_key env) (Exit pk nonce sig max_epoch) fee memo sidechain
        (vn_arguments env config name password tx secs)) d ok d'
  | Commands.SubmitValidatorEvictionProof password _ _ tx name path fee memo sidechain secs =>
      ran (run_command (cl_uuid env) (cl_uuid_key env) (Evict path (cl_read env path)) fee memo sidechain
        (vn_arguments env config name password tx secs)) d ok d'
  end.

(** *** Rules *)
Definition keeps_db {A} (m : CliM A) : Prop := forall s, snd (snd (m s)) = snd s.

Lemma effect_lift {A B} (r : outcome string A) (k : A -> CliM B) s P :
  (forall a, r = Ok a -> effect (k a) s (or_stopped (snd s) P)) -> effect (bind (lift r) k) s (or_stopped (snd s) P).
Proof. intros H. unfold effect, bind, lift in *. destruct r as [a|e|m]; [by apply H|left; done..]. Qed.

Lemma effect_present {A B} (o : option A) (k : A -> CliM B) s P :
  (forall a, o = Some a -> effect (k a) s (or_stopped (snd s) P)) -> effect (bind (must_be_present o) k) s (or_stopped (snd s) P).
Proof. intros H. unfold effect, bind, must_be_present in *. destruct o as [a|]; [by apply H|left; done]. Qed.

Lemma effect_open {A} env (k : unit -> CliM A) s P :
  effect (k tt) s (or_stopped (snd s) P) -> effect (bind (open_database env) k) s (or_stopped (snd s) P).
Proof.
  intros H. unfold effect, bind, open_database, lift in *. destruct (outcome_map_err _ _) as [[]|e|m]; [|left; done..].
  destruct (ScanSetup.pool _ _) as [[]|e|m]; [done|left; done..].
Qed.

Lemma effect_account {A} name text (k : AccountRow -> CliM A) s P :
  (forall account, named name (snd s) account -> effect (k account) s (or_stopped (snd s) P)) ->
  effect (bind (find_account name text) k) s (or_stopped (snd s) P).
Proof.
  intros H. unfold effect, bind in *.
  destruct (find_account_cases name text s) as [(account & Ha & E)|E]; rewrite E; [by apply H|left; done].
Qed.

Lemma effect_wallet {E A B} (m : M Db E A) (f : E -> string) (k : A -> CliM B) s :
  (forall a, keeps_db (k a)) -> effect (bind (on_wallet (map_err f m)) k) s (ran m (snd s)).
Proof.
  intros Hk. unfold effect, ran, bind, on_wallet, map_err. destruct (m (snd s)) as [[a|e|t] d]; cbn; [|done..].
  by rewrite Hk.
Qed.

Lemma effect_run {A} (m : M Db string A) s : effect (on_wallet m) s (ran m (snd s)).
Proof. unfold effect, ran, on_wallet. by destruct (m (snd s)) as [r d]. Qed.

Lemma effect_same {A} (m : CliM A) s : preserves (fun s' => snd s' = snd s) m -> effect m s (fun _ d' => d' = snd s).
Proof. intros H. exact (H s eq_refl). Qed.

(** The end of a command. *)
Lemma effect_ret {A B} (m : CliM A) (f : A -> B) s Q : effect m s Q -> effect (bind m (fun a => ret (f a))) s Q.
Proof. unfold effect, bind. by destruct (m s) as [[] ?]. Qed.

Lemma effect_mono {A} (m : CliM A) s (P Q : bool -> Db -> Prop) :
  (forall ok d', P ok d' -> Q ok d') -> effect m s P -> effect m s Q.
Proof. intros H. apply H. Qed.

Lemma keeps_output env output_file json : keeps_db (write_output env output_file json).
Proof. intros s. destruct (write_output env output_file json s) as [r s'] eqn:E. exact (write_output_db _ _ _ _ _ _ E). Qed.

Lemma keeps_after {A B} (r : outcome string A) (k : A -> CliM B) : (forall a, keeps_db (k a)) -> keeps_db (bind (lift r) k).
Proof. intros H s. unfold bind, lift. destruct r; [apply H|done..]. Qed.

Lemma keeps_ret {A} (a : A) : keeps_db (ret a).
Proof. done. Qed.

(** *** The commands *)
Lemma effect_scanner env scanner fuel s : effect (run_scanner env scanner fuel) s (scanned_by env scanner fuel (snd s)).
Proof.
  unfold effect, run_scanner, scanned_by. destruct (run_internal _ _ _ _) as [r [d sent]]. cbn. exists sent.
  split; [done|]. by destruct r.
Qed.

Lemma rescan_rollback_cases env name h webhooks join_text s :
  (exists e, rescan_rollback env name h webhooks join_text s = (Err e, s)) \/
  exists account, named name (snd s) account /\
    let '(r, d1) := rollback_from_height (a_id account) h webhooks (snd s) in
    if is_ok r then rescan_rollback env name h webhooks join_text s = (Ok tt, (fst s, d1))
    else exists e, rescan_rollback env name h webhooks join_text s = (Err e, (fst s, d1)).
Proof.
  destruct s as [files d]. unfold rescan_rollback, rescan_task, bind, lift. cbn [fst snd].
  destruct (outcome_map_err _ _) as [?|e|m]; [|left; by eexists..].
  destruct (outcome_map_err _ _) as [?|e|m]; [|left; by eexists..].
  unfold on_wallet, map_err, named, get_account_by_name, gets. cbn [fst snd outcome_map_err].
  destruct (head _) as [account|] eqn:Ha; cbn [ok_or]; [|left; by eexists].
  right. exists account. split; [done|]. destruct (rollback_from_height _ _ _ d) as [r d1].
  destruct r; cbn; [done|by eexists..].
Qed.

Lemma effect_rescan env password config name h join_text fuel s :
  effect (rescan env password config name h (trigger_config config) join_text fuel) s
    (or_stopped (snd s) (fun ok d' => exists account, named name (snd s) account /\
      let '(r, d1) := rollback_from_height (a_id account) h (trigger_config config) (snd s) in
      if is_ok r then scanned_by env (scanner_for config password (Some name) (Partial u64_max)) fuel d1 ok d'
      else ok = false /\ d' = d1)).
Proof.
  unfold rescan, effect, bind.
  destruct (rescan_rollback_cases env name h (trigger_config config) join_text s) as [[e E]|(account & Ha & E)]; [by rewrite E; left|].
  right. exists account. split; [done|]. destruct (rollback_from_height _ _ _ _) as [r d1]. destruct (is_ok r).
  - rewrite E. cbn [fst snd]. pose proof (effect_scanner env (scanner_for config password (Some name) (Partial u64_max)) fuel (fst s, d1)) as H.
    unfold scanner_for, with_webhooks, trigger_config in *. by destruct (wh_url (wc_webhook config)).
  - destruct E as [e ->]. done.
Qed.

Lemma effect_scan env password config max_blocks name fuel s :
  effect (scan env password config max_blocks name fuel) s
    (scanned_by env (scanner_for config password name (Partial max_blocks)) fuel (snd s)).
Proof.
  pose proof (effect_scanner env (scanner_for config password name (Partial max_blocks)) fuel s) as H.
  unfold scan, scanner_for, with_webhooks, trigger_config in *. by destruct (wh_url (wc_webhook config)), name.
Qed.

Lemma effect_create_wallet env password name words s :
  effect (create_wallet env password name words) s (or_stopped (snd s) (fun ok d' => exists seed wallet,
      match words with Some words => seed_of_words words = Ok seed | None => seed = cl_random_seed env end /\
      seed_wallet seed = Ok wallet /\
      ran (create_account (cl_salt env) (cl_nonce env) (default "default" name) wallet password) (snd s) ok d')).
Proof.
  unfold create_wallet. apply effect_lift. intros seed Hseed. unfold effect, on_wallet, init_with_seed_words, save_wallet_to_db.
  unfold bind, lift. destruct (seed_wallet seed) as [wallet|e|m] eqn:Hw; cbn; [|by left..].
  destruct (outcome_map_err _ (outcome_map_err _ _)) as [?|e|m]; [|by left..].
  destruct (outcome_map_err _ (ScanSetup.pool _ _)) as [?|e|m]; [|by left..].
  right. exists seed, wallet. split; [destruct words; [done|by injection Hseed]|]. split; [done|].
  unfold ran, map_err. destruct (create_account _ _ _ _ _ _) as [r d]. by destruct r.
Qed.

Lemma effect_import env view spend password birthday s :
  effect (import_view_key env view spend password birthday) s (or_stopped (snd s) (fun ok d' => exists view_key spend_key,
      private_key_from_hex view = Some view_key /\ public_key_from_hex spend = Some spend_key /\
      ran (create_account (cl_salt env) (cl_nonce env) "default" (view_wallet spend_key view_key (Some birthday)) password)
        (snd s) ok d')).
Proof.
  unfold import_view_key, effect, on_wallet, init_with_view_key, save_wallet_to_db, bind, lift.
  destruct (private_key_from_hex view) as [view_key|]; cbn; [|by left].
  destruct (public_key_from_hex spend) as [spend_key|]; cbn; [|by left].
  destruct (outcome_map_err _ (outcome_map_err _ _)) as [?|e|m]; [|by left..].
  destruct (outcome_map_err _ (ScanSetup.pool _ _)) as [?|e|m]; [|by left..].
  right. exists view_key, spend_key. split; [done|]. split; [done|].
  unfold ran, map_err. destruct (create_account _ _ _ _ _ _) as [r d]. by destruct r.
Qed.

Lemma effect_delete env name s :
  effect (delete_account_command env name) s (or_stopped (snd s) (ran (delete_wallet (default "default" name)) (snd s))).
Proof.
  unfold delete_account_command. cbv zeta. apply effect_lift. intros ? _. apply effect_lift. intros ? _.
  eapply effect_mono; [|apply effect_wallet; intros; apply keeps_ret]. intros. by right.
Qed.

Lemma effect_lock_funds env name output_file request s :
  effect (handle_lock_funds env name output_file request) s (or_stopped (snd s) (fun ok d' => exists account n fee secs window,
    named name (snd s) account /\ lr_num_outputs request = Some n /\ lr_fee_per_gram request = Some fee /\
    lr_seconds_to_lock_utxos request = Some secs /\ lr_confirmation_window request = Some window /\
    ran (lock (cl_uuid env) (cl_uuid_key env) (a_id account) (lr_amount request) n fee (lr_estimated_output_size request)
      (lr_idempotency_key request) secs window) (snd s) ok d')).
Proof.
  unfold handle_lock_funds. apply effect_open, effect_account. intros account Ha.
  do 4 (apply effect_present; intros ? ?). eapply effect_mono; [|apply effect_wallet; intros; apply keeps_output].
  intros ok d' Hr. right. do 5 eexists. by split_and!.
Qed.

Lemma recipients_parsed texts : forall l l', Forall2 (fun text r => parse_recipient text = Ok r) l' l ->
  forall recipients, outcome_fold (fun l r => outcome_bind (parse_recipient r) (fun r => Ok (l ++ [r]))) l texts = Ok recipients ->
  Forall2 (fun text r => parse_recipient text = Ok r) (l' ++ texts) recipients.
Proof.
  induction texts as [|text texts IH]; intros l l' Hl recipients; cbn; [intros [= <-]; by rewrite app_nil_r|].
  destruct (parse_recipient text) as [r|e|m] eqn:Hr; cbn; [|done..]. intros H.
  apply (IH _ (l' ++ [text])) in H; [by rewrite <- app_assoc in H|]. apply Forall2_app; [done|]. by constructor.
Qed.

Lemma effect_create_unsigned env texts name password key secs window output_file s :
  effect (handle_create_unsigned_transaction env texts name password key secs window output_file) s
    (or_stopped (snd s) (fun ok d' => exists account recipients amount,
      named name (snd s) account /\ Forall2 (fun text r => parse_recipient text = Ok r) texts recipients /\
      sum_amounts recipients = (Ok amount : outcome string Z) /\
      ran (lock (cl_uuid env) (cl_uuid_key env) (a_id account) amount (Z.of_nat (length recipients)) 5 None key secs window)
        (snd s) ok d')).
Proof.
  unfold handle_create_unsigned_transaction. apply effect_lift. intros recipients Hr. apply effect_open, effect_account.
  intros account Ha. apply effect_lift. intros amount Hs. cbv zeta.
  eapply effect_mono; [|apply effect_wallet; intros; apply keeps_after; intros; apply keeps_output].
  intros ok d' Hran. right. exists account, recipients, amount. split_and!; [done| |done|done]. by apply (recipients_parsed texts [] []).
Qed.

Lemma effect_burn env name amount claim fee memo sidechain password key secs window s :
  effect (handle_burn_funds env name amount claim fee memo sidechain password key secs window) s
    (or_stopped (snd s) (fun ok d' => exists account c sc,
      named name (snd s) account /\ parse_argument "claim-public-key" parse_public_key_hex claim = Ok c /\
      parse_argument "sidechain-deployment-key" parse_private_key_hex sidechain = Ok sc /\
      let key := default (cl_new_key env) key in
      ran (burn_funds (cl_uuid env) (cl_uuid_key env) key account (mkBurnTxParams (a_id account) amount c sc fee memo (Some key)
        secs window) (cl_client env)) (snd s) ok d')).
Proof.
  unfold handle_burn_funds. apply effect_lift. intros c Hc. apply effect_lift. intros sc Hsc. cbv zeta.
  apply effect_open, effect_account. intros account Ha. generalize (default (cl_new_key env) key). clear key. intros key.
  apply (effect_mono _ _ (ran (burn_funds (cl_uuid env) (cl_uuid_key env) key account
    (mkBurnTxParams (a_id account) amount c sc fee memo (Some key) secs window) (cl_client env)) (snd s))).
  { intros ok d' Hran. right. by exists account, c, sc. }
  destruct s as [files d]. unfold effect, ran, burn_funds, broadcast_burn_command, broadcast_burn, cli_db, burn_msg, bind, on_wallet, map_err, lift.
  cbn [fst snd]. destruct (create_burn_tx _ _ _ _ d) as [[result|e|m] d1]; cbn; [|done..].
  destruct (persist_burn_records _ _ _ d1) as [[[]|e|m] d2]; cbn; [|done..].
  destruct (cl_client env) as [?|e|m]; cbn; [|done..]. destruct (submit_transaction _) as [response|e|m]; cbn; [|done..].
  by destruct (accepted response).
Qed.

Lemma unchanged_commands env :
  (forall json password output_file s, effect (create_address env json password output_file) s (fun _ d' => d' = snd s)) /\
  (forall password name s, effect (show_seed_words env password name) s (fun _ d' => d' = snd s)) /\
  (forall password name s, effect (show_keys env password name) s (fun _ d' => d' = snd s)) /\
  (forall config s, effect (handle_balance env config) s (fun _ d' => d' = snd s)).
Proof.
  assert (Hopen : forall s : Files * Db, preserves (fun s' : Files * Db => snd s' = snd s) (open_database env)).
  { intros s s' H. by rewrite open_database_db. }
  assert (Haccount : forall (s : Files * Db) name text, preserves (fun s' : Files * Db => snd s' = snd s) (find_account name text)).
  { intros s name text s' H. by destruct (find_account_cases name text s') as [(a & _ & ->)| ->]. }
  assert (Hdb : forall (s : Files * Db) A (m : DbM A), frames id m -> preserves (fun s' : Files * Db => snd s' = snd s) (cli_db m)).
  { intros s A m Hm [files d] H. specialize (Hm d). unfold cli_db, on_wallet, map_err. cbn in *. destruct (m d). cbn in *. congruence. }
  split_and!; intros; apply effect_same.
  - unfold create_address. repeat (apply preserves_bind; [apply preserves_lift|intros ?]).
    intros s' H. by rewrite keeps_output.
  - unfold show_seed_words. apply preserves_bind; [apply Hopen|]. intros _. apply preserves_bind; [apply Haccount|]. intros account.
    apply preserves_bind; [apply preserves_lift|]. intros [words|]; apply preserves_ret.
  - unfold show_keys. apply preserves_bind; [apply Hopen|]. intros _. apply preserves_bind; [apply Haccount|]. intros account.
    apply preserves_bind; [apply preserves_lift|]. intros [v k]. apply preserves_ret.
  - unfold handle_balance. apply preserves_bind; [apply Hopen|]. intros _.
    apply preserves_bind; [apply Hdb; unfold get_accounts; solve_preserves|]. intros l. apply preserves_fold_m. intros b x _.
    apply preserves_bind; [|intros; apply preserves_ret]. apply Hdb.
    unfold get_balance, get_balance_aggregates_for_account, get_output_totals_for_account. solve_preserves.
Qed.

(** C20: what each command of the command line does to the database of the wallet.  Showing
    the seed words, the keys or the balance, creating an address and starting the daemon
    leave it as it is.  Every other command fails and leaves it as it is, or runs one
    operation on the account that it names, with the arguments of the command, and succeeds
    only if that does: it creates an account for the wallet of the seed words or keys;
    deletes the wallet; locks the funds; locks the sum of the amounts of the recipients for a
    payment to be signed; burns; or signs a transaction of a validator node.  A scan is that
    of the named account or of all of them, up to the number of blocks; a re-scan rolls the
    account back to the height, and then scans it, and the rollback stays when the scan
    fails. *)
Theorem command_effects envs json join_text config cmd fuel s r s' :
  main_command envs json join_text config cmd fuel s = (r, s') ->
  command_effect (settings config cmd) (envs (settings config cmd)) cmd fuel (snd s) (is_ok r) (snd s').
Proof.
  intros H. enough (Heff : effect (main_command envs json join_text config cmd fuel) s
    (command_effect (settings config cmd) (envs (settings config cmd)) cmd fuel (snd s))) by (unfold effect in Heff; by rewrite H in Heff).
  clear H. destruct cmd; cbn [main_command settings command_effect];
    try (apply effect_ret; first [apply unchanged_commands|apply effect_create_wallet|apply effect_import|apply effect_delete|
      apply effect_create_unsigned|apply effect_burn|apply effect_scan|apply effect_rescan|apply effect_run]).
  - done.
  - unfold command_lock_funds. cbv zeta. apply effect_ret. eapply effect_mono; [|apply effect_lock_funds].
    intros ok d' [Hs|(account & n & f & secs & window & Ha & [= <-] & [= <-] & Hsecs & Hw & Hr)]; [by left|right].
    exists account, secs. split; [done|]. split; [done|]. cbn in Hw. destruct tx as [key [w|]]; cbn in Hw; by injection Hw as <-.
Qed.

(** ** Scanning again *)
Lemma rescan_rollback_ok env name h webhooks join_text s s' account :
  get_account_by_name name (snd s) = (Ok (Some account), snd s) ->
  rescan_rollback env name h webhooks join_text s = (Ok tt, s') ->
  exists info, rollback_from_height (a_id account) h webhooks (snd s) = (Ok info, snd s').
Proof.
  intros Ha H. unfold rescan_rollback in H.
  destruct (rescan_task env name h webhooks s) as [r s1] eqn:E. destruct r; [|done..]. injection H as <-.
  unfold rescan_task in E. apply bind_ok_inv in E as (u1 & s2 & [_ ->]%lift_ok_inv & E).
  apply bind_ok_inv in E as (u2 & s2 & [_ ->]%lift_ok_inv & E). apply bind_ok_inv in E as (found & s2 & H1 & E).
  unfold on_wallet, map_err in H1. rewrite Ha in H1. injection H1 as <- <-.
  apply bind_ok_inv in E as (row & s2 & [[= <-] ->]%lift_ok_inv & E).
  apply bind_ok_inv in E as (info & s2 & H1 & [= _ <-]).
  unfold on_wallet in H1. cbn in H1. destruct (map_err _ _ (snd s)) as [r d] eqn:E. injection H1 as -> <-.
  apply map_err_ok_inv in E. by exists info.
Qed.

(** Where a re-scan starts: after the rollback of [rescan] to a height, and nothing else,
    no block at or above the height is recorded for the account, and the preparation of its
    scan names a next block that is at or below the height and follows a recorded block of
    the node's chain, or the block of the wallet's birthday. *)
Theorem rescan_resumes env name h webhooks join_text s s' account webhooks' password offset target d :
  is_i64 h -> (forall r, r ∈ rows (scanned_tip_blocks (snd s)) -> t_height r < i64_max) ->
  get_account_by_name name (snd s) = (Ok (Some account), snd s) ->
  rescan_rollback env name h webhooks join_text s = (Ok tt, s') ->
  prepare_target (cl_scan env) webhooks' account password offset (snd s') = (Ok target, d) ->
  (forall r, recorded (a_id account) r (snd s') -> t_height r < h) /\
  ((next_block_to_scan target <= h /\ continues_chain (cl_scan env) (a_id account) (next_block_to_scan target) d) \/
   starts_at_birthday (cl_scan env) account offset (next_block_to_scan target) d).
Proof.
  intros Hh Hmax Ha H Hp. destruct (rescan_rollback_ok _ _ _ _ _ _ _ _ Ha H) as (info & Hroll).
  assert (Htab : scanned_tip_blocks (snd s') = rolled_tips (a_id account) h (scanned_tip_blocks (snd s)))
    by (apply rollback_tips in Hroll; exact Hroll).
  assert (Hin : forall r, r ∈ rows (scanned_tip_blocks (snd s')) ->
    r ∈ rows (scanned_tip_blocks (snd s)) /\ (t_account_id r = a_id account -> t_height r < h)).
  { intros r Hr. rewrite Htab in Hr. cbn in Hr. apply elem_of_filter_bool in Hr as [Hr Ht]. split; [done|].
    rewrite as_i64_id in Ht by done. unfold tip_from_height in Ht. lia. }
  split; [intros r [Hr Hacc]; by apply Hin|].
  apply prepare_target_ok in Hp as (res & pending & Hr & _ & Hnext & _).
  destruct (tips_after_reorgs _ _ _ _ _ _ (fun r Hr => Hmax r (proj1 (Hin r Hr))) Hr) as (Hall & Hnewest & Hsub).
  destruct (Z.eqb_spec (resume_height res) 0) as [E|E].
  - right. split; [|done]. intros r [Hr' Hacc]. specialize (Hall r Hr' Hacc). lia.
  - left. destruct Hnewest as [?|(r & H1 & H2 & H3 & H4)]; [done|]. rewrite Hnext, <- H3. split.
    + apply Hsub in H1. destruct (Hin r H1) as [_ Hlt]. specialize (Hlt H2). lia.
    + by exists r.
Qed.

(** ** Texts *)
Lemma length_append s t : String.length (s +:+ t) = (String.length s + String.length t)%nat.
Proof. induction s as [|c s IH]; [done|]. exact (f_equal S IH). Qed.

Lemma append_assoc a b c : (a +:+ b) +:+ c = a +:+ (b +:+ c).
Proof. induction a as [|x a IH]; [done|]. exact (f_equal (String x) IH). Qed.

Fixpoint no_colon (s : string) : bool :=
  match s with
  | "" => true
  | String c rest => negb (Ascii.eqb c ":"%char) && no_colon rest
  end.

Lemma split_colons_text s : no_colon s = true -> split_colons s = [s].
Proof.
  induction s as [|c s IH]; [done|]. cbn. rewrite andb_true_iff, negb_true_iff. intros [Hc Hs].
  apply Ascii.eqb_neq in Hc. rewrite (IH Hs). destruct c as [[] [] [] [] [] [] [] []]; done.
Qed.

Lemma split_colons_app s rest : no_colon s = true -> split_colons (s +:+ "::" +:+ rest) = s :: split_colons rest.
Proof.
  induction s as [|c s IH]; [done|]. cbn [no_colon]. rewrite andb_true_iff, negb_true_iff. intros [Hc Hs].
  apply Ascii.eqb_neq in Hc. specialize (IH Hs). change ((String c s) +:+ "::" +:+ rest) with (String c (s +:+ "::" +:+ rest)).
  generalize dependent (s +:+ "::" +:+ rest). intros text IH. cbn [split_colons]. rewrite IH.
  destruct c as [[] [] [] [] [] [] [] []]; done.
Qed.

(** A recipient is written as address, amount and, if there is one, payment id, and read
    back as such, for texts without a colon; a payment id with ["::"] in it is refused. *)
Theorem parse_recipient_roundtrip address amount memo to value :
  no_colon address = true -> no_colon amount = true -> (forall text, memo = Some text -> no_colon text = true) ->
  tari_address_of_str address = Ok to -> minotari_of_str amount = Ok value ->
  parse_recipient (address +:+ "::" +:+ amount +:+ match memo with Some text => "::" +:+ text | None => "" end)
    = Ok (mkRecipient to value memo) /\
  forall a b, no_colon a = true -> no_colon b = true ->
    is_ok (parse_recipient (address +:+ "::" +:+ amount +:+ "::" +:+ a +:+ "::" +:+ b)) = false.
Proof.
  intros Ha Hv Hm Hto Hvalue. split.
  - unfold parse_recipient. rewrite split_colons_app by done. destruct memo as [text|].
    + rewrite split_colons_app by done. rewrite split_colons_text by auto. cbn. by rewrite Hto; cbn; rewrite Hvalue.
    + rewrite append_empty, split_colons_text by done. cbn. by rewrite Hto; cbn; rewrite Hvalue.
  - intros a b Hna Hnb. unfold parse_recipient. rewrite !split_colons_app, split_colons_text by done. done.
Qed.

(** *** The key of an address file *)
Fixpoint is_ascii (s : string) : bool :=
  match s with
  | "" => true
  | String c rest => (Ascii.N_of_ascii c <? 128)%N && is_ascii rest
  end.

Lemma char_count_ascii s : is_ascii s = true -> char_count s = String.length s.
Proof.
  induction s as [|c s IH]; [done|]. cbn. rewrite andb_true_iff. intros [Hc Hs]. rewrite IH by done.
  unfold is_continuation. apply N.ltb_lt in Hc. destruct (N.leb_spec 128 (Ascii.N_of_ascii c)); [lia|done].
Qed.

Lemma zeros_length n : String.length (zeros n) = n.
Proof. induction n as [|n IH]; [done|]. cbn. by rewrite IH. Qed.

Lemma is_ascii_app s t : is_ascii (s +:+ t) = is_ascii s && is_ascii t.
Proof.
  induction s as [|c s IH]; [done|]. change (String c s +:+ t) with (String c (s +:+ t)). cbn [is_ascii].
  by rewrite IH, andb_assoc.
Qed.

Lemma address_file_key_short p : is_ascii p = true -> (String.length p <= 32)%nat ->
  address_file_key p = Ok (p +:+ zeros (32 - String.length p)).
Proof.
  intros Ha Hl. unfold address_file_key. destruct (Nat.ltb_spec (String.length p) 32) as [Hlt|Hge].
  - cbn [outcome_bind]. rewrite char_count_ascii by done. rewrite length_append, zeros_length.
    by replace (String.length p + (32 - String.length p))%nat with 32%nat by lia.
  - assert (E : String.length p = 32%nat) by lia. unfold slice_to.
    assert (Hg : String.get 32 p = None).
    { rewrite <- E. clear. induction p as [|c p IH]; [done|exact IH]. }
    rewrite Hg. cbn [outcome_bind]. rewrite E. cbn. by rewrite append_empty.
Qed.

(** C40 (finding): the key of an encrypted address file has 32 bytes, but passwords do not
    have keys of their own: one of fewer than 32 ASCII characters shares its key with every
    one that only adds zeros to it, up to 32 characters. *)
Theorem address_file_keys_collide p n :
  is_ascii p = true -> (String.length p + n <= 32)%nat ->
  address_file_key (p +:+ zeros n) = address_file_key p /\
  exists key, address_file_key p = Ok key /\ String.length key = 32%nat.
Proof.
  intros Ha Hl.
  assert (Hz : is_ascii (zeros n) = true) by (clear; induction n; done).
  rewrite !address_file_key_short; rewrite ?is_ascii_app, ?length_append, ?zeros_length, ?Ha; try done; try lia.
  assert (Hadd : forall a b, zeros a +:+ zeros b = zeros (a + b)).
  { intros a b. induction a as [|a IH]; [done|]. exact (f_equal (String "0"%char) IH). }
  split.
  - rewrite append_assoc, Hadd. do 3 f_equal. lia.
  - eexists. split; [done|]. rewrite length_append, zeros_length. lia.
Qed.

End Cli.

(** ** Examples *)
Module CliExamples.
Import Demo Ledger.Examples WalletExamples LockExamples AccountExamples ScanDemo SetupExamples BurnTheory.BurnExamples ApiExamples.
Import ValidatorExamples.

#[export] Instance demo_config : ConfigExt := {
  Network := string;
  MainNet := "mainnet";
  default_network := "mainnet";
  network_to_string := id;
  as_key_str := id;
  network_from_str := Ok;
  data_dir := None;
  path_join := fun a b => a +:+ "/" +:+ b;
  Config := gmap string string;
  build_config := fun source => Ok (<["file" := default "" source]> ∅);
  get_string := fun c k => Ok (c !! k);
  set_override := fun c k v => Ok (<[k := v]> c);
  get_default_config := "[wallet]";
}.

#[export] Instance demo_cli : CliExt := {
  tari_address_of_str := Ok;
  minotari_of_str := fun s => if String.eqb s "70" then Ok 70 else Err "not an amount";
  minotari_to_string := pretty;
  max_date_text := pretty;
  seed_of_words := fun _ => Ok tt;
  seed_birthday := fun _ => 49;
  get_spend_key := fun w => snd (fst w);
  public_key_of_secret := id;
  main_net_address := fun view spend => Ok (view +:+ spend);
  key_of_bytes := id;
  locked_funds_to_json := fun r => Ok (pretty (lf_total_value r));
}.

Definition cli_env : CliEnv :=
  mkCliEnv node (Ok tt) (fun _ => Ok tt) (fun _ _ => Ok tt) (fun _ _ => None) (fun _ => Err "no file") "r1" "k" "fresh"
    "salt" nonce24 "nonce" tt.

Definition wallet_config : WalletConfig := WalletConfig_default.
Definition lock_command (output_file : string) : Commands.t :=
  Commands.LockFunds (mkDatabaseArgs None) (mkTransactionArgs (Some "key") (Some 0)) "alice" output_file 60 1 5 None
    (Some 3600).
#[local] Instance vn_accepting : VnExt := demo_vn (C := demo_client) tt.
Definition run_main (cmd : Commands.t) (s : Files * Db) :=
  main_command (fun _ => cli_env) (fun _ => Ok "{}") id wallet_config cmd 1 s.
Definition before_lock : Files * Db := (∅, funded).
Definition locked_run := run_main (lock_command "data/locked_funds.json") before_lock.

Example lock_writes : fst locked_run = Ok (Done []) /\ fst (snd locked_run) !! "data/locked_funds.json" = Some "70".
Proof. vm_compute. split; reflexivity. Qed.
Lemma lock_run_ok : is_ok (fst locked_run) = true.
Proof. vm_compute. reflexivity. Qed.

Lemma lock_funds_command_witness :
  exists account res u0 u1,
    get_account_by_name "alice" (snd before_lock) = (Ok (Some account), snd before_lock) /\
    lock u0 u1 (a_id account) 60 1 5 None (Some "key") 3600 0 (snd before_lock) = (Ok res, snd (snd locked_run)).
Proof.
  destruct (lock_funds_command (fun _ => cli_env) (fun _ => Ok "{}") id wallet_config (mkDatabaseArgs None)
    (mkTransactionArgs (Some "key") (Some 0)) "alice" "data/locked_funds.json" 60 1 5 None 3600 1 before_lock
    (fst locked_run) (snd locked_run) (surjective_pairing _)) as [[_ H]|(account & res & u0 & u1 & Ha & Hl & _)].
  - rewrite lock_run_ok in H. discriminate H.
  - exists account, res, u0, u1. split; [exact Ha|exact Hl].
Defined.

Lemma locked_run_eq : main_command (fun _ => cli_env) (fun _ => Ok "{}") id wallet_config
  (lock_command "data/locked_funds.json") 1 before_lock = (fst locked_run, snd locked_run).
Proof. unfold locked_run, run_main. apply surjective_pairing. Qed.

Lemma locked_effect {A} (r : outcome string A) d d' P : is_ok r = true -> or_stopped d P (is_ok r) d' -> P true d'.
Proof. intros -> [[H _]|H]; [discriminate H|exact H]. Qed.

(** The command locks 60 for Alice, for an hour. *)
Lemma command_effects_witness :
  exists account, get_account_by_name "alice" (snd before_lock) = (Ok (Some account), snd before_lock) /\
    snd (snd locked_run) = snd (lock "r1" "k" (a_id account) 60 1 5 None (Some "key") 3600 0 (snd before_lock)).
Proof.
  destruct (locked_effect (fst locked_run) _ _ _ lock_run_ok (command_effects (fun _ => cli_env) (fun _ => Ok "{}") id
    wallet_config (lock_command "data/locked_funds.json") 1 before_lock (fst locked_run) (snd locked_run) locked_run_eq))
    as (account & secs & Ha & Hsecs & Hd & _).
  injection Hsecs as <-. exists account. split; [exact Ha|exact Hd].
Defined.

(** The wallet is locked before the path turns out to have no directory. *)
Example lock_without_file :
  let r := run_main (lock_command "") (∅, funded) in
  fst r = Panic "called `Option::unwrap()` on a `None` value" /\
  map o_status (rows (outputs (snd (snd r)))) = [LOCKED; UNSPENT; UNSPENT].
Proof. vm_compute. split; reflexivity. Qed.

(** Carol scans again from block 10. *)
Definition before_rescan : Files * Db := (∅, away).
Definition rescanned := rescan_rollback cli_env "carol" 10 None id before_rescan.
Definition prepare_again := prepare_target (cl_scan cli_env) None carol "secret" 2 (snd (snd rescanned)).
Definition target_again : AccountSyncTarget := result_or no_target (fst prepare_again).

Lemma carol_found :
  get_account_by_name "carol" (snd before_rescan) = (Ok (Some carol), snd before_rescan).
Proof. unfold get_account_by_name, gets. do 2 f_equal. Qed.
Lemma before_heights r : r ∈ rows (scanned_tip_blocks (snd before_rescan)) -> t_height r < i64_max.
Proof. exact (away_heights r). Qed.
Lemma rescanned_ok : rescan_rollback cli_env "carol" 10 None id before_rescan = (Ok tt, snd rescanned).
Proof. unfold rescanned. apply run_done. vm_compute. reflexivity. Qed.
Lemma prepare_again_ok :
  prepare_target (cl_scan cli_env) None carol "secret" 2 (snd (snd rescanned)) = (Ok target_again, snd prepare_again).
Proof. unfold target_again, prepare_again. apply run_ok. vm_compute. reflexivity. Qed.

Example target_again_next : next_block_to_scan target_again = 10.
Proof. vm_compute. reflexivity. Qed.

Lemma rescan_resumes_witness :
  next_block_to_scan target_again = 10
  /\ (forall r, SetupTheory.recorded (a_id carol) r (snd (snd rescanned)) -> t_height r < 10).
Proof.
  split; [exact target_again_next|].
  exact (proj1 (rescan_resumes cli_env "carol" 10 None id before_rescan (snd rescanned) carol None "secret" 2 target_again
    (snd prepare_again) ltac:(unfold is_i64, two63; lia) before_heights carol_found rescanned_ok prepare_again_ok)).
Defined.

Lemma parse_recipient_roundtrip_witness :
  parse_recipient ("bob" +:+ "::" +:+ "70" +:+ "::" +:+ "rent") = Ok (mkRecipient "bob" 70 (Some "rent")).
Proof.
  apply (parse_recipient_roundtrip "bob" "70" (Some "rent") "bob" 70); [reflexivity|reflexivity| |reflexivity|reflexivity].
  intros text H. injection H as <-. reflexivity.
Defined.

Lemma address_file_keys_collide_witness :
  address_file_key ("secret" +:+ zeros 3) = address_file_key "secret".
Proof. exact (proj1 (address_file_keys_collide "secret" 3 eq_refl ltac:(cbn; lia))). Defined.

(** A short password with a character of two bytes is padded to 33 bytes and refused. *)
Definition e_acute : string := String (ascii_of_nat 195) (String (ascii_of_nat 169) "").
Example accent_refused : address_file_key ("caf" +:+ e_acute) = Err "Password must be 32 bytes".
Proof. vm_compute. reflexivity. Qed.

(** A first run writes the configuration and takes the network of the command line. *)
Example first_run :
  let '(r, files) := load_configuration (fun _ => Ok tt) (fun _ _ => Ok tt) (fun _ _ => None) "config.toml" (Some "esmeralda") ∅ in
  files !! "config.toml" = Some ("[wallet]" +:+ newline) /\
  match r with Ok c => (c : gmap string string) !! "wallet.network" | _ => None end = Some "esmeralda".
Proof. vm_compute. split; reflexivity. Qed.

End CliExamples.
